(** * ChatMetric parser: a shallow embedding of [services/parser.ts]

    The development follows the last revision of the parser: the sender-name
    validator, the tokenizer, the three extraction strategies, the single
    analysis pass over the chronologically sorted messages, the whole-sequence
    computations on the day keys and the assembly of the result.

    Modelling conventions.
    - A JavaScript string is a [string]: a sequence of code units below 256
      (Latin-1); [length] is the number of code units.
    - A [Date] is its time value, a [Z] of milliseconds since the epoch; an
      invalid date ([NaN]) is [None].
    - Counters are [nat].  The other numbers are rationals: the minutes
      between two messages, the reply statistics and the share of active days
      are rounded to double precision at every operation ([Js.double]), as
      the code computes them; the average message length, the gaps between
      day keys and the averages and durations of the dashboards are kept
      exact.
    - A JavaScript object used as a record of counters is an insertion-ordered
      association list of its own keys, together with their enumeration order
      (array-index keys first, ascending, then the others as inserted).  The
      members that an object literal inherits from [Object.prototype] are
      modelled where a key can be one of their names: the names of senders
      and the counted words ([Js.inheritedNames]).  Hours, day and month keys
      and emojis are never such names.
    - [Object.prototype] is as the language defines it when a parse begins.
      What one parse writes on an inherited member is [NaN] or [0], which no
      later read of that parse tells from [undefined]; what earlier parses of
      the same page have left there is not modelled.
    - The exceptions of the analysis loop are modelled: a [TypeError] ends
      the loop and rejects the promise.
    - What the browser provides (the DOM, the parser of date strings in other
      than the ISO date form, the local time zone, the Unicode emoji property)
      is the interface [Host]. *)

From Stdlib Require Import List Arith ZArith QArith Qround Qcanon Qpower Lia Bool.
From Stdlib Require Import Ascii String Permutation Sorted.
Import ListNotations.

Local Open Scope string_scope.
Local Open Scope Z_scope.

Set Implicit Arguments.

(** ** Code units and strings *)

Module Js.

Definition code (c : ascii) : N := N_of_ascii c.

Definition inRange (lo hi : N) (c : ascii) : bool :=
  ((lo <=? code c) && (code c <=? hi))%N.

Definition isDigit : ascii -> bool := inRange 48 57.
Definition isUpper : ascii -> bool := inRange 65 90.
Definition isLower : ascii -> bool := inRange 97 122.

(** [\w] is [[A-Za-z0-9_]]. *)
Definition isWord (c : ascii) : bool :=
  isUpper c || isLower c || isDigit c || (code c =? 95)%N.

(** White space and line terminators among the code units below 256: TAB,
    LF, VT, FF, CR, SPACE and NBSP.  This is both what [trim] strips and what
    [\s] matches. *)
Definition isSpace (c : ascii) : bool :=
  inRange 9 13 c || (code c =? 32)%N || (code c =? 160)%N.

(** [toLowerCase] on one code unit: the ASCII capitals and the Latin-1
    capitals U+00C0..U+00DE except the multiplication sign U+00D7. *)
Definition lowerChar (c : ascii) : ascii :=
  if isUpper c || (inRange 192 222 c && negb (code c =? 215)%N)
  then ascii_of_N (code c + 32) else c.

Fixpoint toLowerCase (s : string) : string :=
  match s with
  | EmptyString => EmptyString
  | String c r => String (lowerChar c) (toLowerCase r)
  end.

Fixpoint trimStart (s : string) : string :=
  match s with
  | String c r => if isSpace c then trimStart r else s
  | EmptyString => EmptyString
  end.

(** [trimEnd] keeps a character when it is not a space or something that is
    kept follows it. *)
Fixpoint trimEnd (s : string) : string :=
  match s with
  | EmptyString => EmptyString
  | String c r =>
      match trimEnd r with
      | EmptyString => if isSpace c then EmptyString else String c EmptyString
      | r' => String c r'
      end
  end.

Definition trim (s : string) : string := trimEnd (trimStart s).

(** [s.includes(sub)] *)
Fixpoint includes (sub s : string) : bool :=
  prefix sub s ||
  match s with
  | EmptyString => false
  | String _ r => includes sub r
  end.

(** Decimal rendering of a number, as [String(n)] and template literals do. *)
Fixpoint digitsOfPos (fuel : nat) (n : N) (acc : string) : string :=
  match fuel with
  | O => acc
  | S f =>
      let acc' := String (ascii_of_N (48 + n mod 10)) acc in
      if (n / 10 =? 0)%N then acc' else digitsOfPos f (n / 10)%N acc'
  end.

Definition ofN (n : N) : string := digitsOfPos (S (N.to_nat (N.log2 n))) n "".

Definition ofZ (z : Z) : string :=
  if z <? 0 then String "-" (ofN (Z.to_N (- z))) else ofN (Z.to_N z).

Fixpoint repeatChar (c : ascii) (n : nat) : string :=
  match n with O => EmptyString | S k => String c (repeatChar c k) end.

(** [s.padStart(n, c)] for a one-character filler. *)
Definition padStart (n : nat) (c : ascii) (s : string) : string :=
  repeatChar c (n - String.length s) ++ s.

(** Reading a run of decimal digits back. *)
Fixpoint readDigits (s : string) (acc : N) : option N :=
  match s with
  | EmptyString => Some acc
  | String c r =>
      if isDigit c then readDigits r (10 * acc + (code c - 48))%N else None
  end.

(** [Math.round]: to the nearest integer, halves upwards. *)
Definition round (q : Q) : Z := Qfloor (q + (1 # 2)).

(** *** Double-precision numbers

    The result of an arithmetic operation is the double nearest to the exact
    result, a tie going to the even significand.  A double is kept as the
    rational that it is.  The exponent is not bounded: the numbers of the
    parser, quotients and products of time values and of counts, are far from
    the largest and from the smallest double.  [exponent q] is the [e] with
    [2^e <= q < 2^(e+1)] of a positive [q]. *)
Definition exponent (q : Q) : Z :=
  let s := Z.log2 (Zpos (Qden q)) + 1 in
  Z.log2 (Qfloor (q * inject_Z (2 ^ s))) - s.

(** To the nearest integer, a half to the even one. *)
Definition nearestEven (x : Q) : Z :=
  let f := Qfloor x in
  match (x - inject_Z f ?= 1 # 2)%Q with
  | Lt => f
  | Gt => f + 1
  | Eq => if Z.even f then f else f + 1
  end.

(** A significand of 53 bits. *)
Definition roundPositive (q : Q) : Q :=
  let ulp := (2 ^ (exponent q - 52))%Q in
  Qred (inject_Z (nearestEven (q / ulp)) * ulp).

Definition double (q : Q) : Q :=
  match (q ?= 0)%Q with
  | Gt => roundPositive q
  | Lt => Qred (- roundPositive (- q))
  | Eq => 0%Q
  end.

(** *** What a record of counters holds

    A counter is a number until a text is added to it: [+] concatenates as
    soon as one side is not a number. *)
Inductive value : Type :=
| Num (n : nat)
| Str (s : string).

Definition truthy (v : value) : bool :=
  match v with
  | Num n => negb (n =? 0)%nat
  | Str s => negb (String.eqb s "")
  end.

(** [String(v)] *)
Definition toText (v : value) : string :=
  match v with
  | Num n => ofN (N.of_nat n)
  | Str s => s
  end.

(** [a + b] *)
Definition plus (a b : value) : value :=
  match a, b with
  | Num x, Num y => Num (x + y)
  | _, _ => Str (toText a ++ toText b)
  end.

(** [Number(v)], [None] being [NaN].  The only texts that the counters come
    to hold contain the text of a function, which is not a numeral. *)
Definition toNumber (v : value) : option nat :=
  match v with
  | Num n => Some n
  | Str _ => None
  end.

(** *** Members that every object inherits

    An object literal has [Object.prototype] as its prototype, so [o[k]] is
    defined for these names even when [o] has no key [k] of its own.  Each
    of them is a function, except [__proto__], which is an accessor: reading
    it gives [Object.prototype] itself, and assigning a number or a text to
    it does nothing.  All of them are truthy. *)
Definition inheritedNames : list string :=
  [ "constructor"; "__defineGetter__"; "__defineSetter__"; "hasOwnProperty";
    "__lookupGetter__"; "__lookupSetter__"; "isPrototypeOf";
    "propertyIsEnumerable"; "toString"; "valueOf"; "__proto__";
    "toLocaleString" ].

Definition isInherited (k : string) : bool :=
  existsb (String.eqb k) inheritedNames.

End Js.


(** ** JavaScript objects used as records of counters *)

Module Obj.

Section Objects.
Variable V : Type.

Definition t := list (string * V).

Definition empty : t := [].

(** [o[k]] for a key [k] of [o]'s own.  It is [None] when [o] has no such key:
    [o[k]] is then [undefined], or, on an object literal, the member that [o]
    inherits when [k] is an inherited name ([inherits]). *)
Fixpoint get (k : string) (o : t) : option V :=
  match o with
  | [] => None
  | (k', v) :: r => if String.eqb k k' then Some v else get k r
  end.

(** [o[k] = v]: an own key keeps its place, a new one goes last. *)
Fixpoint set (k : string) (v : V) (o : t) : t :=
  match o with
  | [] => [(k, v)]
  | (k', v') :: r =>
      if String.eqb k k' then (k', v) :: r else (k', v') :: set k v r
  end.

(** An in-place change of the object stored under [k]. *)
Definition modify (k : string) (f : V -> V) (o : t) : t :=
  match get k o with
  | Some v => set k (f v) o
  | None => o
  end.

(** An array index is the canonical decimal form of an integer up to
    [2^32 - 2]. *)
Definition arrayIndex (k : string) : option N :=
  match k with
  | EmptyString => None
  | String c r =>
      if (Js.code c =? 48)%N && negb (String.eqb r "") then None
      else if (10 <? String.length k)%nat then None
      else match Js.readDigits k 0 with
           | Some n => if (n <=? 4294967294)%N then Some n else None
           | None => None
           end
  end.

Definition isIndexKey (e : string * V) : bool :=
  match arrayIndex (fst e) with Some _ => true | None => false end.

Definition indexOf (e : string * V) : N :=
  match arrayIndex (fst e) with Some n => n | None => 0%N end.

Fixpoint insertByIndex (e : string * V) (l : t) : t :=
  match l with
  | [] => [e]
  | e' :: r =>
      if (indexOf e <=? indexOf e')%N then e :: l else e' :: insertByIndex e r
  end.

Definition sortByIndex (l : t) : t := fold_right insertByIndex [] l.

(** [Object.entries(o)]: the array-index keys in ascending order, then the
    other keys in insertion order. *)
Definition entries (o : t) : t :=
  (sortByIndex (filter isIndexKey o)
   ++ filter (fun e => negb (isIndexKey e)) o)%list.

Definition keys (o : t) : list string := map fst (entries o).
Definition values (o : t) : list V := map snd (entries o).

(** [o[k]] is a member that the object literal [o] inherits: [k] is an
    inherited name and no key of [o]. *)
Definition inherits (k : string) (o : t) : bool :=
  match get k o with
  | Some _ => false
  | None => Js.isInherited k
  end.

End Objects.

(** [o[k] = (o[k] || 0) + 1] for a key that is no inherited name: an hour, a
    day or month key, an emoji. *)
Definition incr (k : string) (o : t nat) : t nat :=
  set k (S (match get k o with Some n => n | None => O end)) o.

Definition total (o : t nat) : nat := list_sum (map snd o).

End Obj.

(** ** Arrays *)

Section Arrays.
Variable A : Type.
Variable before : A -> A -> bool.

(** [Array.prototype.sort] is stable.  [before a b] says that the comparator
    does not put [b] strictly before [a]: an element goes in front of the
    first element of the sorted rest that it may precede. *)
Fixpoint sortedInsert (x : A) (l : list A) : list A :=
  match l with
  | [] => [x]
  | y :: r => if before x y then x :: l else y :: sortedInsert x r
  end.

Definition stableSort (l : list A) : list A := fold_right sortedInsert [] l.

(** [array.map((x, idx) => f(x, idx))] *)
Fixpoint mapi_from (B : Type) (f : A -> nat -> B) (i : nat) (l : list A) : list B :=
  match l with
  | [] => []
  | x :: r => f x i :: mapi_from f (S i) r
  end.

Definition mapi (B : Type) (f : A -> nat -> B) (l : list A) : list B :=
  mapi_from f 0 l.

End Arrays.

(** ** Loops that can throw

    [l.forEach(body)] from the state [st]: [thrown st x] is the exception that
    the body throws on [x], [step st x] the state that it leaves when it runs
    to its end.  The first exception ends the loop. *)

Section ForEach.
Variables S A : Type.
Variable thrown : S -> A -> option string.
Variable step : S -> A -> S.

Fixpoint firstThrown (st : S) (l : list A) : option string :=
  match l with
  | [] => None
  | x :: rest =>
      match thrown st x with
      | Some message => Some message
      | None => firstThrown (step st x) rest
      end
  end.

End ForEach.

(** ** Regular expressions

    The patterns of the parser use character classes, sequencing, choice and
    bounded or unbounded repetition only, so [test] is membership in a regular
    language, decided here with derivatives. *)

Module Re.

Inductive re : Type :=
| Void : re
| Eps : re
| Chr : (ascii -> bool) -> re
| Seq : re -> re -> re
| Alt : re -> re -> re
| Star : re -> re.

Fixpoint lit (s : string) : re :=
  match s with
  | EmptyString => Eps
  | String c r => Seq (Chr (Ascii.eqb c)) (lit r)
  end.

(** A literal under the [i] flag. *)
Fixpoint litI (s : string) : re :=
  match s with
  | EmptyString => Eps
  | String c r =>
      Seq (Chr (fun x => Ascii.eqb (Js.lowerChar x) (Js.lowerChar c))) (litI r)
  end.

Definition opt (r : re) : re := Alt Eps r.

Fixpoint times (n : nat) (r : re) : re :=
  match n with O => Eps | S k => Seq r (times k r) end.

(** [r{n, n + extra}] *)
Fixpoint upTo (extra : nat) (r : re) : re :=
  match extra with O => Eps | S k => opt (Seq r (upTo k r)) end.

Definition between (n m : nat) (r : re) : re := Seq (times n r) (upTo (m - n) r).

Fixpoint alts (l : list re) : re :=
  match l with [] => Void | r :: l' => Alt r (alts l') end.

Fixpoint nullable (r : re) : bool :=
  match r with
  | Void => false
  | Eps => true
  | Chr _ => false
  | Seq a b => nullable a && nullable b
  | Alt a b => nullable a || nullable b
  | Star _ => true
  end.

Fixpoint deriv (c : ascii) (r : re) : re :=
  match r with
  | Void => Void
  | Eps => Void
  | Chr p => if p c then Eps else Void
  | Seq a b =>
      if nullable a then Alt (Seq (deriv c a) b) (deriv c b)
      else Seq (deriv c a) b
  | Alt a b => Alt (deriv c a) (deriv c b)
  | Star a => Seq (deriv c a) (Star a)
  end.

(** [/^r$/.test(s)] *)
Fixpoint testWhole (r : re) (s : string) : bool :=
  match s with
  | EmptyString => nullable r
  | String c s' => testWhole (deriv c r) s'
  end.

(** [/^r/.test(s)] *)
Fixpoint testStart (r : re) (s : string) : bool :=
  nullable r ||
  match s with
  | EmptyString => false
  | String c s' => testStart (deriv c r) s'
  end.

(** The language of a pattern. *)
Inductive Matches : re -> string -> Prop :=
| MEps : Matches Eps ""
| MChr : forall (p : ascii -> bool) c, p c = true -> Matches (Chr p) (String c "")
| MSeq : forall a b s1 s2, Matches a s1 -> Matches b s2 -> Matches (Seq a b) (s1 ++ s2)
| MAltL : forall a b s, Matches a s -> Matches (Alt a b) s
| MAltR : forall a b s, Matches b s -> Matches (Alt a b) s
| MStar0 : forall a, Matches (Star a) ""
| MStarS : forall a c s1 s2,
    Matches a (String c s1) -> Matches (Star a) s2 ->
    Matches (Star a) (String c s1 ++ s2).

(** Some prefix of the string is in the language. *)
Definition StartsWith (r : re) (s : string) : Prop :=
  exists p q, s = p ++ q /\ Matches r p.

End Re.

(** ** The tables and patterns of the parser *)

Definition COLORS : list string :=
  [ "#4F46E5"; "#EC4899"; "#10B981"; "#F59E0B";
    "#6366F1"; "#8B5CF6"; "#EF4444"; "#3B82F6" ].

Definition STOP_WORDS : list string :=
  [ "the"; "be"; "to"; "of"; "and"; "a"; "in"; "that"; "have"; "i"; "it";
    "for"; "not"; "on"; "with"; "he"; "as"; "you"; "do"; "at"; "this"; "but";
    "his"; "by"; "from"; "they"; "we"; "say"; "her"; "she"; "or"; "an";
    "will"; "my"; "one"; "all"; "would"; "there"; "their"; "what"; "so"; "up";
    "out"; "if"; "about"; "who"; "get"; "which"; "go"; "me"; "when"; "make";
    "can"; "like"; "time"; "no"; "just"; "him"; "know"; "take"; "people";
    "into"; "year"; "your"; "good"; "some"; "could"; "them"; "see"; "other";
    "than"; "then"; "now"; "look"; "only"; "come"; "its"; "over"; "think";
    "also"; "back"; "after"; "use"; "two"; "how"; "our"; "work"; "first";
    "well"; "way"; "even"; "new"; "want"; "because"; "any"; "these"; "give";
    "day"; "most"; "us"; "is"; "are"; "was"; "were"; "had"; "has"; "sent";
    "attachment"; "message"; "chat"; "pm"; "am"; "om"; "ok"; "okay"; "lol";
    "yeah"; "yes"; "no"; "attachment."; "to" ].

(** [set.has(x)] on a set of strings. *)
Definition has (l : list string) (x : string) : bool := existsb (String.eqb x) l.

Module Pattern.
Import Re.

Definition digit : re := Chr Js.isDigit.
Definition space : re := Chr Js.isSpace.

Fixpoint seqs (l : list re) : re :=
  match l with [] => Eps | r :: l' => Seq r (seqs l') end.

(** [\d{1,2}:\d{2}] *)
Definition clock : re := seqs [between 1 2 digit; lit ":"; times 2 digit].

(** [(AM|PM)] under the [i] flag *)
Definition meridiem : re := Alt (litI "AM") (litI "PM").

(** [[A-Z][a-z]{2}\s\d{1,2},?\s\d{4}] *)
Definition shortDate : re :=
  seqs [Chr Js.isUpper; times 2 (Chr Js.isLower); space; between 1 2 digit;
        opt (lit ","); space; times 4 digit].

(** [\d{1,2}\/\d{1,2}\/\d{2,4}] *)
Definition slashDate : re :=
  seqs [between 1 2 digit; lit "/"; between 1 2 digit; lit "/";
        between 2 4 digit].

(** [[a-z]] under the [i] flag *)
Definition letterI : re := Chr (fun c => Js.isLower c || Js.isUpper c).

Definition monthNames : list string :=
  [ "Jan"; "Feb"; "Mar"; "Apr"; "May"; "Jun";
    "Jul"; "Aug"; "Sep"; "Oct"; "Nov"; "Dec" ].

(** [(?:Jan|...|Dec)[a-z]*\s\d{1,2},\s\d{4},?\s\d{1,2}:\d{2}\s(?:AM|PM)]
    under the [i] flag; the parser anchors it at both ends. *)
Definition META_DATE_REGEX : re :=
  seqs [alts (map litI monthNames); Star letterI; space; between 1 2 digit;
        lit ","; space; times 4 digit; opt (lit ","); space;
        between 1 2 digit; lit ":"; times 2 digit; space; meridiem].

End Pattern.

(** ** Sender-name validator *)

Definition commonLabels : list string :=
  [ "sent"; "seen"; "liked"; "reacted"; "reply"; "replied";
    "message"; "chat"; "conversation"; "participants";
    "search"; "loading"; "active"; "now"; "edited";
    "unsent"; "forwarded"; "admin";
    "you sent an attachment."; "sent an attachment.";
    "attachment"; "video chat"; "audio call";
    "missed voice call"; "missed video call" ].

Definition isValidSender (text : string) : bool :=
  if String.eqb text "" then false else
  let t := Js.trim text in
  if (String.length t =? 0)%nat || (80 <? String.length t)%nat then false else
  if Re.testStart Pattern.clock t then false else
  if Re.testWhole Pattern.meridiem t then false else
  if Re.testStart Pattern.shortDate t then false else
  if Re.testStart Pattern.slashDate t then false else
  if has commonLabels (Js.toLowerCase t) then false else
  if Js.includes "sent an attachment" (Js.toLowerCase t) then false else
  true.

(** The validator as the specification words it, for comparison with
    [isValidSender]: a name is refused when it is empty or longer than the
    cap, begins with a clock time [H:MM], is a bare meridiem marker, begins
    with a date made of a month name, a day and a year or with a
    slash-delimited numeric date, is one of the labels, or contains
    "sent an attachment"; every other string is accepted. *)
Module Claimed.
Import Re.

Definition fullMonthNames : list string :=
  [ "January"; "February"; "March"; "April"; "May"; "June"; "July";
    "August"; "September"; "October"; "November"; "December" ].

Definition monthName : re :=
  alts (map litI (fullMonthNames ++ Pattern.monthNames)%list).

Definition monthDayYear : re :=
  Pattern.seqs [monthName; Pattern.space; between 1 2 Pattern.digit;
                opt (lit ","); Pattern.space; times 4 Pattern.digit].

Definition refuses (text : string) : bool :=
  String.eqb text "" || (80 <? String.length text)%nat
  || testStart Pattern.clock text
  || has ["am"; "pm"] (Js.toLowerCase text)
  || testStart monthDayYear text
  || testStart Pattern.slashDate text
  || has commonLabels (Js.toLowerCase text)
  || Js.includes "sent an attachment" (Js.toLowerCase text).

Definition isPlausibleSenderName (text : string) : bool := negb (refuses text).

End Claimed.

(** ** Tokenizer *)

(** [s.replace(/[^\w\s]/gi, '')] *)
Fixpoint stripPunctuation (s : string) : string :=
  match s with
  | EmptyString => EmptyString
  | String c r =>
      if Js.isWord c || Js.isSpace c then String c (stripPunctuation r)
      else stripPunctuation r
  end.

(** [s.split(/\s+/)]: [cur] is the piece being read, [inSpace] says that the
    last character closed a piece. *)
Fixpoint splitFrom (s cur : string) (inSpace : bool) : list string :=
  match s with
  | EmptyString => [cur]
  | String c r =>
      if Js.isSpace c then
        if inSpace then splitFrom r "" true else cur :: splitFrom r "" true
      else splitFrom r (cur ++ String c "") false
  end.

Definition splitSpaces (s : string) : list string := splitFrom s "" false.

(** [content.toLowerCase().replace(/[^\w\s]/gi, '').split(/\s+/)] *)
Definition words (content : string) : list string :=
  splitSpaces (stripPunctuation (Js.toLowerCase content)).

(** [w.length > 1 && !STOP_WORDS.has(w)] *)
Definition isCounted (w : string) : bool :=
  (1 <? String.length w)%nat && negb (has STOP_WORDS w).

(** ** Calendar arithmetic of [Date] *)

Module Cal.

Definition msPerDay : Z := 86400000.
Definition msPerHour : Z := 3600000.
Definition msPerMinute : Z := 60000.

(** A 400-year era begins on a 1 March.  The year of the era (0..399) of a
    day of the era, the day of that year (0 is 1 March), and the month
    (1..12) and day of month of a day of such a year. *)
Definition yearOfEra (doe : Z) : Z :=
  (doe - doe / 1460 + doe / 36524 - doe / 146096) / 365.

Definition dayOfYear (doe : Z) : Z :=
  let yoe := yearOfEra doe in
  doe - (365 * yoe + yoe / 4 - yoe / 100).

Definition monthDay (doy : Z) : Z * Z :=
  let mp := (5 * doy + 2) / 153 in
  (if mp <? 10 then mp + 3 else mp - 9, doy - (153 * mp + 2) / 5 + 1).

(** January and February belong to the next calendar year. *)
Definition civilOfDoe (doe : Z) : Z * Z * Z :=
  let '(m, d) := monthDay (dayOfYear doe) in
  (if m <=? 2 then yearOfEra doe + 1 else yearOfEra doe, m, d).

(** Year, month (1..12) and day of month of a day number counted from
    1970-01-01, in the proleptic Gregorian calendar. *)
Definition civil (day : Z) : Z * Z * Z :=
  let z := day + 719468 in
  let '(y, m, d) := civilOfDoe (z mod 146097) in
  (y + 400 * (z / 146097), m, d).

Definition fromCivil (y m d : Z) : Z :=
  let y' := if m <=? 2 then y - 1 else y in
  let era := y' / 400 in
  let yoe := y' mod 400 in
  let doy := (153 * (if 2 <? m then m - 3 else m + 9) + 2) / 5 + d - 1 in
  let doe := yoe * 365 + yoe / 4 - yoe / 100 + doy in
  era * 146097 + doe - 719468.

Definition isLeap (y : Z) : bool :=
  (y mod 4 =? 0) && (negb (y mod 100 =? 0) || (y mod 400 =? 0)).

Definition daysInMonth (y m : Z) : Z :=
  if m =? 2 then (if isLeap y then 29 else 28)
  else if (m =? 4) || (m =? 6) || (m =? 9) || (m =? 11) then 30 else 31.

Definition yearOf (t : Z) : Z := fst (fst (civil (t / msPerDay))).
Definition monthOf (t : Z) : Z := snd (fst (civil (t / msPerDay))).
Definition dateOf (t : Z) : Z := snd (civil (t / msPerDay)).
Definition hourOf (t : Z) : Z := (t / msPerHour) mod 24.

Definition pad (n : nat) (z : Z) : string := Js.padStart n "0" (Js.ofZ z).

(** [date.toISOString()] *)
Definition toISOString (t : Z) : string :=
  let y := yearOf t in
  let year :=
    if (0 <=? y) && (y <=? 9999) then pad 4 y
    else String (if y <? 0 then "-"%char else "+"%char) (pad 6 (Z.abs y)) in
  year ++ "-" ++ pad 2 (monthOf t) ++ "-" ++ pad 2 (dateOf t)
    ++ "T" ++ pad 2 (hourOf t) ++ ":" ++ pad 2 ((t / msPerMinute) mod 60)
    ++ ":" ++ pad 2 ((t / 1000) mod 60) ++ "." ++ pad 3 (t mod 1000) ++ "Z".

(** The date-only form [YYYY-MM-DD] of the date-time string format: it is
    read as midnight UTC. *)
Definition parseIsoDate (s : string) : option Z :=
  if negb (String.length s =? 10)%nat then None else
  if negb (String.eqb (substring 4 1 s) "-" && String.eqb (substring 7 1 s) "-")
  then None else
  match Js.readDigits (substring 0 4 s) 0,
        Js.readDigits (substring 5 2 s) 0,
        Js.readDigits (substring 8 2 s) 0 with
  | Some y, Some m, Some d =>
      let y := Z.of_N y in let m := Z.of_N m in let d := Z.of_N d in
      if (1 <=? m) && (m <=? 12) && (1 <=? d) && (d <=? daysInMonth y m)
      then Some (fromCivil y m d * msPerDay) else None
  | _, _, _ => None
  end.

End Cal.

(** ** The browser *)

(** The parser is written against the DOM and the [Date] object.  [Host]
    lists what it calls.  [previousElementSiblings] is the chain that
    following [previousElementSibling] walks, nearest first. *)
Class Host : Type := {
  node : Type;
  parseFromString : string -> node;
  querySelectorAll : node -> string -> list node;
  textContent : node -> string;
  lastElementChild : node -> option node;
  sameNode : node -> node -> bool;
  contains : node -> node -> bool;
  childNodesLength : node -> nat;
  href : node -> string;
  getAttribute : node -> string -> option string;
  parentElement : node -> option node;
  previousElementSiblings : node -> list node;
  nextElementSibling : node -> option node;
  elementCount : node -> nat;
  (** [Date.parse] on strings that are not in the ISO date form *)
  dateParse : string -> option Z;
  (** local time minus UTC, in milliseconds, at an instant *)
  localOffset : Z -> Z;
  (** [s.match(/\p{Emoji_Presentation}/gu) || []] *)
  emojiMatches : string -> list string;
  (** [String(Object.prototype[k])]: the text of the function that objects
      inherit under the name [k] *)
  functionText : string -> string;
  (** the message of the [TypeError] for reading the member [k] of
      [undefined] *)
  typeError : string -> string
}.

(** ** Records of word counters *)

Section Counters.
Context {host : Host}.

(** [o[k] = (o[k] || 0) + v] on an object literal [o].  Without a key [k] of
    its own, [o[k]] is the inherited member when [k] is an inherited name:
    the function turns into its text and [v] is appended to it.  The
    assignment stores an own key, except for [__proto__], whose setter
    ignores a number and a text. *)
Definition addTo (k : string) (v : Js.value) (o : Obj.t Js.value)
  : Obj.t Js.value :=
  match Obj.get k o with
  | Some a => Obj.set k (Js.plus (if Js.truthy a then a else Js.Num 0) v) o
  | None =>
      if String.eqb k "__proto__" then o
      else if Js.isInherited k
           then Obj.set k (Js.Str (functionText k ++ Js.toText v)) o
           else Obj.set k (Js.plus (Js.Num 0) v) o
  end.

Definition countWord (counts : Obj.t Js.value) (w : string) : Obj.t Js.value :=
  if isCounted w then addTo w (Js.Num 1) counts else counts.

Definition accumulateWords (content : string) (counts : Obj.t Js.value)
  : Obj.t Js.value :=
  fold_left countWord (words content) counts.

End Counters.

(** ['text' | 'attachment' | 'reel'] *)
Inductive MessageType : Type := Text | Attachment | Reel.

Record RawMessage : Type := {
  sender : string;
  timestamp : Z;
  content : string;
  type : MessageType
}.

Section Extraction.
Context {host : Host}.

Definition querySelector (n : node) (sel : string) : option node :=
  hd_error (querySelectorAll n sel).

Definition previousElementSibling (n : node) : option node :=
  hd_error (previousElementSiblings n).

(** [new Date(s).getTime()], [None] for [NaN] *)
Definition newDate (s : string) : option Z :=
  match Cal.parseIsoDate s with
  | Some t => Some t
  | None => dateParse s
  end.

Definition extractDate (dateStr : string) : option Z :=
  if String.eqb dateStr "" then None else newDate dateStr.

(** [n?.textContent || ''] *)
Definition textOrEmpty (n : option node) : string :=
  match n with Some x => textContent x | None => "" end.

Definition firstSome (A : Type) (a b : option A) : option A :=
  match a with Some _ => a | None => b end.

(** *** Strategy 1: class-anchored Meta/Instagram export *)

Definition metaContent (el : node) (header : option node) : string :=
  let contentDiv :=
    firstSome (querySelector el "div._a6-p, div.message, div._3-96, div._2let")
              (lastElementChild el) in
  let viaParent :=
    match contentDiv with
    | Some c => sameNode c el
                || match header with Some h => contains c h | None => false end
    | None => false
    end in
  let content :=
    if viaParent then textOrEmpty (querySelector el "div._2let, div._a6-p")
    else textOrEmpty contentDiv in
  if String.eqb content "" && (0 <? childNodesLength el)%nat then
    match rev (querySelectorAll el "div") with
    | lastDiv :: _ => textContent lastDiv
    | [] => content
    end
  else content.

Definition isReelLink (a : node) : bool :=
  Js.includes "instagram.com/reel" (href a) || Js.includes "/reel/" (href a).

Definition metaType (el : node) (content : string) : MessageType :=
  let lowerText := Js.toLowerCase content in
  if Js.includes "sent an attachment" lowerText
     || Js.includes "sent a photo" lowerText
  then fold_left (fun ty a => if isReelLink a then Reel else ty)
                 (querySelectorAll el "a") Attachment
  else Text.

Definition metaMessage (el : node) : option RawMessage :=
  let header := querySelector el "h2, h3, h4, ._2lem, ._27_v, ._a6-h" in
  let name := option_map (fun h => Js.trim (textContent h)) header in
  let date := extractDate (textOrEmpty (querySelector el "._3-94, ._a6-o, ._a72d")) in
  let content := metaContent el header in
  let type := metaType el content in
  match name, date with
  | Some name, Some date =>
      if negb (String.eqb name "") && isValidSender name
      then Some {| sender := name; timestamp := date; content := content; type := type |}
      else None
  | _, _ => None
  end.

Fixpoint collect (A B : Type) (f : A -> option B) (l : list A) : list B :=
  match l with
  | [] => []
  | x :: r => match f x with Some y => y :: collect f r | None => collect f r end
  end.

Definition strategyMeta (doc : node) : list RawMessage :=
  collect metaMessage (querySelectorAll doc ".pam, ._3-96, ._a6-g").

(** *** Strategy 2: heuristic scan for date lines *)

Definition senderNear (div parent : node) : string :=
  let valid (n : node) :=
    negb (String.eqb (textContent n) "") && isValidSender (textContent n) in
  match find valid (previousElementSiblings div) with
  | Some prev => Js.trim (textContent prev)
  | None =>
      match previousElementSibling parent with
      | Some pPrev => if valid pPrev then Js.trim (textContent pPrev) else ""
      | None => ""
      end
  end.

Definition contentNear (div parent : node) : string :=
  match nextElementSibling div with
  | Some next => textContent next
  | None => textOrEmpty (nextElementSibling parent)
  end.

Definition heuristicMessage (div : node) : option RawMessage :=
  let text := Js.trim (textContent div) in
  if negb (String.eqb text "") && (String.length text <? 50)%nat
     && Re.testWhole Pattern.META_DATE_REGEX text then
    match extractDate text with
    | None => None
    | Some date =>
        let (sender, content) :=
          match parentElement div with
          | Some parent => (senderNear div parent, contentNear div parent)
          | None => ("", "")
          end in
        if negb (String.eqb sender "") then
          Some {| sender := sender; timestamp := date; content := content;
                  type := if Js.includes "sent an attachment" (Js.toLowerCase content)
                          then Attachment else Text |}
        else None
    end
  else None.

Definition strategyHeuristic (doc : node) : list RawMessage :=
  collect heuristicMessage (querySelectorAll doc "div").

(** *** Strategy 3: Telegram export *)

Definition telegramMessage (msg : node) : option RawMessage :=
  let name := option_map (fun n => Js.trim (textContent n)) (querySelector msg ".from_name") in
  let dateNode := querySelector msg ".date" in
  let dateStr :=
    match dateNode with
    | Some d =>
        match getAttribute d "title" with
        | Some title => if String.eqb title "" then textContent d else title
        | None => textContent d
        end
    | None => ""
    end in
  let date := extractDate dateStr in
  let content := textOrEmpty (querySelector msg ".text") in
  let type :=
    match querySelector msg ".video", querySelector msg ".photo" with
    | Some _, _ => Reel
    | None, Some _ => Attachment
    | None, None => Text
    end in
  match name, date with
  | Some name, Some date =>
      if negb (String.eqb name "") && isValidSender name
      then Some {| sender := name; timestamp := date; content := content; type := type |}
      else None
  | _, _ => None
  end.

Definition strategyTelegram (doc : node) : list RawMessage :=
  collect telegramMessage (querySelectorAll doc ".message").

(** *** The cascade: a strategy runs when the ones before it found nothing *)

Definition extractMessages (doc : node) : list RawMessage * string :=
  let pamElements := querySelectorAll doc ".pam, ._3-96, ._a6-g" in
  let format1 :=
    if (0 <? List.length pamElements)%nat then "Meta/Instagram Export (Class)"
    else "Unknown" in
  match strategyMeta doc with
  | (_ :: _) as found => (found, format1)
  | [] =>
      match strategyHeuristic doc with
      | (_ :: _) as found => (found, "Meta/Instagram Export (Heuristic)")
      | [] =>
          let telegramMessages := querySelectorAll doc ".message" in
          (strategyTelegram doc,
           if (0 <? List.length telegramMessages)%nat then "Telegram Export"
           else format1)
      end
  end.

End Extraction.

(** ** The analysis pass *)

(** The accumulator kept per sender while the messages are traversed. *)
Module Temp.
Record TempSenderStat : Type := {
  name : string;
  count : nat;
  wordCounts : Obj.t Js.value;
  reelCount : nat;
  attachmentCount : nat;
  totalLen : nat;
  replyTimes : list Q;
  consecutiveCount : nat;
  maxConsecutive : nat;
  emojis : Obj.t nat;
  initiatedCount : nat;
  lateNight : nat;
  morning : nat;
  afternoon : nat;
  evening : nat
}.

Definition fresh (name : string) : TempSenderStat :=
  {| name := name; count := 0; wordCounts := []; reelCount := 0;
     attachmentCount := 0; totalLen := 0; replyTimes := [];
     consecutiveCount := 0; maxConsecutive := 0; emojis := [];
     initiatedCount := 0; lateNight := 0; morning := 0; afternoon := 0;
     evening := 0 |}.
End Temp.

Import Temp.

(** [senderMap], [hourlyStats] and the other containers that the loop
    updates, with [previousMsg]. *)
Module Pass.
Record state : Type := {
  hourlyStats : Obj.t nat;
  timelineStats : Obj.t nat;
  dailyActivity : Obj.t nat;
  monthCounts : Obj.t nat;
  senderMap : Obj.t TempSenderStat;
  previousMsg : option RawMessage
}.

Definition initial : state :=
  {| hourlyStats := []; timelineStats := []; dailyActivity := [];
     monthCounts := []; senderMap := []; previousMsg := None |}.
End Pass.

Section Analysis.
Context {host : Host}.

Definition localTime (t : Z) : Z := t + localOffset t.

Definition getHours (t : Z) : Z := Cal.hourOf (localTime t).
Definition getFullYear (t : Z) : Z := Cal.yearOf (localTime t).
(** [getMonth() + 1] *)
Definition getMonth1 (t : Z) : Z := Cal.monthOf (localTime t).
Definition getDate (t : Z) : Z := Cal.dateOf (localTime t).

Definition monthKey (t : Z) : string :=
  Js.ofZ (getFullYear t) ++ "-" ++ Cal.pad 2 (getMonth1 t).

Definition dayKey (t : Z) : string :=
  monthKey t ++ "-" ++ Cal.pad 2 (getDate t).

(** [senderMap[name]] is truthy for a key of [senderMap] and for an inherited
    name.  For the latter no entry is made: what [getSender] returns is the
    inherited member, and the counters written on it are not in [senderMap]. *)
Definition getSender (name : string) (senderMap : Obj.t TempSenderStat)
  : Obj.t TempSenderStat :=
  match Obj.get name senderMap with
  | Some _ => senderMap
  | None =>
      if Js.isInherited name then senderMap
      else Obj.set name (Temp.fresh name) senderMap
  end.

(** Counters, words, emojis and the time-of-day bucket of one message. *)
Definition basics (msg : RawMessage) (s : TempSenderStat) : TempSenderStat :=
  let hour := getHours (timestamp msg) in
  {| name := name s;
     count := S (count s);
     wordCounts := accumulateWords (content msg) (wordCounts s);
     reelCount := match type msg with Reel => S (reelCount s) | _ => reelCount s end;
     attachmentCount :=
       match type msg with Attachment => S (attachmentCount s) | _ => attachmentCount s end;
     totalLen := totalLen s + String.length (content msg);
     replyTimes := replyTimes s;
     consecutiveCount := consecutiveCount s;
     maxConsecutive := maxConsecutive s;
     emojis := fold_left (fun o e => Obj.incr e o) (emojiMatches (content msg)) (emojis s);
     initiatedCount := initiatedCount s;
     lateNight := if (0 <=? hour) && (hour <? 4) then S (lateNight s) else lateNight s;
     morning :=
       if (0 <=? hour) && (hour <? 4) then morning s
       else if (4 <=? hour) && (hour <? 12) then S (morning s) else morning s;
     afternoon :=
       if (0 <=? hour) && (hour <? 4) then afternoon s
       else if (4 <=? hour) && (hour <? 12) then afternoon s
       else if (12 <=? hour) && (hour <? 20) then S (afternoon s) else afternoon s;
     evening :=
       if (0 <=? hour) && (hour <? 4) then evening s
       else if (4 <=? hour) && (hour <? 12) then evening s
       else if (12 <=? hour) && (hour <? 20) then evening s else S (evening s) |}.

Definition withDynamics (replies : list Q) (consecutive longest initiated : nat)
  (s : TempSenderStat) : TempSenderStat :=
  {| name := name s; count := count s; wordCounts := wordCounts s;
     reelCount := reelCount s; attachmentCount := attachmentCount s;
     totalLen := totalLen s; replyTimes := replies;
     consecutiveCount := consecutive; maxConsecutive := longest;
     emojis := emojis s; initiatedCount := initiated;
     lateNight := lateNight s; morning := morning s;
     afternoon := afternoon s; evening := evening s |}.

(** [(msg.timestamp.getTime() - previousMsg.timestamp.getTime()) / (1000 * 60)]:
    the difference is a double, and so is its quotient by 60000. *)
Definition timeDiffMinutes (previousMsg msg : RawMessage) : Q :=
  let timeDiff := Js.double (inject_Z (timestamp msg - timestamp previousMsg)) in
  Js.double (timeDiff / 60000).

(** [sender.replyTimes.push(gap)], and an initiation after more than six
    hours of silence. *)
Definition reply (gap : Q) (s : TempSenderStat) : TempSenderStat :=
  withDynamics (replyTimes s ++ [gap])%list (consecutiveCount s) (maxConsecutive s)
    (if Qle_bool gap 360 then initiatedCount s else S (initiatedCount s)) s.

Definition resetConsecutive (s : TempSenderStat) : TempSenderStat :=
  withDynamics (replyTimes s) 0 (maxConsecutive s) (initiatedCount s) s.

Definition doubleText (s : TempSenderStat) : TempSenderStat :=
  let c := S (consecutiveCount s) in
  withDynamics (replyTimes s) c
    (if (maxConsecutive s <? c)%nat then c else maxConsecutive s)
    (initiatedCount s) s.

Definition initiate (s : TempSenderStat) : TempSenderStat :=
  withDynamics (replyTimes s) (consecutiveCount s) (maxConsecutive s)
    (S (initiatedCount s)) s.

(** The reply and streak bookkeeping relative to the previous message. *)
Definition dynamics (previousMsg : option RawMessage) (msg : RawMessage)
  (senderMap : Obj.t TempSenderStat) : Obj.t TempSenderStat :=
  match previousMsg with
  | Some prev =>
      if negb (String.eqb (sender prev) (sender msg)) then
        let replied := Obj.modify (sender msg) (reply (timeDiffMinutes prev msg)) senderMap in
        Obj.modify (sender prev) resetConsecutive (getSender (sender prev) replied)
      else Obj.modify (sender msg) doubleText senderMap
  | None => Obj.modify (sender msg) initiate senderMap
  end.

(** The body of [rawMessages.forEach]. *)
Definition step (st : Pass.state) (msg : RawMessage) : Pass.state :=
  let t := timestamp msg in
  {| Pass.hourlyStats := Obj.incr (Js.ofZ (getHours t)) (Pass.hourlyStats st);
     Pass.timelineStats := Obj.incr (dayKey t) (Pass.timelineStats st);
     Pass.dailyActivity := Obj.incr (dayKey t) (Pass.dailyActivity st);
     Pass.monthCounts := Obj.incr (monthKey t) (Pass.monthCounts st);
     Pass.senderMap :=
       dynamics (Pass.previousMsg st) msg
         (Obj.modify (sender msg) (basics msg)
            (getSender (sender msg) (Pass.senderMap st)));
     Pass.previousMsg := Some msg |}.

(** The exception that the body throws on [msg], if any.  An inherited member
    has no [wordCounts], no [emojis] and no [replyTimes]: the first counted
    word, else the first emoji, else the reply to another sender, reads a
    member of [undefined].  [step] is the state that the body leaves when it
    runs to its end. *)
Definition thrown (st : Pass.state) (msg : RawMessage) : option string :=
  if Obj.inherits (sender msg) (Pass.senderMap st) then
    match find isCounted (words (content msg)) with
    | Some w => Some (typeError w)
    | None =>
        match emojiMatches (content msg) with
        | e :: _ => Some (typeError e)
        | [] =>
            match Pass.previousMsg st with
            | Some prev =>
                if negb (String.eqb (sender prev) (sender msg))
                then Some (typeError "push") else None
            | None => None
            end
        end
    end
  else None.

(** The exception that ends [rawMessages.forEach], if any. *)
Definition thrownFrom (st : Pass.state) (rawMessages : list RawMessage)
  : option string :=
  firstThrown thrown step st rawMessages.

Definition analysisLoop (rawMessages : list RawMessage) : Pass.state :=
  fold_left step rawMessages Pass.initial.

(** ** Whole-sequence computations on the day keys *)

(** [Object.keys(dailyActivity).sort()] *)
Definition sortedDayKeys (dailyActivity : Obj.t nat) : list string :=
  stableSort String.leb (Obj.keys dailyActivity).

(** [Math.ceil(Math.abs(curr - prev) / msPerDay) === 1] *)
Definition oneDayApart (prevDate currDate : option Z) : bool :=
  match prevDate, currDate with
  | Some p, Some c => Qceiling (Z.abs (c - p) # 86400000) =? 1
  | _, _ => false
  end.

(** The loop state is [(currentStreak, maxStreak, prevDate)]. *)
Definition streakStep (acc : nat * nat * option Z) (key : string)
  : nat * nat * option Z :=
  let '(currentStreak, maxStreak, prevDate) := acc in
  let currDate := newDate key in
  if oneDayApart prevDate currDate then (S currentStreak, maxStreak, currDate)
  else (1%nat, Nat.max maxStreak currentStreak, currDate).

Definition maxDayStreak (sortedDays : list string) : nat :=
  match sortedDays with
  | [] => 0
  | first :: rest =>
      let '(currentStreak, maxStreak, _) :=
        fold_left streakStep rest (1%nat, 1%nat, newDate first) in
      Nat.max maxStreak currentStreak
  end.

(** The loop state is [(maxGap, d1)]; a comparison with [NaN] is false. *)
Definition gapStep (acc : Q * option Z) (key : string) : Q * option Z :=
  let '(maxGap, d1) := acc in
  let d2 := newDate key in
  match d1, d2 with
  | Some a, Some b =>
      let diff := Qred ((b - a) # 86400000) in
      (if Qle_bool diff maxGap then maxGap else diff, d2)
  | _, _ => (maxGap, d2)
  end.

Definition longestGap (sortedDays : list string) : Z :=
  match sortedDays with
  | first :: (_ :: _) as rest =>
      Qfloor (fst (fold_left gapStep rest (0%Q, newDate first)))
  | _ => 0
  end.

(** The entry with the largest count, the first one among equals. *)
Definition busiest (o : Obj.t nat) : string * nat :=
  fold_left (fun best e => if (snd best <? snd e)%nat then e else best)
            (Obj.entries o) ("", 0%nat).

(** [Math.round((sortedDays.length / totalDaysSpan) * 100)], 0 without a
    positive span; the span, the quotient and the product are doubles. *)
Definition activeDays (days : nat) (firstDate lastDate : Z) : Z :=
  let totalDaysSpan :=
    Js.double (Js.double (inject_Z (lastDate - firstDate)) / 86400000) in
  if Qle_bool totalDaysSpan 0 then 0
  else Js.round (Js.double (Js.double (inject_Z (Z.of_nat days) / totalDaysSpan)
                            * 100)).

End Analysis.

(** ** The result *)

Record SenderStat : Type := {
  name : string;
  count : nat;
  color : string;
  wordCounts : Obj.t Js.value;
  reelCount : nat;
  attachmentCount : nat;
  avgMessageLength : Z;
  avgReplyTimeMinutes : Z;
  fastestReplySeconds : Z;
  slowestReplyMinutes : Z;
  longestStreakMessages : nat;
  emojis : Obj.t nat;
  initiatedConversations : nat;
  lateNightMessages : nat;
  morningMessages : nat;
  afternoonMessages : nat;
  eveningMessages : nat
}.

Record Metadata : Type := {
  parsedAt : string;
  rawNodeCount : nat;
  detectedFormat : string
}.

Record ChatAnalysisResult : Type := {
  fileName : string;
  totalMessages : nat;
  senders : list SenderStat;
  hourlyStats : Obj.t nat;
  timelineStats : Obj.t nat;
  totalDays : nat;
  firstMessageDate : option string;
  lastMessageDate : option string;
  longestGapDays : Z;
  longestDayStreak : nat;
  activeDaysPct : Z;
  busiestDay : string * nat;
  busiestMonth : string;
  metadata : Metadata
}.

(** A promise settles: it is rejected with an error or resolved with a
    result. *)
Inductive Settled : Type :=
| Rejected (message : string)
| Resolved (result : ChatAnalysisResult).

Section Assembly.
Context {host : Host}.

(** [l.reduce((a, b) => a + b, 0)]: every sum is a double. *)
Definition sumDoubles (l : list Q) : Q :=
  fold_left (fun a b => Js.double (a + b)) l 0%Q.

(** The snapshot of one accumulator; [idx] is its position in
    [Object.values(senderMap)]. *)
Definition senderStat (s : TempSenderStat) (idx : nat) : SenderStat :=
  let replyTimes := stableSort Qle_bool (Temp.replyTimes s) in
  let n := List.length replyTimes in
  let avgReply :=
    if (n =? 0)%nat then 0%Q
    else Js.double (sumDoubles replyTimes / inject_Z (Z.of_nat n)) in
  let fastest :=
    match replyTimes with [] => 0%Q | r :: _ => Js.double (r * 60) end in
  let slowest := last replyTimes 0%Q in
  {| name := Temp.name s;
     count := Temp.count s;
     color := nth (idx mod List.length COLORS) COLORS "";
     wordCounts := Temp.wordCounts s;
     reelCount := Temp.reelCount s;
     attachmentCount := Temp.attachmentCount s;
     avgMessageLength :=
       if (0 <? Temp.count s)%nat
       then Js.round (Z.of_nat (Temp.totalLen s) # Pos.of_nat (Temp.count s))
       else 0;
     avgReplyTimeMinutes := Js.round avgReply;
     fastestReplySeconds := Js.round fastest;
     slowestReplyMinutes := Js.round slowest;
     longestStreakMessages := Temp.maxConsecutive s;
     emojis := Temp.emojis s;
     initiatedConversations := Temp.initiatedCount s;
     lateNightMessages := Temp.lateNight s;
     morningMessages := Temp.morning s;
     afternoonMessages := Temp.afternoon s;
     eveningMessages := Temp.evening s |}.

(** [(a, b) => b.count - a.count] does not put [b] before [a] when [b]
    counts no more than [a]. *)
Definition byCountDesc (a b : SenderStat) : bool := (count b <=? count a)%nat.

Definition assembleSenders (senderMap : Obj.t TempSenderStat) : list SenderStat :=
  stableSort byCountDesc (mapi senderStat (Obj.values senderMap)).

(** [rawMessages.sort((a, b) => a.timestamp.getTime() - b.timestamp.getTime())] *)
Definition sortChronologically (rawMessages : list RawMessage) : list RawMessage :=
  stableSort (fun a b => timestamp a <=? timestamp b) rawMessages.

(** Everything after the extraction: [found] is not empty here.  [now] is the
    clock reading of [new Date()]. *)
Definition analyze (fileName : string) (now : Z) (doc : node)
  (detectedFormat : string) (found : list RawMessage) : ChatAnalysisResult :=
  let rawMessages := sortChronologically found in
  let st := analysisLoop rawMessages in
  let sortedDays := sortedDayKeys (Pass.dailyActivity st) in
  let firstDate := option_map timestamp (hd_error rawMessages) in
  let lastDate := option_map timestamp (hd_error (rev rawMessages)) in
  {| fileName := fileName;
     totalMessages := List.length rawMessages;
     senders := assembleSenders (Pass.senderMap st);
     hourlyStats := Pass.hourlyStats st;
     timelineStats := Pass.timelineStats st;
     totalDays := List.length sortedDays;
     firstMessageDate := option_map Cal.toISOString firstDate;
     lastMessageDate := option_map Cal.toISOString lastDate;
     longestGapDays := longestGap sortedDays;
     longestDayStreak := maxDayStreak sortedDays;
     activeDaysPct :=
       match firstDate, lastDate with
       | Some f, Some l => activeDays (List.length sortedDays) f l
       | _, _ => 0
       end;
     busiestDay := busiest (Pass.dailyActivity st);
     busiestMonth := fst (busiest (Pass.monthCounts st));
     metadata := {| parsedAt := Cal.toISOString now;
                    rawNodeCount := elementCount doc;
                    detectedFormat := detectedFormat |} |}.

(** [parseChatFile] once the text of the file has been read.  The body is in
    a [try] whose [catch] rejects with the exception. *)
Definition parseChatFile (fileName text : string) (now : Z) : Settled :=
  if String.eqb text "" then Rejected "Empty file content" else
  let doc := parseFromString text in
  let (rawMessages, detectedFormat) := extractMessages doc in
  match rawMessages with
  | [] => Rejected "No messages found or format unrecognized."
  | _ :: _ =>
      match thrownFrom Pass.initial (sortChronologically rawMessages) with
      | Some message => Rejected message
      | None => Resolved (analyze fileName now doc detectedFormat rawMessages)
      end
  end.

End Assembly.

(** The same outcome with another reading of the clock in
    [metadata.parsedAt]. *)
Definition restamp (now : Z) (s : Settled) : Settled :=
  match s with
  | Rejected message => Rejected message
  | Resolved r =>
      Resolved
        {| fileName := fileName r; totalMessages := totalMessages r;
           senders := senders r; hourlyStats := hourlyStats r;
           timelineStats := timelineStats r; totalDays := totalDays r;
           firstMessageDate := firstMessageDate r;
           lastMessageDate := lastMessageDate r;
           longestGapDays := longestGapDays r;
           longestDayStreak := longestDayStreak r;
           activeDaysPct := activeDaysPct r; busiestDay := busiestDay r;
           busiestMonth := busiestMonth r;
           metadata := {| parsedAt := Cal.toISOString now;
                          rawNodeCount := rawNodeCount (metadata r);
                          detectedFormat := detectedFormat (metadata r) |} |}
  end.

(** ** Small hosts

    A Telegram export is scripted by the list of its messages.  The [m]-th
    message is node [10 m]; its name, date and text children are nodes
    [10 m + 1], [10 m + 2] and [10 m + 3]; node [0] is the document.  The
    title of a date node reads back as the instant of the script; local time
    is UTC. *)

Module Demo.

Record entry : Type := {
  who : string;
  title : string;
  instant : Z;
  body : string
}.

(** The text of a built-in function and the message of a [TypeError], as V8
    prints them.  The function under [constructor] is [Object]. *)
Definition nativeCode (k : string) : string :=
  "function " ++ (if String.eqb k "constructor" then "Object" else k)
  ++ "() { [native code] }".

Definition readingOfUndefined (k : string) : string :=
  "Cannot read properties of undefined (reading '" ++ k ++ "')".

Section Scripted.
Variable script : list entry.

Definition messages : list nat :=
  map (fun m => 10 * m)%nat (seq 1 (List.length script)).

Definition isMessage (n : nat) : bool := existsb (Nat.eqb n) messages.

Definition entryOf (n : nat) : entry :=
  nth (n / 10 - 1) script {| who := ""; title := ""; instant := 0; body := "" |}.

Definition select (n : nat) (sel : string) : list nat :=
  if (n =? 0)%nat then
    if String.eqb sel ".message" then messages
    else if String.eqb sel "div" then
      flat_map (fun m => [m; m + 1; m + 2; m + 3])%nat messages
    else []
  else if isMessage n then
    if String.eqb sel ".from_name" then [n + 1]%nat
    else if String.eqb sel ".date" then [n + 2]%nat
    else if String.eqb sel ".text" then [n + 3]%nat
    else if String.eqb sel "div" then [n + 1; n + 2; n + 3]%nat
    else []
  else [].

Definition textOf (n : nat) : string :=
  let e := entryOf n in
  match (n mod 10)%nat with
  | 1%nat => who e
  | 2%nat => "09:00"
  | 3%nat => body e
  | _ => if isMessage n then who e ++ " 09:00 " ++ body e else ""
  end.

Definition clock (s : string) : option Z :=
  option_map instant (find (fun e => String.eqb (title e) s) script).

Definition scripted : Host := {|
  node := nat;
  parseFromString := fun _ => 0%nat;
  querySelectorAll := select;
  textContent := textOf;
  lastElementChild := fun n => if isMessage n then Some (n + 3)%nat else None;
  sameNode := Nat.eqb;
  contains := fun a b => (a =? b)%nat || (a =? 10 * (b / 10))%nat || (a =? 0)%nat;
  childNodesLength := fun n => if isMessage n then 3%nat else 0%nat;
  href := fun _ => "";
  getAttribute := fun n a =>
    if (n mod 10 =? 2)%nat && String.eqb a "title" then Some (title (entryOf n))
    else None;
  parentElement := fun n =>
    if (n mod 10 =? 0)%nat then None else Some (10 * (n / 10))%nat;
  previousElementSiblings := fun n =>
    match (n mod 10)%nat with
    | 2%nat => [n - 1]%nat
    | 3%nat => [n - 1; n - 2]%nat
    | _ => if isMessage n then rev (filter (fun m => m <? n)%nat messages) else []
    end;
  nextElementSibling := fun n =>
    match (n mod 10)%nat with
    | 1%nat | 2%nat => Some (S n)
    | 3%nat => None
    | _ => if isMessage (n + 10) then Some (n + 10)%nat else None
    end;
  elementCount := fun _ => (3 + 4 * List.length script)%nat;
  dateParse := clock;
  localOffset := fun _ => 0;
  emojiMatches := fun _ => [];
  functionText := nativeCode;
  typeError := readingOfUndefined
|}.

End Scripted.

(** Ann at 09:00, 09:05 and 09:10 and Ben at 09:20 on 2024-01-01. *)
Definition annBen : list entry :=
  [ {| who := "Ann"; title := "01.01.2024 09:00:00";
       instant := 1704099600000; body := "Good morning" |};
    {| who := "Ann"; title := "01.01.2024 09:05:00";
       instant := 1704099900000; body := "Coffee later?" |};
    {| who := "Ann"; title := "01.01.2024 09:10:00";
       instant := 1704100200000; body := "Call me" |};
    {| who := "Ben"; title := "01.01.2024 09:20:00";
       instant := 1704100800000; body := "Sure, coffee sounds great" |} ].

(** Ann once, then Ben twice. *)
Definition annBenBen : list entry :=
  [ {| who := "Ann"; title := "01.01.2024 09:00:00";
       instant := 1704099600000; body := "Hello" |};
    {| who := "Ben"; title := "01.01.2024 09:01:00";
       instant := 1704099660000; body := "Hi" |};
    {| who := "Ben"; title := "01.01.2024 09:02:00";
       instant := 1704099720000; body := "How are you?" |} ].

(** One message late on each of three days in a row, and a reply 400 minutes
    after the last one. *)
Definition threeDays : list entry :=
  [ {| who := "Ann"; title := "30.12.2023 23:00:00";
       instant := 1703977200000; body := "Good night" |};
    {| who := "Ben"; title := "31.12.2023 23:30:00";
       instant := 1704065400000; body := "Happy new year" |};
    {| who := "Ann"; title := "01.01.2024 00:10:00";
       instant := 1704067800000; body := "Happy new year!" |};
    {| who := "Ben"; title := "01.01.2024 06:50:00";
       instant := 1704091800000; body := "Awake?" |} ].

(** Ann, and a reply of Ben 61.5 seconds later. *)
Definition quickReply : list entry :=
  [ {| who := "Ann"; title := "01.01.2024 09:00:00";
       instant := 1704099600000; body := "Hello" |};
    {| who := "Ben"; title := "01.01.2024 09:01:01";
       instant := 1704099661500; body := "Hi" |} ].

(** Ann says a word twice that names a member that every object inherits,
    and once the name of the prototype accessor. *)
Definition inheritedWords : list entry :=
  [ {| who := "Ann"; title := "01.01.2024 09:00:00";
       instant := 1704099600000;
       body := "The constructor, the constructor! __proto__ too" |} ].

(** One message without text from a sender named as a member that every
    object inherits. *)
Definition constructorAlone : list entry :=
  [ {| who := "constructor"; title := "01.01.2024 09:00:00";
       instant := 1704099600000; body := "" |} ].

(** The same sender with a text. *)
Definition constructorSpeaks : list entry :=
  [ {| who := "constructor"; title := "01.01.2024 09:00:00";
       instant := 1704099600000; body := "Good morning" |} ].

(** Ann, and five minutes later a message without text from a sender named
    [toString]. *)
Definition annToString : list entry :=
  [ {| who := "Ann"; title := "01.01.2024 09:00:00";
       instant := 1704099600000; body := "Hello" |};
    {| who := "toString"; title := "01.01.2024 09:05:00";
       instant := 1704099900000; body := "" |} ].

(** A sender named [valueOf] without text, then Ann. *)
Definition valueOfAnn : list entry :=
  [ {| who := "valueOf"; title := "01.01.2024 09:00:00";
       instant := 1704099600000; body := "" |};
    {| who := "Ann"; title := "01.01.2024 09:05:00";
       instant := 1704099900000; body := "Hello" |} ].

#[local] Instance telegramHost : Host := scripted annBen.

(** The text of an export; the hosts here ignore it. *)
Definition export : string := "<html><body>...</body></html>".

(** A page in which no selector finds anything. *)
#[local] Instance blankHost : Host := {|
  node := unit;
  parseFromString := fun _ => tt;
  querySelectorAll := fun _ _ => [];
  textContent := fun _ => "";
  lastElementChild := fun _ => None;
  sameNode := fun _ _ => true;
  contains := fun _ _ => true;
  childNodesLength := fun _ => 0%nat;
  href := fun _ => "";
  getAttribute := fun _ _ => None;
  parentElement := fun _ => None;
  previousElementSiblings := fun _ => [];
  nextElementSibling := fun _ => None;
  elementCount := fun _ => 3%nat;
  dateParse := fun _ => None;
  localOffset := fun _ => 0;
  emojiMatches := fun _ => [];
  functionText := nativeCode;
  typeError := readingOfUndefined
|}.

End Demo.


(** ** Earlier revisions of the sender-name validator

    The two earlier revisions of [isValidSender] cap the length at 50 and
    count "you" among the labels; the first one also refuses a text that
    begins with a weekday or with a date in the ISO form. *)

Definition labelsWithYou : list string :=
  [ "sent"; "seen"; "liked"; "reacted"; "reply"; "replied";
    "message"; "chat"; "conversation"; "participants";
    "search"; "loading"; "active"; "now"; "edited";
    "unsent"; "forwarded"; "you"; "admin";
    "you sent an attachment."; "sent an attachment.";
    "attachment"; "video chat"; "audio call";
    "missed voice call"; "missed video call" ].

Module Revision1.
Import Re.

(** [(Mon|Tue|Wed|Thu|Fri|Sat|Sun),? ] *)
Definition weekday : re :=
  Pattern.seqs [alts (map lit ["Mon"; "Tue"; "Wed"; "Thu"; "Fri"; "Sat"; "Sun"]);
                opt (lit ","); lit " "].

(** [\d{4}-\d{2}-\d{2}] *)
Definition isoDate : re :=
  Pattern.seqs [times 4 Pattern.digit; lit "-"; times 2 Pattern.digit; lit "-";
                times 2 Pattern.digit].

Definition isValidSender (text : string) : bool :=
  if String.eqb text "" then false else
  let t := Js.trim text in
  if (String.length t =? 0)%nat || (50 <? String.length t)%nat then false else
  if testStart Pattern.clock t then false else
  if testWhole Pattern.meridiem t then false else
  if testStart Pattern.shortDate t then false else
  if testStart Pattern.slashDate t then false else
  if testStart weekday t then false else
  if testStart isoDate t then false else
  if has labelsWithYou (Js.toLowerCase t) then false else
  if Js.includes "sent an attachment" (Js.toLowerCase t) then false else
  true.

(** *** The parser of the first revision

    It keeps one entry per sender and two histograms while it walks over the
    elements, and has no list of messages.  Its stop words are those of the
    last revision. *)

Module Entry.
Record t : Type := {
  count : nat;
  wordCounts : Obj.t Js.value;
  reelCount : nat;
  attachmentCount : nat
}.

Definition fresh : t :=
  {| count := 0; wordCounts := []; reelCount := 0; attachmentCount := 0 |}.

Definition countUp (e : t) : t :=
  {| count := S (count e); wordCounts := wordCounts e;
     reelCount := reelCount e; attachmentCount := attachmentCount e |}.

Definition reelUp (e : t) : t :=
  {| count := count e; wordCounts := wordCounts e;
     reelCount := S (reelCount e); attachmentCount := attachmentCount e |}.

Definition attachmentUp (e : t) : t :=
  {| count := count e; wordCounts := wordCounts e;
     reelCount := reelCount e; attachmentCount := S (attachmentCount e) |}.

Definition withWords (f : Obj.t Js.value -> Obj.t Js.value) (e : t) : t :=
  {| count := count e; wordCounts := f (wordCounts e);
     reelCount := reelCount e; attachmentCount := attachmentCount e |}.
End Entry.

(** The variables that the strategies update. *)
Module Scan.
Record t : Type := {
  senderData : Obj.t Entry.t;
  hourlyStats : Obj.t nat;
  timelineStats : Obj.t nat;
  totalCount : nat;
  validPamCount : nat;
  foundTelegram : bool
}.

Definition initial : t :=
  {| senderData := []; hourlyStats := []; timelineStats := []; totalCount := 0;
     validPamCount := 0; foundTelegram := false |}.

Definition withSenderData (f : Obj.t Entry.t -> Obj.t Entry.t) (st : t) : t :=
  {| senderData := f (senderData st); hourlyStats := hourlyStats st;
     timelineStats := timelineStats st; totalCount := totalCount st;
     validPamCount := validPamCount st; foundTelegram := foundTelegram st |}.
End Scan.

(** The [SenderStat] and the [ChatAnalysisResult] of the first revision. *)
Module Stat.
Record t : Type := {
  name : string;
  count : nat;
  color : string;
  wordCounts : Obj.t Js.value;
  reelCount : nat;
  attachmentCount : nat
}.
End Stat.

Module Result.
Record t : Type := {
  fileName : string;
  totalMessages : nat;
  senders : list Stat.t;
  hourlyStats : Obj.t nat;
  timelineStats : Obj.t nat;
  metadata : Metadata
}.
End Result.

Inductive Outcome : Type :=
| Rejected (message : string)
| Resolved (result : Result.t).

Section Parser.
Context {host : Host}.

Definition tokenizeAndCount (text : string) (counts : Obj.t Js.value)
  : Obj.t Js.value :=
  if String.eqb text "" then counts else accumulateWords text counts.

(** [tokenizeAndCount(text, undefined)]: the first counted word reads a
    member of [undefined]. *)
Definition tokenizeThrows (text : string) : option string :=
  if String.eqb text "" then None
  else option_map typeError (find isCounted (words text)).

(** No entry is made for an inherited name: [senderData[name]] is truthy, and
    what [getSenderEntry] returns is the inherited member. *)
Definition getSenderEntry (name : string) (senderData : Obj.t Entry.t)
  : Obj.t Entry.t :=
  match Obj.get name senderData with
  | Some _ => senderData
  | None =>
      if Js.isInherited name then senderData
      else Obj.set name Entry.fresh senderData
  end.

Definition processTimestamp (dateStr : string) (st : Scan.t) : Scan.t :=
  if String.eqb dateStr "" then st else
  match newDate dateStr with
  | None => st
  | Some date =>
      {| Scan.senderData := Scan.senderData st;
         Scan.hourlyStats := Obj.incr (Js.ofZ (getHours date)) (Scan.hourlyStats st);
         Scan.timelineStats := Obj.incr (dayKey date) (Scan.timelineStats st);
         Scan.totalCount := Scan.totalCount st;
         Scan.validPamCount := Scan.validPamCount st;
         Scan.foundTelegram := Scan.foundTelegram st |}
  end.

(** [el.textContent.trim()] of the first element that the selector finds
    and that has text, [''] otherwise. *)
Definition trimmedText (found : option node) : option string :=
  match found with
  | Some n => if String.eqb (textContent n) "" then None
              else Some (Js.trim (textContent n))
  | None => None
  end.

(** **** Strategy 1: the [.pam] containers *)

Definition pamName (el : node) : string :=
  match trimmedText (querySelector el "h2, h3, h4") with
  | Some name => name
  | None =>
      match trimmedText (querySelector el "._2lem, ._27_v") with
      | Some name => name
      | None => ""
      end
  end.

Definition linksToReel (a : node) : bool :=
  let href := match getAttribute a "href" with Some h => h | None => "" end in
  Js.includes "instagram.com" href || Js.includes "http" href.

Definition pamContent (el : node) (entry : Entry.t) : Entry.t :=
  match firstSome (querySelector el "div._a6-p") (querySelector el "div.message") with
  | None => entry
  | Some contentDiv =>
      let messageText := textContent contentDiv in
      let lowerText := Js.trim (Js.toLowerCase messageText) in
      let links := querySelectorAll contentDiv "a" in
      if Js.includes "sent an attachment" lowerText then
        if (0 <? List.length links)%nat then
          if existsb linksToReel links then Entry.reelUp entry
          else Entry.attachmentUp entry
        else Entry.attachmentUp entry
      else Entry.withWords (tokenizeAndCount messageText) entry
  end.

(** The exception of the content analysis when [entry] is an inherited
    member: it has no [wordCounts]. *)
Definition pamThrown (st : Scan.t) (el : node) : option string :=
  let name := pamName el in
  if negb (String.eqb name "") && isValidSender name
     && Obj.inherits name (Scan.senderData st) then
    match firstSome (querySelector el "div._a6-p") (querySelector el "div.message") with
    | None => None
    | Some contentDiv =>
        let messageText := textContent contentDiv in
        if Js.includes "sent an attachment" (Js.trim (Js.toLowerCase messageText))
        then None else tokenizeThrows messageText
    end
  else None.

(** The body of [pamElements.forEach] when it runs to its end. *)
Definition pamStep (st : Scan.t) (el : node) : Scan.t :=
  let name := pamName el in
  if negb (String.eqb name "") && isValidSender name then
    let counted :=
      {| Scan.senderData :=
           Obj.modify name Entry.countUp (getSenderEntry name (Scan.senderData st));
         Scan.hourlyStats := Scan.hourlyStats st;
         Scan.timelineStats := Scan.timelineStats st;
         Scan.totalCount := S (Scan.totalCount st);
         Scan.validPamCount := S (Scan.validPamCount st);
         Scan.foundTelegram := Scan.foundTelegram st |} in
    let timed :=
      match trimmedText (querySelector el "._3-94, ._a6-o") with
      | Some dateStr => processTimestamp dateStr counted
      | None => counted
      end in
    Scan.withSenderData (Obj.modify name (pamContent el)) timed
  else st.

(** **** Strategy 2: the Telegram export *)

Definition telegramDate (msg : node) (st : Scan.t) : Scan.t :=
  match querySelector msg ".date" with
  | None => st
  | Some dateNode =>
      let viaText :=
        if String.eqb (textContent dateNode) "" then st
        else processTimestamp (textContent dateNode) st in
      match getAttribute dateNode "title" with
      | Some title =>
          if String.eqb title "" then viaText else processTimestamp title st
      | None => viaText
      end
  end.

Definition telegramContent (msg : node) (entry : Entry.t) : Entry.t :=
  let worded :=
    match querySelector msg ".text" with
    | Some textNode =>
        if String.eqb (textContent textNode) "" then entry
        else Entry.withWords (tokenizeAndCount (textContent textNode)) entry
    | None => entry
    end in
  let photographed :=
    match querySelector msg ".photo" with
    | Some _ => Entry.attachmentUp worded
    | None => worded
    end in
  match querySelector msg ".video" with
  | Some _ => Entry.reelUp photographed
  | None => photographed
  end.

Definition telegramThrown (st : Scan.t) (msg : node) : option string :=
  match querySelector msg ".from_name" with
  | None => None
  | Some fromNode =>
      if String.eqb (textContent fromNode) "" then None else
      let name := Js.trim (textContent fromNode) in
      if isValidSender name && Obj.inherits name (Scan.senderData st) then
        match querySelector msg ".text" with
        | Some textNode => tokenizeThrows (textContent textNode)
        | None => None
        end
      else None
  end.

(** The body of [telegramMessages.forEach] when it runs to its end. *)
Definition telegramStep (st : Scan.t) (msg : node) : Scan.t :=
  match querySelector msg ".from_name" with
  | None => st
  | Some fromNode =>
      if String.eqb (textContent fromNode) "" then st else
      let name := Js.trim (textContent fromNode) in
      if isValidSender name then
        let counted :=
          {| Scan.senderData :=
               Obj.modify name Entry.countUp
                          (getSenderEntry name (Scan.senderData st));
             Scan.hourlyStats := Scan.hourlyStats st;
             Scan.timelineStats := Scan.timelineStats st;
             Scan.totalCount := S (Scan.totalCount st);
             Scan.validPamCount := Scan.validPamCount st;
             Scan.foundTelegram := true |} in
        Scan.withSenderData (Obj.modify name (telegramContent msg))
                            (telegramDate msg counted)
      else st
  end.

(** The strategies in turn; the third and the fourth one are empty. *)
Definition scan (doc : node) : Scan.t :=
  let afterPam := fold_left pamStep (querySelectorAll doc ".pam") Scan.initial in
  if (Scan.totalCount afterPam =? 0)%nat
  then fold_left telegramStep (querySelectorAll doc ".message") afterPam
  else afterPam.

(** The exception that ends one of the two loops, if any. *)
Definition scanThrown (doc : node) : option string :=
  match firstThrown pamThrown pamStep Scan.initial (querySelectorAll doc ".pam") with
  | Some message => Some message
  | None =>
      let afterPam := fold_left pamStep (querySelectorAll doc ".pam") Scan.initial in
      if (Scan.totalCount afterPam =? 0)%nat
      then firstThrown telegramThrown telegramStep afterPam
                       (querySelectorAll doc ".message")
      else None
  end.

(** The value of [detectedFormat] after the strategies. *)
Definition formatLabel (st : Scan.t) : string :=
  if Scan.foundTelegram st then "Telegram Export"
  else if (0 <? Scan.validPamCount st)%nat then "Instagram/Meta Export"
  else "Unknown".

(** [Object.entries(senderData).sort((a, b) => b[1].count - a[1].count)
    .map(([name, data], index) => ...)] *)
Definition rankSenders (senderData : Obj.t Entry.t) : list Stat.t :=
  mapi (fun (e : string * Entry.t) index =>
          {| Stat.name := fst e;
             Stat.count := Entry.count (snd e);
             Stat.color := nth (index mod List.length COLORS) COLORS "";
             Stat.wordCounts := Entry.wordCounts (snd e);
             Stat.reelCount := Entry.reelCount (snd e);
             Stat.attachmentCount := Entry.attachmentCount (snd e) |})
       (stableSort (fun a b : string * Entry.t =>
                      (Entry.count (snd b) <=? Entry.count (snd a))%nat)
                   (Obj.entries senderData)).

(** Everything after [parseFromString]. *)
Definition resultOf (fileName : string) (now : Z) (doc : node) : Result.t :=
  let st := scan doc in
  {| Result.fileName := fileName;
     Result.totalMessages := Scan.totalCount st;
     Result.senders := rankSenders (Scan.senderData st);
     Result.hourlyStats := Scan.hourlyStats st;
     Result.timelineStats := Scan.timelineStats st;
     Result.metadata := {| parsedAt := Cal.toISOString now;
                           rawNodeCount := elementCount doc;
                           detectedFormat := formatLabel st |} |}.

(** [parseChatFile] of the first revision once the text of the file has
    been read.  The body is in a [try] whose [catch] rejects with the
    exception. *)
Definition parseChatFile (fileName text : string) (now : Z) : Outcome :=
  if String.eqb text "" then Rejected "Empty file content" else
  let doc := parseFromString text in
  match scanThrown doc with
  | Some message => Rejected message
  | None => Resolved (resultOf fileName now doc)
  end.

End Parser.

End Revision1.

Module Revision2.

Definition isValidSender (text : string) : bool :=
  if String.eqb text "" then false else
  let t := Js.trim text in
  if (String.length t =? 0)%nat || (50 <? String.length t)%nat then false else
  if Re.testStart Pattern.clock t then false else
  if Re.testWhole Pattern.meridiem t then false else
  if Re.testStart Pattern.shortDate t then false else
  if Re.testStart Pattern.slashDate t then false else
  if has labelsWithYou (Js.toLowerCase t) then false else
  if Js.includes "sent an attachment" (Js.toLowerCase t) then false else
  true.

End Revision2.

(** ** The application: [App.tsx]

    [handleFilesSelected] is followed to the state in which it leaves the
    component: the awaited delays and the timer of the [finally] block, which
    sets the status it already has, leave no trace in it.  [clock i] is the
    reading of the clock during the parse of the file at index [i]. *)

Module File.
(** A [File]: its name and what reading it as text gives, [None] when the
    reader fails. *)
Record t : Type := { name : string; text : option string }.
End File.

(** ['pending' | 'processing' | 'complete' | 'error'] with the name of the
    file *)
Module Progress.
Inductive status : Type := pending | processing | complete | error.
Record t : Type := { name : string; status_of : status }.
End Progress.

Module App.

(** ['idle' | 'parsing' | 'complete' | 'error'] *)
Inductive UploadStatus : Type := idle | parsing | complete | error.

Record State : Type := {
  results : list ChatAnalysisResult;
  status : UploadStatus;
  error_of : option string;
  filesProgress : list Progress.t
}.

Section Handlers.
Context {host : Host}.
Variable clock : nat -> Z.

(** [parseChatFile(file)]: the reader fails, or its text is parsed. *)
Definition parseFile (file : File.t) (now : Z) : Settled :=
  match File.text file with
  | None => Rejected "Failed to read file"
  | Some text => parseChatFile (File.name file) text now
  end.

(** [prev.map((fp, idx) => idx === i ? { ...fp, status } : fp)] *)
Definition setProgress (i : nat) (s : Progress.status) (prev : list Progress.t)
  : list Progress.t :=
  mapi (fun fp idx =>
          if (idx =? i)%nat
          then {| Progress.name := Progress.name fp; Progress.status_of := s |}
          else fp) prev.

(** One turn of the loop over the files; the pair is [filesProgress] and
    [newResults]. *)
Definition processFile (acc : list Progress.t * list ChatAnalysisResult)
  (i : nat) (file : File.t) : list Progress.t * list ChatAnalysisResult :=
  let progress := setProgress i Progress.processing (fst acc) in
  match parseFile file (clock i) with
  | Resolved result =>
      if (0 <? totalMessages result)%nat
      then (setProgress i Progress.complete progress, (snd acc ++ [result])%list)
      else (setProgress i Progress.error progress, snd acc)
  | Rejected _ => (setProgress i Progress.error progress, snd acc)
  end.

Fixpoint processFrom (i : nat) (files : list File.t)
  (acc : list Progress.t * list ChatAnalysisResult)
  : list Progress.t * list ChatAnalysisResult :=
  match files with
  | [] => acc
  | file :: rest => processFrom (S i) rest (processFile acc i file)
  end.

Definition handleFilesSelected (files : list File.t) (st : State) : State :=
  let pending :=
    map (fun f => {| Progress.name := File.name f;
                     Progress.status_of := Progress.pending |}) files in
  let (progress, newResults) := processFrom 0 files (pending, []) in
  match newResults with
  | [] =>
      if (0 <? List.length files)%nat then
        {| results := results st; status := error;
           error_of := Some "Could not detect any messages in the uploaded files. Ensure they are valid HTML chat exports.";
           filesProgress := progress |}
      else
        {| results := results st; status := idle; error_of := None;
           filesProgress := progress |}
  | _ :: _ =>
      {| results := (results st ++ newResults)%list; status := complete;
         error_of := None; filesProgress := progress |}
  end.

Definition handleReset (st : State) : State :=
  {| results := []; status := idle; error_of := None; filesProgress := [] |}.

End Handlers.

End App.

(** ** The dashboards: [components/StatsDashboard.tsx]

    Both revisions of the dashboard aggregate the results of the uploaded
    files.  The constants of their memoised computation are given one by
    one; the ones that order the timeline by parsed dates are left out.  The
    dashboards render only when there is at least one result. *)

(** [Object.entries(from).forEach(([k, v]) => into[k] = (into[k] || 0) + v)] *)
Definition addCounts (into from : Obj.t nat) : Obj.t nat :=
  fold_left
    (fun o e =>
       Obj.set (fst e)
               ((match Obj.get (fst e) o with Some n => n | None => O end) + snd e)%nat
               o)
    (Obj.entries from) into.

(** The same loop on records of word counters, whose keys can be inherited
    names and whose values can be texts. *)
Definition addValues {host : Host} (into from : Obj.t Js.value)
  : Obj.t Js.value :=
  fold_left (fun o e => addTo (fst e) (snd e) o) (Obj.entries from) into.

(** One bar of the hourly chart. *)
Record HourBucket : Type := {
  hour : nat;
  bucketCount : nat;
  label : string
}.

(** [Array.from({ length: 24 }, (_, i) => ({ hour: i,
    count: hourlyMap[i.toString()] || 0, label: `${i}:00` }))] *)
Definition hourlyDataOf (hourlyMap : Obj.t nat) : list HourBucket :=
  map (fun i =>
         {| hour := i;
            bucketCount :=
              match Obj.get (Js.ofZ (Z.of_nat i)) hourlyMap with
              | Some n => n
              | None => O
              end;
            label := Js.ofZ (Z.of_nat i) ++ ":00" |})
      (seq 0 24).

(** A sender of the newer dashboard: a [SenderStat] whose two averages are
    no longer whole once results are merged. *)
Module Merged.
Record t : Type := {
  name : string;
  count : nat;
  color : string;
  wordCounts : Obj.t Js.value;
  reelCount : nat;
  attachmentCount : nat;
  avgMessageLength : Q;
  avgReplyTimeMinutes : Q;
  fastestReplySeconds : Z;
  slowestReplyMinutes : Z;
  longestStreakMessages : nat;
  emojis : Obj.t nat;
  initiatedConversations : nat;
  lateNightMessages : nat;
  morningMessages : nat;
  afternoonMessages : nat;
  eveningMessages : nat
}.
End Merged.

(** The name of a sender of a parse result is a key of [senderMap], hence no
    inherited name: the dashboards look names up among the own keys. *)
Module Dashboard.
Section Merging.
Context {host : Host}.

(** [{ ...s, wordCounts: { ...s.wordCounts }, emojis: { ...s.emojis } }]:
    a spread copies the own keys in the order of their enumeration. *)
Definition ofSender (s : SenderStat) : Merged.t :=
  {| Merged.name := name s;
     Merged.count := count s;
     Merged.color := color s;
     Merged.wordCounts := Obj.entries (wordCounts s);
     Merged.reelCount := reelCount s;
     Merged.attachmentCount := attachmentCount s;
     Merged.avgMessageLength := inject_Z (avgMessageLength s);
     Merged.avgReplyTimeMinutes := inject_Z (avgReplyTimeMinutes s);
     Merged.fastestReplySeconds := fastestReplySeconds s;
     Merged.slowestReplyMinutes := slowestReplyMinutes s;
     Merged.longestStreakMessages := longestStreakMessages s;
     Merged.emojis := Obj.entries (emojis s);
     Merged.initiatedConversations := initiatedConversations s;
     Merged.lateNightMessages := lateNightMessages s;
     Merged.morningMessages := morningMessages s;
     Merged.afternoonMessages := afternoonMessages s;
     Merged.eveningMessages := eveningMessages s |}.

(** The branch of the merge for a name that is already there. *)
Definition absorb (exist : Merged.t) (s : SenderStat) : Merged.t :=
  {| Merged.name := Merged.name exist;
     Merged.count := Merged.count exist + count s;
     Merged.color := Merged.color exist;
     Merged.wordCounts := addValues (Merged.wordCounts exist) (wordCounts s);
     Merged.reelCount := Merged.reelCount exist + reelCount s;
     Merged.attachmentCount := Merged.attachmentCount exist + attachmentCount s;
     Merged.avgMessageLength :=
       Qred ((Merged.avgMessageLength exist + inject_Z (avgMessageLength s)) / 2);
     Merged.avgReplyTimeMinutes :=
       Qred ((Merged.avgReplyTimeMinutes exist
              + inject_Z (avgReplyTimeMinutes s)) / 2);
     Merged.fastestReplySeconds := Merged.fastestReplySeconds exist;
     Merged.slowestReplyMinutes := Merged.slowestReplyMinutes exist;
     Merged.longestStreakMessages :=
       Nat.max (Merged.longestStreakMessages exist) (longestStreakMessages s);
     Merged.emojis := addCounts (Merged.emojis exist) (emojis s);
     Merged.initiatedConversations :=
       Merged.initiatedConversations exist + initiatedConversations s;
     Merged.lateNightMessages := Merged.lateNightMessages exist + lateNightMessages s;
     Merged.morningMessages := Merged.morningMessages exist + morningMessages s;
     Merged.afternoonMessages :=
       Merged.afternoonMessages exist + afternoonMessages s;
     Merged.eveningMessages := Merged.eveningMessages exist + eveningMessages s |}.

(** The body of [res.senders.forEach]. *)
Definition mergeSender (senderMap : Obj.t Merged.t) (s : SenderStat)
  : Obj.t Merged.t :=
  match Obj.get (name s) senderMap with
  | None => Obj.set (name s) (ofSender s) senderMap
  | Some existing => Obj.set (name s) (absorb existing s) senderMap
  end.

Section Stats.
Variable results : list ChatAnalysisResult.

Definition senderMap : Obj.t Merged.t :=
  fold_left (fun m res => fold_left mergeSender (senders res) m) results [].

(** [Object.values(senderMap).sort((a, b) => b.count - a.count)] *)
Definition senders : list Merged.t :=
  stableSort (fun a b => (Merged.count b <=? Merged.count a)%nat)
             (Obj.values senderMap).

(** [results.reduce((acc, r) => acc + r.totalMessages, 0)] *)
Definition totalMessages : nat :=
  fold_left (fun acc r => acc + totalMessages r)%nat results 0%nat.

Definition timelineMap : Obj.t nat :=
  fold_left (fun m res => addCounts m (timelineStats res)) results [].

Definition hourlyMap : Obj.t nat :=
  fold_left (fun m res => addCounts m (hourlyStats res)) results [].

Definition hourlyData : list HourBucket := hourlyDataOf hourlyMap.

(** The months of the merged timeline: a key of at least seven characters
    adds its count under its first seven. *)
Definition monthCounts : Obj.t nat :=
  fold_left
    (fun o e =>
       if (7 <=? String.length (fst e))%nat then
         let month := substring 0 7 (fst e) in
         Obj.set month
                 ((match Obj.get month o with Some n => n | None => O end) + snd e)%nat
                 o
       else o)
    (Obj.entries timelineMap) [].

(** The first month of [Object.entries(monthCounts)] whose count is above
    all the counts before it, and [''] when no count is above 0. *)
Definition busiestMonth : string := fst (busiest monthCounts).

(** [Math.max(...results.map(r => r.longestDayStreak))], for at least one
    result. *)
Definition longestDayStreak : nat :=
  fold_left Nat.max (map longestDayStreak results) 0%nat.

(** [Math.max(...results.map(r => r.longestGapDays))], for at least one
    result. *)
Definition longestGapDays : Z :=
  match map longestGapDays results with
  | [] => 0
  | gap :: rest => fold_left Z.max rest gap
  end.

(** [results.reduce((prev, curr) => curr.busiestDay.count > prev.count
    ? curr.busiestDay : prev, { count: 0, date: '' })] *)
Definition busiestDay : string * nat :=
  fold_left (fun prev curr =>
               if (snd prev <? snd (busiestDay curr))%nat
               then busiestDay curr else prev)
            results ("", 0%nat).

End Stats.
End Merging.

(** [mins < 1], then [mins < 60], then the hours; [mins] is a number, never
    [NaN]. *)
Definition formatDuration (mins : Q) : string :=
  if negb (Qle_bool 1 mins) then "< 1 min"
  else if negb (Qle_bool 60 mins) then Js.ofZ (Js.round mins) ++ " mins"
  else
    let hrs := Js.round (mins / 60) in
    Js.ofZ hrs ++ " hr" ++ (if 1 <? hrs then "s" else "").

(** [Object.entries(emojiMap).sort((a, b) => b[1] - a[1]).slice(0, 5)
    .map(([char]) => char)] *)
Definition getTopEmojis (emojiMap : Obj.t nat) : list string :=
  map fst (firstn 5 (stableSort (fun a b : string * nat => (snd b <=? snd a)%nat)
                                (Obj.entries emojiMap))).

(** [Math.max] of the four counters, and the first counter that attains
    it. *)
Definition getDayPart (sender : Merged.t) : string :=
  let max := Nat.max (Nat.max (Merged.morningMessages sender)
                              (Merged.afternoonMessages sender))
                     (Nat.max (Merged.eveningMessages sender)
                              (Merged.lateNightMessages sender)) in
  if (max =? Merged.morningMessages sender)%nat then "Morning Bird"
  else if (max =? Merged.afternoonMessages sender)%nat then "Daytime Chatter"
  else if (max =? Merged.eveningMessages sender)%nat then "Evening Relaxer"
  else "Night Owl".

End Dashboard.

(** The older dashboard keeps four fields per sender and colours the senders
    by rank. *)
Module Aggregated.

Record SenderData : Type := {
  count : nat;
  reelCount : nat;
  attachmentCount : nat;
  wordCounts : Obj.t Js.value
}.

Record TopWord : Type := { word : string; wordCount : Js.value }.

Record Sender : Type := {
  name : string;
  senderCount : nat;
  senderReelCount : nat;
  senderAttachmentCount : nat;
  topWords : list TopWord;
  color : string
}.

End Aggregated.

Module OlderDashboard.
Section Merging.
Context {host : Host}.

(** The body of [r.senders.forEach]: a new name starts from zero. *)
Definition mergeSender (senderDataMap : Obj.t Aggregated.SenderData)
  (s : SenderStat) : Obj.t Aggregated.SenderData :=
  let started :=
    match Obj.get (name s) senderDataMap with
    | Some _ => senderDataMap
    | None =>
        Obj.set (name s)
                {| Aggregated.count := 0; Aggregated.reelCount := 0;
                   Aggregated.attachmentCount := 0; Aggregated.wordCounts := [] |}
                senderDataMap
    end in
  Obj.modify (name s)
    (fun d =>
       {| Aggregated.count := Aggregated.count d + count s;
          Aggregated.reelCount := Aggregated.reelCount d + reelCount s;
          Aggregated.attachmentCount :=
            Aggregated.attachmentCount d + attachmentCount s;
          Aggregated.wordCounts :=
            addValues (Aggregated.wordCounts d) (wordCounts s) |})
    started.

(** [(a, b) => b[1] - a[1]] does not put [b] before [a] when [b] counts no
    more than [a], nor when the difference is [NaN], as it is for a text: a
    text is then neither before nor after any other entry, and where the
    sort leaves it is up to the engine. *)
Definition byValueDesc (a b : string * Js.value) : bool :=
  match Js.toNumber (snd a), Js.toNumber (snd b) with
  | Some x, Some y => (y <=? x)%nat
  | _, _ => true
  end.

(** [sortedWords.slice(0, 5).map(w => ({ word: w[0], count: w[1] }))] *)
Definition top5Words (wordCounts : Obj.t Js.value) : list Aggregated.TopWord :=
  map (fun w => {| Aggregated.word := fst w; Aggregated.wordCount := snd w |})
      (firstn 5 (stableSort byValueDesc (Obj.entries wordCounts))).

Section Stats.
Variable results : list ChatAnalysisResult.

Definition total : nat :=
  fold_left (fun acc r => acc + totalMessages r)%nat results 0%nat.

Definition senderDataMap : Obj.t Aggregated.SenderData :=
  fold_left (fun m r => fold_left mergeSender (senders r) m) results [].

(** [Object.entries(senderDataMap).sort((a, b) => b[1].count - a[1].count)
    .map(([name, data], idx) => ...)] *)
Definition senders : list Aggregated.Sender :=
  mapi (fun e idx =>
          {| Aggregated.name := fst e;
             Aggregated.senderCount := Aggregated.count (snd e);
             Aggregated.senderReelCount := Aggregated.reelCount (snd e);
             Aggregated.senderAttachmentCount := Aggregated.attachmentCount (snd e);
             Aggregated.topWords := top5Words (Aggregated.wordCounts (snd e));
             Aggregated.color := nth (idx mod List.length COLORS) COLORS "" |})
       (stableSort (fun a b : string * Aggregated.SenderData =>
                      (Aggregated.count (snd b) <=? Aggregated.count (snd a))%nat)
                   (Obj.entries senderDataMap)).

Definition hourlyMap : Obj.t nat :=
  fold_left (fun m r => addCounts m (hourlyStats r)) results [].

Definition hourlyData : list HourBucket := hourlyDataOf hourlyMap.

End Stats.
End Merging.
End OlderDashboard.


(** * The vocabulary of the statements *)

(** ** Dates and day keys *)

Module Dates.
Import Cal.

(** [p] holds on the [n] integers from [i] on. *)
Fixpoint allFrom (n : nat) (i : Z) (p : Z -> bool) : bool :=
  match n with
  | O => true
  | S k => p i && allFrom k (i + 1) p
  end.

(** The order of dates. *)
Definition dateLt (a b : Z * Z * Z) : bool :=
  let '(y1, m1, d1) := a in
  let '(y2, m2, d2) := b in
  (y1 <? y2) || ((y1 =? y2) && ((m1 <? m2) || ((m1 =? m2) && (d1 <? d2)))).

(** The order of the days of a year that begins in March. *)
Definition marchLt (a b : Z * Z) : bool :=
  let key (m : Z) := if m <=? 2 then m + 12 else m in
  (key (fst a) <? key (fst b))
  || ((key (fst a) =? key (fst b)) && (snd a <? snd b)).

(** What is checked on every day of a year: the ranges of the month and of
    the day, the way back to the day of the year, and that the next day is
    later. *)
Definition checkDoy (doy : Z) : bool :=
  let '(m, d) := monthDay doy in
  (1 <=? m) && (m <=? 12) && (1 <=? d)
  && (d <=? if m =? 2 then (if doy =? 365 then 29 else 28) else daysInMonth 1 m)
  && ((153 * (if 2 <? m then m - 3 else m + 9) + 2) / 5 + d - 1 =? doy)
  && ((365 <=? doy) || marchLt (monthDay doy) (monthDay (doy + 1))).

(** The key of a day number: [YYYY-MM-DD] when the year has four digits. *)
Definition isoKey (day : Z) : string :=
  let '(y, m, d) := civil day in
  (Js.ofZ y ++ "-" ++ pad 2 m) ++ "-" ++ pad 2 d.

Definition fourDigitYear (day : Z) : Prop :=
  1000 <= fst (fst (civil day)) <= 9999.

Definition digitValue (c : ascii) : Z := Z.of_N (Js.code c) - 48.

Definition checkYear (y : Z) : bool :=
  match Js.ofZ y with
  | String a (String b (String c (String d EmptyString))) =>
      Js.isDigit a && Js.isDigit b && Js.isDigit c && Js.isDigit d
      && (1000 * digitValue a + 100 * digitValue b + 10 * digitValue c
          + digitValue d =? y)
  | _ => false
  end.

Definition checkTwo (n : Z) : bool :=
  match pad 2 n with
  | String a (String b EmptyString) =>
      Js.isDigit a && Js.isDigit b && (10 * digitValue a + digitValue b =? n)
  | _ => false
  end.

(** A key spelled out: four digits, a dash, two digits, a dash, two
    digits. *)
Definition keyOf (a1 a2 a3 a4 b1 b2 c1 c2 : ascii) : string :=
  String a1 (String a2 (String a3 (String a4 (String "-"
    (String b1 (String b2 (String "-" (String c1 (String c2 ""))))))))).

Record keyShape (key : string) (y m d : Z) : Prop := {
  shape :
    exists a1 a2 a3 a4 b1 b2 c1 c2,
      key = keyOf a1 a2 a3 a4 b1 b2 c1 c2
      /\ Forall (fun c => Js.isDigit c = true) [a1; a2; a3; a4; b1; b2; c1; c2]
      /\ 1000 * digitValue a1 + 100 * digitValue a2 + 10 * digitValue a3
         + digitValue a4 = y
      /\ 10 * digitValue b1 + digitValue b2 = m
      /\ 10 * digitValue c1 + digitValue c2 = d
}.

End Dates.

(** ** The pass and the day keys of the messages *)

Section Vocabulary.
Context {host : Host}.

(** The sum of a counter over the accumulators. *)
Definition sumOver (g : TempSenderStat -> nat) (m : Obj.t TempSenderStat) : nat :=
  list_sum (map (fun e => g (snd e)) m).

(** No key is an inherited name. *)
Definition ownNames (V : Type) (m : Obj.t V) : Prop :=
  Forall (fun e => Js.isInherited (fst e) = false) m.

(** The messages whose sender gets an accumulator: those whose sender is not
    named as an inherited member. *)
Definition accounted (msgs : list RawMessage) : list RawMessage :=
  filter (fun m => negb (Js.isInherited (sender m))) msgs.

(** What [getSender] hands out for a name that is not inherited: the stored
    accumulator, or a fresh one. *)
Definition senderOr (k : string) (m : Obj.t TempSenderStat) : TempSenderStat :=
  match Obj.get k m with Some s => s | None => Temp.fresh k end.

(** The time-of-day buckets of an accumulator add up to its count. *)
Definition bucketsAddUp (s : TempSenderStat) : Prop :=
  (Temp.lateNight s + Temp.morning s + Temp.afternoon s + Temp.evening s
   = Temp.count s)%nat.

Definition allBuckets (m : Obj.t TempSenderStat) : Prop :=
  Forall (fun e => bucketsAddUp (snd e)) m.

(** Each key of the list is the day after the one before it, [prev] being the
    date before the first key. *)
Fixpoint eachNextDay (prev : option Z) (keys : list string) : Prop :=
  match keys with
  | [] => True
  | key :: rest =>
      (exists p c, prev = Some p /\ newDate key = Some c /\ c - p = 86400000)
      /\ eachNextDay (newDate key) rest
  end.

(** The sorted day keys are consecutive calendar days. *)
Definition ConsecutiveDays (sortedDays : list string) : Prop :=
  match sortedDays with
  | [] => True
  | first :: rest => eachNextDay (newDate first) rest
  end.

(** The local calendar day of an instant, counted from 1970-01-01. *)
Definition localDay (t : Z) : Z := localTime t / Cal.msPerDay.

(** A key is remembered the first time it is seen. *)
Definition addKey (k : string) (l : list string) : list string :=
  if existsb (String.eqb k) l then l else (l ++ [k])%list.

Definition addDay (d : Z) (l : list Z) : list Z :=
  if existsb (Z.eqb d) l then l else (l ++ [d])%list.

(** The days of the messages in the order in which they are first seen. *)
Definition firstSeenDays (msgs : list RawMessage) (seen : list Z) : list Z :=
  fold_left (fun l m => addDay (localDay (timestamp m)) l) msgs seen.

(** Every active day but the earliest follows an active day. *)
Definition DaysInARow (days : list Z) : Prop :=
  forall d, In d days -> In (d - 1) days \/ forall d', In d' days -> d <= d'.

End Vocabulary.

(** ** Runs on the small hosts *)

Module DemoRun.
Import Demo.

(** The four messages that the Telegram strategy finds in the demo export. *)
Definition found : list RawMessage :=
  fst (extractMessages (host := telegramHost) 0%nat).

Definition result (now : Z) : ChatAnalysisResult :=
  analyze (host := telegramHost) "chat.html" now 0%nat "Telegram Export" found.

(** The export of three days in a row. *)
Definition threeDaysResult : ChatAnalysisResult :=
  analyze (host := scripted threeDays) "chat.html" 0 0%nat "Telegram Export"
          (fst (extractMessages (host := scripted threeDays) 0%nat)).

(** The export in which Ann says [constructor] twice. *)
Definition inheritedWordsResult : ChatAnalysisResult :=
  analyze (host := scripted inheritedWords) "chat.html" 0 0%nat "Telegram Export"
          (fst (extractMessages (host := scripted inheritedWords) 0%nat)).

(** The export with a reply after 61.5 seconds. *)
Definition quickReplyResult : ChatAnalysisResult :=
  analyze (host := scripted quickReply) "chat.html" 0 0%nat "Telegram Export"
          (fst (extractMessages (host := scripted quickReply) 0%nat)).

(** A message of Ben 400 minutes after a message of Ann. *)
Definition annAtNine : RawMessage :=
  {| sender := "Ann"; timestamp := 1704099600000; content := "Hello"; type := Text |}.

Definition benLater (minutes : Z) : RawMessage :=
  {| sender := "Ben"; timestamp := 1704099600000 + minutes * 60000;
     content := "Hi"; type := Text |}.

End DemoRun.

(** ** The messages of one sender *)

Section Senders.
Context {host : Host}.

(** The messages of sender [k], in order. *)
Definition sentBy (k : string) (msgs : list RawMessage) : list RawMessage :=
  filter (fun m => String.eqb (sender m) k) msgs.

Definition isReel (m : RawMessage) : bool :=
  match type m with Reel => true | _ => false end.

Definition isAttachment (m : RawMessage) : bool :=
  match type m with Attachment => true | _ => false end.

(** The local hour of the message is in [[lo, hi)]. *)
Definition hourIn (lo hi : Z) (m : RawMessage) : bool :=
  (lo <=? getHours (timestamp m)) && (getHours (timestamp m) <? hi).

(** The run of messages of [k] that is being read, and the longest one read
    so far. *)
Definition runStep (k : string) (acc : nat * nat) (m : RawMessage) : nat * nat :=
  if String.eqb (sender m) k
  then (S (fst acc), Nat.max (snd acc) (S (fst acc)))
  else (0%nat, snd acc).

(** The length of the longest run of consecutive messages of [k]. *)
Definition longestRun (k : string) (msgs : list RawMessage) : nat :=
  snd (fold_left (runStep k) msgs (0%nat, 0%nat)).

(** A message of [k] opens a conversation when it is the first message of
    all, or follows a message of somebody else by more than six hours. *)
Definition opens (k : string) (prev : option RawMessage) (m : RawMessage) : bool :=
  String.eqb (sender m) k
  && match prev with
     | None => true
     | Some p =>
         negb (String.eqb (sender p) k)
         && (21600000 <? timestamp m - timestamp p)
     end.

Fixpoint openings (k : string) (prev : option RawMessage) (msgs : list RawMessage)
  : nat :=
  match msgs with
  | [] => 0
  | m :: rest =>
      ((if opens k prev m then 1 else 0) + openings k (Some m) rest)%nat
  end.

(** The minutes between each message of [k] that follows a message of
    somebody else and that message. *)
Fixpoint replyGaps (k : string) (prev : option RawMessage) (msgs : list RawMessage)
  : list Q :=
  match msgs with
  | [] => []
  | m :: rest =>
      match prev with
      | Some p =>
          if String.eqb (sender m) k && negb (String.eqb (sender p) k)
          then timeDiffMinutes p m :: replyGaps k (Some m) rest
          else replyGaps k (Some m) rest
      | None => replyGaps k (Some m) rest
      end
  end.

(** What one message does to the accumulator of sender [k]. *)
Definition stepFor (k : string) (prev : option RawMessage) (msg : RawMessage)
  (s : TempSenderStat) : TempSenderStat :=
  let mine := String.eqb k (sender msg) in
  let s1 := if mine then basics msg s else s in
  match prev with
  | None => if mine then initiate s1 else s1
  | Some p =>
      if negb (String.eqb (sender p) (sender msg)) then
        let s2 := if mine then reply (timeDiffMinutes p msg) s1 else s1 in
        if String.eqb k (sender p) then resetConsecutive s2 else s2
      else if mine then doubleText s1 else s1
  end.

Fixpoint accFor (k : string) (prev : option RawMessage) (msgs : list RawMessage)
  (s : TempSenderStat) : TempSenderStat :=
  match msgs with
  | [] => s
  | m :: rest => accFor k (Some m) rest (stepFor k prev m s)
  end.

(** The streak counters against the runs of the sender. *)
Definition runInv (k : string) (prev : option RawMessage) (cur best : nat)
  (s : TempSenderStat) : Prop :=
  match prev with
  | Some p => if String.eqb (sender p) k then (1 <= cur)%nat else cur = 0%nat
  | None => cur = 0%nat
  end
  /\ (cur <= best)%nat
  /\ Temp.consecutiveCount s = pred cur
  /\ Temp.maxConsecutive s = pred best.

(** What every strategy guarantees about the sender of a message. *)
Definition goodSender (m : RawMessage) : Prop :=
  isValidSender (sender m) = true /\ Js.trim (sender m) = sender m
  /\ sender m <> "".

(** Every accumulator is stored once, under its own name. *)
Definition keyed (m : Obj.t TempSenderStat) : Prop :=
  NoDup (map fst m) /\ Forall (fun e => Temp.name (snd e) = fst e) m.

End Senders.

(** ** Senders of the runs on the small hosts *)

Module Sample.

Definition first (r : ChatAnalysisResult) : SenderStat :=
  hd (senderStat (Temp.fresh "") 0) (senders r).

Definition second (r : ChatAnalysisResult) : SenderStat :=
  nth 1 (senders r) (senderStat (Temp.fresh "") 0).

(** Ann in the demo export. *)
Definition ann : SenderStat := first (DemoRun.result 0).

(** Ben in the export of three days. *)
Definition ben : SenderStat := second DemoRun.threeDaysResult.

(** Ann in the export in which she says [constructor] twice. *)
Definition wordyAnn : SenderStat := first DemoRun.inheritedWordsResult.

(** Ben in the export with a reply after 61.5 seconds. *)
Definition quickBen : SenderStat := second DemoRun.quickReplyResult.

End Sample.

(** ** Counting by key *)

(** The value that a record of counters holds for a key that was counted [n]
    times: nothing when it was never counted. *)
Definition counted (n : nat) : option nat :=
  match n with O => None | S _ => Some n end.

Definition occurrences (k : string) (keys : list string) : nat :=
  List.length (filter (String.eqb k) keys).

Fixpoint forallChars (p : ascii -> bool) (s : string) : bool :=
  match s with
  | EmptyString => true
  | String c r => p c && forallChars p r
  end.

(** A small letter, a digit or the underscore. *)
Definition isKeyChar (c : ascii) : bool :=
  Js.isLower c || Js.isDigit c || (Js.code c =? 95)%N.

(** The words of a text that are counted. *)
Definition countedWords (content : string) : list string :=
  filter (fun w => (1 <? String.length w)%nat && negb (has STOP_WORDS w))
         (splitSpaces (stripPunctuation (Js.toLowerCase content))).

(** What a record of word counters holds for a word that was counted [n]
    times, nothing else having been added: the number [n]; for an inherited
    name the text of the inherited function followed by [n] times the digit
    1; nothing for [__proto__] and for a word that was never counted. *)
Definition countedValue {host : Host} (w : string) (n : nat) : option Js.value :=
  match n with
  | O => None
  | S _ =>
      if String.eqb w "__proto__" then None
      else if Js.isInherited w
           then Some (Js.Str (functionText w ++ Js.repeatChar "1" n))
           else Some (Js.Num n)
  end.


(** ** The outcome of an upload *)

Module Upload.
Section Outcome.
Context {host : Host}.
Variable clock : nat -> Z.

(** How the parses of the files settle, the file at index [i] being parsed
    at [clock i]. *)
Definition outcomes (files : list File.t) : list Settled :=
  mapi (fun file i => App.parseFile file (clock i)) files.

Definition resolved (s : Settled) : option ChatAnalysisResult :=
  match s with Resolved r => Some r | Rejected _ => None end.

(** The last status of a file. *)
Definition settled (file : File.t) (s : Settled) : Progress.t :=
  {| Progress.name := File.name file;
     Progress.status_of :=
       match s with
       | Resolved _ => Progress.complete
       | Rejected _ => Progress.error
       end |}.

End Outcome.
End Upload.

(** Three uploaded files: an empty one, the demo export, and one that the
    reader cannot read. *)
Module SampleFiles.

Definition files : list File.t :=
  [ {| File.name := "empty.html"; File.text := Some "" |};
    {| File.name := "chat.html"; File.text := Some Demo.export |};
    {| File.name := "lost.html"; File.text := None |} ].

Definition fresh : App.State :=
  {| App.results := []; App.status := App.idle; App.error_of := None;
     App.filesProgress := [] |}.

End SampleFiles.

(** ** Successive active days *)

(** The largest step between successive days of a list, starting from
    [prev], and at least [mx]. *)
Fixpoint maxStepFrom (prev : Z) (days : list Z) (mx : Z) : Z :=
  match days with
  | [] => mx
  | d :: rest => maxStepFrom d rest (Z.max mx (d - prev))
  end.

(** [d] and [d'] are active days and no active day lies between them. *)
Definition Successive (days : list Z) (d d' : Z) : Prop :=
  In d days /\ In d' days /\ d < d' /\ forall x, In x days -> ~ (d < x < d').

(** ** What the dashboards are given *)

(** [o[k] || 0] *)
Definition getOr0 (k : string) (o : Obj.t nat) : nat :=
  match Obj.get k o with Some n => n | None => O end.

(** A record of counters read as a record of values. *)
Definition numbers (o : Obj.t nat) : Obj.t Js.value :=
  map (fun e => (fst e, Js.Num (snd e))) o.

Section Parsed.
Context {host : Host}.

(** A result that a parse resolved with. *)
Definition Parsed (r : ChatAnalysisResult) : Prop :=
  exists fileName text now, parseChatFile fileName text now = Resolved r.

End Parsed.

(** The senders of all results that carry the name [k]. *)
Definition named (k : string) (all : list SenderStat) : list SenderStat :=
  filter (fun s => String.eqb (name s) k) all.

(** Two results of the demo export, parsed a second apart, and a record of
    six counters. *)
Module SampleResults.

Definition twice : list ChatAnalysisResult :=
  [DemoRun.result 0; DemoRun.result 1000].

Definition six : Obj.t nat :=
  [("x", 3); ("y", 5); ("z", 1); ("u", 2); ("v", 4); ("w", 6)]%nat.

End SampleResults.


(** ** Order of first appearance *)

(** The distinct names of a list in the order in which they first occur. *)
Definition firstSeen (names : list string) : list string :=
  fold_left (fun seen k => addKey k seen) names [].


(** The run on the export of Ann once and then Ben twice, and Ben in it. *)
Module SampleOrder.

Definition result : ChatAnalysisResult :=
  analyze (host := Demo.scripted Demo.annBenBen) "chat.html" 0 0%nat
          "Telegram Export"
          (fst (extractMessages (host := Demo.scripted Demo.annBenBen) 0%nat)).

Definition ben : SenderStat := Sample.first result.

End SampleOrder.

(** ** The first revision of the parser *)

Module FirstRevision.

Section Steps.
Context {host : Host}.

(** The entry that [getSenderEntry] hands out: the stored one, or a fresh
    one. *)
Definition entryOr (k : string) (d : Obj.t Revision1.Entry.t) : Revision1.Entry.t :=
  match Obj.get k d with Some e => e | None => Revision1.Entry.fresh end.

(** What the content of one element does to an entry: it keeps the count
    and adds at most one reel and at most one attachment. *)
Definition gentle (g : Revision1.Entry.t -> Revision1.Entry.t) : Prop :=
  forall e,
    Revision1.Entry.count (g e) = Revision1.Entry.count e
    /\ (Revision1.Entry.reelCount e <= Revision1.Entry.reelCount (g e)
        <= S (Revision1.Entry.reelCount e))%nat
    /\ (Revision1.Entry.attachmentCount e <= Revision1.Entry.attachmentCount (g e)
        <= S (Revision1.Entry.attachmentCount e))%nat.

Definition goodEntry (e : string * Revision1.Entry.t) : Prop :=
  fst e <> ""
  /\ Revision1.isValidSender (fst e) = true
  /\ (1 <= Revision1.Entry.count (snd e))%nat
  /\ (Revision1.Entry.reelCount (snd e) <= Revision1.Entry.count (snd e))%nat
  /\ (Revision1.Entry.attachmentCount (snd e) <= Revision1.Entry.count (snd e))%nat
  /\ Js.isInherited (fst e) = false.

(** The name that the Telegram strategy reads in a message. *)
Definition telegramName (msg : node) : string :=
  match querySelector msg ".from_name" with
  | Some fromNode => Js.trim (textContent fromNode)
  | None => ""
  end.

(** No element of the document names its sender as an inherited member. *)
Definition plainNames (doc : node) : Prop :=
  Forall (fun el => Js.isInherited (Revision1.pamName el) = false)
         (querySelectorAll doc ".pam")
  /\ Forall (fun msg => Js.isInherited (telegramName msg) = false)
            (querySelectorAll doc ".message").

Definition entriesTotal (d : Obj.t Revision1.Entry.t) : nat :=
  list_sum (map (fun e => Revision1.Entry.count (snd e)) d).

(** [st'] is [st] after one more message of [name], of the Telegram strategy
    or of the first one.  The message is counted in the total; it is counted
    in an entry unless the name is an inherited one. *)
Definition advances (telegram : bool) (name : string) (st st' : Revision1.Scan.t)
  : Prop :=
  exists g,
    name <> "" /\ Revision1.isValidSender name = true /\ gentle g
    /\ Revision1.Scan.senderData st'
       = (if Obj.inherits name (Revision1.Scan.senderData st)
          then Revision1.Scan.senderData st
          else Obj.set name
                       (g (Revision1.Entry.countUp
                             (entryOr name (Revision1.Scan.senderData st))))
                       (Revision1.Scan.senderData st))
    /\ Revision1.Scan.totalCount st' = S (Revision1.Scan.totalCount st)
    /\ Revision1.Scan.validPamCount st'
       = (if telegram then Revision1.Scan.validPamCount st
          else S (Revision1.Scan.validPamCount st))
    /\ Revision1.Scan.foundTelegram st'
       = (if telegram then true else Revision1.Scan.foundTelegram st)
    /\ ((Revision1.Scan.hourlyStats st' = Revision1.Scan.hourlyStats st
         /\ Revision1.Scan.timelineStats st' = Revision1.Scan.timelineStats st)
        \/ exists t,
             Revision1.Scan.hourlyStats st'
             = Obj.incr (Js.ofZ (getHours t)) (Revision1.Scan.hourlyStats st)
             /\ Revision1.Scan.timelineStats st'
                = Obj.incr (dayKey t) (Revision1.Scan.timelineStats st)).

(** The entries are stored once each, under valid names, and add up to no
    more than the total; the histograms hold the messages with a date. *)
Definition sound (st : Revision1.Scan.t) : Prop :=
  NoDup (map fst (Revision1.Scan.senderData st))
  /\ Forall goodEntry (Revision1.Scan.senderData st)
  /\ (entriesTotal (Revision1.Scan.senderData st) <= Revision1.Scan.totalCount st)%nat
  /\ Obj.total (Revision1.Scan.hourlyStats st)
     = Obj.total (Revision1.Scan.timelineStats st)
  /\ (Obj.total (Revision1.Scan.hourlyStats st) <= Revision1.Scan.totalCount st)%nat.

(** Every message that the total counts is counted in an entry. *)
Definition complete (st : Revision1.Scan.t) : Prop :=
  entriesTotal (Revision1.Scan.senderData st) = Revision1.Scan.totalCount st.

(** The label agrees with the counters. *)
Definition labelled (st : Revision1.Scan.t) : Prop :=
  (Revision1.Scan.foundTelegram st = false
   /\ Revision1.Scan.validPamCount st = Revision1.Scan.totalCount st)
  \/ (Revision1.Scan.foundTelegram st = true
      /\ (0 < Revision1.Scan.totalCount st)%nat).

End Steps.

(** The results on the export of Ann once and then Ben twice, and on the
    page in which no selector finds anything. *)
Definition annBenBen : Revision1.Result.t :=
  Revision1.resultOf (host := Demo.scripted Demo.annBenBen) "chat.html" 0 0%nat.

Definition blank : Revision1.Result.t :=
  Revision1.resultOf (host := Demo.blankHost) "chat.html" 0 tt.

End FirstRevision.

(** * Properties *)

(** Linear arithmetic on rationals given by numerator and denominator. *)
Ltac qlia :=
  unfold Qle, Qlt, Qeq, Qmult, Qplus, inject_Z; cbn [Qnum Qden];
  rewrite ?Pos2Z.inj_mul; lia.

(** ** Objects *)

Section ObjFacts.
Variable V : Type.
Implicit Types (o : Obj.t V) (k : string) (v : V).

Lemma get_set_same k v o : Obj.get k (Obj.set k v o) = Some v.
Proof.
  induction o as [|[k' v'] o IH]; simpl.
  - now rewrite String.eqb_refl.
  - destruct (String.eqb k k') eqn:E; simpl; rewrite E; auto.
Qed.

Lemma get_set_other k k' v o :
  k <> k' -> Obj.get k (Obj.set k' v o) = Obj.get k o.
Proof.
  intros Hne. pose proof Hne as Hb. apply String.eqb_neq in Hb.
  induction o as [|[k0 v0] o IH]; simpl.
  - now rewrite Hb.
  - destruct (String.eqb k' k0) eqn:E; simpl.
    + apply String.eqb_eq in E; subst k0. now rewrite Hb.
    + now rewrite IH.
Qed.

Lemma get_modify_same k f o v :
  Obj.get k o = Some v -> Obj.get k (Obj.modify k f o) = Some (f v).
Proof. intros H. unfold Obj.modify. rewrite H. apply get_set_same. Qed.

Lemma get_modify_other k k' f o :
  k <> k' -> Obj.get k (Obj.modify k' f o) = Obj.get k o.
Proof.
  intros Hne. unfold Obj.modify.
  destruct (Obj.get k' o); auto using get_set_other.
Qed.

(** Replacing the value of an own key moves a sum by the difference. *)
Lemma sum_set_present (g : V -> nat) k v v' o :
  Obj.get k o = Some v ->
  (list_sum (map (fun e => g (snd e)) (Obj.set k v' o)) + g v
   = list_sum (map (fun e => g (snd e)) o) + g v')%nat.
Proof.
  induction o as [|[k0 v0] o IH]; simpl; [discriminate|].
  destruct (String.eqb k k0); simpl.
  - intros [= ->]. lia.
  - intros H. specialize (IH H). lia.
Qed.

Lemma sum_set_absent (g : V -> nat) k v' o :
  Obj.get k o = None ->
  list_sum (map (fun e => g (snd e)) (Obj.set k v' o))
  = (list_sum (map (fun e => g (snd e)) o) + g v')%nat.
Proof.
  induction o as [|[k0 v0] o IH]; simpl; [lia|].
  destruct (String.eqb k k0); simpl; [discriminate|].
  intros H. rewrite (IH H). lia.
Qed.

Lemma Forall_set (P : V -> Prop) k v o :
  P v -> Forall (fun e => P (snd e)) o ->
  Forall (fun e => P (snd e)) (Obj.set k v o).
Proof.
  intros Hv. induction 1 as [|[k0 v0] o H0 Ho IH]; simpl.
  - constructor; auto.
  - destruct (String.eqb k k0); constructor; auto.
Qed.

Lemma get_In k v o : Obj.get k o = Some v -> In v (map snd o).
Proof.
  induction o as [|[k0 v0] o IH]; simpl; [discriminate|].
  destruct (String.eqb k k0).
  - intros [= ->]. now left.
  - intros H. right. auto.
Qed.

Lemma Forall_modify (P : V -> Prop) k f o :
  (forall v, P v -> P (f v)) -> Forall (fun e => P (snd e)) o ->
  Forall (fun e => P (snd e)) (Obj.modify k f o).
Proof.
  intros Hf Ho. unfold Obj.modify.
  destruct (Obj.get k o) as [v|] eqn:E; auto.
  apply Forall_set; auto. apply Hf.
  apply get_In in E. apply in_map_iff in E as [e [<- He]].
  rewrite Forall_forall in Ho. now apply Ho.
Qed.

Lemma insertByIndex_perm (e : string * V) l :
  Permutation (Obj.insertByIndex e l) (e :: l).
Proof.
  induction l as [|e' l IH]; simpl; auto.
  destruct (Obj.indexOf e <=? Obj.indexOf e')%N; auto.
  rewrite IH. apply perm_swap.
Qed.

Lemma sortByIndex_perm (l : Obj.t V) : Permutation (Obj.sortByIndex l) l.
Proof.
  induction l as [|e l IH]; simpl; auto.
  rewrite insertByIndex_perm. now constructor.
Qed.

Lemma filter_split_perm (A : Type) (p : A -> bool) (l : list A) :
  Permutation (filter p l ++ filter (fun x => negb (p x)) l) l.
Proof.
  induction l as [|x l IH]; simpl; auto.
  destruct (p x); simpl.
  - now constructor.
  - rewrite <- Permutation_middle. now constructor.
Qed.

(** Enumeration reorders the entries and loses none. *)
Lemma entries_perm o : Permutation (Obj.entries o) o.
Proof.
  unfold Obj.entries. rewrite sortByIndex_perm. apply filter_split_perm.
Qed.

Lemma values_perm o : Permutation (Obj.values o) (map snd o).
Proof. unfold Obj.values. apply Permutation_map, entries_perm. Qed.

Lemma keys_perm o : Permutation (Obj.keys o) (map fst o).
Proof. unfold Obj.keys. apply Permutation_map, entries_perm. Qed.

End ObjFacts.

Lemma total_incr k (o : Obj.t nat) : Obj.total (Obj.incr k o) = S (Obj.total o).
Proof.
  unfold Obj.total, Obj.incr.
  change (@snd string nat) with (fun e : string * nat => snd e).
  destruct (Obj.get k o) as [n|] eqn:E.
  - pose proof (sum_set_present (fun x => x) k (S n) o E) as H.
    cbv beta in H. lia.
  - pose proof (sum_set_absent (fun x => x) k 1%nat o E) as H.
    cbv beta in H. lia.
Qed.

(** ** Sorting *)

Section SortFacts.
Variable A : Type.
Variable before : A -> A -> bool.

Lemma sortedInsert_perm x l : Permutation (sortedInsert before x l) (x :: l).
Proof.
  induction l as [|y l IH]; simpl; auto.
  destruct (before x y); auto.
  rewrite IH. apply perm_swap.
Qed.

Lemma stableSort_perm l : Permutation (stableSort before l) l.
Proof.
  induction l as [|x l IH]; simpl; auto.
  rewrite sortedInsert_perm. now constructor.
Qed.

Lemma stableSort_length l : List.length (stableSort before l) = List.length l.
Proof. apply Permutation_length, stableSort_perm. Qed.

Lemma stableSort_nil_inv l : stableSort before l = [] -> l = [].
Proof.
  intros H. apply length_zero_iff_nil.
  rewrite <- stableSort_length, H. reflexivity.
Qed.

Hypothesis before_total : forall a b, before a b = true \/ before b a = true.
Hypothesis before_trans :
  forall a b c, before a b = true -> before b c = true -> before a c = true.

Lemma sortedInsert_sorted x l :
  StronglySorted (fun a b => before a b = true) l ->
  StronglySorted (fun a b => before a b = true) (sortedInsert before x l).
Proof.
  induction 1 as [|y l Hs IH Hy]; simpl.
  - repeat constructor.
  - destruct (before x y) eqn:E.
    + constructor; [constructor; auto|].
      constructor; auto.
      rewrite Forall_forall in *. eauto.
    + constructor; auto.
      rewrite Forall_forall in *. intros z Hz.
      apply (Permutation_in _ (sortedInsert_perm x l)) in Hz.
      destruct Hz as [<-|Hz]; auto.
      destruct (before_total x y) as [H|H]; congruence.
Qed.

Lemma stableSort_sorted l :
  StronglySorted (fun a b => before a b = true) (stableSort before l).
Proof.
  induction l; simpl; [constructor | now apply sortedInsert_sorted].
Qed.

End SortFacts.

Lemma sortedInsert_map (A B : Type) (f : A -> B) before before' x l :
  (forall y, In y l -> before' (f x) (f y) = before x y) ->
  sortedInsert before' (f x) (map f l) = map f (sortedInsert before x l).
Proof.
  induction l as [|y l IH]; intros H; simpl; auto.
  rewrite H by now left.
  destruct (before x y); simpl; auto.
  rewrite IH; auto. intros z Hz. apply H. now right.
Qed.

(** Sorting commutes with a map that carries one order to the other. *)
Lemma stableSort_map (A B : Type) (f : A -> B) before before' l :
  (forall x y, In x l -> In y l -> before' (f x) (f y) = before x y) ->
  stableSort before' (map f l) = map f (stableSort before l).
Proof.
  induction l as [|x l IH]; intros H; simpl; auto.
  rewrite IH by (intros; apply H; now right).
  apply sortedInsert_map. intros y Hy. apply H; [now left|].
  right. exact (Permutation_in _ (stableSort_perm before l) Hy).
Qed.

Lemma sorted_NoDup_strict (l : list Z) :
  StronglySorted (fun a b => (a <=? b) = true) l -> NoDup l ->
  StronglySorted Z.lt l.
Proof.
  induction 1 as [|x l Hs IH Hx]; intros Hn; constructor.
  - apply IH. now inversion Hn.
  - inversion Hn as [|? ? Hnot _]; subst.
    rewrite Forall_forall in *. intros y Hy.
    specialize (Hx y Hy). apply Z.leb_le in Hx.
    assert (x <> y) by (intros ->; auto). lia.
Qed.

Lemma In_mapi_from (A B : Type) (f : A -> nat -> B) (y : B) :
  forall l i, In y (mapi_from f i l) -> exists x j, In x l /\ y = f x j.
Proof.
  induction l as [|x l IH]; intros i; simpl; [tauto|].
  intros [<-|H].
  - exists x, i. auto.
  - destruct (IH _ H) as (x' & j & Hx & ->). exists x', j. auto.
Qed.

Lemma mapi_from_map (A B C : Type) (f : A -> nat -> B) (g : B -> C) (h : A -> C) :
  (forall x i, g (f x i) = h x) ->
  forall l i, map g (mapi_from f i l) = map h l.
Proof.
  intros Hf. induction l as [|x l IH]; intros i; simpl; auto.
  now rewrite Hf, IH.
Qed.

(** ** Regular expressions: the tests decide the language *)

Module ReFacts.
Import Re.

Lemma append_empty_inv s1 s2 : s1 ++ s2 = "" -> s1 = "" /\ s2 = "".
Proof. destruct s1; simpl; [auto | discriminate]. Qed.

Lemma append_cons_inv s1 s2 c s :
  s1 ++ s2 = String c s ->
  (s1 = "" /\ s2 = String c s) \/ (exists s1', s1 = String c s1' /\ s = s1' ++ s2).
Proof.
  destruct s1 as [|c1 s1]; simpl; intros H.
  - left. auto.
  - right. injection H as -> <-. eauto.
Qed.

Lemma nullable_sound r : nullable r = true -> Matches r "".
Proof.
  induction r; simpl; intros H; try discriminate.
  - constructor.
  - apply andb_prop in H as [H1 H2].
    change "" with ("" ++ ""). constructor; auto.
  - apply orb_prop in H as [H|H]; [apply MAltL | apply MAltR]; auto.
  - constructor.
Qed.

Lemma nullable_complete r s : Matches r s -> s = "" -> nullable r = true.
Proof.
  induction 1; intros E; simpl; auto; try discriminate.
  - apply append_empty_inv in E as [-> ->]. rewrite IHMatches1, IHMatches2; auto.
  - rewrite IHMatches; auto.
  - rewrite IHMatches; auto using orb_true_r.
Qed.

Lemma nullable_spec r : nullable r = true <-> Matches r "".
Proof. split; [apply nullable_sound | intros H; eapply nullable_complete; eauto]. Qed.

Lemma deriv_sound c r : forall s, Matches (deriv c r) s -> Matches r (String c s).
Proof.
  induction r; simpl; intros s H.
  - inversion H.
  - inversion H.
  - destruct (b c) eqn:E; inversion H; subst. now constructor.
  - assert (Hseq : forall s, Matches (Seq (deriv c r1) r2) s ->
                             Matches (Seq r1 r2) (String c s)).
    { intros s0 H0. inversion H0; subst.
      change (String c (s1 ++ s2)) with (String c s1 ++ s2).
      constructor; auto. }
    destruct (nullable r1) eqn:E; auto.
    inversion H; subst; auto.
    change (String c s) with ("" ++ String c s).
    constructor; auto using nullable_sound.
  - inversion H; subst; [apply MAltL | apply MAltR]; auto.
  - inversion H; subst.
    change (String c (s1 ++ s2)) with (String c s1 ++ s2).
    constructor; auto.
Qed.

Lemma deriv_complete r w :
  Matches r w -> forall c s, w = String c s -> Matches (deriv c r) s.
Proof.
  induction 1; intros c0 s0 E; simpl; try discriminate.
  - injection E as -> <-. rewrite H. constructor.
  - apply append_cons_inv in E as [[-> ->]|(s1' & -> & ->)].
    + rewrite (nullable_complete H eq_refl). apply MAltR. eauto.
    + assert (Hs : Matches (Seq (deriv c0 a) b) (s1' ++ s2))
        by (constructor; eauto).
      destruct (nullable a); [apply MAltL|]; exact Hs.
  - apply MAltL. eauto.
  - apply MAltR. eauto.
  - simpl in E. injection E as -> <-. constructor; eauto.
Qed.

Lemma deriv_spec c r s : Matches (deriv c r) s <-> Matches r (String c s).
Proof. split; [apply deriv_sound | intros H; eapply deriv_complete; eauto]. Qed.

(** [testWhole] decides membership. *)
Lemma testWhole_spec s : forall r, testWhole r s = true <-> Matches r s.
Proof.
  induction s as [|c s IH]; intros r; simpl.
  - apply nullable_spec.
  - rewrite IH. apply deriv_spec.
Qed.

(** [testStart] decides whether a prefix is a member. *)
Lemma testStart_spec s : forall r, testStart r s = true <-> StartsWith r s.
Proof.
  unfold StartsWith. induction s as [|c s IH]; intros r; simpl.
  - rewrite orb_false_r, nullable_spec. split.
    + intros H. exists "", "". auto.
    + intros (p & q & E & H). symmetry in E.
      apply append_empty_inv in E as [-> _]. exact H.
  - rewrite orb_true_iff, nullable_spec, IH. split.
    + intros [H|(p & q & -> & H)].
      * exists "", (String c s). auto.
      * exists (String c p), q. split; auto. now apply deriv_spec.
    + intros (p & q & E & H). symmetry in E.
      apply append_cons_inv in E as [[-> _]|(p' & -> & ->)]; auto.
      right. exists p', q. split; auto. now apply deriv_spec.
Qed.

Lemma prefix_spec sub : forall s, prefix sub s = true <-> exists b, s = sub ++ b.
Proof.
  induction sub as [|c sub IH]; intros s.
  - destruct s; simpl; (split; [intros _; eexists; reflexivity | reflexivity]).
  - destruct s as [|c' s]; simpl.
    + split; [discriminate | intros (b & E); discriminate].
    + destruct (ascii_dec c c') as [->|Hne].
      * rewrite IH. split; intros (b & E); exists b; congruence.
      * split; [discriminate | intros (b & E); congruence].
Qed.

(** [includes] decides whether the string has the given substring. *)
Lemma includes_spec sub s :
  Js.includes sub s = true <-> exists a b, s = a ++ sub ++ b.
Proof.
  induction s as [|c s IH].
  - change (Js.includes sub "") with (prefix sub "" || false).
    rewrite orb_false_r, prefix_spec. split.
    + intros (b & E). exists "", b. exact E.
    + intros (a & b & E). symmetry in E.
      apply append_empty_inv in E as [-> E]. eauto.
  - change (Js.includes sub (String c s))
      with (prefix sub (String c s) || Js.includes sub s).
    rewrite orb_true_iff, prefix_spec, IH. split.
    + intros [(b & E)|(a & b & ->)].
      * exists "", b. exact E.
      * exists (String c a), b. reflexivity.
    + intros (a & b & E). destruct a as [|c' a]; simpl in E.
      * left. eauto.
      * right. injection E as -> ->. eauto.
Qed.

Lemma has_spec l x : has l x = true <-> In x l.
Proof.
  unfold has. rewrite existsb_exists. split.
  - intros (y & Hy & E). apply String.eqb_eq in E. now subst.
  - intros H. exists x. split; auto. apply String.eqb_refl.
Qed.

End ReFacts.


(** ** The calendar *)

Module CalFacts.
Import Cal Dates.

Lemma allFrom_spec p n : forall i,
  allFrom n i p = true -> forall k, i <= k < i + Z.of_nat n -> p k = true.
Proof.
  induction n as [|n IH]; intros i H k Hk.
  - simpl in Hk. lia.
  - simpl in H. apply andb_prop in H as [Hi Hrest].
    destruct (Z.eq_dec k i) as [->|Hne]; auto.
    apply (IH (i + 1) Hrest). lia.
Qed.

Lemma dateLt_iff y1 m1 d1 y2 m2 d2 :
  dateLt (y1, m1, d1) (y2, m2, d2) = true
  <-> y1 < y2 \/ (y1 = y2 /\ (m1 < m2 \/ (m1 = m2 /\ d1 < d2))).
Proof.
  unfold dateLt.
  now rewrite !orb_true_iff, !andb_true_iff, !orb_true_iff, !andb_true_iff,
              !Z.ltb_lt, !Z.eqb_eq.
Qed.

Lemma dateLt_trans a b c : dateLt a b = true -> dateLt b c = true -> dateLt a c = true.
Proof.
  destruct a as [[y1 m1] d1], b as [[y2 m2] d2], c as [[y3 m3] d3].
  rewrite !dateLt_iff. lia.
Qed.

Lemma dateLt_irrefl a : dateLt a a = false.
Proof.
  destruct a as [[y m] d]. apply not_true_iff_false. rewrite dateLt_iff. lia.
Qed.

Lemma year_checked : allFrom 366 0 checkDoy = true.
Proof. vm_compute. reflexivity. Qed.

Lemma doy_checked doy : 0 <= doy <= 365 -> checkDoy doy = true.
Proof.
  intros H. apply (@allFrom_spec checkDoy _ 0 year_checked).
  replace (Z.of_nat 366) with 366 by reflexivity. lia.
Qed.

Lemma era_bounds doe :
  0 <= doe < 146097 -> 0 <= yearOfEra doe <= 399 /\ 0 <= dayOfYear doe <= 365.
Proof.
  unfold dayOfYear, yearOfEra. intros H. Z.div_mod_to_equations. lia.
Qed.

Lemma leap_day doe :
  0 <= doe < 146097 -> dayOfYear doe = 365 -> isLeap (yearOfEra doe + 1) = true.
Proof.
  unfold isLeap, dayOfYear, yearOfEra. intros H E.
  rewrite andb_true_iff, orb_true_iff, negb_true_iff, !Z.eqb_eq, Z.eqb_neq.
  Z.div_mod_to_equations. lia.
Qed.

Lemma yearOfEra_monotone a b : 0 <= a <= b -> yearOfEra a <= yearOfEra b.
Proof. unfold yearOfEra. intros H. Z.div_mod_to_equations. lia. Qed.

Lemma daysInMonth_not_february y m : m <> 2 -> daysInMonth y m = daysInMonth 1 m.
Proof. intros H. unfold daysInMonth. apply Z.eqb_neq in H. now rewrite H. Qed.

Lemma daysInMonth_february y : 28 <= daysInMonth y 2.
Proof. unfold daysInMonth. simpl. destruct (isLeap y); lia. Qed.

(** The date of a day of an era: its fields are in range, [fromCivil] leads
    back to the day, and the first and last calendar years of the era hold
    only its last and first months. *)
Lemma civilOfDoe_valid doe :
  0 <= doe < 146097 ->
  let '(y, m, d) := civilOfDoe doe in
  0 <= y <= 400 /\ 1 <= m <= 12 /\ 1 <= d <= daysInMonth y m
  /\ fromCivil y m d = doe - 719468
  /\ (y = 400 -> m <= 2) /\ (y = 0 -> 3 <= m).
Proof.
  intros H. destruct (era_bounds H) as [Hy Hd].
  pose proof (doy_checked Hd) as Hc. pose proof (leap_day H) as Hleap.
  unfold civilOfDoe, checkDoy in *.
  assert (Hdoe : doe = 365 * yearOfEra doe + yearOfEra doe / 4
                       - yearOfEra doe / 100 + dayOfYear doe)
    by (unfold dayOfYear; lia).
  destruct (monthDay (dayOfYear doe)) as [m d].
  rewrite !andb_true_iff, !Z.leb_le, Z.eqb_eq in Hc.
  destruct Hc as (((((M1 & M2) & D1) & D2) & Hback) & _).
  assert (Hlen : d <= daysInMonth (if m <=? 2 then yearOfEra doe + 1 else yearOfEra doe) m).
  { destruct (Z.eqb_spec m 2) as [->|Hm].
    - simpl. destruct (Z.eqb_spec (dayOfYear doe) 365) as [E|E].
      + unfold daysInMonth. simpl. now rewrite (Hleap E).
      + pose proof (daysInMonth_february (yearOfEra doe + 1)). lia.
    - now rewrite daysInMonth_not_february. }
  assert (Hfrom : fromCivil (if m <=? 2 then yearOfEra doe + 1 else yearOfEra doe) m d
                  = doe - 719468).
  { unfold fromCivil.
    replace (if m <=? 2
             then (if m <=? 2 then yearOfEra doe + 1 else yearOfEra doe) - 1
             else (if m <=? 2 then yearOfEra doe + 1 else yearOfEra doe))
      with (yearOfEra doe) by (destruct (m <=? 2); lia).
    rewrite Z.div_small, Z.mod_small by lia. lia. }
  destruct (Z.leb_spec m 2); repeat split; try lia.
Qed.

Lemma marchLt_trans a b c :
  marchLt a b = true -> marchLt b c = true -> marchLt a c = true.
Proof.
  destruct a as [m1 d1], b as [m2 d2], c as [m3 d3]. unfold marchLt. simpl.
  rewrite !orb_true_iff, !andb_true_iff, !Z.ltb_lt, !Z.eqb_eq.
  destruct (Z.leb_spec m1 2), (Z.leb_spec m2 2), (Z.leb_spec m3 2); lia.
Qed.

Lemma monthDay_step doy :
  0 <= doy < 365 -> marchLt (monthDay doy) (monthDay (doy + 1)) = true.
Proof.
  intros H.
  assert (Hc : checkDoy doy = true) by (apply doy_checked; lia).
  unfold checkDoy in Hc. destruct (monthDay doy) as [m d].
  rewrite !andb_true_iff in Hc. destruct Hc as [_ Hc].
  apply orb_prop in Hc as [Hc|Hc]; [apply Z.leb_le in Hc; lia | exact Hc].
Qed.

(** Within a year later days are later in the order that begins in March. *)
Lemma monthDay_monotone n : forall doy,
  0 <= doy -> doy + Z.of_nat (S n) <= 365 ->
  marchLt (monthDay doy) (monthDay (doy + Z.of_nat (S n))) = true.
Proof.
  induction n as [|n IH]; intros doy H0 H1.
  - apply monthDay_step. lia.
  - apply marchLt_trans with (b := monthDay (doy + Z.of_nat (S n))).
    + apply IH; lia.
    + replace (doy + Z.of_nat (S (S n))) with (doy + Z.of_nat (S n) + 1) by lia.
      apply monthDay_step. lia.
Qed.

(** Within an era later days are later dates. *)
Lemma era_monotone doe1 doe2 :
  0 <= doe1 -> doe1 < doe2 -> doe2 < 146097 ->
  dateLt (civilOfDoe doe1) (civilOfDoe doe2) = true.
Proof.
  intros H0 Hlt H1.
  assert (R1 : 0 <= doe1 < 146097) by lia. assert (R2 : 0 <= doe2 < 146097) by lia.
  pose proof (civilOfDoe_valid R1) as V1. pose proof (civilOfDoe_valid R2) as V2.
  destruct (era_bounds R1) as [Y1 D1]. destruct (era_bounds R2) as [Y2 D2].
  assert (Hy : yearOfEra doe1 <= yearOfEra doe2) by (apply yearOfEra_monotone; lia).
  assert (Hm : yearOfEra doe1 = yearOfEra doe2 ->
               marchLt (monthDay (dayOfYear doe1)) (monthDay (dayOfYear doe2)) = true).
  { intros E.
    assert (Hd : dayOfYear doe1 < dayOfYear doe2)
      by (unfold dayOfYear; rewrite E; lia).
    replace (dayOfYear doe2)
      with (dayOfYear doe1
            + Z.of_nat (S (Z.to_nat (dayOfYear doe2 - dayOfYear doe1 - 1)))) by lia.
    apply monthDay_monotone; lia. }
  unfold civilOfDoe in *.
  destruct (monthDay (dayOfYear doe1)) as [m1 d1].
  destruct (monthDay (dayOfYear doe2)) as [m2 d2].
  unfold marchLt in Hm. simpl in Hm.
  rewrite orb_true_iff, andb_true_iff, !Z.ltb_lt, Z.eqb_eq in Hm.
  rewrite dateLt_iff.
  destruct (Z.leb_spec m1 2), (Z.leb_spec m2 2); lia.
Qed.

Lemma fromCivil_shift y m d e :
  fromCivil (y + 400 * e) m d = fromCivil y m d + 146097 * e.
Proof.
  unfold fromCivil.
  assert (H : (if m <=? 2 then y + 400 * e - 1 else y + 400 * e)
              = (if m <=? 2 then y - 1 else y) + e * 400)
    by (destruct (m <=? 2); ring).
  rewrite H, Z.div_add, Z_mod_plus_full by lia. ring.
Qed.

Lemma isLeap_shift y e : isLeap (y + 400 * e) = isLeap y.
Proof.
  unfold isLeap.
  replace ((y + 400 * e) mod 4) with (y mod 4)
    by (replace (400 * e) with (100 * e * 4) by ring; now rewrite Z_mod_plus_full).
  replace ((y + 400 * e) mod 100) with (y mod 100)
    by (replace (400 * e) with (4 * e * 100) by ring; now rewrite Z_mod_plus_full).
  replace ((y + 400 * e) mod 400) with (y mod 400)
    by (replace (400 * e) with (e * 400) by ring; now rewrite Z_mod_plus_full).
  reflexivity.
Qed.

Lemma daysInMonth_shift y m e : daysInMonth (y + 400 * e) m = daysInMonth y m.
Proof. unfold daysInMonth. now rewrite isLeap_shift. Qed.

(** The fields of a date are in range and [fromCivil] leads back to the
    day. *)
Lemma civil_valid day :
  let '(y, m, d) := civil day in
  1 <= m <= 12 /\ 1 <= d <= daysInMonth y m /\ fromCivil y m d = day.
Proof.
  unfold civil.
  pose proof (Z.mod_pos_bound (day + 719468) 146097 eq_refl) as Hdoe.
  pose proof (Z.div_mod (day + 719468) 146097) as Hz.
  pose proof (civilOfDoe_valid Hdoe) as Hc.
  destruct (civilOfDoe ((day + 719468) mod 146097)) as [[y m] d].
  rewrite daysInMonth_shift, fromCivil_shift. lia.
Qed.

(** Later days are later dates. *)
Lemma civil_monotone day1 day2 :
  day1 < day2 -> dateLt (civil day1) (civil day2) = true.
Proof.
  intros Hlt. unfold civil.
  set (z1 := day1 + 719468). set (z2 := day2 + 719468).
  pose proof (Z.mod_pos_bound z1 146097 eq_refl) as Hd1.
  pose proof (Z.mod_pos_bound z2 146097 eq_refl) as Hd2.
  pose proof (Z.div_mod z1 146097) as Hz1.
  pose proof (Z.div_mod z2 146097) as Hz2.
  pose proof (civilOfDoe_valid Hd1) as V1. pose proof (civilOfDoe_valid Hd2) as V2.
  destruct (Z.eq_dec (z1 / 146097) (z2 / 146097)) as [He|He].
  - assert (Hm : dateLt (civilOfDoe (z1 mod 146097)) (civilOfDoe (z2 mod 146097)) = true)
      by (apply era_monotone; lia).
    rewrite He.
    destruct (civilOfDoe (z1 mod 146097)) as [[y1 m1] d1].
    destruct (civilOfDoe (z2 mod 146097)) as [[y2 m2] d2].
    rewrite dateLt_iff in *. lia.
  - assert (Hl : z1 / 146097 < z2 / 146097) by lia.
    destruct (civilOfDoe (z1 mod 146097)) as [[y1 m1] d1].
    destruct (civilOfDoe (z2 mod 146097)) as [[y2 m2] d2].
    rewrite dateLt_iff. lia.
Qed.

(** The order of days is the order of dates. *)
Lemma civil_order day1 day2 :
  (day1 <=? day2) = negb (dateLt (civil day2) (civil day1)).
Proof.
  destruct (Z_lt_le_dec day2 day1) as [H|H].
  - rewrite (civil_monotone H). apply Z.leb_gt. exact H.
  - replace (day1 <=? day2) with true by (symmetry; apply Z.leb_le; lia).
    destruct (Z.eq_dec day1 day2) as [->|Hne].
    + now rewrite dateLt_irrefl.
    + assert (Hm : dateLt (civil day1) (civil day2) = true)
        by (apply civil_monotone; lia).
      destruct (dateLt (civil day2) (civil day1)) eqn:E; auto.
      pose proof (dateLt_trans _ _ _ Hm E) as Hcyc.
      rewrite dateLt_irrefl in Hcyc. discriminate.
Qed.

End CalFacts.

(** ** Day keys *)

Module KeyFacts.
Import Cal Dates CalFacts.

Lemma years_checked : allFrom (Z.to_nat 9000) 1000 checkYear = true.
Proof. vm_compute. reflexivity. Qed.

Lemma twos_checked : allFrom 31 1 checkTwo = true.
Proof. vm_compute. reflexivity. Qed.

Lemma daysInMonth_le_31 y m : daysInMonth y m <= 31.
Proof.
  unfold daysInMonth.
  destruct (m =? 2); [destruct (isLeap y); lia|].
  destruct ((m =? 4) || (m =? 6) || (m =? 9) || (m =? 11)); lia.
Qed.

Lemma isoKey_shape day :
  fourDigitYear day ->
  keyShape (isoKey day) (fst (fst (civil day))) (snd (fst (civil day))) (snd (civil day)).
Proof.
  unfold fourDigitYear, isoKey. pose proof (civil_valid day) as Hv.
  destruct (civil day) as [[y m] d]. simpl fst; simpl snd. intros Hy.
  destruct Hv as (Hm & Hd & _). pose proof (daysInMonth_le_31 y m) as H31.
  assert (Cy : checkYear y = true).
  { apply (@allFrom_spec checkYear _ 1000 years_checked).
    rewrite Z2Nat.id; lia. }
  assert (Cm : checkTwo m = true).
  { apply (@allFrom_spec checkTwo _ 1 twos_checked).
    replace (Z.of_nat 31) with 31 by reflexivity. lia. }
  assert (Cd : checkTwo d = true).
  { apply (@allFrom_spec checkTwo _ 1 twos_checked).
    replace (Z.of_nat 31) with 31 by reflexivity. lia. }
  unfold checkYear in Cy. unfold checkTwo in Cm, Cd.
  destruct (Js.ofZ y) as [|a1 [|a2 [|a3 [|a4 [|? ?]]]]]; try discriminate.
  destruct (pad 2 m) as [|b1 [|b2 [|? ?]]]; try discriminate.
  destruct (pad 2 d) as [|c1 [|c2 [|? ?]]]; try discriminate.
  rewrite !andb_true_iff, Z.eqb_eq in Cy.
  rewrite !andb_true_iff, Z.eqb_eq in Cm.
  rewrite !andb_true_iff, Z.eqb_eq in Cd.
  destruct Cy as ((((D1 & D2) & D3) & D4) & Ey).
  destruct Cm as ((D5 & D6) & Em). destruct Cd as ((D7 & D8) & Ed).
  constructor. exists a1, a2, a3, a4, b1, b2, c1, c2.
  split; [reflexivity|].
  split; [|auto].
  repeat (apply Forall_cons; [assumption|]). apply Forall_nil.
Qed.

Lemma digit_bounds c : Js.isDigit c = true -> 0 <= digitValue c <= 9.
Proof.
  unfold Js.isDigit, Js.inRange, digitValue.
  rewrite andb_true_iff, !N.leb_le. lia.
Qed.

Lemma readDigits_digit c r acc :
  Js.isDigit c = true ->
  Js.readDigits (String c r) acc
  = Js.readDigits r (Z.to_N (10 * Z.of_N acc + digitValue c)).
Proof.
  intros H. cbn [Js.readDigits]. rewrite H. f_equal.
  unfold Js.isDigit, Js.inRange in H. unfold digitValue.
  rewrite andb_true_iff, !N.leb_le in H. lia.
Qed.

(** [new Date] reads a well-formed key back as midnight UTC of its day. *)
Lemma parseIsoDate_key key y m d :
  keyShape key y m d ->
  1 <= m <= 12 -> 1 <= d <= daysInMonth y m ->
  parseIsoDate key = Some (fromCivil y m d * msPerDay).
Proof.
  intros [(a1 & a2 & a3 & a4 & b1 & b2 & c1 & c2 & -> & Hdig & Hy & Hm & Hd)] Rm Rd.
  rewrite !Forall_cons_iff in Hdig.
  destruct Hdig as (D1 & D2 & D3 & D4 & D5 & D6 & D7 & D8 & _).
  pose proof (digit_bounds _ D1). pose proof (digit_bounds _ D2).
  pose proof (digit_bounds _ D3). pose proof (digit_bounds _ D4).
  pose proof (digit_bounds _ D5). pose proof (digit_bounds _ D6).
  pose proof (digit_bounds _ D7). pose proof (digit_bounds _ D8).
  unfold parseIsoDate, keyOf.
  cbn [String.length Nat.eqb negb substring String.eqb Ascii.eqb Bool.eqb andb].
  rewrite !readDigits_digit by assumption.
  cbn [Js.readDigits].
  repeat match goal with
         | |- context [Z.of_N (Z.to_N ?z)] => rewrite (Z2N.id z) by lia
         end.
  change (Z.of_N 0) with 0.
  replace (10 * (10 * (10 * (10 * 0 + digitValue a1) + digitValue a2)
                 + digitValue a3) + digitValue a4) with y by lia.
  replace (10 * (10 * 0 + digitValue b1) + digitValue b2) with m by lia.
  replace (10 * (10 * 0 + digitValue c1) + digitValue c2) with d by lia.
  replace ((1 <=? m) && (m <=? 12) && (1 <=? d) && (d <=? daysInMonth y m)) with true;
    [reflexivity|].
  symmetry. rewrite !andb_true_iff, !Z.leb_le. lia.
Qed.

(** The order of well-formed keys as strings is the order of their dates. *)
Lemma leb_keys key1 y1 m1 d1 key2 y2 m2 d2 :
  keyShape key1 y1 m1 d1 -> keyShape key2 y2 m2 d2 ->
  String.leb key1 key2 = negb (dateLt (y2, m2, d2) (y1, m1, d1)).
Proof.
  intros [(a1 & a2 & a3 & a4 & b1 & b2 & c1 & c2 & -> & Hdig & Hy & Hm & Hd)].
  intros [(a1' & a2' & a3' & a4' & b1' & b2' & c1' & c2' & -> & Hdig' & Hy' & Hm' & Hd')].
  rewrite !Forall_cons_iff in Hdig, Hdig'.
  destruct Hdig as (D1 & D2 & D3 & D4 & D5 & D6 & D7 & D8 & _).
  destruct Hdig' as (E1 & E2 & E3 & E4 & E5 & E6 & E7 & E8 & _).
  pose proof (digit_bounds _ D1). pose proof (digit_bounds _ D2).
  pose proof (digit_bounds _ D3). pose proof (digit_bounds _ D4).
  pose proof (digit_bounds _ D5). pose proof (digit_bounds _ D6).
  pose proof (digit_bounds _ D7). pose proof (digit_bounds _ D8).
  pose proof (digit_bounds _ E1). pose proof (digit_bounds _ E2).
  pose proof (digit_bounds _ E3). pose proof (digit_bounds _ E4).
  pose proof (digit_bounds _ E5). pose proof (digit_bounds _ E6).
  pose proof (digit_bounds _ E7). pose proof (digit_bounds _ E8).
  clear D1 D2 D3 D4 D5 D6 D7 D8 E1 E2 E3 E4 E5 E6 E7 E8.
  unfold digitValue, Js.code in *.
  unfold String.leb, keyOf. cbn [String.compare]. unfold Ascii.compare.
  change (N_of_ascii "-") with 45%N. change (45 ?= 45)%N with Eq.
  repeat (match goal with
          | |- context [match (?a ?= ?b)%N with _ => _ end] =>
              destruct (N.compare_spec a b)
          end; cbv iota beta).
  all: match goal with
       | |- true = negb _ =>
           symmetry; apply negb_true_iff, not_true_iff_false;
           rewrite dateLt_iff; lia
       | |- false = negb _ =>
           symmetry; apply negb_false_iff; rewrite dateLt_iff; lia
       end.
Qed.

(** On days whose year has four digits the keys are ordered as the days. *)
Lemma leb_isoKey day1 day2 :
  fourDigitYear day1 -> fourDigitYear day2 ->
  String.leb (isoKey day1) (isoKey day2) = (day1 <=? day2).
Proof.
  intros H1 H2.
  rewrite (leb_keys (isoKey_shape H1) (isoKey_shape H2)), civil_order.
  now rewrite <- !surjective_pairing.
Qed.

Lemma parseIsoDate_isoKey day :
  fourDigitYear day -> parseIsoDate (isoKey day) = Some (day * msPerDay).
Proof.
  intros H. pose proof (isoKey_shape H) as Hs. pose proof (civil_valid day) as Hv.
  destruct (civil day) as [[y m] d]. simpl in Hs.
  destruct Hv as (Hm & Hd & <-).
  now apply parseIsoDate_key.
Qed.

Lemma isoKey_injective day1 day2 :
  fourDigitYear day1 -> fourDigitYear day2 ->
  isoKey day1 = isoKey day2 -> day1 = day2.
Proof.
  intros H1 H2 E.
  pose proof (parseIsoDate_isoKey H1) as P1.
  pose proof (parseIsoDate_isoKey H2) as P2.
  rewrite E, P2 in P1. injection P1. unfold msPerDay. lia.
Qed.

End KeyFacts.


(** ** The validator *)

Lemma isValidSender_tests text :
  isValidSender text
  = let t := Js.trim text in
    negb ((String.length t =? 0)%nat || (80 <? String.length t)%nat)
    && negb (Re.testStart Pattern.clock t)
    && negb (Re.testWhole Pattern.meridiem t)
    && negb (Re.testStart Pattern.shortDate t)
    && negb (Re.testStart Pattern.slashDate t)
    && negb (has commonLabels (Js.toLowerCase t))
    && negb (Js.includes "sent an attachment" (Js.toLowerCase t)).
Proof.
  unfold isValidSender.
  destruct (String.eqb text "") eqn:E.
  - apply String.eqb_eq in E. subst text. reflexivity.
  - cbv zeta.
    repeat match goal with
           | |- context [if ?b then false else _] =>
               destruct b; cbn [negb andb]; try reflexivity
           end.
Qed.

Lemma negb_true_not (b : bool) (P : Prop) :
  (b = true <-> P) -> (negb b = true <-> ~ P).
Proof. intros H. rewrite negb_true_iff, <- H. symmetry. apply not_true_iff_false. Qed.

(** ** Double-precision numbers *)

Section DoubleFacts.
Local Open Scope Q_scope.

Lemma two_power (n : Z) : (0 <= n)%Z -> inject_Z (2 ^ n) == 2 ^ n.
Proof. intros H. now apply (Zpower_Qpower 2). Qed.

Lemma two_power_pos (e : Z) : 0 < 2 ^ e.
Proof. now apply Qpower_0_lt. Qed.

Lemma two_power_le (a b : Z) : (a <= b)%Z -> 2 ^ a <= 2 ^ b.
Proof. intros H. apply Qpower_le_compat_l; [exact H | discriminate]. Qed.

Lemma two_power_plus (a b : Z) : 2 ^ (a + b) == 2 ^ a * 2 ^ b.
Proof. apply Qpower_plus. discriminate. Qed.

Lemma exponent_spec (q : Q) :
  0 < q -> 2 ^ Js.exponent q <= q /\ q < 2 ^ (Js.exponent q + 1).
Proof.
  intros Hq. unfold Js.exponent.
  set (s := (Z.log2 (Zpos (Qden q)) + 1)%Z).
  assert (Hs : (0 <= s)%Z) by (subst s; pose proof (Z.log2_nonneg (Zpos (Qden q))); lia).
  set (x := q * inject_Z (2 ^ s)).
  assert (Hx : 1 <= x).
  { subst x. destruct q as [n d]. unfold Qlt in Hq. simpl in Hq.
    unfold Qle, Qmult, inject_Z. cbn [Qnum Qden]. cbn [Qden] in s.
    assert (Hd : (Zpos d < 2 ^ s)%Z).
    { subst s. destruct (Z.log2_spec (Zpos d)) as [_ H]; [lia|].
      now rewrite <- Z.add_1_r in H. }
    rewrite Pos.mul_1_r. nia. }
  set (f := Qfloor x).
  assert (Hf : (1 <= f)%Z).
  { subst f. change 1%Z with (Qfloor 1). now apply Qfloor_resp_le. }
  destruct (Z.log2_spec f) as [L1 L2]; [lia|].
  set (e := Z.log2 f) in *.
  assert (He : (0 <= e)%Z) by apply Z.log2_nonneg.
  assert (A : 2 ^ e <= x).
  { rewrite <- two_power by exact He.
    eapply Qle_trans; [|apply Qfloor_le]. fold f. now rewrite <- Zle_Qle. }
  assert (B : x < 2 ^ (e + 1)).
  { rewrite <- two_power by lia.
    eapply Qlt_le_trans; [apply Qlt_floor|]. fold f.
    rewrite <- Zle_Qle. rewrite <- Z.add_1_r in L2. lia. }
  assert (P : 0 < 2 ^ s) by apply two_power_pos.
  assert (Ex : x == q * 2 ^ s) by (subst x; now rewrite two_power).
  split.
  - replace (e - s)%Z with (e + - s)%Z by lia.
    rewrite two_power_plus, Qpower_opp.
    apply Qle_shift_div_r; [exact P|]. now rewrite <- Ex.
  - replace (e - s + 1)%Z with ((e + 1) + - s)%Z by lia.
    rewrite two_power_plus, Qpower_opp.
    apply Qlt_shift_div_l; [exact P|]. now rewrite <- Ex.
Qed.

Lemma exponent_monotone (p q : Q) :
  0 < p -> p <= q -> (Js.exponent p <= Js.exponent q)%Z.
Proof.
  intros Hp Hpq.
  assert (Hq : 0 < q) by (eapply Qlt_le_trans; eauto).
  destruct (exponent_spec Hp) as [A _], (exponent_spec Hq) as [_ B].
  destruct (Z_le_gt_dec (Js.exponent p) (Js.exponent q)) as [H|H]; [exact H|].
  exfalso.
  assert (C : 2 ^ (Js.exponent q + 1) <= 2 ^ Js.exponent p)
    by (apply two_power_le; lia).
  apply (Qlt_irrefl q).
  eapply Qlt_le_trans; [exact B|].
  eapply Qle_trans; [exact C|]. eapply Qle_trans; eauto.
Qed.

Lemma nearestEven_floor (x : Q) :
  (Qfloor x <= Js.nearestEven x <= Qfloor x + 1)%Z.
Proof.
  unfold Js.nearestEven.
  destruct (x - inject_Z (Qfloor x) ?= 1 # 2); [destruct (Z.even _)| |]; lia.
Qed.

Lemma nearestEven_Z (z : Z) : Js.nearestEven (inject_Z z) = z.
Proof.
  unfold Js.nearestEven. rewrite Qfloor_Z.
  assert (E : (inject_Z z - inject_Z z ?= 1 # 2) = Lt).
  { rewrite <- Qlt_alt. setoid_replace (inject_Z z - inject_Z z) with 0 by ring.
    reflexivity. }
  now rewrite E.
Qed.

Lemma nearestEven_proper (x y : Q) : x == y -> Js.nearestEven x = Js.nearestEven y.
Proof.
  intros E. unfold Js.nearestEven.
  assert (F : Qfloor x = Qfloor y) by now rewrite E.
  rewrite F.
  assert (C : (x - inject_Z (Qfloor y) ?= 1 # 2) = (y - inject_Z (Qfloor y) ?= 1 # 2))
    by now rewrite E.
  now rewrite C.
Qed.

Lemma nearestEven_monotone (x y : Q) :
  x <= y -> (Js.nearestEven x <= Js.nearestEven y)%Z.
Proof.
  intros H. pose proof (Qfloor_resp_le _ _ H) as Hf.
  pose proof (nearestEven_floor x) as Bx. pose proof (nearestEven_floor y) as By.
  destruct (Z.eq_dec (Qfloor x) (Qfloor y)) as [E|E]; [|lia].
  unfold Js.nearestEven. rewrite <- E.
  destruct (x - inject_Z (Qfloor x) ?= 1 # 2) eqn:Cx;
    destruct (y - inject_Z (Qfloor x) ?= 1 # 2) eqn:Cy;
    try (destruct (Z.even (Qfloor x)); lia); try lia; exfalso.
  - apply Qeq_alt in Cx. apply Qlt_alt in Cy.
    apply (Qlt_irrefl (1 # 2)). rewrite <- Cx at 1.
    eapply Qle_lt_trans; [|exact Cy].
    apply Qplus_le_compat; [exact H | apply Qle_refl].
  - apply Qgt_alt in Cx. apply Qeq_alt in Cy.
    apply (Qlt_irrefl (1 # 2)). rewrite <- Cy at 2.
    eapply Qlt_le_trans; [exact Cx|].
    apply Qplus_le_compat; [exact H | apply Qle_refl].
  - apply Qgt_alt in Cx. apply Qlt_alt in Cy.
    apply (Qlt_irrefl (1 # 2)).
    eapply Qlt_trans; [exact Cx|]. eapply Qle_lt_trans; [|exact Cy].
    apply Qplus_le_compat; [exact H | apply Qle_refl].
Qed.

Lemma nearestEven_above (x : Q) (n : Z) :
  inject_Z n <= x -> (n <= Js.nearestEven x)%Z.
Proof.
  intros H. apply Qfloor_resp_le in H. rewrite Qfloor_Z in H.
  pose proof (nearestEven_floor x). lia.
Qed.

Lemma nearestEven_below (x : Q) (n : Z) :
  x <= inject_Z n -> (Js.nearestEven x <= n)%Z.
Proof.
  intros H. rewrite <- (nearestEven_Z n). now apply nearestEven_monotone.
Qed.

(** The scaled significand of a positive number lies in [[2^52, 2^53)]. *)
Lemma significand_range (q : Q) :
  0 < q ->
  let y := q / 2 ^ (Js.exponent q - 52) in
  inject_Z (2 ^ 52) <= y /\ y <= inject_Z (2 ^ 53).
Proof.
  intros Hq y. destruct (exponent_spec Hq) as [A B].
  set (e := Js.exponent q) in *.
  assert (P : 0 < 2 ^ (e - 52)) by apply two_power_pos.
  rewrite !two_power by lia. subst y. split.
  - apply Qle_shift_div_l; [exact P|].
    rewrite <- two_power_plus. now replace (52 + (e - 52))%Z with e by lia.
  - apply Qle_shift_div_r; [exact P|].
    rewrite <- two_power_plus. replace (53 + (e - 52))%Z with (e + 1)%Z by lia.
    now apply Qlt_le_weak.
Qed.

Lemma roundPositive_eq (q : Q) :
  Js.roundPositive q
  == inject_Z (Js.nearestEven (q / 2 ^ (Js.exponent q - 52)))
     * 2 ^ (Js.exponent q - 52).
Proof. unfold Js.roundPositive. cbv zeta. apply Qred_correct. Qed.

Lemma roundPositive_range (q : Q) :
  0 < q ->
  2 ^ Js.exponent q <= Js.roundPositive q
  /\ Js.roundPositive q <= 2 ^ (Js.exponent q + 1).
Proof.
  intros Hq. rewrite roundPositive_eq.
  destruct (significand_range Hq) as [A B]. cbv zeta in A, B.
  set (e := Js.exponent q) in *.
  apply nearestEven_above in A. apply nearestEven_below in B.
  assert (P : 0 <= 2 ^ (e - 52)) by apply Qlt_le_weak, two_power_pos.
  rewrite Zle_Qle in A, B. rewrite !two_power in A, B by lia.
  split.
  - replace e with (52 + (e - 52))%Z at 1 by lia. rewrite two_power_plus.
    now apply Qmult_le_compat_r.
  - replace (e + 1)%Z with (53 + (e - 52))%Z by lia. rewrite two_power_plus.
    now apply Qmult_le_compat_r.
Qed.

Lemma roundPositive_monotone (p q : Q) :
  0 < p -> p <= q -> Js.roundPositive p <= Js.roundPositive q.
Proof.
  intros Hp Hpq.
  assert (Hq : 0 < q) by (eapply Qlt_le_trans; eauto).
  pose proof (exponent_monotone Hp Hpq) as He.
  destruct (Z.eq_dec (Js.exponent p) (Js.exponent q)) as [E|E].
  - rewrite !roundPositive_eq, E.
    apply Qmult_le_compat_r; [|apply Qlt_le_weak, two_power_pos].
    rewrite <- Zle_Qle. apply nearestEven_monotone.
    apply Qmult_le_compat_r; [exact Hpq|].
    apply Qlt_le_weak, Qinv_lt_0_compat, two_power_pos.
  - destruct (roundPositive_range Hp) as [_ A], (roundPositive_range Hq) as [B _].
    eapply Qle_trans; [exact A|]. eapply Qle_trans; [|exact B].
    apply two_power_le. lia.
Qed.

Lemma roundPositive_pos (q : Q) : 0 < q -> 0 < Js.roundPositive q.
Proof.
  intros Hq. destruct (roundPositive_range Hq) as [A _].
  eapply Qlt_le_trans; [apply two_power_pos | exact A].
Qed.

Lemma double_sign (q : Q) :
  (q < 0 /\ Js.double q < 0) \/ (q == 0 /\ Js.double q = 0)
  \/ (0 < q /\ 0 < Js.double q).
Proof.
  unfold Js.double. destruct (q ?= 0) eqn:C.
  - right. left. split; [now apply Qeq_alt | reflexivity].
  - left. apply Qlt_alt in C. split; [exact C|].
    rewrite Qred_correct.
    assert (H : 0 < - q) by (apply (Qplus_lt_l _ _ q); ring_simplify; exact C).
    apply roundPositive_pos in H.
    apply (Qplus_lt_l _ _ (Js.roundPositive (- q))). ring_simplify. exact H.
  - right. right. apply Qgt_alt in C. split; [exact C|].
    now apply roundPositive_pos.
Qed.

Lemma double_pos (q : Q) : 0 < q -> Js.double q = Js.roundPositive q.
Proof.
  intros H. unfold Js.double. destruct (q ?= 0) eqn:C; [| |reflexivity]; exfalso.
  - apply Qeq_alt in C. rewrite C in H. exact (Qlt_irrefl _ H).
  - apply Qlt_alt in C. exact (Qlt_irrefl _ (Qlt_trans _ _ _ H C)).
Qed.

Lemma double_neg (q : Q) : q < 0 -> Js.double q == - Js.roundPositive (- q).
Proof.
  intros H. unfold Js.double.
  destruct (q ?= 0) eqn:C; [|apply Qred_correct|]; exfalso.
  - apply Qeq_alt in C. rewrite C in H. exact (Qlt_irrefl _ H).
  - apply Qgt_alt in C. exact (Qlt_irrefl _ (Qlt_trans _ _ _ H C)).
Qed.

Lemma double_monotone (p q : Q) : p <= q -> Js.double p <= Js.double q.
Proof.
  intros H.
  destruct (double_sign p) as [[Hp Dp]|[[Hp Dp]|[Hp Dp]]];
    destruct (double_sign q) as [[Hq Dq]|[[Hq Dq]|[Hq Dq]]].
  - rewrite (double_neg Hp), (double_neg Hq). apply Qopp_le_compat.
    apply roundPositive_monotone.
    + apply (Qplus_lt_l _ _ q). ring_simplify. exact Hq.
    + now apply Qopp_le_compat.
  - rewrite Dq. now apply Qlt_le_weak.
  - apply Qlt_le_weak. eapply Qlt_trans; eauto.
  - exfalso. rewrite Hp in H. exact (Qlt_not_le _ _ Hq H).
  - rewrite Dp, Dq. apply Qle_refl.
  - rewrite Dp. now apply Qlt_le_weak.
  - exfalso. apply (Qlt_irrefl 0). eapply Qlt_le_trans; [exact Hp|].
    eapply Qle_trans; [exact H|]. now apply Qlt_le_weak.
  - exfalso. rewrite Hq in H. exact (Qlt_not_le _ _ Hp H).
  - rewrite (double_pos Hp), (double_pos Hq).
    now apply roundPositive_monotone.
Qed.

Lemma double_nonneg (q : Q) : 0 <= q -> 0 <= Js.double q.
Proof. intros H. change 0 with (Js.double 0). now apply double_monotone. Qed.

Lemma double_proper (p q : Q) : p == q -> Js.double p = Js.double q.
Proof.
  intros E. unfold Js.double.
  assert (C : (p ?= 0) = (q ?= 0)) by now rewrite E.
  rewrite C.
  assert (R : forall a b, 0 < a -> a == b -> Js.roundPositive a = Js.roundPositive b).
  { intros a b Ha Eab. unfold Js.roundPositive. cbv zeta.
    assert (Ee : Js.exponent a = Js.exponent b).
    { assert (Hb : 0 < b) by now rewrite <- Eab.
      apply Z.le_antisymm; apply exponent_monotone; auto;
        rewrite Eab; apply Qle_refl. }
    rewrite Ee. apply Qred_complete.
    rewrite (nearestEven_proper (x := a / 2 ^ (Js.exponent b - 52))
                                (y := b / 2 ^ (Js.exponent b - 52)));
      [reflexivity | now rewrite Eab]. }
  destruct (q ?= 0) eqn:Cq; [reflexivity| |].
  - f_equal. f_equal. apply R; [|now rewrite E].
    apply Qlt_alt in Cq.
    apply (Qplus_lt_l _ _ p). ring_simplify. now rewrite E.
  - apply R; [|exact E]. apply Qgt_alt in Cq. now rewrite E.
Qed.

End DoubleFacts.

(** ** The analysis pass *)

Section PassFacts.
Context {host : Host}.

Lemma sumOver_modify_same g k f m :
  (forall s, g (f s) = g s) -> sumOver g (Obj.modify k f m) = sumOver g m.
Proof.
  intros Hf. unfold Obj.modify, sumOver.
  destruct (Obj.get k m) as [s|] eqn:E; auto.
  pose proof (sum_set_present g k (f s) m E) as H. rewrite Hf in H. lia.
Qed.

Lemma sumOver_modify_succ g k f m s :
  Obj.get k m = Some s -> g (f s) = S (g s) ->
  sumOver g (Obj.modify k f m) = S (sumOver g m).
Proof.
  intros E Hf. unfold Obj.modify, sumOver. rewrite E.
  pose proof (sum_set_present g k (f s) m E) as H. lia.
Qed.

Lemma sumOver_getSender g k m :
  g (Temp.fresh k) = 0%nat -> sumOver g (getSender k m) = sumOver g m.
Proof.
  intros H0. unfold getSender, sumOver.
  destruct (Obj.get k m) eqn:E; auto.
  destruct (Js.isInherited k); auto.
  rewrite (sum_set_absent g k (Temp.fresh k) m E). lia.
Qed.

Lemma inherits_get (V : Type) k (m : Obj.t V) :
  Obj.inherits k m = true -> Obj.get k m = None /\ Js.isInherited k = true.
Proof. unfold Obj.inherits. destruct (Obj.get k m); [discriminate | auto]. Qed.

Lemma own_inherits (V : Type) k (m : Obj.t V) :
  Js.isInherited k = false -> Obj.inherits k m = false.
Proof. intros H. unfold Obj.inherits. now destruct (Obj.get k m). Qed.

Lemma ownNames_get (V : Type) k (m : Obj.t V) :
  ownNames m -> Obj.get k m <> None -> Js.isInherited k = false.
Proof.
  intros Hm. induction Hm as [|[k' v] m Hk _ IH]; simpl; [congruence|].
  destruct (String.eqb_spec k k') as [->|_]; [intros _; exact Hk | exact IH].
Qed.

Lemma ownNames_inherits (V : Type) k (m : Obj.t V) :
  ownNames m -> Obj.inherits k m = Js.isInherited k.
Proof.
  intros Hm. unfold Obj.inherits. destruct (Obj.get k m) eqn:E; [|reflexivity].
  symmetry. apply (@ownNames_get _ k m Hm). congruence.
Qed.

Lemma modify_absent (V : Type) k (f : V -> V) (m : Obj.t V) :
  Obj.get k m = None -> Obj.modify k f m = m.
Proof. intros H. unfold Obj.modify. now rewrite H. Qed.

Lemma getSender_inherits k m : Obj.inherits k m = true -> getSender k m = m.
Proof.
  intros H. apply inherits_get in H as [E I]. unfold getSender. now rewrite E, I.
Qed.

Lemma get_getSender_same k m :
  Obj.inherits k m = false -> Obj.get k (getSender k m) = Some (senderOr k m).
Proof.
  unfold getSender, senderOr, Obj.inherits.
  destruct (Obj.get k m) eqn:E; auto. intros ->. apply get_set_same.
Qed.

Lemma get_getSender_other k k' m :
  k <> k' -> Obj.get k (getSender k' m) = Obj.get k m.
Proof.
  intros Hne. unfold getSender.
  destruct (Obj.get k' m); auto. destruct (Js.isInherited k'); auto using get_set_other.
Qed.

Lemma ownNames_set (V : Type) k (v : V) (m : Obj.t V) :
  Js.isInherited k = false -> ownNames m -> ownNames (Obj.set k v m).
Proof.
  intros Hk Hm. induction Hm as [|[k' v'] m H Ht IH]; simpl.
  - now repeat constructor.
  - destruct (String.eqb k k'); constructor; simpl in *; auto.
Qed.

Lemma ownNames_modify (V : Type) k (f : V -> V) (m : Obj.t V) :
  ownNames m -> ownNames (Obj.modify k f m).
Proof.
  intros Hm. unfold Obj.modify. destruct (Obj.get k m) eqn:E; [|exact Hm].
  apply ownNames_set; [|exact Hm]. apply (@ownNames_get _ k m Hm). congruence.
Qed.

Lemma ownNames_getSender k m : ownNames m -> ownNames (getSender k m).
Proof.
  intros Hm. unfold getSender. destruct (Obj.get k m); [exact Hm|].
  destruct (Js.isInherited k) eqn:I; [exact Hm|]. now apply ownNames_set.
Qed.

Lemma step_ownNames st msg :
  ownNames (Pass.senderMap st) -> ownNames (Pass.senderMap (step st msg)).
Proof.
  intros H. unfold step. cbn [Pass.senderMap]. unfold dynamics.
  destruct (Pass.previousMsg st) as [p|];
    [destruct (negb (String.eqb (sender p) (sender msg)))|];
    repeat first [apply ownNames_modify | apply ownNames_getSender]; exact H.
Qed.

Lemma loop_ownNames msgs : forall st,
  ownNames (Pass.senderMap st) ->
  ownNames (Pass.senderMap (fold_left step msgs st)).
Proof.
  induction msgs as [|m r IH]; intros st H; [exact H|].
  simpl. apply IH. now apply step_ownNames.
Qed.

Lemma analysisLoop_ownNames msgs : ownNames (Pass.senderMap (analysisLoop msgs)).
Proof. apply loop_ownNames. constructor. Qed.

Lemma sumOver_dynamics g prev msg m :
  (forall r c l i s, g (withDynamics r c l i s) = g s) ->
  g (Temp.fresh (match prev with Some p => sender p | None => "" end)) = 0%nat ->
  sumOver g (dynamics prev msg m) = sumOver g m.
Proof.
  intros Hg H0. unfold dynamics.
  destruct prev as [p|].
  - destruct (negb (String.eqb (sender p) (sender msg))).
    + rewrite sumOver_modify_same by (intros; apply Hg).
      rewrite sumOver_getSender by assumption.
      apply sumOver_modify_same. intros; apply Hg.
    + apply sumOver_modify_same. intros; apply Hg.
  - apply sumOver_modify_same. intros; apply Hg.
Qed.

(** Each message adds one to the counters of the hour and of the day, and to
    the counter of its sender when the sender has an accumulator. *)
Lemma step_counts st msg :
  Obj.total (Pass.hourlyStats (step st msg)) = S (Obj.total (Pass.hourlyStats st))
  /\ Obj.total (Pass.timelineStats (step st msg)) = S (Obj.total (Pass.timelineStats st))
  /\ sumOver Temp.count (Pass.senderMap (step st msg))
     = ((if Obj.inherits (sender msg) (Pass.senderMap st) then 0 else 1)
        + sumOver Temp.count (Pass.senderMap st))%nat.
Proof.
  unfold step; simpl. repeat split; try apply total_incr.
  rewrite sumOver_dynamics by reflexivity.
  destruct (Obj.inherits (sender msg) (Pass.senderMap st)) eqn:I.
  - rewrite (getSender_inherits _ _ I).
    now rewrite modify_absent by apply (inherits_get _ _ I).
  - erewrite sumOver_modify_succ;
      [| apply get_getSender_same, I | reflexivity].
    now rewrite sumOver_getSender.
Qed.

Lemma loop_counts msgs st :
  let st' := fold_left step msgs st in
  Obj.total (Pass.hourlyStats st') = (Obj.total (Pass.hourlyStats st) + List.length msgs)%nat
  /\ Obj.total (Pass.timelineStats st') = (Obj.total (Pass.timelineStats st) + List.length msgs)%nat
  /\ (ownNames (Pass.senderMap st) ->
      sumOver Temp.count (Pass.senderMap st')
      = (sumOver Temp.count (Pass.senderMap st) + List.length (accounted msgs))%nat).
Proof.
  revert st. induction msgs as [|msg msgs IH]; intros st; simpl.
  - repeat split; lia.
  - destruct (IH (step st msg)) as (H1 & H2 & H3).
    destruct (step_counts st msg) as (S1 & S2 & S3).
    rewrite H1, H2, S1, S2. repeat split; try lia.
    intros Hown. rewrite H3 by now apply step_ownNames.
    rewrite S3, (ownNames_inherits _ Hown).
    destruct (Js.isInherited (sender msg)); simpl; lia.
Qed.

Lemma basics_buckets msg s : bucketsAddUp s -> bucketsAddUp (basics msg s).
Proof.
  unfold bucketsAddUp, basics; simpl. intros H.
  destruct ((0 <=? getHours (timestamp msg)) && (getHours (timestamp msg) <? 4));
  destruct ((4 <=? getHours (timestamp msg)) && (getHours (timestamp msg) <? 12));
  destruct ((12 <=? getHours (timestamp msg)) && (getHours (timestamp msg) <? 20));
  lia.
Qed.

Lemma getSender_buckets k m : allBuckets m -> allBuckets (getSender k m).
Proof.
  intros H. unfold getSender. destruct (Obj.get k m); auto.
  destruct (Js.isInherited k); auto.
  apply Forall_set; auto. reflexivity.
Qed.

Lemma dynamics_buckets prev msg m : allBuckets m -> allBuckets (dynamics prev msg m).
Proof.
  intros H. unfold dynamics.
  assert (Hw : forall f, (exists r c l i, forall s, f s = withDynamics r c l i s)
                         \/ f = reply (match prev with Some p => timeDiffMinutes p msg | None => 0%Q end)
                         \/ f = resetConsecutive \/ f = doubleText \/ f = initiate ->
                         forall s, bucketsAddUp s -> bucketsAddUp (f s)).
  { intros f [(r & c & l & i & Hf)|[->|[->|[->| ->]]]] s Hs;
      try rewrite Hf; exact Hs. }
  destruct prev as [p|].
  - destruct (negb (String.eqb (sender p) (sender msg))).
    + apply Forall_modify; [apply Hw; auto|].
      apply getSender_buckets.
      apply Forall_modify; [apply Hw; auto|]. exact H.
    + apply Forall_modify; [apply Hw; auto 6|]. exact H.
  - apply Forall_modify; [apply Hw; auto 6|]. exact H.
Qed.

Lemma step_buckets st msg :
  allBuckets (Pass.senderMap st) -> allBuckets (Pass.senderMap (step st msg)).
Proof.
  intros H. unfold step; simpl.
  apply dynamics_buckets, Forall_modify; [apply basics_buckets|].
  now apply getSender_buckets.
Qed.

Lemma loop_buckets msgs st :
  allBuckets (Pass.senderMap st) ->
  allBuckets (Pass.senderMap (fold_left step msgs st)).
Proof.
  revert st. induction msgs as [|msg msgs IH]; intros st H; simpl; auto.
  apply IH, step_buckets, H.
Qed.

(** ** The result *)

Lemma assembleSenders_perm m :
  Permutation (assembleSenders m) (mapi senderStat (Obj.values m)).
Proof. apply stableSort_perm. Qed.

Lemma assembleSenders_counts m :
  list_sum (map count (assembleSenders m)) = sumOver Temp.count m.
Proof.
  unfold sumOver.
  rewrite (Permutation_map count (assembleSenders_perm m)).
  unfold mapi. rewrite (mapi_from_map senderStat count Temp.count) by reflexivity.
  rewrite (Permutation_map Temp.count (values_perm m)).
  now rewrite map_map.
Qed.

Lemma assembleSenders_buckets m :
  allBuckets m ->
  Forall (fun s => (lateNightMessages s + morningMessages s + afternoonMessages s
                    + eveningMessages s = count s)%nat) (assembleSenders m).
Proof.
  intros H. rewrite Forall_forall. intros s Hs.
  apply (Permutation_in _ (assembleSenders_perm m)) in Hs.
  apply In_mapi_from in Hs as (t & j & Ht & ->).
  apply (Permutation_in _ (values_perm m)) in Ht.
  apply in_map_iff in Ht as (e & <- & He).
  unfold allBuckets in H. rewrite Forall_forall in H.
  exact (H e He).
Qed.

(** What a resolved parse was computed from. *)
Lemma parse_resolved fileName text now r :
  parseChatFile fileName text now = Resolved r ->
  text <> "" /\
  exists found format,
    extractMessages (parseFromString text) = (found, format)
    /\ found <> []
    /\ r = analyze fileName now (parseFromString text) format found.
Proof.
  unfold parseChatFile.
  destruct (String.eqb text "") eqn:E; [discriminate|].
  apply String.eqb_neq in E.
  destruct (extractMessages (parseFromString text)) as [found format].
  destruct found as [|m found]; [discriminate|].
  destruct (thrownFrom _ _); [discriminate|].
  intros [= <-]. split; auto.
  exists (m :: found), format. repeat split. discriminate.
Qed.

(** The loop of a resolved parse ran to its end. *)
Lemma parse_quiet fileName text now r :
  parseChatFile fileName text now = Resolved r ->
  thrownFrom Pass.initial
    (sortChronologically (fst (extractMessages (parseFromString text)))) = None.
Proof.
  unfold parseChatFile.
  destruct (String.eqb text ""); [discriminate|].
  destruct (extractMessages (parseFromString text)) as [found format].
  destruct found as [|m found]; [discriminate|]. cbn [fst].
  now destruct (thrownFrom _ _).
Qed.

Lemma loop_snoc msgs msg :
  analysisLoop (msgs ++ [msg]) = step (analysisLoop msgs) msg.
Proof. unfold analysisLoop. now rewrite fold_left_app. Qed.

Lemma timeDiffMinutes_monotone a b a' b' :
  timestamp b - timestamp a <= timestamp b' - timestamp a' ->
  (timeDiffMinutes a b <= timeDiffMinutes a' b')%Q.
Proof.
  intros H. unfold timeDiffMinutes. cbv zeta.
  apply double_monotone. apply Qmult_le_compat_r; [|discriminate].
  apply double_monotone. now rewrite <- Zle_Qle.
Qed.

(** More than 360 minutes are more than 21600000 milliseconds: the two
    roundings do not move the comparison. *)
Lemma long_silence a b :
  Qle_bool (timeDiffMinutes a b) 360
  = negb (21600000 <? timestamp b - timestamp a).
Proof.
  set (short := {| sender := ""; timestamp := 0; content := ""; type := Text |}).
  set (edge := {| sender := ""; timestamp := 21600000; content := ""; type := Text |}).
  set (long := {| sender := ""; timestamp := 21600001; content := ""; type := Text |}).
  assert (Hedge : timeDiffMinutes short edge = 360%Q) by (vm_compute; reflexivity).
  assert (Hlong : (360 < timeDiffMinutes short long)%Q) by (vm_compute; reflexivity).
  destruct (Z.ltb_spec 21600000 (timestamp b - timestamp a)) as [H|H]; cbn [negb].
  - apply not_true_iff_false. rewrite Qle_bool_iff. apply Qlt_not_le.
    eapply Qlt_le_trans; [exact Hlong|].
    apply timeDiffMinutes_monotone. cbn [timestamp short long]. lia.
  - apply Qle_bool_iff. rewrite <- Hedge.
    apply timeDiffMinutes_monotone. cbn [timestamp short edge]. lia.
Qed.

(** The accumulators of the two senders after a message of [b] that follows
    a message of another sender [a], when neither name is inherited. *)
Lemma step_reply st a b :
  Pass.previousMsg st = Some a -> sender a <> sender b ->
  Js.isInherited (sender b) = false ->
  let after := Pass.senderMap (step st b) in
  let old := senderOr (sender b) (Pass.senderMap st) in
  Obj.get (sender b) after = Some (reply (timeDiffMinutes a b) (basics b old))
  /\ (Js.isInherited (sender a) = false ->
      exists sA, Obj.get (sender a) after = Some (resetConsecutive sA)).
Proof.
  intros Hp Hne Hb after old. subst after. unfold step; simpl. rewrite Hp.
  unfold dynamics. apply String.eqb_neq in Hne as Hs. rewrite Hs; simpl.
  set (m1 := Obj.modify (sender b) (basics b) (getSender (sender b) (Pass.senderMap st))).
  set (m2 := Obj.modify (sender b) _ m1).
  assert (G : Obj.get (sender b) m2
              = Some (reply (timeDiffMinutes a b) (basics b old))).
  { subst m2 m1. apply get_modify_same, get_modify_same, get_getSender_same.
    now apply own_inherits. }
  split.
  - destruct (Obj.get (sender a) (getSender (sender a) m2)) eqn:E.
    + unfold Obj.modify. rewrite E.
      rewrite get_set_other, get_getSender_other by congruence. exact G.
    + rewrite modify_absent by exact E.
      rewrite get_getSender_other by congruence. exact G.
  - intros Ha. exists (senderOr (sender a) m2).
    apply get_modify_same, get_getSender_same. now apply own_inherits.
Qed.

(** *** Day streaks *)

Lemma streak_fold_bounds keys : forall cur mx prev,
  (1 <= mx)%nat ->
  let '(cur', mx', _) := fold_left streakStep keys (cur, mx, prev) in
  (1 <= mx')%nat.
Proof.
  induction keys as [|k keys IH]; intros cur mx prev H; simpl; auto.
  destruct (oneDayApart prev (newDate k)); apply IH; lia.
Qed.

Lemma maxDayStreak_pos sortedDays :
  sortedDays <> [] -> (1 <= maxDayStreak sortedDays)%nat.
Proof.
  destruct sortedDays as [|first rest]; [congruence|]. intros _. simpl.
  pose proof (@streak_fold_bounds rest 1%nat 1%nat (newDate first) (le_n 1)) as H.
  destruct (fold_left streakStep rest (1%nat, 1%nat, newDate first)) as [[cur mx] d].
  lia.
Qed.

Lemma streak_fold_run keys : forall cur mx prev,
  eachNextDay prev keys -> (mx <= cur)%nat ->
  let '(cur', mx', _) := fold_left streakStep keys (cur, mx, prev) in
  Nat.max mx' cur' = (cur + List.length keys)%nat.
Proof.
  induction keys as [|k keys IH]; intros cur mx prev Hk Hle; simpl.
  - lia.
  - destruct Hk as [(p & c & -> & Hc & Hd) Hrest]. rewrite Hc in *.
    replace (oneDayApart (Some p) (Some c)) with true.
    + specialize (IH (S cur) mx (Some c) Hrest).
      destruct (fold_left streakStep keys (S cur, mx, Some c)) as [[cur' mx'] d].
      rewrite IH; lia.
    + unfold oneDayApart. rewrite Hd. reflexivity.
Qed.

Lemma maxDayStreak_run sortedDays :
  ConsecutiveDays sortedDays -> maxDayStreak sortedDays = List.length sortedDays.
Proof.
  destruct sortedDays as [|first rest]; simpl; auto. intros H.
  pose proof (@streak_fold_run rest 1%nat 1%nat (newDate first) H (le_n 1)) as Hr.
  destruct (fold_left streakStep rest (1%nat, 1%nat, newDate first)) as [[cur mx] d].
  exact Hr.
Qed.

(** The timeline and the daily activity are the same record of counters. *)
Lemma loop_daily_timeline msgs : forall st,
  Pass.dailyActivity st = Pass.timelineStats st ->
  Pass.dailyActivity (fold_left step msgs st)
  = Pass.timelineStats (fold_left step msgs st).
Proof.
  induction msgs as [|m msgs IH]; intros st H; simpl; auto.
  apply IH. unfold step; simpl. now rewrite H.
Qed.

Lemma incr_not_empty k o : Obj.incr k o <> [].
Proof.
  unfold Obj.incr. destruct o as [|[k' v'] o]; simpl; [discriminate|].
  destruct (String.eqb k k'); discriminate.
Qed.

Lemma loop_daily_not_empty msgs : forall st,
  msgs <> [] \/ Pass.dailyActivity st <> [] ->
  Pass.dailyActivity (fold_left step msgs st) <> [].
Proof.
  induction msgs as [|m msgs IH]; intros st H; simpl.
  - destruct H; congruence.
  - apply IH. right. unfold step; simpl. apply incr_not_empty.
Qed.

Lemma sortedDayKeys_length o :
  List.length (sortedDayKeys o) = List.length o.
Proof.
  unfold sortedDayKeys.
  rewrite stableSort_length, (Permutation_length (keys_perm o)).
  apply length_map.
Qed.

(** The keys of an object are distinct. *)
Lemma set_keys_NoDup (V : Type) k (v : V) (o : Obj.t V) :
  NoDup (map fst o) -> NoDup (map fst (Obj.set k v o))
  /\ forall k', In k' (map fst (Obj.set k v o)) -> k' = k \/ In k' (map fst o).
Proof.
  induction o as [|[k0 v0] o IH]; simpl; intros H.
  - split; [repeat constructor; auto | intros k' [<-|[]]; auto].
  - inversion H as [|? ? Hnot Hrest]; subst.
    destruct (String.eqb k k0) eqn:E; simpl.
    + split; [exact H | auto].
    + destruct (IH Hrest) as [Hnd Hin]. split.
      * constructor; auto. intros Hk. apply Hin in Hk as [->|Hk]; auto.
        rewrite String.eqb_refl in E. discriminate.
      * intros k' [<-|Hk]; auto. apply Hin in Hk as [->|Hk]; auto.
Qed.

Lemma loop_daily_NoDup msgs : forall st,
  NoDup (map fst (Pass.dailyActivity st)) ->
  NoDup (map fst (Pass.dailyActivity (fold_left step msgs st))).
Proof.
  induction msgs as [|m msgs IH]; intros st H; simpl; auto.
  apply IH. unfold step; simpl. unfold Obj.incr. now apply set_keys_NoDup.
Qed.

(** *** Day keys of the messages *)

Lemma dayKey_isoKey t : dayKey t = Dates.isoKey (localDay t).
Proof.
  unfold dayKey, monthKey, getFullYear, getMonth1, getDate, Dates.isoKey,
         Cal.yearOf, Cal.monthOf, Cal.dateOf, localDay.
  destruct (Cal.civil (localTime t / Cal.msPerDay)) as [[y m] d]. reflexivity.
Qed.

Lemma newDate_isoKey day :
  Dates.fourDigitYear day -> newDate (Dates.isoKey day) = Some (day * Cal.msPerDay).
Proof. intros H. unfold newDate. now rewrite KeyFacts.parseIsoDate_isoKey. Qed.

Lemma keys_set (V : Type) k (v : V) (o : Obj.t V) :
  map fst (Obj.set k v o) = addKey k (map fst o).
Proof.
  unfold addKey. induction o as [|[k0 v0] o IH]; simpl; auto.
  destruct (String.eqb k k0); simpl; auto.
  rewrite IH. destruct (existsb (String.eqb k) (map fst o)); reflexivity.
Qed.

Lemma loop_keys msgs : forall st,
  map fst (Pass.dailyActivity (fold_left step msgs st))
  = fold_left (fun l m => addKey (dayKey (timestamp m)) l) msgs
              (map fst (Pass.dailyActivity st)).
Proof.
  induction msgs as [|m msgs IH]; intros st; simpl; auto.
  rewrite IH. unfold step; simpl. unfold Obj.incr. now rewrite keys_set.
Qed.

Lemma addKey_isoKey d l :
  Dates.fourDigitYear d -> Forall Dates.fourDigitYear l ->
  addKey (Dates.isoKey d) (map Dates.isoKey l)
  = map Dates.isoKey (addDay d l).
Proof.
  intros Hd Hl. unfold addKey, addDay.
  assert (E : existsb (String.eqb (Dates.isoKey d)) (map Dates.isoKey l)
              = existsb (Z.eqb d) l).
  { induction Hl as [|x l Hx Hl IH]; simpl; auto.
    rewrite IH. f_equal.
    destruct (Z.eqb_spec d x) as [->|Hne]; [apply String.eqb_refl|].
    apply String.eqb_neq. intros E. apply Hne.
    now apply KeyFacts.isoKey_injective. }
  rewrite E. destruct (existsb (Z.eqb d) l); auto.
  now rewrite map_app.
Qed.

Lemma addDay_facts d l :
  NoDup l ->
  NoDup (addDay d l) /\ forall x, In x (addDay d l) <-> x = d \/ In x l.
Proof.
  intros Hn. unfold addDay.
  destruct (existsb (Z.eqb d) l) eqn:E.
  - split; auto. intros x. split; auto.
    intros [->|H]; auto.
    apply existsb_exists in E as (y & Hy & Ey). apply Z.eqb_eq in Ey. now subst.
  - split.
    + apply NoDup_app; auto.
      * repeat constructor. auto.
      * intros x Hx [Hd|[]]. subst x.
        assert (existsb (Z.eqb d) l = true)
          by (apply existsb_exists; exists d; split; auto; apply Z.eqb_refl).
        congruence.
    + intros x. rewrite in_app_iff. simpl. intuition.
Qed.

Lemma firstSeenDays_facts msgs : forall seen,
  NoDup seen ->
  NoDup (firstSeenDays msgs seen)
  /\ forall x, In x (firstSeenDays msgs seen)
               <-> In x (map (fun m => localDay (timestamp m)) msgs) \/ In x seen.
Proof.
  induction msgs as [|m msgs IH]; intros seen Hn; simpl.
  - split; auto. intros x. tauto.
  - destruct (addDay_facts (localDay (timestamp m)) Hn) as [Hn' Hin].
    destruct (IH _ Hn') as [Hn'' Hin'']. split; auto.
    intros x. unfold firstSeenDays in *. rewrite Hin'', Hin.
    intuition.
Qed.

Lemma loop_keys_days msgs : forall seen,
  Forall (fun m => Dates.fourDigitYear (localDay (timestamp m))) msgs ->
  Forall Dates.fourDigitYear seen ->
  fold_left (fun l m => addKey (dayKey (timestamp m)) l) msgs
            (map Dates.isoKey seen)
  = map Dates.isoKey (firstSeenDays msgs seen).
Proof.
  induction msgs as [|m msgs IH]; intros seen Hm Hs; simpl; auto.
  inversion Hm as [|? ? H1 H2]; subst.
  rewrite dayKey_isoKey, addKey_isoKey by assumption.
  apply IH; auto.
  unfold addDay. destruct (existsb _ seen); auto.
  apply Forall_app. split; auto.
Qed.

Lemma arrayIndex_key key y m d :
  Dates.keyShape key y m d -> Obj.arrayIndex key = None.
Proof.
  intros [(a1 & a2 & a3 & a4 & b1 & b2 & c1 & c2 & -> & Hdig & _)].
  rewrite !Forall_cons_iff in Hdig.
  destruct Hdig as (D1 & D2 & D3 & D4 & _).
  unfold Obj.arrayIndex, Dates.keyOf.
  cbn [String.eqb negb andb String.length Nat.ltb Nat.leb].
  rewrite andb_true_r.
  destruct (Js.code a1 =? 48)%N; auto.
  rewrite !KeyFacts.readDigits_digit by assumption. reflexivity.
Qed.

Lemma entries_plain (V : Type) (o : Obj.t V) :
  Forall (fun e => Obj.arrayIndex (fst e) = None) o -> Obj.entries o = o.
Proof.
  intros H. unfold Obj.entries.
  assert (E1 : filter (@Obj.isIndexKey V) o = []).
  { induction H as [|e o He _ IH]; simpl; auto.
    unfold Obj.isIndexKey at 1. now rewrite He. }
  assert (E2 : filter (fun e => negb (Obj.isIndexKey e)) o = o).
  { clear E1. induction H as [|e o He _ IH]; simpl; auto.
    unfold Obj.isIndexKey at 1. rewrite He. cbn [negb]. now rewrite IH. }
  now rewrite E1, E2.
Qed.

(** The sorted day keys are the keys of the days of the messages in
    ascending order. *)
Lemma sortedDayKeys_days msgs :
  Forall (fun m => Dates.fourDigitYear (localDay (timestamp m))) msgs ->
  sortedDayKeys (Pass.dailyActivity (analysisLoop msgs))
  = map Dates.isoKey (stableSort Z.leb (firstSeenDays msgs [])).
Proof.
  intros Hm. unfold sortedDayKeys, Obj.keys, analysisLoop.
  assert (Hk : map fst (Pass.dailyActivity (fold_left step msgs Pass.initial))
               = map Dates.isoKey (firstSeenDays msgs [])).
  { rewrite loop_keys. simpl. now apply (@loop_keys_days msgs []). }
  assert (Hy : Forall Dates.fourDigitYear (firstSeenDays msgs [])).
  { rewrite Forall_forall. intros x Hx.
    apply (@firstSeenDays_facts msgs [] (NoDup_nil Z)) in Hx as [Hx|[]].
    apply in_map_iff in Hx as (m & <- & Hin).
    rewrite Forall_forall in Hm. auto. }
  rewrite entries_plain, Hk.
  - apply stableSort_map. intros x y Hx Hy'.
    rewrite Forall_forall in Hy. now apply KeyFacts.leb_isoKey; apply Hy.
  - rewrite Forall_forall. intros e He.
    assert (Hin : In (fst e) (map Dates.isoKey (firstSeenDays msgs [])))
      by (rewrite <- Hk; now apply in_map).
    apply in_map_iff in Hin as (x & <- & Hx).
    rewrite Forall_forall in Hy.
    exact (arrayIndex_key (KeyFacts.isoKey_shape (Hy x Hx))).
Qed.

(** In an ascending list of distinct days in which every day but the earliest
    follows another one, each day is the day after the one before it. *)
Lemma run_of_days (S : Z -> Prop) sd : forall x,
  StronglySorted Z.lt (x :: sd) ->
  Forall Dates.fourDigitYear (x :: sd) ->
  (forall z, In z sd -> S (z - 1)) ->
  (forall z, S z -> z <= x \/ In z sd) ->
  eachNextDay (newDate (Dates.isoKey x)) (map Dates.isoKey sd).
Proof.
  induction sd as [|y sd IH]; intros x Hs Hy Hprev Hall; simpl; auto.
  inversion Hs as [|? ? Hs' Hx]; subst.
  inversion Hy as [|? ? Yx Hy']; subst.
  inversion Hy' as [|? ? Yy _]; subst.
  inversion Hs' as [|? ? _ Hylt]; subst.
  rewrite Forall_forall in Hx, Hylt.
  assert (Hxy : x < y) by (apply Hx; now left).
  assert (Hnext : y = x + 1).
  { destruct (Hall (y - 1) (Hprev y (or_introl eq_refl))) as [H|[H|H]]; try lia.
    specialize (Hylt _ H). lia. }
  split.
  - exists (x * Cal.msPerDay), (y * Cal.msPerDay).
    rewrite !newDate_isoKey by assumption.
    repeat split. subst y. unfold Cal.msPerDay. lia.
  - apply IH; auto.
    + intros z Hz. apply Hprev. now right.
    + intros z Hz. destruct (Hall z Hz) as [H|[H|H]]; auto; lia.
Qed.

(** When the messages fall on days in a row, in years of four digits, the
    sorted keys are consecutive days and there are as many keys as distinct
    days. *)
Lemma keys_of_days_in_a_row found :
  let days := map (fun m => localDay (timestamp m)) found in
  (forall m, In m found -> 1000 <= getFullYear (timestamp m) <= 9999) ->
  DaysInARow days ->
  let sortedDays :=
    sortedDayKeys (Pass.dailyActivity (analysisLoop (sortChronologically found))) in
  ConsecutiveDays sortedDays
  /\ List.length sortedDays = List.length (nodup Z.eq_dec days).
Proof.
  intros days Hyears Hrow sortedDays.
  set (msgs := sortChronologically found).
  assert (Hperm : Permutation msgs found) by apply stableSort_perm.
  assert (Hm : Forall (fun m => Dates.fourDigitYear (localDay (timestamp m))) msgs).
  { rewrite Forall_forall. intros m Hin. apply Hyears.
    exact (Permutation_in _ Hperm Hin). }
  subst sortedDays. fold msgs. rewrite (sortedDayKeys_days Hm).
  destruct (@firstSeenDays_facts msgs [] (NoDup_nil Z)) as [Hnd Hin].
  set (fs := firstSeenDays msgs []) in *.
  set (sd := stableSort Z.leb fs).
  assert (Hsd : Permutation sd fs) by apply stableSort_perm.
  assert (Hmem : forall x, In x sd <-> In x days).
  { intros x. split; intros Hx.
    - apply (Permutation_in _ Hsd), Hin in Hx as [Hx|[]].
      apply in_map_iff in Hx as (m & <- & Hx).
      apply (in_map (fun m => localDay (timestamp m))).
      exact (Permutation_in _ Hperm Hx).
    - apply (Permutation_in _ (Permutation_sym Hsd)), Hin. left.
      apply in_map_iff in Hx as (m & <- & Hx).
      apply (in_map (fun m => localDay (timestamp m))).
      exact (Permutation_in _ (Permutation_sym Hperm) Hx). }
  assert (Hy : Forall Dates.fourDigitYear sd).
  { rewrite Forall_forall. intros x Hx. apply Hmem in Hx.
    apply in_map_iff in Hx as (m & <- & Hx). now apply Hyears. }
  assert (Hstrict : StronglySorted Z.lt sd).
  { apply sorted_NoDup_strict.
    - apply stableSort_sorted.
      + intros a b. rewrite !Z.leb_le. lia.
      + intros a b c. rewrite !Z.leb_le. lia.
    - exact (Permutation_NoDup (Permutation_sym Hsd) Hnd). }
  split.
  - destruct sd as [|x rest] eqn:Esd; simpl; auto.
    apply run_of_days with (S := fun z => In z days); auto.
    + intros z Hz.
      assert (Hzd : In z days) by (apply Hmem; now right).
      destruct (Hrow z Hzd) as [H|H]; auto.
      assert (Hxd : In x days) by (apply Hmem; now left).
      specialize (H x Hxd).
      inversion Hstrict as [|? ? _ Hlt]; subst.
      rewrite Forall_forall in Hlt. specialize (Hlt z Hz). lia.
    + intros z Hz. apply Hmem in Hz as [->|Hz]; auto. left. lia.
  - rewrite length_map. apply Permutation_length.
    apply NoDup_Permutation.
    + exact (Permutation_NoDup (Permutation_sym Hsd) Hnd).
    + apply NoDup_nodup.
    + intros x. rewrite nodup_In. apply Hmem.
Qed.

(** In a chronologically sorted list no element is earlier than the head. *)
Lemma sorted_head_first (msgs : list RawMessage) f l :
  hd_error (sortChronologically msgs) = Some f ->
  In l (sortChronologically msgs) ->
  timestamp f <= timestamp l.
Proof.
  intros Hf Hl.
  assert (Hs : StronglySorted (fun a b => (timestamp a <=? timestamp b) = true)
                              (sortChronologically msgs)).
  { apply stableSort_sorted.
    - intros a b. rewrite !Z.leb_le. lia.
    - intros a b c. rewrite !Z.leb_le. lia. }
  destruct (sortChronologically msgs) as [|x rest]; [discriminate|].
  injection Hf as ->. inversion Hs as [|? ? _ Hall]; subst.
  destruct Hl as [->|Hl]; [lia|].
  rewrite Forall_forall in Hall. apply Z.leb_le. auto.
Qed.

End PassFacts.

(** ** The small hosts *)

Lemma parse_demo now :
  parseChatFile (host := Demo.telegramHost) "chat.html" Demo.export now
  = Resolved (DemoRun.result now).
Proof. reflexivity. Qed.

Lemma parse_threeDays :
  parseChatFile (host := Demo.scripted Demo.threeDays) "chat.html" Demo.export 0
  = Resolved DemoRun.threeDaysResult.
Proof. reflexivity. Qed.

(** ** Stability of the sort *)

Section StableFacts.
Variable A : Type.
Variable before : A -> A -> bool.
Variable p : A -> bool.
Hypothesis same_class :
  forall x y, p x = true -> p y = true -> before x y = true.

Lemma sortedInsert_filter x l :
  filter p (sortedInsert before x l) = filter p (x :: l).
Proof.
  induction l as [|y r IH]; [reflexivity|].
  simpl. destruct (before x y) eqn:E; [reflexivity|].
  simpl. rewrite IH. simpl.
  destruct (p x) eqn:Px, (p y) eqn:Py; try reflexivity.
  rewrite (same_class Px Py) in E. discriminate.
Qed.

Lemma stableSort_filter l : filter p (stableSort before l) = filter p l.
Proof.
  induction l as [|x r IH]; [reflexivity|].
  simpl. rewrite sortedInsert_filter. simpl. now rewrite IH.
Qed.

End StableFacts.

Lemma StronglySorted_weaken (A : Type) (R R' : A -> A -> Prop) l :
  (forall a b, R a b -> R' a b) -> StronglySorted R l -> StronglySorted R' l.
Proof.
  intros HR H. induction H; constructor; auto.
  eapply Forall_impl; [|eassumption]. intros b. apply HR.
Qed.

Lemma sortChronologically_sorted found :
  StronglySorted (fun a b => timestamp a <= timestamp b) (sortChronologically found).
Proof.
  unfold sortChronologically.
  eapply StronglySorted_weaken; [|apply stableSort_sorted].
  - intros a b H. now apply Z.leb_le.
  - intros a b. rewrite !Z.leb_le. lia.
  - intros a b c. rewrite !Z.leb_le. lia.
Qed.

(** ** The accumulator of one sender *)

Section SenderFacts.
Context {host : Host}.

Lemma senderOr_set_same k v m : senderOr k (Obj.set k v m) = v.
Proof. unfold senderOr. now rewrite get_set_same. Qed.

Lemma senderOr_set_other k k' v m :
  k <> k' -> senderOr k (Obj.set k' v m) = senderOr k m.
Proof. intros H. unfold senderOr. now rewrite get_set_other. Qed.

Lemma senderOr_getSender k k' m : senderOr k (getSender k' m) = senderOr k m.
Proof.
  unfold getSender. destruct (Obj.get k' m) eqn:E; [reflexivity|].
  destruct (Js.isInherited k'); [reflexivity|].
  destruct (String.eqb_spec k k') as [->|Hne].
  - rewrite senderOr_set_same. unfold senderOr. now rewrite E.
  - now apply senderOr_set_other.
Qed.

Lemma senderOr_modify_same k f m :
  Obj.get k m <> None -> senderOr k (Obj.modify k f m) = f (senderOr k m).
Proof.
  intros H. unfold senderOr at 2. unfold Obj.modify.
  destruct (Obj.get k m) eqn:E; [|congruence]. apply senderOr_set_same.
Qed.

Lemma senderOr_modify_other k k' f m :
  k <> k' -> senderOr k (Obj.modify k' f m) = senderOr k m.
Proof. intros H. unfold senderOr. now rewrite get_modify_other. Qed.

Lemma getSender_present k m :
  Js.isInherited k = false -> Obj.get k (getSender k m) <> None.
Proof.
  intros H. rewrite get_getSender_same by now apply own_inherits. discriminate.
Qed.

Lemma modify_present k k' f (m : Obj.t TempSenderStat) :
  Obj.get k m <> None -> Obj.get k (Obj.modify k' f m) <> None.
Proof.
  intros H. destruct (String.eqb_spec k k') as [->|Hne].
  - destruct (Obj.get k' m) eqn:E; [|congruence].
    rewrite (@get_modify_same _ k' f m t E). discriminate.
  - now rewrite get_modify_other.
Qed.

Lemma getSender_keeps k k' m :
  Obj.get k m <> None -> Obj.get k (getSender k' m) <> None.
Proof.
  intros H. destruct (String.eqb_spec k k') as [->|Hne].
  - unfold getSender.
    destruct (Obj.get k' m) eqn:E; [rewrite E; discriminate | congruence].
  - now rewrite get_getSender_other.
Qed.

(** The accumulator of a name that is not inherited follows [stepFor],
    whoever sends the message. *)
Lemma senderOr_step k st msg :
  Js.isInherited k = false ->
  senderOr k (Pass.senderMap (step st msg))
  = stepFor k (Pass.previousMsg st) msg (senderOr k (Pass.senderMap st)).
Proof.
  intros Hk.
  unfold step, stepFor. cbn [Pass.senderMap]. cbv zeta.
  set (m1 := getSender (sender msg) (Pass.senderMap st)).
  set (m2 := Obj.modify (sender msg) (basics msg) m1).
  assert (P2 : Js.isInherited (sender msg) = false ->
               Obj.get (sender msg) m2 <> None)
    by (intros H; apply modify_present, getSender_present, H).
  assert (H2 : senderOr k m2
               = if String.eqb k (sender msg)
                 then basics msg (senderOr k (Pass.senderMap st))
                 else senderOr k (Pass.senderMap st)).
  { subst m2 m1. destruct (String.eqb_spec k (sender msg)) as [->|Hne].
    - rewrite senderOr_modify_same by apply getSender_present, Hk.
      now rewrite senderOr_getSender.
    - rewrite senderOr_modify_other by exact Hne. apply senderOr_getSender. }
  unfold dynamics. destruct (Pass.previousMsg st) as [p|].
  - destruct (String.eqb_spec (sender p) (sender msg)) as [Hs|Hs]; cbn [negb].
    + destruct (String.eqb_spec k (sender msg)) as [->|Hne].
      * rewrite senderOr_modify_same by exact (P2 Hk). now rewrite H2.
      * rewrite senderOr_modify_other by exact Hne. now rewrite H2.
    + set (m3 := Obj.modify (sender msg) (reply (timeDiffMinutes p msg)) m2).
      assert (H3 : senderOr k m3
                   = if String.eqb k (sender msg)
                     then reply (timeDiffMinutes p msg)
                            (basics msg (senderOr k (Pass.senderMap st)))
                     else senderOr k (Pass.senderMap st)).
      { subst m3. destruct (String.eqb_spec k (sender msg)) as [->|Hne].
        - rewrite senderOr_modify_same by exact (P2 Hk).
          now rewrite H2.
        - rewrite senderOr_modify_other by exact Hne. now rewrite H2. }
      destruct (String.eqb_spec k (sender p)) as [->|Hne].
      * rewrite senderOr_modify_same by apply getSender_present, Hk.
        rewrite senderOr_getSender, H3.
        now destruct (String.eqb_spec (sender p) (sender msg)).
      * rewrite senderOr_modify_other by exact Hne.
        rewrite senderOr_getSender, H3.
        now destruct (String.eqb_spec k (sender msg)).
  - destruct (String.eqb_spec k (sender msg)) as [->|Hne].
    + rewrite senderOr_modify_same by exact (P2 Hk). now rewrite H2.
    + rewrite senderOr_modify_other by exact Hne. now rewrite H2.
Qed.

Lemma senderOr_loop k msgs : Js.isInherited k = false -> forall st,
  senderOr k (Pass.senderMap (fold_left step msgs st))
  = accFor k (Pass.previousMsg st) msgs (senderOr k (Pass.senderMap st)).
Proof.
  intros Hk. induction msgs as [|m r IH]; intros st; [reflexivity|].
  simpl. rewrite IH, senderOr_step by exact Hk. reflexivity.
Qed.

End SenderFacts.

(** ** What the pass keeps for one sender *)

Section AccFacts.
Context {host : Host}.

Lemma getHours_range t : 0 <= getHours t < 24.
Proof. unfold getHours, Cal.hourOf. apply Z.mod_pos_bound. lia. Qed.

Lemma stepFor_basic (B : Type) (g : TempSenderStat -> B) k prev m s :
  (forall r c l i s, g (withDynamics r c l i s) = g s) ->
  g (stepFor k prev m s)
  = if String.eqb (sender m) k then g (basics m s) else g s.
Proof.
  intros Hg. unfold stepFor. cbv zeta. rewrite (String.eqb_sym (sender m) k).
  unfold reply, resetConsecutive, doubleText, initiate.
  destruct prev as [p|];
    [destruct (negb (String.eqb (sender p) (sender m)));
     [destruct (String.eqb k (sender p))|]|];
    destruct (String.eqb k (sender m)); rewrite ?Hg; reflexivity.
Qed.

Lemma accFor_basic (B : Type) (g : TempSenderStat -> B)
  (upd : RawMessage -> B -> B) k :
  (forall r c l i s, g (withDynamics r c l i s) = g s) ->
  (forall m s, g (basics m s) = upd m (g s)) ->
  forall msgs prev s,
  g (accFor k prev msgs s) = fold_left (fun b m => upd m b) (sentBy k msgs) (g s).
Proof.
  intros Hg Hb. induction msgs as [|m r IH]; intros prev s; [reflexivity|].
  simpl. rewrite IH, (stepFor_basic g k prev m s Hg).
  destruct (String.eqb (sender m) k); [simpl; now rewrite Hb | reflexivity].
Qed.

Lemma fold_count (A : Type) (q : A -> bool) (l : list A) : forall n : nat,
  fold_left (fun b m => if q m then S b else b) l n
  = (n + List.length (filter q l))%nat.
Proof.
  induction l as [|x r IH]; intros n; simpl; [lia|].
  rewrite IH. destruct (q x); simpl; lia.
Qed.

Lemma accFor_counter (g : TempSenderStat -> nat) (q : RawMessage -> bool) k :
  (forall r c l i s, g (withDynamics r c l i s) = g s) ->
  (forall m s, g (basics m s) = if q m then S (g s) else g s) ->
  forall msgs prev s,
  g (accFor k prev msgs s) = (g s + List.length (filter q (sentBy k msgs)))%nat.
Proof.
  intros Hg Hb msgs prev s.
  rewrite (accFor_basic g (fun m b => if q m then S b else b) k Hg Hb).
  apply fold_count.
Qed.

Lemma filter_true (A : Type) (l : list A) : filter (fun _ => true) l = l.
Proof. induction l; simpl; congruence. Qed.

Lemma accFor_count k msgs prev s :
  Temp.count (accFor k prev msgs s)
  = (Temp.count s + List.length (sentBy k msgs))%nat.
Proof.
  rewrite (accFor_counter Temp.count (fun _ => true) k); try reflexivity.
  now rewrite filter_true.
Qed.

Lemma accFor_reels k msgs prev s :
  Temp.reelCount (accFor k prev msgs s)
  = (Temp.reelCount s + List.length (filter isReel (sentBy k msgs)))%nat.
Proof.
  apply (accFor_counter Temp.reelCount isReel k); try reflexivity.
  intros m s0. unfold isReel. simpl. now destruct (type m).
Qed.

Lemma accFor_attachments k msgs prev s :
  Temp.attachmentCount (accFor k prev msgs s)
  = (Temp.attachmentCount s
     + List.length (filter isAttachment (sentBy k msgs)))%nat.
Proof.
  apply (accFor_counter Temp.attachmentCount isAttachment k); try reflexivity.
  intros m s0. unfold isAttachment. simpl. now destruct (type m).
Qed.

Ltac hours m :=
  unfold hourIn; cbn [basics Temp.lateNight Temp.morning Temp.afternoon Temp.evening];
  pose proof (getHours_range (timestamp m));
  repeat match goal with
         | |- context [?a <=? ?b] => destruct (Z.leb_spec a b)
         | |- context [?a <? ?b] => destruct (Z.ltb_spec a b)
         end; cbn [andb]; try reflexivity; try lia.

Lemma accFor_lateNight k msgs prev s :
  Temp.lateNight (accFor k prev msgs s)
  = (Temp.lateNight s + List.length (filter (hourIn 0 4) (sentBy k msgs)))%nat.
Proof.
  apply (accFor_counter Temp.lateNight (hourIn 0 4) k); try reflexivity;
    intros m s0; hours m.
Qed.

Lemma accFor_morning k msgs prev s :
  Temp.morning (accFor k prev msgs s)
  = (Temp.morning s + List.length (filter (hourIn 4 12) (sentBy k msgs)))%nat.
Proof.
  apply (accFor_counter Temp.morning (hourIn 4 12) k); try reflexivity;
    intros m s0; hours m.
Qed.

Lemma accFor_afternoon k msgs prev s :
  Temp.afternoon (accFor k prev msgs s)
  = (Temp.afternoon s + List.length (filter (hourIn 12 20) (sentBy k msgs)))%nat.
Proof.
  apply (accFor_counter Temp.afternoon (hourIn 12 20) k); try reflexivity;
    intros m s0; hours m.
Qed.

Lemma accFor_evening k msgs prev s :
  Temp.evening (accFor k prev msgs s)
  = (Temp.evening s + List.length (filter (hourIn 20 24) (sentBy k msgs)))%nat.
Proof.
  apply (accFor_counter Temp.evening (hourIn 20 24) k); try reflexivity;
    intros m s0; hours m.
Qed.

Lemma accFor_name k msgs prev s : Temp.name (accFor k prev msgs s) = Temp.name s.
Proof.
  rewrite (accFor_basic Temp.name (fun _ b => b) k); try reflexivity.
  induction (sentBy k msgs); simpl; auto.
Qed.

Lemma accFor_words k msgs prev s :
  Temp.wordCounts (accFor k prev msgs s)
  = fold_left (fun o m => accumulateWords (content m) o) (sentBy k msgs)
              (Temp.wordCounts s).
Proof.
  now rewrite (accFor_basic Temp.wordCounts
                 (fun m o => accumulateWords (content m) o) k).
Qed.

Lemma stepFor_run k prev m s cur best :
  runInv k prev cur best s ->
  runInv k (Some m) (fst (runStep k (cur, best) m)) (snd (runStep k (cur, best) m))
         (stepFor k prev m s).
Proof.
  unfold runInv, runStep, stepFor. cbv zeta. cbn [fst snd].
  intros (Hp & Hle & Hc & Hm).
  rewrite (String.eqb_sym k (sender m)).
  destruct (String.eqb_spec (sender m) k) as [Hk|Hk].
  - destruct prev as [p|].
    + rewrite Hk. destruct (String.eqb_spec (sender p) k) as [Hpk|Hpk]; cbn [negb].
      * unfold doubleText. simpl. rewrite Hc, Hm.
        destruct (Nat.ltb_spec (pred best) (S (pred cur))); lia.
      * rewrite (String.eqb_sym k (sender p)).
        destruct (String.eqb_spec (sender p) k); [contradiction|].
        simpl. rewrite Hc, Hm. lia.
    + simpl. rewrite Hc, Hm. lia.
  - destruct prev as [p|].
    + rewrite (String.eqb_sym k (sender p)).
      destruct (String.eqb_spec (sender p) k) as [Hpk|Hpk].
      * destruct (String.eqb_spec (sender p) (sender m)) as [E|E];
          [congruence|]. simpl. rewrite Hm. lia.
      * destruct (negb (String.eqb (sender p) (sender m)));
          simpl; rewrite Hc, Hm; lia.
    + simpl. rewrite Hc, Hm. lia.
Qed.

Lemma accFor_run k msgs : forall prev s cur best,
  runInv k prev cur best s ->
  Temp.maxConsecutive (accFor k prev msgs s)
  = pred (snd (fold_left (runStep k) msgs (cur, best))).
Proof.
  induction msgs as [|m r IH]; intros prev s cur best H.
  - simpl. apply H.
  - simpl. apply stepFor_run with (m := m) in H.
    rewrite (IH _ _ _ _ H). now destruct (runStep k (cur, best) m).
Qed.

Lemma run_bounds k msgs : forall cur best,
  (cur <= best)%nat ->
  let acc := fold_left (runStep k) msgs (cur, best) in
  (best <= snd acc)%nat
  /\ (snd acc <= Nat.max best (cur + List.length (sentBy k msgs)))%nat
  /\ (fst acc <= cur + List.length (sentBy k msgs))%nat
  /\ (sentBy k msgs <> [] -> (1 <= snd acc)%nat).
Proof.
  induction msgs as [|m r IH]; intros cur best Hle; simpl.
  - repeat split; try lia. congruence.
  - unfold runStep at 2 4 6 8. cbn [fst snd].
    destruct (String.eqb (sender m) k); simpl.
    + destruct (IH (S cur) (Nat.max best (S cur))) as (A & B & C & D); [lia|].
      repeat split; try lia.
    + destruct (IH 0%nat best) as (A & B & C & D); [lia|].
      repeat split; try lia. exact D.
Qed.

Lemma stepFor_openings k prev m s :
  Temp.initiatedCount (stepFor k prev m s)
  = (Temp.initiatedCount s + if opens k prev m then 1 else 0)%nat.
Proof.
  unfold stepFor, opens. cbv zeta. rewrite (String.eqb_sym k (sender m)).
  destruct (String.eqb_spec (sender m) k) as [Hk|Hk]; cbn [andb].
  - destruct prev as [p|]; [|simpl; lia].
    rewrite Hk. rewrite (String.eqb_sym k (sender p)).
    destruct (String.eqb_spec (sender p) k) as [Hpk|Hpk]; cbn [negb andb].
    + simpl. lia.
    + unfold reply. cbn [withDynamics Temp.initiatedCount basics].
      rewrite long_silence.
      destruct (21600000 <? timestamp m - timestamp p); simpl; lia.
  - destruct prev as [p|]; [|lia].
    destruct (negb (String.eqb (sender p) (sender m)));
      [destruct (String.eqb k (sender p))|]; simpl; lia.
Qed.

Lemma accFor_openings k msgs : forall prev s,
  Temp.initiatedCount (accFor k prev msgs s)
  = (Temp.initiatedCount s + openings k prev msgs)%nat.
Proof.
  induction msgs as [|m r IH]; intros prev s; simpl; [lia|].
  rewrite IH, stepFor_openings. lia.
Qed.

Lemma stepFor_replies k prev m s :
  Temp.replyTimes (stepFor k prev m s)
  = (Temp.replyTimes s
     ++ match prev with
        | Some p =>
            if String.eqb (sender m) k && negb (String.eqb (sender p) k)
            then [timeDiffMinutes p m] else []
        | None => []
        end)%list.
Proof.
  unfold stepFor. cbv zeta. rewrite (String.eqb_sym k (sender m)).
  destruct (String.eqb_spec (sender m) k) as [Hk|Hk]; cbn [andb].
  - destruct prev as [p|]; [|simpl; now rewrite app_nil_r].
    rewrite Hk. rewrite (String.eqb_sym k (sender p)).
    destruct (String.eqb_spec (sender p) k) as [Hpk|Hpk]; cbn [negb andb].
    + simpl. now rewrite app_nil_r.
    + reflexivity.
  - destruct prev as [p|]; [|now rewrite app_nil_r].
    destruct (negb (String.eqb (sender p) (sender m)));
      [destruct (String.eqb k (sender p))|]; simpl; now rewrite app_nil_r.
Qed.

Lemma accFor_replies k msgs : forall prev s,
  Temp.replyTimes (accFor k prev msgs s)
  = (Temp.replyTimes s ++ replyGaps k prev msgs)%list.
Proof.
  induction msgs as [|m r IH]; intros prev s; simpl; [now rewrite app_nil_r|].
  rewrite IH, stepFor_replies.
  destruct prev as [p|]; [|now rewrite app_nil_r].
  destruct (String.eqb (sender m) k && negb (String.eqb (sender p) k)).
  - now rewrite <- app_assoc.
  - now rewrite app_nil_r.
Qed.

End AccFacts.

(** ** The keys of the sender map *)

Lemma get_In_pair (V : Type) k (v : V) (o : Obj.t V) :
  Obj.get k o = Some v -> In (k, v) o.
Proof.
  induction o as [|[k' v'] r IH]; simpl; [discriminate|].
  destruct (String.eqb_spec k k') as [->|Hne].
  - intros [= ->]. now left.
  - intros H. right. now apply IH.
Qed.

Lemma In_get (V : Type) k (v : V) (o : Obj.t V) :
  NoDup (map fst o) -> In (k, v) o -> Obj.get k o = Some v.
Proof.
  induction o as [|[k' v'] r IH]; simpl; [tauto|].
  intros Hnd [H|H].
  - injection H as -> ->. now rewrite String.eqb_refl.
  - inversion Hnd as [|? ? Hnot Hr]; subst.
    destruct (String.eqb_spec k k') as [->|Hne]; [|now apply IH].
    exfalso. apply Hnot. change k' with (fst (k', v)). now apply in_map.
Qed.

Lemma get_None_keys (V : Type) k (o : Obj.t V) :
  Obj.get k o = None <-> ~ In k (map fst o).
Proof.
  induction o as [|[k' v'] r IH]; simpl; [tauto|].
  destruct (String.eqb_spec k k') as [->|Hne].
  - split; [discriminate | intros H; exfalso; apply H; now left].
  - rewrite IH. intuition congruence.
Qed.

Lemma In_addKey x k l : In x (addKey k l) <-> x = k \/ In x l.
Proof.
  unfold addKey. destruct (existsb (String.eqb k) l) eqn:E.
  - split; [tauto|]. intros [->|H]; [|exact H].
    apply existsb_exists in E as (y & Hy & Ey).
    apply String.eqb_eq in Ey. now subst.
  - rewrite in_app_iff. simpl. intuition.
Qed.

Lemma NoDup_addKey k l : NoDup l -> NoDup (addKey k l).
Proof.
  intros H. unfold addKey. destruct (existsb (String.eqb k) l) eqn:E; [exact H|].
  apply NoDup_app; [exact H | repeat constructor; simpl; tauto |].
  intros x Hx [Ex|[]]. subst x.
  assert (existsb (String.eqb k) l = true)
    by (apply existsb_exists; exists k; split; [exact Hx | apply String.eqb_refl]).
  congruence.
Qed.

Lemma addKey_present k l : In k l -> addKey k l = l.
Proof.
  intros H. unfold addKey.
  assert (E : existsb (String.eqb k) l = true)
    by (apply existsb_exists; exists k; split; [exact H | apply String.eqb_refl]).
  now rewrite E.
Qed.

Lemma keys_modify (V : Type) k (f : V -> V) (o : Obj.t V) :
  map fst (Obj.modify k f o) = map fst o.
Proof.
  unfold Obj.modify. destruct (Obj.get k o) eqn:E; [|reflexivity].
  rewrite keys_set. apply addKey_present.
  apply get_In_pair in E. change k with (fst (k, v)). now apply in_map.
Qed.

Section KeyedFacts.
Context {host : Host}.

Lemma keys_getSender k m :
  map fst (getSender k m)
  = if Js.isInherited k then map fst m else addKey k (map fst m).
Proof.
  unfold getSender. destruct (Obj.get k m) eqn:E.
  - destruct (Js.isInherited k); [reflexivity|].
    symmetry. apply addKey_present.
    apply get_In_pair in E. change k with (fst (k, t)). now apply in_map.
  - destruct (Js.isInherited k); [reflexivity|]. apply keys_set.
Qed.

Lemma In_keys_getSender x k m :
  In x (map fst (getSender k m))
  <-> (x = k /\ Js.isInherited k = false) \/ In x (map fst m).
Proof.
  rewrite keys_getSender. destruct (Js.isInherited k).
  - split; [tauto | intros [[_ H]|H]; [discriminate | exact H]].
  - rewrite In_addKey. tauto.
Qed.

Lemma named_set k v (m : Obj.t TempSenderStat) :
  Temp.name v = k ->
  Forall (fun e => Temp.name (snd e) = fst e) m ->
  Forall (fun e => Temp.name (snd e) = fst e) (Obj.set k v m).
Proof.
  intros Hv. induction m as [|[k' v'] r IH]; simpl; intros H.
  - now repeat constructor.
  - apply Forall_cons_iff in H as [Hh Ht].
    destruct (String.eqb_spec k k') as [<-|Hne]; constructor; auto.
Qed.

Lemma keyed_getSender k m : keyed m -> keyed (getSender k m).
Proof.
  intros [Hn Hf]. split.
  - rewrite keys_getSender. destruct (Js.isInherited k); [exact Hn|].
    now apply NoDup_addKey.
  - unfold getSender. destruct (Obj.get k m); [exact Hf|].
    destruct (Js.isInherited k); [exact Hf|]. now apply named_set.
Qed.

Lemma keyed_modify k f m :
  (forall s, Temp.name (f s) = Temp.name s) -> keyed m -> keyed (Obj.modify k f m).
Proof.
  intros Hf [Hn Hk]. split.
  - now rewrite keys_modify.
  - unfold Obj.modify. destruct (Obj.get k m) eqn:E; [|exact Hk].
    apply named_set; [|exact Hk]. rewrite Hf.
    apply get_In_pair in E. rewrite Forall_forall in Hk. exact (Hk _ E).
Qed.

Lemma keyed_get k s m : keyed m -> In (k, s) m -> senderOr k m = s /\ Temp.name s = k.
Proof.
  intros [Hn Hk] H. split.
  - unfold senderOr. now rewrite (In_get _ _ _ Hn H).
  - rewrite Forall_forall in Hk. exact (Hk _ H).
Qed.

Lemma step_keyed st msg :
  keyed (Pass.senderMap st) -> keyed (Pass.senderMap (step st msg)).
Proof.
  intros H. unfold step. cbn [Pass.senderMap]. unfold dynamics.
  assert (H2 : keyed (Obj.modify (sender msg) (basics msg)
                        (getSender (sender msg) (Pass.senderMap st))))
    by (apply keyed_modify; [reflexivity | now apply keyed_getSender]).
  destruct (Pass.previousMsg st) as [p|].
  - destruct (negb (String.eqb (sender p) (sender msg))).
    + apply keyed_modify; [reflexivity|]. apply keyed_getSender.
      apply keyed_modify; [reflexivity | exact H2].
    + apply keyed_modify; [reflexivity | exact H2].
  - apply keyed_modify; [reflexivity | exact H2].
Qed.

Lemma loop_keyed msgs : forall st,
  keyed (Pass.senderMap st) -> keyed (Pass.senderMap (fold_left step msgs st)).
Proof.
  induction msgs as [|m r IH]; intros st H; [exact H|].
  simpl. apply IH. now apply step_keyed.
Qed.

Lemma step_sender_keys st msg k :
  In k (map fst (Pass.senderMap (step st msg)))
  <-> (k = sender msg /\ Js.isInherited k = false)
      \/ (exists p, Pass.previousMsg st = Some p /\ k = sender p
                    /\ sender p <> sender msg /\ Js.isInherited k = false)
      \/ In k (map fst (Pass.senderMap st)).
Proof.
  unfold step. cbn [Pass.senderMap]. unfold dynamics.
  destruct (Pass.previousMsg st) as [p|].
  - destruct (String.eqb_spec (sender p) (sender msg)) as [E|E]; cbn [negb].
    + rewrite !keys_modify, In_keys_getSender.
      split; [intros [[-> H]|H]; auto|].
      intros [[-> H]|[(q & [= <-] & _ & Hq & _)|H]]; auto.
      exfalso. exact (Hq E).
    + rewrite keys_modify, In_keys_getSender.
      rewrite !keys_modify, In_keys_getSender.
      split.
      * intros [[-> H]|[[-> H]|H]]; auto.
        right; left. exists p. auto.
      * intros [[-> H]|[(q & [= <-] & -> & _ & Hi)|H]]; auto.
  - rewrite !keys_modify, In_keys_getSender.
    split; [intros [[-> H]|H]; auto|].
    intros [[-> H]|[(q & Hq & _)|H]]; [auto | discriminate | auto].
Qed.

Lemma loop_sender_keys msgs : forall st k,
  (forall p, Pass.previousMsg st = Some p -> Js.isInherited (sender p) = false ->
             In (sender p) (map fst (Pass.senderMap st))) ->
  (In k (map fst (Pass.senderMap (fold_left step msgs st)))
   <-> (In k (map sender msgs) /\ Js.isInherited k = false)
       \/ In k (map fst (Pass.senderMap st))).
Proof.
  induction msgs as [|m r IH]; intros st k Hp; simpl; [tauto|].
  rewrite IH.
  - rewrite step_sender_keys. split.
    + intros [[H I]|[[-> I]|[(p & E & -> & _ & I)|H]]]; auto.
    + intros [[[H|H] I]|H]; auto.
  - intros p [= <-] I. apply step_sender_keys. now left.
Qed.

(** The keys of [senderMap] are the names of the senders that are not
    inherited names. *)
Lemma analysisLoop_keys msgs k :
  In k (map fst (Pass.senderMap (analysisLoop msgs)))
  <-> In k (map sender msgs) /\ Js.isInherited k = false.
Proof.
  unfold analysisLoop. rewrite loop_sender_keys; [simpl; tauto|].
  discriminate.
Qed.

Lemma analysisLoop_keyed msgs : keyed (Pass.senderMap (analysisLoop msgs)).
Proof. apply loop_keyed. split; constructor. Qed.

Lemma analysisLoop_acc msgs k :
  Js.isInherited k = false ->
  senderOr k (Pass.senderMap (analysisLoop msgs))
  = accFor k None msgs (Temp.fresh k).
Proof. intros Hk. unfold analysisLoop. now rewrite senderOr_loop. Qed.

Lemma mapi_from_In (A B : Type) (f : A -> nat -> B) x : forall l i,
  In x l -> exists j, In (f x j) (mapi_from f i l).
Proof.
  induction l as [|y r IH]; intros i; simpl; [tauto|].
  intros [->|H].
  - exists i. now left.
  - destruct (IH (S i) H) as (j & Hj). exists j. now right.
Qed.

Lemma Permutation_filter_length (A : Type) (q : A -> bool) (l l' : list A) :
  Permutation l l' -> List.length (filter q l) = List.length (filter q l').
Proof.
  induction 1; simpl; try congruence.
  - destruct (q x); simpl; congruence.
  - destruct (q x), (q y); reflexivity.
Qed.

(** The entries of [senders] against the accumulators of the pass. *)
Lemma assembled_sender (m : Obj.t TempSenderStat) s :
  keyed m -> In s (assembleSenders m) ->
  In (name s) (map fst m)
  /\ exists idx, s = senderStat (senderOr (name s) m) idx.
Proof.
  intros Hk H.
  apply (Permutation_in _ (assembleSenders_perm m)) in H.
  unfold mapi in H. apply In_mapi_from in H as (tmp & j & Ht & ->).
  apply (Permutation_in _ (values_perm m)) in Ht.
  apply in_map_iff in Ht as ([k v] & <- & He). cbn [snd senderStat name].
  destruct (@keyed_get k v m Hk He) as [Hs Hn]. rewrite Hn, Hs.
  split; [|now exists j].
  change k with (fst (k, v)). now apply in_map.
Qed.

Lemma assembled_names (m : Obj.t TempSenderStat) :
  keyed m -> Permutation (map name (assembleSenders m)) (map fst m).
Proof.
  intros [_ Hk].
  rewrite (Permutation_map name (assembleSenders_perm m)).
  unfold mapi. rewrite (mapi_from_map senderStat name Temp.name) by reflexivity.
  rewrite (Permutation_map Temp.name (values_perm m)).
  rewrite map_map. apply Permutation_refl'.
  apply map_ext_in. intros e He. rewrite Forall_forall in Hk. now apply Hk.
Qed.

End KeyedFacts.

(** ** The senders of a result *)

Section ResultFacts.
Context {host : Host}.

Lemma byCountDesc_sorted l :
  StronglySorted (fun a b => (count b <= count a)%nat) (stableSort byCountDesc l).
Proof.
  eapply StronglySorted_weaken; [|apply stableSort_sorted].
  - intros a b H. now apply Nat.leb_le.
  - intros a b. unfold byCountDesc. rewrite !Nat.leb_le. lia.
  - intros a b c. unfold byCountDesc. rewrite !Nat.leb_le. lia.
Qed.

Lemma sorted_senders found k :
  In k (map sender (sortChronologically found)) <-> In k (map sender found).
Proof.
  assert (P : Permutation (map sender (sortChronologically found)) (map sender found))
    by (apply Permutation_map, stableSort_perm).
  split; apply Permutation_in; [exact P | now symmetry].
Qed.

Lemma sorted_filter_length (q : RawMessage -> bool) found :
  List.length (filter q (sortChronologically found)) = List.length (filter q found).
Proof. apply Permutation_filter_length, stableSort_perm. Qed.

Lemma filter_filter (A : Type) (p q : A -> bool) (l : list A) :
  filter p (filter q l) = filter (fun x => q x && p x) l.
Proof.
  induction l as [|x r IH]; [reflexivity|].
  simpl. destruct (q x); simpl; [destruct (p x)|]; now rewrite IH.
Qed.

Lemma sorted_sentBy_length (q : RawMessage -> bool) k found :
  List.length (filter q (sentBy k (sortChronologically found)))
  = List.length (filter q (sentBy k found)).
Proof. unfold sentBy. rewrite !filter_filter. apply sorted_filter_length. Qed.

(** The counts of the assembled senders add up to the number of messages
    whose sender has an accumulator. *)
Lemma analyze_sender_counts fileName now doc format found :
  list_sum (map count (senders (analyze fileName now doc format found)))
  = List.length (accounted found).
Proof.
  unfold analyze. cbn [senders].
  rewrite assembleSenders_counts.
  destruct (loop_counts (sortChronologically found) Pass.initial) as (_ & _ & Hs).
  unfold analysisLoop. rewrite Hs by constructor. simpl.
  apply sorted_filter_length.
Qed.

Lemma resolved_sender fileName text now r s :
  parseChatFile fileName text now = Resolved r -> In s (senders r) ->
  let found := fst (extractMessages (parseFromString text)) in
  In (name s) (map sender found)
  /\ exists idx,
       s = senderStat (accFor (name s) None (sortChronologically found)
                              (Temp.fresh (name s))) idx.
Proof.
  intros H Hs. apply parse_resolved in H as (_ & found & format & E & _ & ->).
  rewrite E. cbn [fst]. unfold analyze in Hs. cbn [senders] in Hs.
  apply (@assembled_sender _ s (analysisLoop_keyed _)) in Hs as (Hk & idx & Hi).
  apply analysisLoop_keys in Hk as [Hk Hown].
  split.
  - now apply sorted_senders.
  - exists idx. now rewrite <- analysisLoop_acc.
Qed.

(** No sender of a result is named as an inherited member. *)
Lemma resolved_sender_own fileName text now r s :
  parseChatFile fileName text now = Resolved r -> In s (senders r) ->
  Js.isInherited (name s) = false.
Proof.
  intros H Hs. apply parse_resolved in H as (_ & found & format & E & _ & ->).
  unfold analyze in Hs. cbn [senders] in Hs.
  apply (@assembled_sender _ s (analysisLoop_keyed _)) in Hs as (Hk & _).
  now apply analysisLoop_keys in Hk.
Qed.

End ResultFacts.

(** ** Reply gaps *)

Lemma round_monotone (a b : Q) : (a <= b)%Q -> Js.round a <= Js.round b.
Proof.
  intros H. unfold Js.round. apply Qfloor_resp_le.
  apply Qplus_le_compat; [exact H | apply Qle_refl].
Qed.

Lemma round_proper (a b : Q) : (a == b)%Q -> Js.round a = Js.round b.
Proof. intros H. unfold Js.round. now rewrite H. Qed.

Lemma Qle_bool_total (a b : Q) : Qle_bool a b = true \/ Qle_bool b a = true.
Proof.
  rewrite !Qle_bool_iff. destruct (Qlt_le_dec a b) as [H|H]; [left|right]; auto.
  now apply Qlt_le_weak.
Qed.

Lemma Qle_bool_trans (a b c : Q) :
  Qle_bool a b = true -> Qle_bool b c = true -> Qle_bool a c = true.
Proof. rewrite !Qle_bool_iff. apply Qle_trans. Qed.

Lemma sortedQ (l : list Q) : StronglySorted Qle (stableSort Qle_bool l).
Proof.
  eapply StronglySorted_weaken; [|apply stableSort_sorted].
  - intros a b H. now apply Qle_bool_iff.
  - apply Qle_bool_total.
  - apply Qle_bool_trans.
Qed.

(** In a sorted list the first element is the least and the last one the
    greatest. *)
Lemma sorted_ends (l : list Q) :
  StronglySorted Qle l -> l <> [] ->
  exists lo hi, hd_error l = Some lo /\ last l 0%Q = hi
                /\ In lo l /\ In hi l
                /\ forall g, In g l -> (lo <= g <= hi)%Q.
Proof.
  induction 1 as [|x r Hs IH Hx]; [congruence|]. intros _.
  rewrite Forall_forall in Hx.
  destruct r as [|y r'].
  - exists x, x. simpl. repeat split; auto.
    + destruct H as [<-|[]]. apply Qle_refl.
    + destruct H as [<-|[]]. apply Qle_refl.
  - destruct IH as (lo & hi & Hlo & Hhi & Ilo & Ihi & Hb); [discriminate|].
    exists x, hi. split; [reflexivity|]. split; [exact Hhi|].
    split; [now left|]. split; [now right|].
    intros g [<-|Hg].
    + split; [apply Qle_refl | now apply Hx].
    + split; [now apply Hx | now apply Hb].
Qed.

Section GapFacts.
Context {host : Host}.

Lemma timeDiffMinutes_nonneg a b :
  timestamp a <= timestamp b -> (0 <= timeDiffMinutes a b)%Q.
Proof.
  intros H. unfold timeDiffMinutes. cbv zeta.
  apply double_nonneg. apply Qmult_le_0_compat; [|discriminate].
  apply double_nonneg. change 0%Q with (inject_Z 0). rewrite <- Zle_Qle. lia.
Qed.

Lemma replyGaps_nonneg k msgs : forall prev,
  StronglySorted (fun a b => timestamp a <= timestamp b)
                 (match prev with Some p => p :: msgs | None => msgs end) ->
  Forall (fun g => 0 <= g)%Q (replyGaps k prev msgs).
Proof.
  induction msgs as [|m r IH]; intros prev H; [constructor|].
  assert (Hr : Forall (fun g => 0 <= g)%Q (replyGaps k (Some m) r)).
  { apply IH. destruct prev; [now inversion H | exact H]. }
  simpl. destruct prev as [p|]; [|exact Hr].
  destruct (String.eqb (sender m) k && negb (String.eqb (sender p) k));
    [|exact Hr].
  constructor; [|exact Hr]. apply timeDiffMinutes_nonneg.
  inversion H as [|? ? _ Hall]; subst.
  now apply Forall_cons_iff in Hall as [Hm _].
Qed.

End GapFacts.

Section ReplyStats.
Context {host : Host}.

Lemma fold_doubles_nonneg (l : list Q) : forall a : Q,
  (0 <= a)%Q -> Forall (fun g => 0 <= g)%Q l ->
  (0 <= fold_left (fun a b => Js.double (a + b)) l a)%Q.
Proof.
  induction l as [|x r IH]; intros a Ha H; cbn [fold_left]; [exact Ha|].
  apply Forall_cons_iff in H as [Hx Hr].
  apply IH; [|exact Hr]. apply double_nonneg.
  change 0%Q with (0 + 0)%Q. now apply Qplus_le_compat.
Qed.

Lemma sumDoubles_nonneg (l : list Q) :
  Forall (fun g => 0 <= g)%Q l -> (0 <= sumDoubles l)%Q.
Proof. apply fold_doubles_nonneg, Qle_refl. Qed.

(** The three reply figures of [senderStat] in terms of the reply gaps. *)
Lemma senderStat_replies (acc : TempSenderStat) idx :
  Forall (fun g => 0 <= g)%Q (Temp.replyTimes acc) ->
  let gaps := Temp.replyTimes acc in
  let s := senderStat acc idx in
  (gaps = [] -> avgReplyTimeMinutes s = 0 /\ fastestReplySeconds s = 0
                /\ slowestReplyMinutes s = 0)
  /\ (gaps <> [] ->
      exists lo hi, In lo gaps /\ In hi gaps
        /\ (forall g, In g gaps -> (lo <= g <= hi)%Q)
        /\ fastestReplySeconds s = Js.round (Js.double (lo * 60))
        /\ slowestReplyMinutes s = Js.round hi
        /\ avgReplyTimeMinutes s
           = Js.round (Js.double (sumDoubles (stableSort Qle_bool gaps)
                                  / inject_Z (Z.of_nat (List.length gaps)))))
  /\ 0 <= fastestReplySeconds s
  /\ 0 <= avgReplyTimeMinutes s
  /\ 0 <= slowestReplyMinutes s.
Proof.
  intros Hpos gaps s.
  assert (P : Permutation (stableSort Qle_bool gaps) gaps) by apply stableSort_perm.
  assert (Hempty : gaps = [] -> avgReplyTimeMinutes s = 0 /\ fastestReplySeconds s = 0
                                /\ slowestReplyMinutes s = 0).
  { intros E. subst s. unfold senderStat. cbv zeta. fold gaps. rewrite E.
    repeat split. }
  assert (Hfull : gaps <> [] ->
      exists lo hi, In lo gaps /\ In hi gaps
        /\ (forall g, In g gaps -> (lo <= g <= hi)%Q)
        /\ fastestReplySeconds s = Js.round (Js.double (lo * 60))
        /\ slowestReplyMinutes s = Js.round hi
        /\ avgReplyTimeMinutes s
           = Js.round (Js.double (sumDoubles (stableSort Qle_bool gaps)
                                  / inject_Z (Z.of_nat (List.length gaps))))).
  { intros Hne.
    assert (Hne' : stableSort Qle_bool gaps <> [])
      by (intros E; apply Hne; now apply stableSort_nil_inv in E).
    destruct (sorted_ends (sortedQ gaps) Hne')
      as (lo & hi & Hlo & Hhi & Ilo & Ihi & Hb).
    exists lo, hi.
    split; [now apply (Permutation_in _ P)|].
    split; [now apply (Permutation_in _ P)|].
    split; [intros g Hg; apply Hb; now apply (Permutation_in _ (Permutation_sym P))|].
    subst s. unfold senderStat. cbv zeta. fold gaps.
    cbn [fastestReplySeconds slowestReplyMinutes avgReplyTimeMinutes].
    split; [|split].
    - destruct (stableSort Qle_bool gaps); [discriminate|].
      now injection Hlo as ->.
    - now rewrite Hhi.
    - rewrite stableSort_length.
      destruct (Nat.eqb_spec (List.length gaps) 0) as [E|E]; [|reflexivity].
      apply length_zero_iff_nil in E. contradiction. }
  split; [exact Hempty|]. split; [exact Hfull|].
  destruct (Nat.eq_dec (List.length gaps) 0) as [E|E].
  - apply length_zero_iff_nil in E. destruct (Hempty E) as (-> & -> & ->). lia.
  - assert (Hne : gaps <> []) by (intros E'; apply E; now rewrite E').
    destruct (Hfull Hne) as (lo & hi & Ilo & Ihi & Hb & -> & -> & ->).
    rewrite Forall_forall in Hpos.
    assert (H0 : (0 <= lo)%Q) by (apply Hpos; exact Ilo).
    assert (H1 : (0 <= hi)%Q) by (apply Hpos; exact Ihi).
    assert (Hsorted : Forall (fun g => 0 <= g)%Q (stableSort Qle_bool gaps)).
    { apply Forall_forall. intros g Hg. apply Hpos.
      now apply (Permutation_in _ P). }
    change 0 with (Js.round 0). split; [|split].
    + apply round_monotone, double_nonneg.
      apply Qmult_le_0_compat; [exact H0 | discriminate].
    + apply round_monotone, double_nonneg.
      apply Qle_shift_div_l.
      * change 0%Q with (inject_Z 0). rewrite <- Zlt_Qlt. lia.
      * rewrite Qmult_0_l. now apply sumDoubles_nonneg.
    + now apply round_monotone.
Qed.

End ReplyStats.

(** ** Records of counters *)

Lemma get_incr_same k (o : Obj.t nat) :
  Obj.get k (Obj.incr k o)
  = Some (S (match Obj.get k o with Some n => n | None => O end)).
Proof. unfold Obj.incr. apply get_set_same. Qed.

Lemma get_incr_other k k' (o : Obj.t nat) :
  k <> k' -> Obj.get k (Obj.incr k' o) = Obj.get k o.
Proof. intros H. unfold Obj.incr. now apply get_set_other. Qed.

(** After counting the keys of a list, a key holds the number of its
    occurrences on top of what it held before. *)
Lemma get_fold_incr (A : Type) (f : A -> string) k (l : list A) :
  forall o : Obj.t nat,
  Obj.get k (fold_left (fun o x => Obj.incr (f x) o) l o)
  = match Obj.get k o with
    | Some n => Some (n + occurrences k (map f l))%nat
    | None => counted (occurrences k (map f l))
    end.
Proof.
  unfold occurrences.
  induction l as [|x r IH]; intros o; simpl.
  - destruct (Obj.get k o); [f_equal; lia | reflexivity].
  - rewrite IH. destruct (String.eqb_spec k (f x)) as [->|Hne].
    + rewrite get_incr_same. simpl.
      destruct (Obj.get (f x) o); f_equal; lia.
    + now rewrite get_incr_other.
Qed.

Lemma counted_fold_incr (A : Type) (f : A -> string) k (l : list A) :
  Obj.get k (fold_left (fun o x => Obj.incr (f x) o) l [])
  = counted (occurrences k (map f l)).
Proof. now rewrite get_fold_incr. Qed.

Lemma keys_fold_incr (A : Type) (f : A -> string) (l : list A) :
  forall o : Obj.t nat,
  NoDup (map fst o) ->
  NoDup (map fst (fold_left (fun o x => Obj.incr (f x) o) l o))
  /\ forall k, In k (map fst (fold_left (fun o x => Obj.incr (f x) o) l o))
               <-> In k (map f l) \/ In k (map fst o).
Proof.
  induction l as [|x r IH]; intros o Hn; simpl; [tauto|].
  assert (Hk : map fst (Obj.incr (f x) o) = addKey (f x) (map fst o))
    by apply keys_set.
  destruct (IH (Obj.incr (f x) o)) as [Hd Hi].
  { rewrite Hk. now apply NoDup_addKey. }
  split; [exact Hd|]. intros k. rewrite Hi, Hk, In_addKey.
  intuition.
Qed.

Lemma Forall_set_pair (V : Type) (P : string * V -> Prop) k v (o : Obj.t V) :
  P (k, v) -> Forall P o -> Forall P (Obj.set k v o).
Proof.
  intros Hv. induction o as [|[k' v'] r IH]; simpl; intros H.
  - now repeat constructor.
  - apply Forall_cons_iff in H as [Hh Ht].
    destruct (String.eqb_spec k k') as [<-|Hne]; constructor; auto.
Qed.

Lemma positive_fold_incr (A : Type) (f : A -> string) (l : list A) :
  forall o : Obj.t nat,
  Forall (fun e => 1 <= snd e)%nat o ->
  Forall (fun e => 1 <= snd e)%nat (fold_left (fun o x => Obj.incr (f x) o) l o).
Proof.
  induction l as [|x r IH]; intros o H; simpl; [exact H|].
  apply IH. unfold Obj.incr. apply Forall_set_pair; [simpl; lia | exact H].
Qed.

Lemma Permutation_filter_perm (A : Type) (q : A -> bool) (l l' : list A) :
  Permutation l l' -> Permutation (filter q l) (filter q l').
Proof.
  induction 1; simpl.
  - constructor.
  - destruct (q x); [now constructor | assumption].
  - destruct (q x), (q y); try apply Permutation_refl. apply perm_swap.
  - eapply Permutation_trans; eassumption.
Qed.

Lemma occurrences_perm k (l l' : list string) :
  Permutation l l' -> occurrences k l = occurrences k l'.
Proof. intros P. unfold occurrences. now apply Permutation_filter_length. Qed.

(** ** The tokenizer *)

Lemma forallChars_app p a b :
  forallChars p (a ++ b) = forallChars p a && forallChars p b.
Proof.
  induction a as [|c r IH]; [reflexivity|].
  simpl. rewrite IH. now rewrite andb_assoc.
Qed.

Lemma lowerChar_not_upper c : Js.isUpper (Js.lowerChar c) = false.
Proof. destruct c as [[] [] [] [] [] [] [] []]; reflexivity. Qed.

Lemma keyChar_of_word c :
  Js.isWord c = true -> Js.isUpper c = false -> isKeyChar c = true.
Proof.
  unfold Js.isWord, isKeyChar. intros H Hu. rewrite Hu in H. exact H.
Qed.

Lemma word_not_space c : Js.isWord c = true -> Js.isSpace c = false.
Proof. destruct c as [[] [] [] [] [] [] [] []]; (reflexivity || discriminate). Qed.

(** After lowering and stripping, a character that is not a space is a key
    character. *)
Lemma stripped_chars (s : string) :
  forallChars (fun c => Js.isSpace c || isKeyChar c)
              (stripPunctuation (Js.toLowerCase s)) = true.
Proof.
  induction s as [|c r IH]; [reflexivity|].
  cbn [Js.toLowerCase stripPunctuation].
  destruct (Js.isWord (Js.lowerChar c)) eqn:W; cbn [orb forallChars].
  - rewrite IH, andb_true_r.
    rewrite (keyChar_of_word _ W (lowerChar_not_upper c)). apply orb_true_r.
  - destruct (Js.isSpace (Js.lowerChar c)) eqn:Sp; cbn [forallChars]; [|exact IH].
    now rewrite Sp, IH.
Qed.

Lemma splitFrom_chars (p : ascii -> bool) (s : string) : forall cur inSpace,
  forallChars (fun c => Js.isSpace c || p c) s = true ->
  forallChars p cur = true ->
  Forall (fun w => forallChars p w = true) (splitFrom s cur inSpace).
Proof.
  induction s as [|c r IH]; intros cur inSpace Hs Hc; simpl.
  - now repeat constructor.
  - simpl in Hs. apply andb_true_iff in Hs as [H1 H2].
    destruct (Js.isSpace c) eqn:Sp.
    + destruct inSpace; [|constructor; [exact Hc|]]; now apply IH.
    + apply IH; [exact H2|]. rewrite forallChars_app, Hc. simpl.
      simpl in H1. now rewrite H1.
Qed.

Lemma countedWords_spec content w :
  In w (countedWords content) ->
  (2 <= String.length w)%nat /\ ~ In w STOP_WORDS
  /\ forallChars isKeyChar w = true.
Proof.
  unfold countedWords. rewrite filter_In. intros [Hin Hf].
  apply andb_true_iff in Hf as [Hl Hs].
  apply Nat.ltb_lt in Hl. split; [lia|]. split.
  - apply negb_true_iff in Hs. intros Hw. apply ReFacts.has_spec in Hw. congruence.
  - pose proof (splitFrom_chars isKeyChar (stripPunctuation (Js.toLowerCase content))
                  "" false (stripped_chars content) eq_refl) as H.
    rewrite Forall_forall in H. now apply H.
Qed.

Lemma fold_flat (A B S : Type) (f : S -> B -> S) (g : A -> list B) (l : list A) :
  forall o : S,
  fold_left (fun o x => fold_left f (g x) o) l o = fold_left f (flat_map g l) o.
Proof.
  induction l as [|x r IH]; intros o; [reflexivity|].
  simpl. now rewrite fold_left_app, IH.
Qed.

Lemma fold_incr_flat (A : Type) (g : A -> list string) (l : list A) :
  forall o : Obj.t nat,
  fold_left (fun o x => fold_left (fun o w => Obj.incr w o) (g x) o) l o
  = fold_left (fun o w => Obj.incr w o) (flat_map g l) o.
Proof. apply fold_flat. Qed.

Lemma occurrences_app k (l l' : list string) :
  occurrences k (l ++ l') = (occurrences k l + occurrences k l')%nat.
Proof. unfold occurrences. now rewrite filter_app, length_app. Qed.

Lemma occurrences_In k (l : list string) : occurrences k l <> 0%nat -> In k l.
Proof.
  unfold occurrences. induction l as [|x r IH]; simpl; [congruence|].
  destruct (String.eqb_spec k x) as [->|Hne]; [now left|]. intros H. right. auto.
Qed.

Lemma repeatChar_snoc c n :
  Js.repeatChar c n ++ String c "" = Js.repeatChar c (S n).
Proof. induction n as [|n IH]; [reflexivity|]. simpl. now rewrite IH. Qed.

Lemma append_assoc (a b c : string) : (a ++ b) ++ c = a ++ (b ++ c).
Proof. induction a as [|x a IH]; [reflexivity|]. simpl. now rewrite IH. Qed.

Lemma append_not_empty (a : string) c (b : string) :
  String.eqb (a ++ String c b) "" = false.
Proof. now destruct a. Qed.

(** The inherited names that a counted word can be. *)
Lemma inherited_word w :
  Js.isInherited w = true -> forallChars isKeyChar w = true ->
  w = "constructor" \/ w = "__proto__".
Proof.
  intros H Hc. unfold Js.isInherited in H.
  apply existsb_exists in H as (x & Hx & E). apply String.eqb_eq in E. subst x.
  unfold Js.inheritedNames in Hx. simpl in Hx.
  repeat (destruct Hx as [<-|Hx]; [first [now left | now right | discriminate]|]).
  destruct Hx.
Qed.

Section WordFacts.
Context {host : Host}.

Lemma accumulateWords_fold content (counts : Obj.t Js.value) :
  accumulateWords content counts
  = fold_left (fun o w => addTo w (Js.Num 1) o) (countedWords content) counts.
Proof.
  unfold accumulateWords, countedWords, words.
  generalize (splitSpaces (stripPunctuation (Js.toLowerCase content))).
  intros l. revert counts. induction l as [|w r IH]; intros counts; [reflexivity|].
  cbn [fold_left filter]. unfold countWord at 2. unfold isCounted.
  destruct ((1 <? String.length w)%nat && negb (has STOP_WORDS w));
    cbn [fold_left]; apply IH.
Qed.

Lemma words_fold (mine : list RawMessage) : forall o : Obj.t Js.value,
  fold_left (fun o m => accumulateWords (content m) o) mine o
  = fold_left (fun o w => addTo w (Js.Num 1) o)
              (flat_map (fun m => countedWords (content m)) mine) o.
Proof.
  induction mine as [|m r IH]; intros o; [reflexivity|].
  simpl. now rewrite fold_left_app, IH, accumulateWords_fold.
Qed.

Lemma get_addTo_other k k' v (o : Obj.t Js.value) :
  k <> k' -> Obj.get k (addTo k' v o) = Obj.get k o.
Proof.
  intros H. unfold addTo. destruct (Obj.get k' o); [now apply get_set_other|].
  destruct (String.eqb k' "__proto__"); [reflexivity|].
  destruct (Js.isInherited k'); now apply get_set_other.
Qed.

Lemma keys_addTo k v (o : Obj.t Js.value) :
  NoDup (map fst o) -> NoDup (map fst (addTo k v o)).
Proof.
  intros H. unfold addTo. destruct (Obj.get k o); [now apply set_keys_NoDup|].
  destruct (String.eqb k "__proto__"); [exact H|].
  destruct (Js.isInherited k); now apply set_keys_NoDup.
Qed.

Lemma keys_fold_addTo (l : list string) : forall o : Obj.t Js.value,
  NoDup (map fst o) ->
  NoDup (map fst (fold_left (fun o w => addTo w (Js.Num 1) o) l o)).
Proof.
  induction l as [|x r IH]; intros o H; [exact H|].
  simpl. apply IH. now apply keys_addTo.
Qed.

(** One more occurrence of a word. *)
Lemma get_addTo_one w n (o : Obj.t Js.value) :
  Obj.get w o = countedValue w n ->
  Obj.get w (addTo w (Js.Num 1) o) = countedValue w (S n).
Proof.
  intros H. unfold addTo. rewrite H.
  destruct n as [|n]; cbn [countedValue] in *.
  - destruct (String.eqb w "__proto__"); [exact H|].
    destruct (Js.isInherited w); now rewrite get_set_same.
  - destruct (String.eqb w "__proto__") eqn:P; [exact H|].
    destruct (Js.isInherited w); rewrite get_set_same; f_equal.
    + cbn [Js.truthy Js.repeatChar]. rewrite append_not_empty. cbn [negb Js.plus].
      f_equal. cbn [Js.toText]. rewrite append_assoc. f_equal.
      apply (repeatChar_snoc "1" (S n)).
    + cbn [Js.truthy Nat.eqb negb Js.plus]. f_equal. lia.
Qed.

(** After counting the words of a list, every word holds what its number of
    occurrences gives. *)
Lemma get_fold_addTo (l : list string) : forall (o : Obj.t Js.value) seen,
  (forall w, Obj.get w o = countedValue w (occurrences w seen)) ->
  forall w, Obj.get w (fold_left (fun o x => addTo x (Js.Num 1) o) l o)
            = countedValue w (occurrences w (seen ++ l)).
Proof.
  induction l as [|x r IH]; intros o seen H w; simpl.
  - now rewrite app_nil_r.
  - replace (seen ++ x :: r)%list with ((seen ++ [x]) ++ r)%list
      by (now rewrite <- app_assoc).
    apply IH. intros w'. rewrite occurrences_app. unfold occurrences at 2.
    cbn [filter]. destruct (String.eqb_spec w' x) as [->|Hne]; cbn [List.length].
    + rewrite Nat.add_1_r. apply get_addTo_one, H.
    + rewrite Nat.add_0_r, get_addTo_other by exact Hne. apply H.
Qed.

Lemma counted_fold_addTo (l : list string) w :
  Obj.get w (fold_left (fun o x => addTo x (Js.Num 1) o) l [])
  = countedValue w (occurrences w l).
Proof. apply (@get_fold_addTo l [] []). reflexivity. Qed.

Lemma accFor_emojis k msgs prev s :
  Temp.emojis (accFor k prev msgs s)
  = fold_left (fun o e => Obj.incr e o)
              (flat_map (fun m => emojiMatches (content m)) (sentBy k msgs))
              (Temp.emojis s).
Proof.
  rewrite (accFor_basic Temp.emojis
             (fun m o => fold_left (fun o e => Obj.incr e o)
                                   (emojiMatches (content m)) o) k);
    try reflexivity.
  apply (fold_incr_flat (fun m => emojiMatches (content m))).
Qed.

Lemma sorted_sentBy_perm k found :
  Permutation (sentBy k (sortChronologically found)) (sentBy k found).
Proof. apply Permutation_filter_perm, stableSort_perm. Qed.

Lemma resolved_words fileName text now r s :
  parseChatFile fileName text now = Resolved r -> In s (senders r) ->
  let mine := sentBy (name s)
                (sortChronologically (fst (extractMessages (parseFromString text)))) in
  wordCounts s
  = fold_left (fun o w => addTo w (Js.Num 1) o)
              (flat_map (fun m => countedWords (content m)) mine) []
  /\ emojis s
     = fold_left (fun o e => Obj.incr e o)
                 (flat_map (fun m => emojiMatches (content m)) mine) [].
Proof.
  intros H Hs mine.
  destruct (@resolved_sender _ fileName text now r s H Hs) as (_ & idx & Hi).
  split.
  - rewrite Hi at 1. cbn [senderStat wordCounts].
    rewrite accFor_words. apply words_fold.
  - rewrite Hi at 1. cbn [senderStat emojis]. apply accFor_emojis.
Qed.

End WordFacts.

(** ** The histograms of the pass *)

Lemma occurrences_map (A : Type) (f : A -> string) k (l : list A) :
  occurrences k (map f l) = List.length (filter (fun x => String.eqb k (f x)) l).
Proof.
  unfold occurrences. induction l as [|x r IH]; [reflexivity|].
  simpl. destruct (String.eqb k (f x)); simpl; now rewrite IH.
Qed.

Lemma filter_ext_length (A : Type) (p q : A -> bool) (l : list A) :
  (forall x, In x l -> p x = q x) ->
  List.length (filter p l) = List.length (filter q l).
Proof.
  intros H. induction l as [|x r IH]; [reflexivity|].
  simpl. rewrite (H x (or_introl eq_refl)).
  destruct (q x); simpl; rewrite IH; auto; intros y Hy; apply H; now right.
Qed.

Lemma hours_distinct :
  Dates.allFrom 24 0
    (fun a => Dates.allFrom 24 0
                (fun b => implb (String.eqb (Js.ofZ a) (Js.ofZ b)) (a =? b)))
  = true.
Proof. vm_compute. reflexivity. Qed.

Lemma ofZ_hours a b :
  0 <= a < 24 -> 0 <= b < 24 -> String.eqb (Js.ofZ a) (Js.ofZ b) = (a =? b).
Proof.
  intros Ha Hb.
  pose proof (@CalFacts.allFrom_spec _ 24 0 hours_distinct a) as H.
  cbv beta in H. specialize (H ltac:(lia)).
  pose proof (@CalFacts.allFrom_spec _ 24 0 H b ltac:(lia)) as H'.
  cbv beta in H'.
  destruct (Z.eqb_spec a b) as [->|Hne]; [apply String.eqb_refl|].
  destruct (String.eqb (Js.ofZ a) (Js.ofZ b)); [discriminate H' | reflexivity].
Qed.

Section HistogramFacts.
Context {host : Host}.

Lemma loop_hourly msgs : forall st,
  Pass.hourlyStats (fold_left step msgs st)
  = fold_left (fun o m => Obj.incr (Js.ofZ (getHours (timestamp m))) o) msgs
              (Pass.hourlyStats st).
Proof. induction msgs as [|m r IH]; intros st; simpl; [|rewrite IH]; reflexivity. Qed.

Lemma loop_timeline msgs : forall st,
  Pass.timelineStats (fold_left step msgs st)
  = fold_left (fun o m => Obj.incr (dayKey (timestamp m)) o) msgs
              (Pass.timelineStats st).
Proof. induction msgs as [|m r IH]; intros st; simpl; [|rewrite IH]; reflexivity. Qed.

Lemma loop_daily msgs : forall st,
  Pass.dailyActivity (fold_left step msgs st)
  = fold_left (fun o m => Obj.incr (dayKey (timestamp m)) o) msgs
              (Pass.dailyActivity st).
Proof. induction msgs as [|m r IH]; intros st; simpl; [|rewrite IH]; reflexivity. Qed.

Lemma loop_months msgs : forall st,
  Pass.monthCounts (fold_left step msgs st)
  = fold_left (fun o m => Obj.incr (monthKey (timestamp m)) o) msgs
              (Pass.monthCounts st).
Proof. induction msgs as [|m r IH]; intros st; simpl; [|rewrite IH]; reflexivity. Qed.

(** A record of counters filled from the sorted messages against the
    extracted ones. *)
Lemma counted_sorted (f : RawMessage -> string) found k :
  Obj.get k (fold_left (fun o m => Obj.incr (f m) o) (sortChronologically found) [])
  = counted (List.length (filter (fun m => String.eqb k (f m)) found)).
Proof.
  rewrite counted_fold_incr, occurrences_map. f_equal.
  apply sorted_filter_length.
Qed.

(** ** The busiest entry *)

Lemma busiest_fold (l : list (string * nat)) : forall best,
  let pick := fun best e : string * nat =>
                if (snd best <? snd e)%nat then e else best in
  let b := fold_left pick l best in
  (b = best \/ In b l)
  /\ (snd best <= snd b)%nat
  /\ forall e, In e l -> (snd e <= snd b)%nat.
Proof.
  induction l as [|e r IH]; intros best; simpl.
  - split; [now left|]. split; [lia | tauto].
  - specialize (IH (if (snd best <? snd e)%nat then e else best)).
    cbv zeta in IH. destruct IH as (A & B & C).
    destruct (Nat.ltb_spec (snd best) (snd e)) as [Hlt|Hge].
    + split; [destruct A as [->|A]; auto|]. split; [lia|].
      intros e' [<-|He']; [exact B | now apply C].
    + split; [destruct A as [->|A]; auto|]. split; [exact B|].
      intros e' [<-|He']; [lia | now apply C].
Qed.

Lemma busiest_spec (o : Obj.t nat) :
  o <> [] -> NoDup (map fst o) -> Forall (fun e => 1 <= snd e)%nat o ->
  Obj.get (fst (busiest o)) o = Some (snd (busiest o))
  /\ forall k n, Obj.get k o = Some n -> (n <= snd (busiest o))%nat.
Proof.
  intros Hne Hnd Hpos.
  pose proof (entries_perm o) as P.
  destruct (busiest_fold (Obj.entries o) ("", 0%nat)) as (A & _ & C).
  fold (busiest o) in A, C.
  assert (Hmax : forall e, In e o -> (snd e <= snd (busiest o))%nat)
    by (intros e He; apply C; now apply (Permutation_in _ (Permutation_sym P))).
  split.
  - destruct A as [A|A].
    + destruct o as [|e r]; [congruence|].
      specialize (Hmax e (or_introl eq_refl)).
      apply Forall_cons_iff in Hpos as [He _]. rewrite A in Hmax. simpl in Hmax. lia.
    + apply (Permutation_in _ P) in A.
      apply In_get; [exact Hnd|]. now destruct (busiest o).
  - intros k n Hk. apply get_In_pair in Hk. exact (Hmax _ Hk).
Qed.

End HistogramFacts.

(** ** Trimming *)

Lemma trimStart_shape s :
  Js.trimStart s = ""
  \/ exists c r, Js.trimStart s = String c r /\ Js.isSpace c = false.
Proof.
  induction s as [|c r IH]; [now left|].
  cbn [Js.trimStart]. destruct (Js.isSpace c) eqn:E; [exact IH|].
  right. now exists c, r.
Qed.

Lemma trimEnd_idempotent s : Js.trimEnd (Js.trimEnd s) = Js.trimEnd s.
Proof.
  induction s as [|c r IH]; [reflexivity|].
  cbn [Js.trimEnd]. destruct (Js.trimEnd r) as [|a b] eqn:E.
  - destruct (Js.isSpace c) eqn:Sp; [reflexivity|].
    cbn [Js.trimEnd]. now rewrite Sp.
  - change (Js.trimEnd (String c (String a b)))
      with (match Js.trimEnd (String a b) with
            | EmptyString => if Js.isSpace c then EmptyString else String c EmptyString
            | String a' b' => String c (String a' b')
            end).
    now rewrite IH.
Qed.

Lemma trimEnd_head c r :
  Js.isSpace c = false -> exists r', Js.trimEnd (String c r) = String c r'.
Proof.
  intros Sp. cbn [Js.trimEnd]. destruct (Js.trimEnd r) as [|a b].
  - rewrite Sp. now exists "".
  - now exists (String a b).
Qed.

Lemma trim_idempotent s : Js.trim (Js.trim s) = Js.trim s.
Proof.
  unfold Js.trim. destruct (trimStart_shape s) as [E|(c & r & E & Sp)]; rewrite E.
  - reflexivity.
  - destruct (@trimEnd_head c r Sp) as (r' & E'). rewrite E'.
    cbn [Js.trimStart]. rewrite Sp. rewrite <- E'. apply trimEnd_idempotent.
Qed.

Lemma isValidSender_trim text :
  isValidSender text = true -> isValidSender (Js.trim text) = true.
Proof.
  intros H. unfold isValidSender in *.
  destruct (String.eqb text ""); [discriminate|].
  rewrite trim_idempotent.
  destruct (String.eqb_spec (Js.trim text) "") as [E|E]; [|exact H].
  rewrite E in H. discriminate H.
Qed.

Lemma isValidSender_nonempty text : isValidSender text = true -> Js.trim text <> "".
Proof.
  unfold isValidSender. destruct (String.eqb text ""); [discriminate|].
  cbv zeta. intros H E. rewrite E in H. discriminate H.
Qed.

(** ** The extraction *)

Lemma collect_In (A B : Type) (f : A -> option B) y : forall l,
  In y (collect f l) -> exists x, In x l /\ f x = Some y.
Proof.
  induction l as [|x r IH]; simpl; [tauto|].
  destruct (f x) as [z|] eqn:E.
  - intros [<-|H]; [exists x; auto|].
    destruct (IH H) as (x' & Hx & Hf). exists x'. auto.
  - intros H. destruct (IH H) as (x' & Hx & Hf). exists x'. auto.
Qed.

Lemma collect_nil (A B : Type) (f : A -> option B) l :
  collect f l <> [] -> l <> [].
Proof. intros H E. subst l. now apply H. Qed.

Section ExtractionFacts.
Context {host : Host}.

Lemma metaMessage_sender el m : metaMessage el = Some m -> goodSender m.
Proof.
  unfold metaMessage. cbv zeta.
  destruct (querySelector el "h2, h3, h4, ._2lem, ._27_v, ._a6-h") as [h|];
    [|discriminate].
  cbn [option_map].
  destruct (extractDate _) as [d|]; [|discriminate].
  destruct (String.eqb_spec (Js.trim (textContent h)) "") as [E|E];
    [discriminate|].
  cbn [negb andb]. destruct (isValidSender (Js.trim (textContent h))) eqn:V;
    [|discriminate].
  intros [= <-]. unfold goodSender. cbn [sender].
  split; [exact V|]. split; [apply trim_idempotent | exact E].
Qed.

Lemma telegramMessage_sender msg m : telegramMessage msg = Some m -> goodSender m.
Proof.
  unfold telegramMessage. cbv zeta.
  destruct (querySelector msg ".from_name") as [h|]; [|discriminate].
  cbn [option_map].
  destruct (extractDate _) as [d|]; [|discriminate].
  destruct (String.eqb_spec (Js.trim (textContent h)) "") as [E|E];
    [discriminate|].
  cbn [negb andb]. destruct (isValidSender (Js.trim (textContent h))) eqn:V;
    [|discriminate].
  intros [= <-]. unfold goodSender. cbn [sender].
  split; [exact V|]. split; [apply trim_idempotent | exact E].
Qed.

Lemma senderNear_sender div parent :
  senderNear div parent <> "" ->
  isValidSender (senderNear div parent) = true
  /\ Js.trim (senderNear div parent) = senderNear div parent.
Proof.
  unfold senderNear. cbv zeta.
  destruct (find _ (previousElementSiblings div)) as [prev|] eqn:F.
  - intros _. apply find_some in F as [_ F].
    apply andb_true_iff in F as [_ V].
    split; [now apply isValidSender_trim | apply trim_idempotent].
  - destruct (previousElementSibling parent) as [pPrev|]; [|congruence].
    destruct (negb (String.eqb (textContent pPrev) "")
              && isValidSender (textContent pPrev)) eqn:V; [|congruence].
    intros _. apply andb_true_iff in V as [_ V].
    split; [now apply isValidSender_trim | apply trim_idempotent].
Qed.

Lemma heuristicMessage_sender div m : heuristicMessage div = Some m -> goodSender m.
Proof.
  unfold heuristicMessage. cbv zeta.
  destruct (negb (String.eqb (Js.trim (textContent div)) "")
            && (String.length (Js.trim (textContent div)) <? 50)%nat
            && Re.testWhole Pattern.META_DATE_REGEX (Js.trim (textContent div)));
    [|discriminate].
  destruct (extractDate _) as [d|]; [|discriminate].
  destruct (parentElement div) as [parent|].
  - destruct (String.eqb_spec (senderNear div parent) "") as [E|E];
      [discriminate|].
    cbn [negb]. intros [= <-]. unfold goodSender. cbn [sender].
    destruct (@senderNear_sender div parent E) as [V T]. auto.
  - cbn. discriminate.
Qed.

Lemma extractMessages_cases doc :
  let found := fst (extractMessages doc) in
  let format := snd (extractMessages doc) in
  found = []
  \/ (found = strategyMeta doc
      /\ format = "Meta/Instagram Export (Class)")
  \/ (strategyMeta doc = [] /\ found = strategyHeuristic doc
      /\ format = "Meta/Instagram Export (Heuristic)")
  \/ (strategyMeta doc = [] /\ strategyHeuristic doc = []
      /\ found = strategyTelegram doc /\ format = "Telegram Export").
Proof.
  unfold extractMessages. cbv zeta.
  destruct (strategyMeta doc) as [|m1 r1] eqn:E1.
  - destruct (strategyHeuristic doc) as [|m2 r2] eqn:E2.
    + cbn [fst snd].
      destruct (strategyTelegram doc) as [|m3 r3] eqn:E3; [now left|].
      right. right. right. repeat split.
      assert (Hne : querySelectorAll doc ".message" <> []).
      { apply (collect_nil telegramMessage). unfold strategyTelegram in E3.
        rewrite E3. discriminate. }
      destruct (querySelectorAll doc ".message"); [congruence | reflexivity].
    + right. right. left. cbn [fst snd]. auto.
  - right. left. cbn [fst snd]. split; [reflexivity|].
    assert (Hne : querySelectorAll doc ".pam, ._3-96, ._a6-g" <> []).
    { apply (collect_nil metaMessage). unfold strategyMeta in E1.
      rewrite E1. discriminate. }
    destruct (querySelectorAll doc ".pam, ._3-96, ._a6-g"); [congruence | reflexivity].
Qed.

Lemma extracted_sender doc m :
  In m (fst (extractMessages doc)) -> goodSender m.
Proof.
  intros H.
  destruct (extractMessages_cases doc) as [E|[[E _]|[(_ & E & _)|(_ & _ & E & _)]]];
    cbv zeta in E; rewrite E in H.
  - destruct H.
  - apply collect_In in H as (x & _ & Hx). now apply metaMessage_sender in Hx.
  - apply collect_In in H as (x & _ & Hx). now apply heuristicMessage_sender in Hx.
  - apply collect_In in H as (x & _ & Hx). now apply telegramMessage_sender in Hx.
Qed.

End ExtractionFacts.

(** ** The days of a result *)

Lemma counted_Some n m : counted n = Some m -> n = m /\ (1 <= n)%nat.
Proof. destruct n; simpl; [discriminate|]. intros [= <-]. split; [reflexivity | lia]. Qed.

Lemma counted_le n m : counted n = Some m \/ n = 0%nat -> (n <= m)%nat.
Proof. intros [H|H]; [apply counted_Some in H|]; lia. Qed.

Lemma sorted_last (A : Type) (R : A -> A -> Prop) (l : list A) z :
  StronglySorted R l -> hd_error (rev l) = Some z ->
  In z l /\ forall x, In x l -> x = z \/ R x z.
Proof.
  induction 1 as [|x r Hs IH Hx]; [discriminate|].
  simpl. destruct (rev r) as [|y r'] eqn:E.
  - simpl. intros [= <-].
    assert (r = []) by (apply (f_equal (@rev A)) in E; now rewrite rev_involutive in E).
    subst r. split; [now left|]. intros x' [<-|[]]. now left.
  - simpl. intros [= <-].
    destruct (IH eq_refl) as [Hz Hall].
    split; [now right|]. intros x' [<-|Hx'].
    + right. rewrite Forall_forall in Hx. now apply Hx.
    + now apply Hall.
Qed.

Lemma addKey_fold_length (A : Type) (f : A -> string) (l : list A) :
  forall keys,
  (List.length (fold_left (fun ks x => addKey (f x) ks) l keys)
   <= List.length keys + List.length l)%nat.
Proof.
  induction l as [|x r IH]; intros keys; simpl; [lia|].
  specialize (IH (addKey (f x) keys)).
  assert (List.length (addKey (f x) keys) <= S (List.length keys))%nat.
  { unfold addKey. destruct (existsb _ keys); [lia|].
    rewrite length_app. simpl. lia. }
  lia.
Qed.

Section DayFacts.
Context {host : Host}.

Lemma streak_fold_upper keys : forall cur mx prev,
  let '(cur', mx', _) := fold_left streakStep keys (cur, mx, prev) in
  (Nat.max mx' cur' <= Nat.max mx cur + List.length keys)%nat.
Proof.
  induction keys as [|k r IH]; intros cur mx prev; simpl; [lia|].
  destruct (oneDayApart prev (newDate k)).
  - specialize (IH (S cur) mx (newDate k)).
    destruct (fold_left streakStep r (S cur, mx, newDate k)) as [[c m] p]. lia.
  - specialize (IH 1%nat (Nat.max mx cur) (newDate k)).
    destruct (fold_left streakStep r (1%nat, Nat.max mx cur, newDate k)) as [[c m] p].
    lia.
Qed.

Lemma maxDayStreak_le sortedDays :
  (maxDayStreak sortedDays <= List.length sortedDays)%nat.
Proof.
  destruct sortedDays as [|first rest]; [reflexivity|].
  unfold maxDayStreak.
  pose proof (streak_fold_upper rest 1%nat 1%nat (newDate first)) as H.
  destruct (fold_left streakStep rest (1%nat, 1%nat, newDate first)) as [[c m] p].
  simpl in *. lia.
Qed.

Lemma gap_fold_lower keys : forall mx d,
  (mx <= fst (fold_left gapStep keys (mx, d)))%Q.
Proof.
  induction keys as [|k r IH]; intros mx d; cbn [fold_left]; [apply Qle_refl|].
  assert (Hstep : (mx <= fst (gapStep (mx, d) k))%Q).
  { unfold gapStep.
    destruct d as [a|]; [destruct (newDate k) as [b|]|]; cbn [fst];
      try apply Qle_refl.
    destruct (Qle_bool (Qred ((b - a) # 86400000)) mx) eqn:E; [apply Qle_refl|].
    apply Qlt_le_weak, Qnot_le_lt. intros H. apply Qle_bool_iff in H. congruence. }
  destruct (gapStep (mx, d) k) as [mx' d']. cbn [fst] in Hstep.
  eapply Qle_trans; [exact Hstep | apply IH].
Qed.

Lemma longestGap_nonneg sortedDays : 0 <= longestGap sortedDays.
Proof.
  unfold longestGap. destruct sortedDays as [|first [|second rest]]; try lia.
  change 0 with (Qfloor 0). apply Qfloor_resp_le. apply gap_fold_lower.
Qed.

Lemma daily_length msgs :
  (List.length (Pass.dailyActivity (analysisLoop msgs)) <= List.length msgs)%nat.
Proof.
  rewrite <- (length_map fst). unfold analysisLoop. rewrite loop_keys.
  apply (addKey_fold_length (fun m => dayKey (timestamp m)) msgs []).
Qed.

End DayFacts.


(** ** The revisions of the validator *)

Lemma has_labelsWithYou x :
  has labelsWithYou x = has commonLabels x || String.eqb x "you".
Proof.
  unfold has, labelsWithYou, commonLabels. cbn [existsb].
  repeat match goal with
         | |- context [String.eqb x ?s] =>
             destruct (String.eqb x s); cbn [orb]; try reflexivity
         end.
Qed.

(** ** The loop over the uploaded files *)

Lemma mapi_from_beyond (A : Type) (g : A -> A) i : forall l j,
  (i < j)%nat ->
  mapi_from (fun a idx => if (idx =? i)%nat then g a else a) j l = l.
Proof.
  induction l as [|x r IH]; intros j H; [reflexivity|].
  simpl. destruct (Nat.eqb_spec j i); [lia|]. rewrite IH by lia. reflexivity.
Qed.

Lemma mapi_from_at (A : Type) (g : A -> A) i : forall pre j x post,
  (j + List.length pre = i)%nat ->
  mapi_from (fun a idx => if (idx =? i)%nat then g a else a) j (pre ++ x :: post)
  = (pre ++ g x :: post)%list.
Proof.
  induction pre as [|y r IH]; intros j x post H; simpl in *.
  - destruct (Nat.eqb_spec j i); [|lia]. rewrite mapi_from_beyond by lia. reflexivity.
  - destruct (Nat.eqb_spec j i); [lia|]. rewrite IH by lia. reflexivity.
Qed.

Section UploadFacts.
Context {host : Host}.
Variable clock : nat -> Z.

Lemma setProgress_at i s done x rest :
  List.length done = i ->
  App.setProgress i s (done ++ x :: rest)
  = (done ++ {| Progress.name := Progress.name x; Progress.status_of := s |}
          :: rest)%list.
Proof.
  intros H. unfold App.setProgress, mapi.
  apply (mapi_from_at
           (fun fp => {| Progress.name := Progress.name fp;
                         Progress.status_of := s |})).
  simpl. exact H.
Qed.

Lemma resolved_has_messages fileName text now r :
  parseChatFile fileName text now = Resolved r -> (1 <= totalMessages r)%nat.
Proof.
  intros H. apply parse_resolved in H as (_ & found & format & _ & Hne & ->).
  unfold analyze. cbn [totalMessages]. unfold sortChronologically.
  rewrite stableSort_length. destruct found; [congruence | simpl; lia].
Qed.

Lemma parseFile_has_messages file now r :
  App.parseFile file now = Resolved r -> (0 <? totalMessages r)%nat = true.
Proof.
  unfold App.parseFile. destruct (File.text file); [|discriminate].
  intros H. apply resolved_has_messages in H. apply Nat.ltb_lt. lia.
Qed.

Lemma processFile_spec i done file rest results :
  List.length done = i ->
  App.processFile clock
    ((done ++ {| Progress.name := File.name file;
                 Progress.status_of := Progress.pending |} :: rest)%list, results)
    i file
  = ((done ++ Upload.settled file (App.parseFile file (clock i)) :: rest)%list,
     (results ++ match Upload.resolved (App.parseFile file (clock i)) with
                 | Some r => [r]
                 | None => []
                 end)%list).
Proof.
  intros H. unfold App.processFile. cbv zeta. cbn [fst snd].
  rewrite (@setProgress_at i Progress.processing done _ rest H). cbn [Progress.name].
  destruct (App.parseFile file (clock i)) as [msg|r] eqn:E.
  - rewrite (@setProgress_at i Progress.error done _ rest H). cbn [Progress.name].
    unfold Upload.settled, Upload.resolved. now rewrite app_nil_r.
  - rewrite (@parseFile_has_messages file (clock i) r E).
    rewrite (@setProgress_at i Progress.complete done _ rest H). reflexivity.
Qed.

Lemma processFrom_spec files : forall i done results,
  List.length done = i ->
  let settled := mapi_from (fun file j => App.parseFile file (clock j)) i files in
  App.processFrom clock i files
    ((done ++ map (fun f => {| Progress.name := File.name f;
                               Progress.status_of := Progress.pending |}) files)%list,
     results)
  = ((done ++ map (fun p => Upload.settled (fst p) (snd p))
                  (combine files settled))%list,
     (results ++ collect Upload.resolved settled)%list).
Proof.
  induction files as [|file rest IH]; intros i done results H; cbv zeta.
  - simpl. now rewrite !app_nil_r.
  - cbn [App.processFrom map mapi_from combine collect fst snd].
    rewrite (@processFile_spec i done file _ results H).
    change (done ++ Upload.settled file (App.parseFile file (clock i)) :: ?t)%list
      with (done ++ [Upload.settled file (App.parseFile file (clock i))] ++ t)%list.
    rewrite app_assoc.
    rewrite (IH (S i)) by (rewrite length_app; simpl; lia).
    cbv zeta. rewrite <- !app_assoc. cbn [app].
    destruct (App.parseFile file (clock i)); reflexivity.
Qed.

End UploadFacts.

(** ** The longest gap *)

Lemma Qred_days k : Qred ((k * 86400000) # 86400000) = inject_Z k.
Proof.
  transitivity (Qred (inject_Z k)).
  - apply Qred_complete. unfold Qeq, inject_Z; simpl. lia.
  - apply Qred_identity. unfold inject_Z; simpl. apply Z.gcd_1_r.
Qed.

Lemma Qle_bool_inject a b : Qle_bool (inject_Z a) (inject_Z b) = (a <=? b).
Proof.
  destruct (Z.leb_spec a b) as [H|H].
  - apply Qle_bool_iff. now rewrite <- Zle_Qle.
  - destruct (Qle_bool (inject_Z a) (inject_Z b)) eqn:E; [|reflexivity].
    apply Qle_bool_iff in E. rewrite <- Zle_Qle in E. lia.
Qed.

Lemma maxStep_spec days : forall prev mx,
  StronglySorted Z.lt (prev :: days) ->
  let M := maxStepFrom prev days mx in
  mx <= M
  /\ (forall d d', Successive (prev :: days) d d' -> d' - d <= M)
  /\ (M = mx \/ exists d d', Successive (prev :: days) d d' /\ M = d' - d).
Proof.
  induction days as [|e r IH]; intros prev mx Hs; cbv zeta.
  - simpl. split; [lia|]. split; [|now left].
    intros d d' (Hd & Hd' & Hlt & _). destruct Hd as [<-|[]], Hd' as [<-|[]]. lia.
  - inversion Hs as [|? ? Hs' Hall]; subst.
    apply Forall_cons_iff in Hall as [Hpe Hpr].
    assert (Her : Forall (Z.lt e) r) by now inversion Hs'.
    rewrite Forall_forall in Hpr, Her.
    destruct (IH e (Z.max mx (e - prev)) Hs') as (A & B & C). cbv zeta in A, B, C.
    cbn [maxStepFrom].
    split; [lia|]. split.
    + intros d d' (Hd & Hd' & Hlt & Hno).
      destruct Hd as [<-|Hd].
      * destruct Hd' as [<-|[<-|Hd']]; [lia | lia |].
        exfalso. apply (Hno e); [right; now left|].
        specialize (Her _ Hd'). lia.
      * assert (Hd2 : In d' (e :: r)).
        { destruct Hd' as [<-|Hd']; [|exact Hd'].
          exfalso. destruct Hd as [<-|Hd]; [lia|]. specialize (Hpr _ Hd). lia. }
        apply B. split; [exact Hd|]. split; [exact Hd2|]. split; [exact Hlt|].
        intros x Hx. apply Hno. now right.
    + destruct C as [C|(d & d' & (Hd & Hd' & Hlt & Hno) & C)].
      * destruct (Z.max_spec mx (e - prev)) as [[_ E]|[_ E]].
        -- right. exists prev, e. split; [|lia].
           split; [now left|]. split; [right; now left|]. split; [lia|].
           intros x [<-|[<-|Hx]]; [lia | lia |]. specialize (Her _ Hx). lia.
        -- left. lia.
      * right. exists d, d'. split; [|exact C].
        split; [now right|]. split; [now right|]. split; [exact Hlt|].
        intros x [<-|Hx]; [|now apply Hno].
        assert (prev < d) by (destruct Hd as [<-|Hd]; [lia | specialize (Hpr _ Hd); lia]).
        lia.
Qed.

Section GapDays.
Context {host : Host}.

Lemma gap_fold_days days : forall prev mx,
  Forall Dates.fourDigitYear days ->
  fst (fold_left gapStep (map Dates.isoKey days)
                 (inject_Z mx, Some (prev * Cal.msPerDay)))
  = inject_Z (maxStepFrom prev days mx).
Proof.
  induction days as [|d r IH]; intros prev mx Hy; [reflexivity|].
  apply Forall_cons_iff in Hy as [Hd Hr].
  cbn [map fold_left maxStepFrom]. unfold gapStep at 2.
  rewrite (newDate_isoKey Hd).
  replace (d * Cal.msPerDay - prev * Cal.msPerDay) with ((d - prev) * 86400000)
    by (unfold Cal.msPerDay; lia).
  rewrite Qred_days, Qle_bool_inject.
  replace (if d - prev <=? mx then inject_Z mx else inject_Z (d - prev))
    with (inject_Z (Z.max mx (d - prev)))
    by (destruct (Z.leb_spec (d - prev) mx); f_equal; lia).
  exact (IH d _ Hr).
Qed.

Lemma longestGap_days days :
  Forall Dates.fourDigitYear days ->
  longestGap (map Dates.isoKey days)
  = match days with
    | first :: rest => maxStepFrom first rest 0
    | [] => 0
    end.
Proof.
  intros Hy. destruct days as [|d1 [|d2 rest]]; try reflexivity.
  apply Forall_cons_iff in Hy as [H1 Hr].
  unfold longestGap. cbn [map].
  change (Dates.isoKey d2 :: map Dates.isoKey rest)
    with (map Dates.isoKey (d2 :: rest)).
  rewrite (newDate_isoKey H1).
  change 0%Q with (inject_Z 0).
  rewrite (gap_fold_days d1 0 Hr).
  unfold inject_Z. apply Qfloor_Z.
Qed.

(** The sorted day keys are the keys of the distinct local days of the
    messages, in ascending order. *)
Lemma sorted_days_of_found found :
  let days := map (fun m => localDay (timestamp m)) found in
  (forall m, In m found -> 1000 <= getFullYear (timestamp m) <= 9999) ->
  exists sd,
    sortedDayKeys (Pass.dailyActivity (analysisLoop (sortChronologically found)))
    = map Dates.isoKey sd
    /\ StronglySorted Z.lt sd
    /\ Forall Dates.fourDigitYear sd
    /\ forall x, In x sd <-> In x days.
Proof.
  intros days Hyears.
  set (msgs := sortChronologically found).
  assert (Hperm : Permutation msgs found) by apply stableSort_perm.
  assert (Hm : Forall (fun m => Dates.fourDigitYear (localDay (timestamp m))) msgs).
  { rewrite Forall_forall. intros m Hin. apply Hyears.
    exact (Permutation_in _ Hperm Hin). }
  exists (stableSort Z.leb (firstSeenDays msgs [])).
  split; [exact (sortedDayKeys_days Hm)|].
  destruct (@firstSeenDays_facts _ msgs [] (NoDup_nil Z)) as [Hnd Hin].
  set (fs := firstSeenDays msgs []) in *.
  set (sd := stableSort Z.leb fs).
  assert (Hsd : Permutation sd fs) by apply stableSort_perm.
  assert (Hmem : forall x, In x sd <-> In x days).
  { intros x. split; intros Hx.
    - apply (Permutation_in _ Hsd), Hin in Hx as [Hx|[]].
      apply in_map_iff in Hx as (m & <- & Hx).
      apply (in_map (fun m => localDay (timestamp m))).
      exact (Permutation_in _ Hperm Hx).
    - apply (Permutation_in _ (Permutation_sym Hsd)), Hin. left.
      apply in_map_iff in Hx as (m & <- & Hx).
      apply (in_map (fun m => localDay (timestamp m))).
      exact (Permutation_in _ (Permutation_sym Hperm) Hx). }
  split; [|split; [|exact Hmem]].
  - apply sorted_NoDup_strict.
    + apply stableSort_sorted.
      * intros a b. rewrite !Z.leb_le. lia.
      * intros a b c. rewrite !Z.leb_le. lia.
    + exact (Permutation_NoDup (Permutation_sym Hsd) Hnd).
  - rewrite Forall_forall. intros x Hx. apply Hmem in Hx.
    apply in_map_iff in Hx as (m & <- & Hx). now apply Hyears.
Qed.

End GapDays.

(** ** Adding records of counters *)

Lemma total_set (k : string) (v : nat) (o : Obj.t nat) :
  (Obj.total (Obj.set k v o) + getOr0 k o = Obj.total o + v)%nat.
Proof.
  unfold Obj.total, getOr0.
  induction o as [|[k' v'] r IH]; simpl; [lia|].
  destruct (String.eqb k k'); simpl; lia.
Qed.

Lemma getOr0_set (k k' : string) (v : nat) (o : Obj.t nat) :
  getOr0 k (Obj.set k' v o) = if String.eqb k k' then v else getOr0 k o.
Proof.
  unfold getOr0. destruct (String.eqb_spec k k') as [->|Hne].
  - now rewrite get_set_same.
  - now rewrite get_set_other.
Qed.

Lemma addAll_total (l : list (string * nat)) : forall into : Obj.t nat,
  Obj.total (fold_left (fun o e => Obj.set (fst e) (getOr0 (fst e) o + snd e)%nat o)
                       l into)
  = (Obj.total into + list_sum (map snd l))%nat.
Proof.
  induction l as [|e r IH]; intros into; simpl; [lia|].
  rewrite IH. pose proof (total_set (fst e) (getOr0 (fst e) into + snd e) into).
  lia.
Qed.

Lemma addAll_get (l : list (string * nat)) k : forall into : Obj.t nat,
  getOr0 k (fold_left (fun o e => Obj.set (fst e) (getOr0 (fst e) o + snd e)%nat o)
                      l into)
  = (getOr0 k into
     + list_sum (map snd (filter (fun e => String.eqb k (fst e)) l)))%nat.
Proof.
  induction l as [|e r IH]; intros into; simpl; [lia|].
  rewrite IH, getOr0_set. destruct (String.eqb_spec k (fst e)) as [->|Hne];
    simpl; lia.
Qed.

Lemma addAll_keys (l : list (string * nat)) : forall into : Obj.t nat,
  map fst (fold_left (fun o e => Obj.set (fst e) (getOr0 (fst e) o + snd e)%nat o)
                     l into)
  = fold_left (fun ks e => addKey (fst e) ks) l (map fst into).
Proof.
  induction l as [|e r IH]; intros into; simpl; [reflexivity|].
  now rewrite IH, keys_set.
Qed.

Lemma addKeys_facts (A : Type) (f : A -> string) (l : list A) : forall ks,
  NoDup ks ->
  NoDup (fold_left (fun ks x => addKey (f x) ks) l ks)
  /\ forall k, In k (fold_left (fun ks x => addKey (f x) ks) l ks)
               <-> In k (map f l) \/ In k ks.
Proof.
  induction l as [|x r IH]; intros ks Hn; simpl; [tauto|].
  destruct (IH (addKey (f x) ks) (NoDup_addKey _ Hn)) as [Hd Hi].
  split; [exact Hd|]. intros k. rewrite Hi, In_addKey. intuition.
Qed.

Lemma addCounts_fold (into from : Obj.t nat) :
  addCounts into from
  = fold_left (fun o e => Obj.set (fst e) (getOr0 (fst e) o + snd e)%nat o)
              (Obj.entries from) into.
Proof. reflexivity. Qed.

Lemma addCounts_total (into from : Obj.t nat) :
  Obj.total (addCounts into from) = (Obj.total into + Obj.total from)%nat.
Proof.
  rewrite addCounts_fold, addAll_total. f_equal.
  unfold Obj.total. apply Permutation_list_sum, Permutation_map, entries_perm.
Qed.

Lemma filter_perm_sum (p : string * nat -> bool) (l l' : list (string * nat)) :
  Permutation l l' ->
  list_sum (map snd (filter p l)) = list_sum (map snd (filter p l')).
Proof.
  intros P. apply Permutation_list_sum, Permutation_map.
  now apply Permutation_filter_perm.
Qed.

Lemma sum_filter_key k (o : Obj.t nat) :
  NoDup (map fst o) ->
  list_sum (map snd (filter (fun e => String.eqb k (fst e)) o)) = getOr0 k o.
Proof.
  unfold getOr0. induction o as [|[k' v] r IH]; intros Hn; [reflexivity|].
  inversion Hn as [|? ? Hnot Hr]; subst. cbn [filter fst Obj.get].
  specialize (IH Hr).
  destruct (String.eqb_spec k k') as [->|Hne]; [|exact IH].
  apply get_None_keys in Hnot. rewrite Hnot in IH.
  change (v + list_sum (map snd (filter (fun e => String.eqb k' (fst e)) r)) = v)%nat.
  lia.
Qed.

Lemma addCounts_get k (into from : Obj.t nat) :
  NoDup (map fst from) ->
  getOr0 k (addCounts into from) = (getOr0 k into + getOr0 k from)%nat.
Proof.
  intros Hn. rewrite addCounts_fold, addAll_get. f_equal.
  rewrite (@filter_perm_sum _ _ _ (entries_perm from)). now apply sum_filter_key.
Qed.

Lemma addCounts_keys (into from : Obj.t nat) :
  NoDup (map fst into) ->
  NoDup (map fst (addCounts into from))
  /\ forall k, In k (map fst (addCounts into from))
               <-> In k (map fst from) \/ In k (map fst into).
Proof.
  intros Hn. rewrite addCounts_fold, addAll_keys.
  destruct (@addKeys_facts _ fst (Obj.entries from) (map fst into) Hn) as [Hd Hi].
  split; [exact Hd|]. intros k. rewrite Hi.
  assert (P : Permutation (map fst (Obj.entries from)) (map fst from))
    by apply Permutation_map, entries_perm.
  split; (intros [H|H]; [left|now right]).
  - exact (Permutation_in _ P H).
  - exact (Permutation_in _ (Permutation_sym P) H).
Qed.

Lemma list_sum_head (x : nat) (l : list nat) :
  list_sum (x :: l) = (x + list_sum l)%nat.
Proof. reflexivity. Qed.

(** The merge of the records of counters of several results. *)
Lemma merged_counts (A : Type) (proj : A -> Obj.t nat) (l : list A) :
  forall into,
  NoDup (map fst into) ->
  Forall (fun x => NoDup (map fst (proj x))) l ->
  let m := fold_left (fun m x => addCounts m (proj x)) l into in
  NoDup (map fst m)
  /\ Obj.total m = (Obj.total into + list_sum (map (fun x => Obj.total (proj x)) l))%nat
  /\ (forall k, getOr0 k m
                = (getOr0 k into + list_sum (map (fun x => getOr0 k (proj x)) l))%nat)
  /\ (forall k, In k (map fst m) ->
                In k (map fst into) \/ exists x, In x l /\ In k (map fst (proj x))).
Proof.
  induction l as [|x r IH]; intros into Hn Hl; cbv zeta.
  - simpl. split; [exact Hn|]. split; [lia|]. split; [intros; lia | auto].
  - apply Forall_cons_iff in Hl as [Hx Hr].
    destruct (@addCounts_keys into (proj x) Hn) as [Hd Hi].
    destruct (IH (addCounts into (proj x)) Hd Hr) as (A1 & A2 & A3 & A4).
    cbv zeta in A1, A2, A3, A4. cbn [fold_left map]. rewrite !list_sum_head.
    split; [exact A1|]. split; [rewrite A2, addCounts_total; lia|].
    split.
    + intros k. rewrite list_sum_head, A3, (@addCounts_get k into (proj x) Hx). lia.
    + intros k Hk. destruct (A4 k Hk) as [H|(y & Hy & H)].
      * apply Hi in H as [H|H]; [right; exists x; split; [now left | exact H] | now left].
      * right. exists y. split; [now right | exact H].
Qed.


(** ** The hourly chart *)

Lemma sum_split (A : Type) (p : A -> bool) (v : nat) (f : A -> nat) (l : list A) :
  (list_sum (map (fun i => if p i then v else f i) l)
   + list_sum (map f (filter p l))
   = v * List.length (filter p l) + list_sum (map f l))%nat.
Proof.
  induction l as [|x r IH]; [simpl; lia|].
  cbn [map filter]. rewrite !list_sum_head.
  destruct (p x); cbn [map List.length]; rewrite ?list_sum_head; lia.
Qed.

Lemma hour_filter (h : nat) :
  (h < 24)%nat ->
  filter (fun i => String.eqb (Js.ofZ (Z.of_nat i)) (Js.ofZ (Z.of_nat h))) (seq 0 24)
  = [h].
Proof.
  intros H.
  rewrite (filter_ext_in _ (fun i => (i =? h)%nat)).
  - do 24 (destruct h as [|h]; [reflexivity|]). lia.
  - intros i Hi. apply in_seq in Hi.
    rewrite ofZ_hours by lia.
    destruct (Z.eqb_spec (Z.of_nat i) (Z.of_nat h)), (Nat.eqb_spec i h);
      try reflexivity; lia.
Qed.

Lemma hours_sum (m : Obj.t nat) :
  NoDup (map fst m) ->
  (forall k, In k (map fst m) -> exists h, 0 <= h < 24 /\ k = Js.ofZ h) ->
  list_sum (map (fun i => getOr0 (Js.ofZ (Z.of_nat i)) m) (seq 0 24)) = Obj.total m.
Proof.
  induction m as [|[k v] r IH]; intros Hn Hk.
  - unfold getOr0. simpl. reflexivity.
  - inversion Hn as [|? ? Hnot Hr]; subst.
    destruct (Hk k (or_introl eq_refl)) as (h & Hh & ->).
    specialize (IH Hr (fun k' Hk' => Hk k' (or_intror Hk'))).
    assert (Hn' : exists n, (n < 24)%nat /\ h = Z.of_nat n)
      by (exists (Z.to_nat h); lia).
    destruct Hn' as (n & Hlt & ->).
    pose proof (sum_split
                  (fun i => String.eqb (Js.ofZ (Z.of_nat i)) (Js.ofZ (Z.of_nat n))) v
                  (fun i => getOr0 (Js.ofZ (Z.of_nat i)) r) (seq 0 24)) as S.
    rewrite (hour_filter Hlt) in S. cbn [map List.length] in S.
    rewrite list_sum_head in S. rewrite IH in S.
    apply get_None_keys in Hnot.
    assert (E0 : getOr0 (Js.ofZ (Z.of_nat n)) r = 0%nat)
      by (unfold getOr0; now rewrite Hnot).
    rewrite E0 in S.
    assert (E : map (fun i => getOr0 (Js.ofZ (Z.of_nat i))
                                     ((Js.ofZ (Z.of_nat n), v) :: r))
                    (seq 0 24)
                = map (fun i => if String.eqb (Js.ofZ (Z.of_nat i))
                                              (Js.ofZ (Z.of_nat n))
                                then v
                                else getOr0 (Js.ofZ (Z.of_nat i)) r) (seq 0 24)).
    { apply map_ext. intros i. unfold getOr0. cbn [Obj.get].
      now destruct (String.eqb (Js.ofZ (Z.of_nat i)) (Js.ofZ (Z.of_nat n))). }
    rewrite E. unfold Obj.total in *. cbn [map snd]. rewrite list_sum_head.
    change (list_sum []) with 0%nat in S. lia.
Qed.

Lemma hourlyDataOf_hours (m : Obj.t nat) :
  map hour (hourlyDataOf m) = seq 0 24
  /\ map bucketCount (hourlyDataOf m)
     = map (fun i => getOr0 (Js.ofZ (Z.of_nat i)) m) (seq 0 24).
Proof.
  unfold hourlyDataOf. rewrite !map_map. cbn [hour bucketCount].
  split; [apply map_id | reflexivity].
Qed.

Section ParsedFacts.
Context {host : Host}.

(** What the dashboards rely on in a result of the parser. *)
Lemma parsed_result r :
  Parsed r ->
  (list_sum (map count (senders r)) <= totalMessages r)%nat
  /\ Obj.total (hourlyStats r) = totalMessages r
  /\ Obj.total (timelineStats r) = totalMessages r
  /\ NoDup (map fst (hourlyStats r))
  /\ NoDup (map fst (timelineStats r))
  /\ (forall k, In k (map fst (hourlyStats r)) ->
      exists h, 0 <= h < 24 /\ k = Js.ofZ h)
  /\ (1 <= totalMessages r)%nat.
Proof.
  intros (fileName & text & now & H).
  pose proof (resolved_has_messages _ _ _ H) as Hpos.
  apply parse_resolved in H as (_ & found & format & E & Hne & ->).
  assert (Hlen : totalMessages (analyze fileName now (parseFromString text) format found)
                 = List.length found) by apply stableSort_length.
  split; [rewrite Hlen, analyze_sender_counts; apply filter_length_le|].
  unfold analyze in *. cbn [hourlyStats timelineStats totalMessages] in *.
  destruct (loop_counts (sortChronologically found) Pass.initial) as (Hh & Ht & _).
  unfold analysisLoop. rewrite Hh, Ht. cbn [Pass.initial Pass.hourlyStats
    Pass.timelineStats Obj.total map list_sum Nat.add].
  split; [reflexivity|]. split; [reflexivity|].
  rewrite loop_hourly, loop_timeline.
  cbn [Pass.initial Pass.hourlyStats Pass.timelineStats].
  destruct (@keys_fold_incr _ (fun m => Js.ofZ (getHours (timestamp m)))
              (sortChronologically found) [] (NoDup_nil _)) as [Hd Hi].
  destruct (@keys_fold_incr _ (fun m => dayKey (timestamp m))
              (sortChronologically found) [] (NoDup_nil _)) as [Hd' _].
  split; [exact Hd|]. split; [exact Hd'|]. split; [|exact Hpos].
  intros k Hk. apply Hi in Hk as [Hk|[]].
  apply in_map_iff in Hk as (m & <- & _).
  exists (getHours (timestamp m)). split; [apply getHours_range | reflexivity].
Qed.

(** The senders count no message twice: a message whose sender is named as
    an inherited member is in the total and counted by no sender. *)
Lemma parsed_senders_total results :
  Forall Parsed results ->
  (list_sum (map count (flat_map senders results))
   <= list_sum (map totalMessages results))%nat.
Proof.
  induction 1 as [|r l Hr Hl IH]; [reflexivity|].
  cbn [flat_map map]. rewrite map_app, list_sum_app, list_sum_head.
  destruct (parsed_result Hr) as (Hle & _). lia.
Qed.

End ParsedFacts.

Lemma total_fold (l : list ChatAnalysisResult) : forall n : nat,
  fold_left (fun acc r => acc + totalMessages r)%nat l n
  = (n + list_sum (map totalMessages l))%nat.
Proof.
  induction l as [|r l IH]; intros n; simpl; [lia|]. rewrite IH. lia.
Qed.


(** ** The merge of the senders in the newer dashboard *)

Lemma StronglySorted_app_inv (A : Type) (R : A -> A -> Prop) (a b : list A) :
  StronglySorted R (a ++ b) -> forall x y, In x a -> In y b -> R x y.
Proof.
  induction a as [|h t IH]; intros Hs x y Hx Hy; [destruct Hx|].
  simpl in Hs. inversion Hs as [|? ? Hs' Hall]; subst.
  destruct Hx as [<-|Hx].
  - rewrite Forall_forall in Hall. apply Hall, in_or_app. now right.
  - now apply IH.
Qed.

Section MergeFacts.
Context {host : Host}.

Let merged (s : SenderStat) (m : Obj.t Merged.t) : Merged.t :=
  match Obj.get (name s) m with
  | None => Dashboard.ofSender s
  | Some e => Dashboard.absorb e s
  end.

Lemma mergeSender_set m s :
  Dashboard.mergeSender m s = Obj.set (name s) (merged s m) m.
Proof. unfold Dashboard.mergeSender, merged. now destruct (Obj.get (name s) m). Qed.

Lemma merge_keys l : forall m,
  map fst (fold_left Dashboard.mergeSender l m)
  = fold_left (fun ks s => addKey (name s) ks) l (map fst m).
Proof.
  induction l as [|s r IH]; intros m; [reflexivity|].
  simpl. now rewrite IH, mergeSender_set, keys_set.
Qed.

Lemma merge_named l : forall m,
  Forall (fun e => Merged.name (snd e) = fst e) m ->
  Forall (fun e => Merged.name (snd e) = fst e)
         (fold_left Dashboard.mergeSender l m).
Proof.
  induction l as [|s r IH]; intros m H; [exact H|].
  simpl. apply IH. rewrite mergeSender_set.
  apply Forall_set_pair; [|exact H].
  unfold merged. destruct (Obj.get (name s) m) as [e|] eqn:E; [|reflexivity].
  cbn [snd fst Dashboard.absorb Merged.name].
  apply get_In_pair in E. rewrite Forall_forall in H. exact (H _ E).
Qed.

Variable g : Merged.t -> nat.
Variable w : SenderStat -> nat.

Let gOf (k : string) (m : Obj.t Merged.t) : nat :=
  match Obj.get k m with Some e => g e | None => O end.

Lemma merge_sum :
  (forall s, g (Dashboard.ofSender s) = w s) ->
  (forall e s, g (Dashboard.absorb e s) = (g e + w s)%nat) ->
  forall l m k,
  gOf k (fold_left Dashboard.mergeSender l m)
  = (gOf k m + list_sum (map w (named k l)))%nat.
Proof.
  intros H1 H2. induction l as [|s r IH]; intros m k; [simpl; lia|].
  cbn [fold_left]. rewrite IH. unfold named. cbn [filter].
  rewrite mergeSender_set. unfold gOf at 1.
  destruct (String.eqb_spec (name s) k) as [<-|Hne].
  - rewrite get_set_same. cbn [map]. rewrite list_sum_head.
    unfold gOf, merged. destruct (Obj.get (name s) m).
    + rewrite H2. lia.
    + rewrite H1. lia.
  - rewrite get_set_other by congruence. fold (gOf k m). reflexivity.
Qed.

Lemma merge_max :
  (forall s, g (Dashboard.ofSender s) = w s) ->
  (forall e s, g (Dashboard.absorb e s) = Nat.max (g e) (w s)) ->
  forall l m k,
  gOf k (fold_left Dashboard.mergeSender l m)
  = Nat.max (gOf k m) (list_max (map w (named k l))).
Proof.
  intros H1 H2. induction l as [|s r IH]; intros m k; [simpl; lia|].
  cbn [fold_left]. rewrite IH. unfold named. cbn [filter].
  rewrite mergeSender_set. unfold gOf at 1.
  destruct (String.eqb_spec (name s) k) as [<-|Hne].
  - rewrite get_set_same. cbn [map list_max fold_right].
    fold (list_max (map w (filter (fun s0 => String.eqb (name s0) (name s)) r))).
    unfold gOf, merged. destruct (Obj.get (name s) m).
    + rewrite H2. lia.
    + rewrite H1. lia.
  - rewrite get_set_other by congruence. fold (gOf k m). reflexivity.
Qed.

Lemma merge_total :
  (forall s, g (Dashboard.ofSender s) = w s) ->
  (forall e s, g (Dashboard.absorb e s) = (g e + w s)%nat) ->
  forall l m,
  list_sum (map (fun e => g (snd e)) (fold_left Dashboard.mergeSender l m))
  = (list_sum (map (fun e => g (snd e)) m) + list_sum (map w l))%nat.
Proof.
  intros H1 H2. induction l as [|s r IH]; intros m; [simpl; lia|].
  cbn [fold_left map]. rewrite IH, list_sum_head, mergeSender_set.
  unfold merged. destruct (Obj.get (name s) m) as [e|] eqn:E.
  - pose proof (@sum_set_present _ g (name s) e (Dashboard.absorb e s) m E) as S.
    rewrite H2 in S. lia.
  - rewrite (@sum_set_absent _ g (name s) (Dashboard.ofSender s) m E), H1. lia.
Qed.

End MergeFacts.

Section MergedFacts.
Context {host : Host}.

(** The entries of the sorted senders against the merged map. *)
Lemma dashboard_sender_entry results m :
  In m (Dashboard.senders results) ->
  Obj.get (Merged.name m) (Dashboard.senderMap results) = Some m.
Proof.
  intros H. unfold Dashboard.senders in H.
  apply (Permutation_in _ (stableSort_perm _ _)) in H.
  apply (Permutation_in _ (values_perm _)) in H.
  apply in_map_iff in H as ([k v] & <- & He). cbn [snd].
  unfold Dashboard.senderMap in *. rewrite fold_flat in *.
  pose proof (merge_named (flat_map senders results) (Forall_nil _)) as Hn.
  rewrite Forall_forall in Hn. pose proof (Hn _ He) as Hk.
  cbn [fst snd] in Hk. rewrite Hk.
  apply In_get; [|exact He].
  rewrite merge_keys.
  apply (@addKeys_facts _ name (flat_map senders results) (map fst []) (NoDup_nil _)).
Qed.


Lemma dashboard_senders_total results :
  list_sum (map Merged.count (Dashboard.senders results))
  = list_sum (map count (flat_map senders results)).
Proof.
  assert (P : Permutation (Dashboard.senders results)
                          (map snd (Dashboard.senderMap results))).
  { unfold Dashboard.senders.
    eapply Permutation_trans; [apply stableSort_perm | apply values_perm]. }
  rewrite (Permutation_list_sum (Permutation_map Merged.count P)), map_map.
  unfold Dashboard.senderMap. rewrite fold_flat.
  rewrite (merge_total Merged.count count (fun _ => eq_refl) (fun _ _ => eq_refl)).
  reflexivity.
Qed.

End MergedFacts.

(** ** The five largest entries *)

Lemma StronglySorted_prefix (A : Type) (R : A -> A -> Prop) (a b : list A) :
  StronglySorted R (a ++ b) -> StronglySorted R a.
Proof.
  induction a as [|h t IH]; intros Hs; [constructor|].
  simpl in Hs. inversion Hs as [|? ? Hs' Hall]; subst.
  constructor; [now apply IH|].
  apply Forall_app in Hall. tauto.
Qed.

Lemma top5_spec (o : Obj.t nat) :
  NoDup (map fst o) ->
  let top := firstn 5 (stableSort (fun a b : string * nat => (snd b <=? snd a)%nat)
                                  (Obj.entries o)) in
  List.length top = Nat.min 5 (List.length o)
  /\ NoDup (map fst top)
  /\ (forall e, In e top -> Obj.get (fst e) o = Some (snd e))
  /\ StronglySorted (fun a b => (snd b <= snd a)%nat) top
  /\ (forall e k, In e top -> ~ In k (map fst top) ->
      (getOr0 k o <= snd e)%nat).
Proof.
  intros Hn top.
  set (l := stableSort (fun a b : string * nat => (snd b <=? snd a)%nat)
                       (Obj.entries o)) in *.
  assert (P : Permutation l o).
  { eapply Permutation_trans; [apply stableSort_perm | apply entries_perm]. }
  assert (Hs : StronglySorted (fun a b : string * nat => (snd b <= snd a)%nat) l).
  { eapply StronglySorted_weaken; [|apply stableSort_sorted].
    - intros a b H. now apply Nat.leb_le.
    - intros a b. rewrite !Nat.leb_le. lia.
    - intros a b c. rewrite !Nat.leb_le. lia. }
  assert (Hl : l = (top ++ skipn 5 l)%list) by (symmetry; apply firstn_skipn).
  assert (Hin : forall e, In e top -> In e o).
  { intros e He. apply (Permutation_in _ P). rewrite Hl. apply in_or_app. now left. }
  split; [|split; [|split; [|split]]].
  - unfold top. rewrite length_firstn. now rewrite (Permutation_length P).
  - assert (Hnl : NoDup (map fst l))
      by (apply (Permutation_NoDup (Permutation_map fst (Permutation_sym P))), Hn).
    rewrite Hl, map_app in Hnl. now apply NoDup_app_remove_r in Hnl.
  - intros [k v] He. apply In_get; [exact Hn | now apply Hin].
  - rewrite Hl in Hs. now apply StronglySorted_prefix in Hs.
  - intros e k He Hk. unfold getOr0.
    destruct (Obj.get k o) as [n|] eqn:E; [|lia].
    apply get_In_pair in E. apply (Permutation_in _ (Permutation_sym P)) in E.
    rewrite Hl in E, Hs. apply in_app_or in E as [E|E].
    + exfalso. apply Hk. change k with (fst (k, n)). now apply in_map.
    + exact (@StronglySorted_app_inv _ _ _ _ Hs e (k, n) He E).
Qed.

(** The top words of a record that holds numbers only. *)
Lemma entries_map (V W : Type) (g : V -> W) (o : Obj.t V) :
  Obj.entries (map (fun e => (fst e, g (snd e))) o)
  = map (fun e => (fst e, g (snd e))) (Obj.entries o).
Proof.
  set (F := fun e : string * V => (fst e, g (snd e))).
  assert (Hf : forall (p : string -> bool) l,
             filter (fun e : string * W => p (fst e)) (map F l)
             = map F (filter (fun e : string * V => p (fst e)) l)).
  { intros p l. induction l as [|e l IH]; [reflexivity|].
    cbn [map filter]. cbn [F fst]. destruct (p (fst e)); cbn [map]; now rewrite IH. }
  assert (Hi : forall e l, Obj.insertByIndex (F e) (map F l)
                           = map F (Obj.insertByIndex e l)).
  { intros e l. induction l as [|e' l IH]; [reflexivity|].
    cbn [map Obj.insertByIndex]. unfold Obj.indexOf. subst F. cbn [fst].
    destruct (_ <=? _)%N; [reflexivity|]. cbn [map]. now rewrite IH. }
  assert (Hs : forall l, Obj.sortByIndex (map F l) = map F (Obj.sortByIndex l)).
  { intros l. unfold Obj.sortByIndex.
    induction l as [|e l IH]; [reflexivity|].
    cbn [map fold_right]. now rewrite IH, Hi. }
  unfold Obj.entries, Obj.isIndexKey.
  rewrite (Hf (fun k => match Obj.arrayIndex k with Some _ => true | None => false end)).
  rewrite (Hf (fun k => negb match Obj.arrayIndex k with
                             | Some _ => true | None => false end)).
  now rewrite Hs, map_app.
Qed.

Lemma top5Words_numbers (counts : Obj.t nat) :
  OlderDashboard.top5Words (numbers counts)
  = map (fun e => {| Aggregated.word := fst e;
                     Aggregated.wordCount := Js.Num (snd e) |})
        (firstn 5 (stableSort (fun a b : string * nat => (snd b <=? snd a)%nat)
                              (Obj.entries counts))).
Proof.
  unfold OlderDashboard.top5Words, numbers.
  rewrite (entries_map Js.Num).
  rewrite (stableSort_map (fun e : string * nat => (fst e, Js.Num (snd e)))
             (fun a b : string * nat => (snd b <=? snd a)%nat)
             OlderDashboard.byValueDesc) by reflexivity.
  rewrite firstn_map, map_map. reflexivity.
Qed.

(** ** The merge of the senders in the older dashboard *)

Lemma set_set_same (V : Type) k (v v0 : V) (o : Obj.t V) :
  Obj.set k v (Obj.set k v0 o) = Obj.set k v o.
Proof.
  induction o as [|[k' v'] r IH]; simpl.
  - now rewrite String.eqb_refl.
  - destruct (String.eqb k k') eqn:E; simpl; rewrite E; [reflexivity|].
    now rewrite IH.
Qed.

Lemma nth_error_mapi_from (A B : Type) (f : A -> nat -> B) : forall l i n,
  nth_error (mapi_from f i l) n = option_map (fun x => f x (i + n)%nat) (nth_error l n).
Proof.
  induction l as [|x r IH]; intros i n.
  - now destruct n.
  - destruct n as [|n]; simpl.
    + now rewrite Nat.add_0_r.
    + rewrite IH. now rewrite Nat.add_succ_r.
Qed.

Section OlderFacts.
Context {host : Host}.

Let zero : Aggregated.SenderData :=
  {| Aggregated.count := 0; Aggregated.reelCount := 0;
     Aggregated.attachmentCount := 0; Aggregated.wordCounts := [] |}.

Let bump (d : Aggregated.SenderData) (s : SenderStat) : Aggregated.SenderData :=
  {| Aggregated.count := Aggregated.count d + count s;
     Aggregated.reelCount := Aggregated.reelCount d + reelCount s;
     Aggregated.attachmentCount := Aggregated.attachmentCount d + attachmentCount s;
     Aggregated.wordCounts := addValues (Aggregated.wordCounts d) (wordCounts s) |}.

Lemma older_mergeSender_set m s :
  OlderDashboard.mergeSender m s
  = Obj.set (name s)
            (bump (match Obj.get (name s) m with Some d => d | None => zero end) s) m.
Proof.
  unfold OlderDashboard.mergeSender. cbv zeta.
  destruct (Obj.get (name s) m) as [d|] eqn:E.
  - unfold Obj.modify. now rewrite E.
  - unfold Obj.modify. rewrite get_set_same. apply set_set_same.
Qed.

Lemma older_merge_keys l : forall m,
  map fst (fold_left OlderDashboard.mergeSender l m)
  = fold_left (fun ks s => addKey (name s) ks) l (map fst m).
Proof.
  induction l as [|s r IH]; intros m; [reflexivity|].
  simpl. now rewrite IH, older_mergeSender_set, keys_set.
Qed.

Lemma older_merge_total l : forall m,
  list_sum (map (fun e => Aggregated.count (snd e))
                (fold_left OlderDashboard.mergeSender l m))
  = (list_sum (map (fun e => Aggregated.count (snd e)) m)
     + list_sum (map count l))%nat.
Proof.
  induction l as [|s r IH]; intros m; [simpl; lia|].
  cbn [fold_left map]. rewrite IH, list_sum_head, older_mergeSender_set.
  destruct (Obj.get (name s) m) as [d|] eqn:E.
  - pose proof (@sum_set_present _ Aggregated.count (name s) d (bump d s) m E) as S.
    cbn [bump Aggregated.count] in S. lia.
  - rewrite (@sum_set_absent _ Aggregated.count (name s) (bump zero s) m E).
    cbn [bump zero Aggregated.count]. lia.
Qed.

End OlderFacts.


Lemma mapi_from_sorted (A B : Type) (f : A -> nat -> B)
  (R : A -> A -> Prop) (R' : B -> B -> Prop) :
  (forall x y i j, R x y -> R' (f x i) (f y j)) ->
  forall l i, StronglySorted R l -> StronglySorted R' (mapi_from f i l).
Proof.
  intros H l i Hs. revert i.
  induction Hs as [|x r Hs IH Hall]; intros i; [constructor|].
  cbn [mapi_from]. constructor; [apply IH|].
  apply Forall_forall. intros y Hy.
  apply In_mapi_from in Hy as (e & j & He & ->).
  rewrite Forall_forall in Hall. apply H. now apply Hall.
Qed.


(** ** The colour of a sender *)

Lemma In_mapi_from_nth (A B : Type) (f : A -> nat -> B) (y : B) : forall l i,
  In y (mapi_from f i l) ->
  exists n x, nth_error l n = Some x /\ y = f x (i + n)%nat.
Proof.
  induction l as [|x r IH]; intros i; simpl; [tauto|].
  intros [<-|H].
  - exists 0%nat, x. split; [reflexivity | now rewrite Nat.add_0_r].
  - destruct (IH (S i) H) as (n & x' & Hn & ->).
    exists (S n), x'. split; [exact Hn | now rewrite Nat.add_succ_r].
Qed.

Section ColourFacts.
Context {host : Host}.

Lemma step_sender_key_list st msg :
  (forall p, Pass.previousMsg st = Some p -> Js.isInherited (sender p) = false ->
             In (sender p) (map fst (Pass.senderMap st))) ->
  map fst (Pass.senderMap (step st msg))
  = if Js.isInherited (sender msg) then map fst (Pass.senderMap st)
    else addKey (sender msg) (map fst (Pass.senderMap st)).
Proof.
  intros Hp. unfold step. cbn [Pass.senderMap]. unfold dynamics.
  destruct (Pass.previousMsg st) as [p|].
  - destruct (negb (String.eqb (sender p) (sender msg))).
    + rewrite keys_modify, keys_getSender, keys_modify, keys_modify, keys_getSender.
      destruct (Js.isInherited (sender p)) eqn:I; [reflexivity|].
      apply addKey_present.
      destruct (Js.isInherited (sender msg)); [now apply Hp|].
      apply In_addKey. right. now apply Hp.
    + now rewrite !keys_modify, keys_getSender.
  - now rewrite !keys_modify, keys_getSender.
Qed.

Lemma loop_sender_key_list msgs : forall st,
  (forall p, Pass.previousMsg st = Some p -> Js.isInherited (sender p) = false ->
             In (sender p) (map fst (Pass.senderMap st))) ->
  map fst (Pass.senderMap (fold_left step msgs st))
  = fold_left (fun seen k => addKey k seen) (map sender (accounted msgs))
              (map fst (Pass.senderMap st)).
Proof.
  induction msgs as [|m r IH]; intros st Hp; [reflexivity|].
  cbn [fold_left]. rewrite IH.
  - rewrite step_sender_key_list by exact Hp. unfold accounted. cbn [filter].
    now destruct (Js.isInherited (sender m)).
  - intros p [= <-] I. rewrite step_sender_key_list by exact Hp.
    rewrite I. apply In_addKey. now left.
Qed.

(** The keys of [senderMap] are the names of the senders with an accumulator
    in the order of their first message. *)
Lemma analysisLoop_key_list msgs :
  map fst (Pass.senderMap (analysisLoop msgs))
  = firstSeen (map sender (accounted msgs)).
Proof.
  unfold analysisLoop, firstSeen. rewrite loop_sender_key_list; [reflexivity|].
  discriminate.
Qed.

End ColourFacts.


(** ** The figures of the dashboard over all results *)

Lemma max_fold_nat (l : list nat) : forall a,
  let b := fold_left Nat.max l a in
  (b = a \/ In b l) /\ (a <= b)%nat /\ forall x, In x l -> (x <= b)%nat.
Proof.
  induction l as [|x r IH]; intros a; simpl.
  - split; [now left|]. split; [lia | tauto].
  - destruct (IH (Nat.max a x)) as (A & B & C). split.
    + destruct A as [A|A]; [|right; right; exact A].
      rewrite A.
      destruct (Nat.max_spec a x) as [[_ E]|[_ E]]; rewrite E;
        [right; left; reflexivity | left; reflexivity].
    + split; [lia|]. intros y [<-|Hy]; [lia | now apply C].
Qed.

Lemma max_fold_Z (l : list Z) : forall a,
  let b := fold_left Z.max l a in
  (b = a \/ In b l) /\ a <= b /\ forall x, In x l -> x <= b.
Proof.
  induction l as [|x r IH]; intros a; simpl.
  - split; [now left|]. split; [lia | tauto].
  - destruct (IH (Z.max a x)) as (A & B & C). split.
    + destruct A as [A|A]; [|right; right; exact A].
      rewrite A.
      destruct (Z.max_spec a x) as [[_ E]|[_ E]]; rewrite E;
        [right; left; reflexivity | left; reflexivity].
    + split; [lia|]. intros y [<-|Hy]; [lia | now apply C].
Qed.

(** The fold that keeps the first entry above all the entries before it. *)
Lemma first_above_fold (A : Type) (g : A -> string * nat) (l : list A) :
  forall best,
  let b := fold_left (fun prev curr =>
                        if (snd prev <? snd (g curr))%nat then g curr else prev)
                     l best in
  (b = best /\ forall x, In x l -> (snd (g x) <= snd best)%nat)
  \/ exists before x after,
       l = (before ++ x :: after)%list /\ b = g x
       /\ (snd best < snd (g x))%nat
       /\ (forall y, In y before -> (snd (g y) < snd (g x))%nat)
       /\ forall y, In y after -> (snd (g y) <= snd (g x))%nat.
Proof.
  induction l as [|e r IH]; intros best; cbn [fold_left].
  - left. split; [reflexivity | intros x []].
  - destruct (Nat.ltb_spec (snd best) (snd (g e))) as [Hlt|Hge].
    + destruct (IH (g e)) as [[E Hall]|(before & x & after & El & Eb & Hx & Hb & Ha)].
      * right. exists [], e, r. split; [reflexivity|]. split; [exact E|].
        split; [exact Hlt|]. split; [intros y []|exact Hall].
      * right. exists (e :: before), x, after.
        split; [now rewrite El|]. split; [exact Eb|]. split; [lia|].
        split; [|exact Ha]. intros y [<-|Hy]; [exact Hx | now apply Hb].
    + destruct (IH best) as [[E Hall]|(before & x & after & El & Eb & Hx & Hb & Ha)].
      * left. split; [exact E|]. intros x [<-|Hx]; [exact Hge | now apply Hall].
      * right. exists (e :: before), x, after.
        split; [now rewrite El|]. split; [exact Eb|]. split; [exact Hx|].
        split; [|exact Ha]. intros y [<-|Hy]; [lia | now apply Hb].
Qed.

(** A fold that skips the entries outside [p] is the fold over the entries
    inside it. *)
Lemma fold_left_filter_map (A B C : Type) (p : A -> bool) (g : A -> B)
      (step : C -> B -> C) (l : list A) : forall init,
  fold_left (fun o e => if p e then step o (g e) else o) l init
  = fold_left step (map g (filter p l)) init.
Proof.
  induction l as [|e r IH]; intros init; cbn [fold_left filter]; [reflexivity|].
  rewrite IH. now destruct (p e).
Qed.

Lemma list_sum_filter_map (A : Type) (p : A -> bool) (g : A -> string * nat)
      (q : string * nat -> bool) (l : list A) :
  list_sum (map snd (filter q (map g (filter p l))))
  = list_sum (map (fun e => snd (g e)) (filter (fun e => p e && q (g e)) l)).
Proof.
  induction l as [|e r IH]; [reflexivity|].
  cbn [filter]. destruct (p e); cbn [andb map filter]; [|exact IH].
  destruct (q (g e)); [|exact IH].
  cbn [map]. rewrite !list_sum_head. now rewrite IH.
Qed.

(** The months of the dashboard, as one pass over the day keys of at least
    seven characters. *)
Lemma monthCounts_fold (results : list ChatAnalysisResult) :
  Dashboard.monthCounts results
  = fold_left (fun o e => Obj.set (fst e) (getOr0 (fst e) o + snd e)%nat o)
              (map (fun e : string * nat => (substring 0 7 (fst e), snd e))
                   (filter (fun e : string * nat => (7 <=? String.length (fst e))%nat)
                           (Obj.entries (Dashboard.timelineMap results))))
              [].
Proof.
  exact (fold_left_filter_map
           (fun e : string * nat => (7 <=? String.length (fst e))%nat)
           (fun e : string * nat => (substring 0 7 (fst e), snd e))
           (fun (o : Obj.t nat) (e : string * nat) =>
              Obj.set (fst e) (getOr0 (fst e) o + snd e)%nat o)
           (Obj.entries (Dashboard.timelineMap results)) []).
Qed.

(** ** The length of the messages of a sender *)

Lemma fold_sum (A : Type) (f : A -> nat) (l : list A) : forall n : nat,
  fold_left (fun b m => b + f m)%nat l n = (n + list_sum (map f l))%nat.
Proof.
  induction l as [|x r IH]; intros n; cbn [fold_left map]; [simpl; lia|].
  rewrite IH, list_sum_head. lia.
Qed.

Section LengthFacts.
Context {host : Host}.

Lemma accFor_totalLen k msgs prev s :
  Temp.totalLen (accFor k prev msgs s)
  = (Temp.totalLen s
     + list_sum (map (fun m => String.length (content m)) (sentBy k msgs)))%nat.
Proof.
  rewrite (accFor_basic Temp.totalLen
             (fun m b => b + String.length (content m))%nat k);
    try reflexivity.
  apply fold_sum.
Qed.

End LengthFacts.

Lemma round_inject (z : Z) : Js.round (inject_Z z) = z.
Proof.
  unfold Js.round, Qfloor, Qplus, inject_Z. cbn [Qnum Qden].
  symmetry. apply Z.div_unique with 1; lia.
Qed.

Lemma sum_bounds (A : Type) (f : A -> nat) (lo hi : nat) (l : list A) :
  (forall x, In x l -> lo <= f x <= hi)%nat ->
  (lo * List.length l <= list_sum (map f l) <= hi * List.length l)%nat.
Proof.
  induction l as [|x r IH]; intros H; [simpl; lia|].
  cbn [map List.length]. rewrite list_sum_head.
  specialize (IH (fun y Hy => H y (or_intror Hy))).
  pose proof (H x (or_introl eq_refl)). nia.
Qed.

Lemma ratio_bounds (lo hi total n : nat) :
  (1 <= n)%nat -> (lo * n <= total <= hi * n)%nat ->
  (inject_Z (Z.of_nat lo) <= Z.of_nat total # Pos.of_nat n
   /\ Z.of_nat total # Pos.of_nat n <= inject_Z (Z.of_nat hi))%Q.
Proof.
  intros Hn H. unfold Qle, inject_Z. cbn [Qnum Qden].
  assert (E : Z.pos (Pos.of_nat n) = Z.of_nat n).
  { destruct n as [|n]; [lia|]. rewrite <- Pos.of_nat_succ. lia. }
  rewrite E. nia.
Qed.


(** ** The first revision of the parser *)

Section FirstRevisionFacts.
Context {host : Host}.
Import FirstRevision.

Lemma entry_modify_twice k (f g : Revision1.Entry.t -> Revision1.Entry.t) d :
  Obj.modify k g (Obj.modify k f (Revision1.getSenderEntry k d))
  = if Obj.inherits k d then d else Obj.set k (g (f (entryOr k d))) d.
Proof.
  unfold Revision1.getSenderEntry, entryOr, Obj.inherits.
  destruct (Obj.get k d) as [e|] eqn:E.
  - unfold Obj.modify at 2. rewrite E.
    unfold Obj.modify. rewrite get_set_same. apply set_set_same.
  - destruct (Js.isInherited k).
    + rewrite (modify_absent k f d E). now apply modify_absent.
    + unfold Obj.modify at 2. rewrite get_set_same, set_set_same.
      unfold Obj.modify. rewrite get_set_same. apply set_set_same.
Qed.

Lemma processTimestamp_effect dateStr st :
  let st' := Revision1.processTimestamp dateStr st in
  Revision1.Scan.senderData st' = Revision1.Scan.senderData st
  /\ Revision1.Scan.totalCount st' = Revision1.Scan.totalCount st
  /\ Revision1.Scan.validPamCount st' = Revision1.Scan.validPamCount st
  /\ Revision1.Scan.foundTelegram st' = Revision1.Scan.foundTelegram st
  /\ ((Revision1.Scan.hourlyStats st' = Revision1.Scan.hourlyStats st
       /\ Revision1.Scan.timelineStats st' = Revision1.Scan.timelineStats st)
      \/ exists t,
           Revision1.Scan.hourlyStats st'
           = Obj.incr (Js.ofZ (getHours t)) (Revision1.Scan.hourlyStats st)
           /\ Revision1.Scan.timelineStats st'
              = Obj.incr (dayKey t) (Revision1.Scan.timelineStats st)).
Proof.
  unfold Revision1.processTimestamp.
  destruct (String.eqb dateStr ""); [cbv zeta; tauto|].
  destruct (newDate dateStr) as [t|]; cbv zeta; [|tauto].
  cbn. repeat split. right. exists t. split; reflexivity.
Qed.

Lemma gentle_id : gentle (fun e => e).
Proof. intros e. lia. Qed.

Lemma gentle_reelUp : gentle Revision1.Entry.reelUp.
Proof. intros e. cbn. lia. Qed.

Lemma gentle_attachmentUp : gentle Revision1.Entry.attachmentUp.
Proof. intros e. cbn. lia. Qed.

Lemma gentle_withWords f : gentle (Revision1.Entry.withWords f).
Proof. intros e. cbn. lia. Qed.

Lemma gentle_pamContent el : gentle (Revision1.pamContent el).
Proof.
  intros e. unfold Revision1.pamContent.
  destruct (firstSome _ _) as [contentDiv|]; [|apply gentle_id].
  cbv zeta. destruct (Js.includes _ _); [|apply gentle_withWords].
  destruct (0 <? _)%nat; [|apply gentle_attachmentUp].
  destruct (existsb _ _); [apply gentle_reelUp | apply gentle_attachmentUp].
Qed.

Lemma gentle_telegramContent msg : gentle (Revision1.telegramContent msg).
Proof.
  intros e. unfold Revision1.telegramContent. cbv zeta.
  set (worded := match querySelector msg ".text" with
                 | Some textNode =>
                     if String.eqb (textContent textNode) "" then e
                     else Revision1.Entry.withWords
                            (Revision1.tokenizeAndCount (textContent textNode)) e
                 | None => e
                 end).
  assert (Hw : Revision1.Entry.count worded = Revision1.Entry.count e
               /\ Revision1.Entry.reelCount worded = Revision1.Entry.reelCount e
               /\ Revision1.Entry.attachmentCount worded
                  = Revision1.Entry.attachmentCount e).
  { unfold worded. destruct (querySelector msg ".text") as [t|]; [|tauto].
    destruct (String.eqb (textContent t) ""); cbn; tauto. }
  destruct Hw as (H1 & H2 & H3).
  destruct (querySelector msg ".photo"), (querySelector msg ".video"); cbn; lia.
Qed.

Lemma isValidSender_not_empty name :
  Revision1.isValidSender name = true -> name <> "".
Proof. intros H ->. discriminate. Qed.

Lemma pamStep_advances st el :
  Revision1.pamStep st el = st
  \/ advances false (Revision1.pamName el) st (Revision1.pamStep st el).
Proof.
  unfold Revision1.pamStep. cbv zeta.
  set (name := Revision1.pamName el).
  destruct (negb (String.eqb name "") && Revision1.isValidSender name) eqn:E;
    [|now left].
  right. apply andb_true_iff in E as [Hne Hv].
  exists (Revision1.pamContent el).
  split; [now apply isValidSender_not_empty|]. split; [exact Hv|].
  split; [apply gentle_pamContent|].
  set (counted := {| Revision1.Scan.senderData := _ |}).
  assert (Ht : exists timed,
             match Revision1.trimmedText (querySelector el "._3-94, ._a6-o") with
             | Some dateStr => Revision1.processTimestamp dateStr counted
             | None => counted
             end = timed
             /\ Revision1.Scan.senderData timed = Revision1.Scan.senderData counted
             /\ Revision1.Scan.totalCount timed = Revision1.Scan.totalCount counted
             /\ Revision1.Scan.validPamCount timed
                = Revision1.Scan.validPamCount counted
             /\ Revision1.Scan.foundTelegram timed
                = Revision1.Scan.foundTelegram counted
             /\ ((Revision1.Scan.hourlyStats timed = Revision1.Scan.hourlyStats counted
                  /\ Revision1.Scan.timelineStats timed
                     = Revision1.Scan.timelineStats counted)
                 \/ exists t,
                      Revision1.Scan.hourlyStats timed
                      = Obj.incr (Js.ofZ (getHours t))
                                 (Revision1.Scan.hourlyStats counted)
                      /\ Revision1.Scan.timelineStats timed
                         = Obj.incr (dayKey t)
                                    (Revision1.Scan.timelineStats counted))).
  { destruct (Revision1.trimmedText _) as [dateStr|].
    - eexists. split; [reflexivity|]. apply processTimestamp_effect.
    - eexists. split; [reflexivity|]. tauto. }
  destruct Ht as (timed & -> & H1 & H2 & H3 & H4 & H5).
  unfold Revision1.Scan.withSenderData.
  cbn [Revision1.Scan.senderData Revision1.Scan.totalCount
       Revision1.Scan.validPamCount Revision1.Scan.foundTelegram
       Revision1.Scan.hourlyStats Revision1.Scan.timelineStats].
  rewrite H1, H2, H3, H4. unfold counted.
  cbn [Revision1.Scan.senderData Revision1.Scan.totalCount
       Revision1.Scan.validPamCount Revision1.Scan.foundTelegram].
  rewrite entry_modify_twice.
  repeat split. exact H5.
Qed.

Lemma telegramDate_effect msg st :
  let st' := Revision1.telegramDate msg st in
  Revision1.Scan.senderData st' = Revision1.Scan.senderData st
  /\ Revision1.Scan.totalCount st' = Revision1.Scan.totalCount st
  /\ Revision1.Scan.validPamCount st' = Revision1.Scan.validPamCount st
  /\ Revision1.Scan.foundTelegram st' = Revision1.Scan.foundTelegram st
  /\ ((Revision1.Scan.hourlyStats st' = Revision1.Scan.hourlyStats st
       /\ Revision1.Scan.timelineStats st' = Revision1.Scan.timelineStats st)
      \/ exists t,
           Revision1.Scan.hourlyStats st'
           = Obj.incr (Js.ofZ (getHours t)) (Revision1.Scan.hourlyStats st)
           /\ Revision1.Scan.timelineStats st'
              = Obj.incr (dayKey t) (Revision1.Scan.timelineStats st)).
Proof.
  unfold Revision1.telegramDate.
  destruct (querySelector msg ".date") as [d|]; cbv zeta; [|tauto].
  assert (Hv : forall X : Revision1.Scan.t,
             X = (if String.eqb (textContent d) "" then st
                  else Revision1.processTimestamp (textContent d) st) ->
             Revision1.Scan.senderData X = Revision1.Scan.senderData st
             /\ Revision1.Scan.totalCount X = Revision1.Scan.totalCount st
             /\ Revision1.Scan.validPamCount X = Revision1.Scan.validPamCount st
             /\ Revision1.Scan.foundTelegram X = Revision1.Scan.foundTelegram st
             /\ ((Revision1.Scan.hourlyStats X = Revision1.Scan.hourlyStats st
                  /\ Revision1.Scan.timelineStats X = Revision1.Scan.timelineStats st)
                 \/ exists t,
                      Revision1.Scan.hourlyStats X
                      = Obj.incr (Js.ofZ (getHours t)) (Revision1.Scan.hourlyStats st)
                      /\ Revision1.Scan.timelineStats X
                         = Obj.incr (dayKey t) (Revision1.Scan.timelineStats st))).
  { intros X ->. destruct (String.eqb (textContent d) ""); [tauto|].
    apply processTimestamp_effect. }
  destruct (getAttribute d "title") as [title|]; [|now apply Hv].
  destruct (String.eqb title ""); [now apply Hv|].
  apply processTimestamp_effect.
Qed.

Lemma telegramStep_advances st msg :
  Revision1.telegramStep st msg = st
  \/ advances true (telegramName msg) st (Revision1.telegramStep st msg).
Proof.
  unfold Revision1.telegramStep, telegramName.
  destruct (querySelector msg ".from_name") as [fromNode|]; [|now left].
  destruct (String.eqb (textContent fromNode) ""); [now left|]. cbv zeta.
  set (name := Js.trim (textContent fromNode)).
  destruct (Revision1.isValidSender name) eqn:Hv; [|now left].
  right. exists (Revision1.telegramContent msg).
  split; [now apply isValidSender_not_empty|]. split; [exact Hv|].
  split; [apply gentle_telegramContent|].
  set (counted := {| Revision1.Scan.senderData := _ |}).
  destruct (telegramDate_effect msg counted) as (H1 & H2 & H3 & H4 & H5).
  cbv zeta in H1, H2, H3, H4, H5.
  unfold Revision1.Scan.withSenderData.
  cbn [Revision1.Scan.senderData Revision1.Scan.totalCount
       Revision1.Scan.validPamCount Revision1.Scan.foundTelegram
       Revision1.Scan.hourlyStats Revision1.Scan.timelineStats].
  rewrite H1, H2, H3, H4. unfold counted.
  cbn [Revision1.Scan.senderData Revision1.Scan.totalCount
       Revision1.Scan.validPamCount Revision1.Scan.foundTelegram].
  rewrite entry_modify_twice.
  repeat split. exact H5.
Qed.

Lemma sound_inherits name st :
  sound st ->
  Obj.inherits name (Revision1.Scan.senderData st) = Js.isInherited name.
Proof.
  intros (_ & Hgood & _). apply ownNames_inherits.
  eapply Forall_impl; [|exact Hgood]. intros e He. apply He.
Qed.

Lemma advances_sound telegram name st st' :
  sound st -> advances telegram name st st' -> sound st'.
Proof.
  intros Hs. pose proof (sound_inherits name Hs) as Hi. revert Hs.
  intros (Hnd & Hgood & Htot & Hh & Hle)
         (g & Hne & Hv & Hg & Ed & Et & _ & _ & Hist).
  unfold sound. rewrite Ed, Et, Hi.
  set (d := Revision1.Scan.senderData st) in *.
  assert (Hhist : Obj.total (Revision1.Scan.hourlyStats st')
                  = Obj.total (Revision1.Scan.timelineStats st')
                  /\ (Obj.total (Revision1.Scan.hourlyStats st')
                      <= S (Revision1.Scan.totalCount st))%nat).
  { destruct Hist as [[-> ->]|(t & -> & ->)].
    - split; [exact Hh | lia].
    - rewrite !total_incr. split; [now rewrite Hh | lia]. }
  destruct (Js.isInherited name) eqn:I.
  { split; [exact Hnd|]. split; [exact Hgood|]. split; [lia | exact Hhist]. }
  destruct (Hg (Revision1.Entry.countUp (entryOr name d))) as (G1 & G2 & G3).
  cbn [Revision1.Entry.countUp Revision1.Entry.count Revision1.Entry.reelCount
       Revision1.Entry.attachmentCount] in G1, G2, G3.
  assert (Hold : (Revision1.Entry.reelCount (entryOr name d)
                  <= Revision1.Entry.count (entryOr name d))%nat
                 /\ (Revision1.Entry.attachmentCount (entryOr name d)
                     <= Revision1.Entry.count (entryOr name d))%nat).
  { unfold entryOr. destruct (Obj.get name d) as [e|] eqn:E; [|cbn; lia].
    apply get_In_pair in E. rewrite Forall_forall in Hgood.
    destruct (Hgood _ E) as (_ & _ & _ & A & B & _). cbn [snd] in A, B. lia. }
  split; [rewrite keys_set; now apply NoDup_addKey|].
  split.
  { apply Forall_set_pair; [|exact Hgood].
    unfold goodEntry. cbn [fst snd]. repeat split; try assumption; lia. }
  split; [|exact Hhist].
  unfold entriesTotal. unfold entryOr in G1 |- *.
  destruct (Obj.get name d) as [e|] eqn:E.
  - pose proof (sum_set_present Revision1.Entry.count name
                  (g (Revision1.Entry.countUp e)) d E) as S.
    rewrite G1 in S. unfold entriesTotal in Htot. lia.
  - rewrite (sum_set_absent Revision1.Entry.count name
               (g (Revision1.Entry.countUp Revision1.Entry.fresh)) d E).
    rewrite G1. unfold entriesTotal in Htot. cbn [Revision1.Entry.fresh
      Revision1.Entry.count]. lia.
Qed.

Lemma advances_complete telegram name st st' :
  sound st -> complete st -> Js.isInherited name = false ->
  advances telegram name st st' -> complete st'.
Proof.
  intros Hs Hc I (g & _ & _ & Hg & Ed & Et & _).
  unfold complete in *. rewrite Ed, Et, (sound_inherits name Hs), I.
  set (d := Revision1.Scan.senderData st) in *.
  destruct (Hg (Revision1.Entry.countUp (entryOr name d))) as (G1 & _).
  cbn [Revision1.Entry.countUp Revision1.Entry.count] in G1.
  unfold entriesTotal in *. unfold entryOr in G1 |- *.
  destruct (Obj.get name d) as [e|] eqn:E.
  - pose proof (sum_set_present Revision1.Entry.count name
                  (g (Revision1.Entry.countUp e)) d E) as S.
    rewrite G1 in S. lia.
  - rewrite (sum_set_absent Revision1.Entry.count name
               (g (Revision1.Entry.countUp Revision1.Entry.fresh)) d E).
    rewrite G1. cbn [Revision1.Entry.fresh Revision1.Entry.count]. lia.
Qed.

Lemma advances_labelled telegram name st st' :
  labelled st ->
  (telegram = false -> Revision1.Scan.foundTelegram st = false) ->
  advances telegram name st st' -> labelled st'.
Proof.
  intros Hl Hpam (g & _ & _ & _ & _ & Et & Ev & Ef & _).
  unfold labelled. rewrite Et, Ev, Ef. destruct telegram.
  - right. split; [reflexivity | lia].
  - left. specialize (Hpam eq_refl). destruct Hl as [[_ Hl]|[Hl _]];
      [split; [exact Hpam | now rewrite Hl] | congruence].
Qed.

Lemma pam_fold els : forall st,
  sound st -> labelled st -> Revision1.Scan.foundTelegram st = false ->
  let st' := fold_left Revision1.pamStep els st in
  sound st' /\ labelled st' /\ Revision1.Scan.foundTelegram st' = false
  /\ (complete st ->
      Forall (fun el => Js.isInherited (Revision1.pamName el) = false) els ->
      complete st').
Proof.
  induction els as [|el r IH]; intros st Hs Hl Hf; cbn [fold_left]; [tauto|].
  destruct (pamStep_advances st el) as [->|Ha].
  { destruct (IH st Hs Hl Hf) as (A & B & C & D).
    split; [exact A|]. split; [exact B|]. split; [exact C|].
    intros Hc Hall. apply D; [exact Hc|]. now inversion Hall. }
  destruct (IH (Revision1.pamStep st el)) as (A & B & C & D).
  - exact (advances_sound Hs Ha).
  - exact (@advances_labelled false _ st _ Hl (fun _ => Hf) Ha).
  - destruct Ha as (g & _ & _ & _ & _ & _ & _ & Ef & _). now rewrite Ef.
  - split; [exact A|]. split; [exact B|]. split; [exact C|].
    intros Hc Hall. inversion Hall as [|? ? Hel Hr]; subst.
    apply D; [|exact Hr]. exact (advances_complete Hs Hc Hel Ha).
Qed.

Lemma telegram_fold msgs : forall st,
  sound st -> labelled st ->
  let st' := fold_left Revision1.telegramStep msgs st in
  sound st' /\ labelled st'
  /\ (complete st ->
      Forall (fun msg => Js.isInherited (telegramName msg) = false) msgs ->
      complete st').
Proof.
  induction msgs as [|msg r IH]; intros st Hs Hl; cbn [fold_left]; [tauto|].
  destruct (telegramStep_advances st msg) as [->|Ha].
  { destruct (IH st Hs Hl) as (A & B & D).
    split; [exact A|]. split; [exact B|].
    intros Hc Hall. apply D; [exact Hc|]. now inversion Hall. }
  destruct (IH (Revision1.telegramStep st msg)) as (A & B & D).
  - exact (advances_sound Hs Ha).
  - eapply advances_labelled; [exact Hl | | exact Ha]. discriminate.
  - split; [exact A|]. split; [exact B|].
    intros Hc Hall. inversion Hall as [|? ? Hel Hr]; subst.
    apply D; [|exact Hr]. exact (advances_complete Hs Hc Hel Ha).
Qed.

Lemma scan_sound doc :
  sound (Revision1.scan doc) /\ labelled (Revision1.scan doc)
  /\ (plainNames doc -> complete (Revision1.scan doc)).
Proof.
  assert (H0 : sound Revision1.Scan.initial).
  { unfold sound. cbn. repeat split; try constructor. }
  assert (L0 : labelled Revision1.Scan.initial) by (left; split; reflexivity).
  assert (C0 : complete Revision1.Scan.initial) by reflexivity.
  destruct (@pam_fold (querySelectorAll doc ".pam") Revision1.Scan.initial
              H0 L0 eq_refl) as (Hs & Hl & _ & Hc).
  cbv zeta in Hs, Hl, Hc. unfold Revision1.scan. cbv zeta.
  destruct (_ =? 0)%nat.
  - destruct (@telegram_fold (querySelectorAll doc ".message") _ Hs Hl)
      as (A & B & D).
    split; [exact A|]. split; [exact B|].
    intros [P1 P2]. apply D; [|exact P2]. now apply Hc.
  - split; [exact Hs|]. split; [exact Hl|]. intros [P1 _]. now apply Hc.
Qed.

(** Nothing is thrown on a document without inherited names. *)
Lemma pamThrown_plain st el :
  Js.isInherited (Revision1.pamName el) = false -> Revision1.pamThrown st el = None.
Proof.
  intros H. unfold Revision1.pamThrown. cbv zeta.
  now rewrite (own_inherits _ _ H), andb_false_r.
Qed.

Lemma telegramThrown_plain st msg :
  Js.isInherited (telegramName msg) = false -> Revision1.telegramThrown st msg = None.
Proof.
  unfold Revision1.telegramThrown, telegramName. intros H.
  destruct (querySelector msg ".from_name") as [fromNode|]; [|reflexivity].
  destruct (String.eqb (textContent fromNode) ""); [reflexivity|]. cbv zeta.
  now rewrite (own_inherits _ _ H), andb_false_r.
Qed.

Lemma firstThrown_none (S A : Type) (thrown : S -> A -> option string)
      (step : S -> A -> S) (l : list A) :
  (forall st x, In x l -> thrown st x = None) ->
  forall st, firstThrown thrown step st l = None.
Proof.
  induction l as [|x r IH]; intros H st; [reflexivity|].
  cbn [firstThrown]. rewrite (H st x (or_introl eq_refl)).
  apply IH. intros st' y Hy. apply H. now right.
Qed.

Lemma scanThrown_plain doc : plainNames doc -> Revision1.scanThrown doc = None.
Proof.
  intros [P1 P2]. unfold Revision1.scanThrown.
  rewrite firstThrown_none.
  - cbv zeta. destruct (_ =? 0)%nat; [|reflexivity].
    apply firstThrown_none. intros st x Hx. apply telegramThrown_plain.
    rewrite Forall_forall in P2. now apply P2.
  - intros st x Hx. apply pamThrown_plain.
    rewrite Forall_forall in P1. now apply P1.
Qed.

Lemma labelled_unknown st :
  labelled st ->
  (Revision1.formatLabel st = "Unknown" <-> Revision1.Scan.totalCount st = 0%nat).
Proof.
  unfold Revision1.formatLabel. intros [[-> Hv]|[-> Hp]].
  - rewrite Hv. destruct (Nat.ltb_spec 0 (Revision1.Scan.totalCount st)).
    + split; [discriminate | lia].
    + split; [lia | reflexivity].
  - split; [discriminate | lia].
Qed.

End FirstRevisionFacts.

(** * The specified properties *)

(** What the validator accepts: a text whose
    trimmed form is not empty, has at most 80 characters, does not begin with
    one or two digits, a colon and two digits, is not AM or PM in any letter
    case, does not begin with a capital letter, two small letters, a space,
    one or two digits, an optional comma, a space and four digits, does not
    begin with a slash-delimited numeric date, is not one of the labels in
    any letter case, and does not contain "sent an attachment" in any letter
    case. *)
Lemma isValidSender_accepts (text : string) :
  isValidSender text = true <->
  let t := Js.trim text in
  t <> ""
  /\ (String.length t <= 80)%nat
  /\ ~ Re.StartsWith Pattern.clock t
  /\ ~ Re.Matches Pattern.meridiem t
  /\ ~ Re.StartsWith Pattern.shortDate t
  /\ ~ Re.StartsWith Pattern.slashDate t
  /\ ~ In (Js.toLowerCase t) commonLabels
  /\ ~ (exists a b, Js.toLowerCase t = a ++ "sent an attachment" ++ b).
Proof.
  rewrite isValidSender_tests. cbv zeta.
  rewrite !andb_true_iff.
  rewrite (negb_true_not (ReFacts.testStart_spec (Js.trim text) Pattern.clock)).
  rewrite (negb_true_not (ReFacts.testWhole_spec (Js.trim text) Pattern.meridiem)).
  rewrite (negb_true_not (ReFacts.testStart_spec (Js.trim text) Pattern.shortDate)).
  rewrite (negb_true_not (ReFacts.testStart_spec (Js.trim text) Pattern.slashDate)).
  rewrite (negb_true_not (ReFacts.has_spec commonLabels (Js.toLowerCase (Js.trim text)))).
  rewrite (negb_true_not (ReFacts.includes_spec "sent an attachment"
                                                (Js.toLowerCase (Js.trim text)))).
  assert (Hlen : negb ((String.length (Js.trim text) =? 0)%nat
                       || (80 <? String.length (Js.trim text))%nat) = true
                 <-> Js.trim text <> "" /\ (String.length (Js.trim text) <= 80)%nat).
  { rewrite negb_true_iff, orb_false_iff, Nat.eqb_neq, Nat.ltb_ge.
    destruct (Js.trim text); simpl; intuition (try discriminate; try lia). }
  rewrite Hlen. tauto.
Qed.

Section Claims.
Context {host : Host}.

(** C1.  The values of the hour-of-day histogram and those of the day-keyed
    timeline of a result add up to [totalMessages].  The message counts of
    the senders add up to the number of messages whose sender is not named as
    a member that every object inherits, which is [totalMessages] only when
    there is no such message.  On an export of one message without text from
    a sender named [constructor] the parse resolves with one message and no
    sender: [senderMap.constructor] is the inherited function, so [getSender]
    makes no accumulator and the counters are written on that function. *)
Theorem sender_counts_miss_inherited_names :
  (forall fileName text now r,
     parseChatFile fileName text now = Resolved r ->
     let found := fst (extractMessages (parseFromString text)) in
     Obj.total (hourlyStats r) = totalMessages r
     /\ Obj.total (timelineStats r) = totalMessages r
     /\ list_sum (map count (senders r)) = List.length (accounted found)
     /\ (list_sum (map count (senders r)) <= totalMessages r)%nat
     /\ ((forall m, In m found -> Js.isInherited (sender m) = false) ->
         list_sum (map count (senders r)) = totalMessages r))
  /\ exists r,
       parseChatFile (host := Demo.scripted Demo.constructorAlone)
                     "chat.html" Demo.export 0 = Resolved r
       /\ map sender
              (fst (extractMessages (host := Demo.scripted Demo.constructorAlone)
                                    0%nat))
          = ["constructor"]
       /\ totalMessages r = 1%nat
       /\ Obj.total (hourlyStats r) = 1%nat
       /\ Obj.total (timelineStats r) = 1%nat
       /\ senders r = []
       /\ list_sum (map count (senders r)) = 0%nat.
Proof.
  split; [|eexists; vm_compute; repeat split].
  intros fileName text now r H found.
  apply parse_resolved in H as (_ & found' & format & E & _ & ->).
  subst found. rewrite E. cbn [fst].
  assert (Hlen : totalMessages (analyze fileName now (parseFromString text) format found')
                 = List.length found') by apply stableSort_length.
  rewrite Hlen, analyze_sender_counts.
  unfold analyze. cbn [hourlyStats timelineStats].
  destruct (loop_counts (sortChronologically found') Pass.initial) as (Hh & Ht & _).
  unfold analysisLoop. rewrite Hh, Ht. simpl.
  split; [apply stableSort_length|]. split; [apply stableSort_length|].
  split; [reflexivity|]. split; [apply filter_length_le|].
  intros Hown. f_equal. unfold accounted.
  rewrite <- (filter_true found') at 2. apply filter_ext_in.
  intros m Hm. now rewrite (Hown m Hm).
Qed.

(** C10.  For every sender of the result the four time-of-day counters add up
    to the sender's count; the hour of a message lies in [0, 24), hence in
    exactly one of [0,4), [4,12), [12,20) and [20,24). *)
Theorem buckets_partition fileName text now r :
  parseChatFile fileName text now = Resolved r ->
  Forall (fun s => (lateNightMessages s + morningMessages s
                    + afternoonMessages s + eveningMessages s = count s)%nat)
         (senders r)
  /\ forall t, 0 <= getHours t < 24.
Proof.
  intros H. apply parse_resolved in H as (_ & found & format & _ & _ & ->).
  split.
  - unfold analyze; simpl. apply assembleSenders_buckets.
    unfold analysisLoop. apply loop_buckets. constructor.
  - intros t. unfold getHours, Cal.hourOf. apply Z.mod_pos_bound. lia.
Qed.


(** C4.  When a message of sender [b] follows, in the traversed sequence, a
    message of a different sender [a], and [b] is not named as a member that
    every object inherits: the gap in minutes is appended to the reply gaps
    of [b] (400 for a gap of 400 minutes, 10 for one of 10); the initiations
    of [b] grow by one exactly when the gap exceeds 360 minutes; and the
    consecutive-message counter of [a] is back at zero.  When [b] is named
    as such a member the reply is not recorded: on an export of a message of
    Ann and, five minutes later, a message without text from a sender named
    [toString], [getSender] returns the inherited function, which has no
    [replyTimes], and the parse is rejected with the [TypeError] of
    [sender.replyTimes.push]. *)
Theorem reply_gap_unless_inherited :
  (forall (pre : list RawMessage) (a b : RawMessage),
     sender a <> sender b -> Js.isInherited (sender b) = false ->
     let before := senderOr (sender b) (Pass.senderMap (analysisLoop (pre ++ [a]))) in
     let after := Pass.senderMap (analysisLoop (pre ++ [a; b])) in
     let gap := timeDiffMinutes a b in
     exists sB,
       Obj.get (sender b) after = Some sB
       /\ Temp.replyTimes sB = (Temp.replyTimes before ++ [gap])%list
       /\ Temp.initiatedCount sB
          = (Temp.initiatedCount before
             + if (360 * 60000 <? timestamp b - timestamp a)%Z then 1 else 0)%nat
       /\ (Js.isInherited (sender a) = false ->
           exists sA, Obj.get (sender a) after = Some sA
                      /\ Temp.consecutiveCount sA = 0%nat))
  /\ (timeDiffMinutes DemoRun.annAtNine (DemoRun.benLater 400) = 400%Q
      /\ timeDiffMinutes DemoRun.annAtNine (DemoRun.benLater 10) = 10%Q)
  /\ (map (fun m => (sender m, Cal.toISOString (timestamp m), content m))
          (fst (extractMessages (host := Demo.scripted Demo.annToString) 0%nat))
      = [ ("Ann", "2024-01-01T09:00:00.000Z", "Hello");
          ("toString", "2024-01-01T09:05:00.000Z", "") ]
      /\ parseChatFile (host := Demo.scripted Demo.annToString)
                       "chat.html" Demo.export 0
         = Rejected "Cannot read properties of undefined (reading 'push')").
Proof.
  split; [|vm_compute; repeat split].
  intros pre a b Hne Hb before after gap.
  assert (Hafter : after = Pass.senderMap (step (analysisLoop (pre ++ [a])) b)).
  { subst after. change [a; b] with ([a] ++ [b])%list.
    now rewrite app_assoc, loop_snoc. }
  destruct (step_reply (analysisLoop (pre ++ [a])) (a := a) b) as (HB & HA);
    [now rewrite loop_snoc | exact Hne | exact Hb |].
  rewrite Hafter. eexists. split; [exact HB|].
  split; [reflexivity|]. split.
  - simpl. rewrite long_silence. fold before.
    change (360 * 60000) with 21600000.
    destruct (21600000 <? timestamp b - timestamp a); simpl; lia.
  - intros Ha. destruct (HA Ha) as (sA & HsA).
    eexists. split; [exact HsA | reflexivity].
Qed.

(** C6.  A result with at least one message has a day streak of at least
    one.  When each of the sorted day keys is the calendar day after the key
    before it, the longest day streak is the number of distinct active days,
    [totalDays], which counts the keys of the timeline (they are pairwise
    distinct).  That is the case when the messages fall, in local time, on
    days in a row in years of four digits: the streak is then the number of
    distinct days of the messages. *)
Theorem day_streak fileName text now r :
  parseChatFile fileName text now = Resolved r ->
  ((1 <= totalMessages r)%nat -> (1 <= longestDayStreak r)%nat)
  /\ NoDup (sortedDayKeys (timelineStats r))
  /\ totalDays r = List.length (sortedDayKeys (timelineStats r))
  /\ (ConsecutiveDays (sortedDayKeys (timelineStats r)) ->
      longestDayStreak r = totalDays r)
  /\ (let found := fst (extractMessages (parseFromString text)) in
      let days := map (fun m => localDay (timestamp m)) found in
      (forall m, In m found -> 1000 <= getFullYear (timestamp m) <= 9999) ->
      DaysInARow days ->
      longestDayStreak r = totalDays r
      /\ totalDays r = List.length (nodup Z.eq_dec days)).
Proof.
  intros H. apply parse_resolved in H as (_ & found & format & E & Hf & ->).
  rewrite E. cbn [fst].
  unfold analyze. cbn [totalMessages longestDayStreak timelineStats totalDays].
  assert (Hd : Pass.dailyActivity (analysisLoop (sortChronologically found))
               = Pass.timelineStats (analysisLoop (sortChronologically found)))
    by (apply loop_daily_timeline; reflexivity).
  rewrite <- Hd. split; [|split; [|split; [|split]]].
  - intros _. apply maxDayStreak_pos. intros Hnil.
    apply (f_equal (@List.length string)) in Hnil.
    rewrite sortedDayKeys_length in Hnil. apply length_zero_iff_nil in Hnil.
    revert Hnil. apply loop_daily_not_empty. left.
    intros Hs. apply Hf. unfold sortChronologically in Hs.
    now apply stableSort_nil_inv in Hs.
  - unfold sortedDayKeys.
    eapply Permutation_NoDup; [symmetry; apply stableSort_perm|].
    eapply Permutation_NoDup; [symmetry; apply keys_perm|].
    apply loop_daily_NoDup. constructor.
  - reflexivity.
  - apply maxDayStreak_run.
  - intros Hyears Hrow.
    destruct (keys_of_days_in_a_row found Hyears Hrow) as [Hc Hl].
    split; [now apply maxDayStreak_run | exact Hl].
Qed.

(** C9, as the code has it.  The outcome of a parse depends on the reading of
    the clock through [metadata.parsedAt] only: the outcome at one reading is
    the outcome at any other with that field replaced. *)
Theorem clock_only_in_parsedAt fileName text now1 now2 :
  parseChatFile fileName text now2 = restamp now2 (parseChatFile fileName text now1).
Proof.
  unfold parseChatFile.
  destruct (String.eqb text ""); [reflexivity|].
  destruct (extractMessages (parseFromString text)) as [[|m found] format];
    [reflexivity|].
  now destruct (thrownFrom _ _).
Qed.

End Claims.

(** ** The properties on the small hosts *)

Lemma buckets_partition_witness :
  parseChatFile (host := Demo.telegramHost) "chat.html" Demo.export 0
  = Resolved (DemoRun.result 0)
  /\ (Forall (fun s => (lateNightMessages s + morningMessages s
                        + afternoonMessages s + eveningMessages s = count s)%nat)
             (senders (DemoRun.result 0))
      /\ forall t, 0 <= getHours (host := Demo.telegramHost) t < 24).
Proof.
  split; [reflexivity|].
  apply (buckets_partition (host := Demo.telegramHost) "chat.html" Demo.export 0).
  reflexivity.
Defined.


(** C3 on the demo export.  Its four messages fall on one day, twenty minutes
    apart: the span is 20/1440 of a day, and the share of active days comes
    out as 7200, far above 100 and not the 0 of a single active day.  The
    comment in the code calls the value the percentage of days with messages;
    the code divides the number of distinct days by a difference of instants
    and guards a span of zero only.  With the first and the last message at
    the same instant the share is 0. *)
Theorem active_days_share_exceeds_100 :
  let r := DemoRun.result 0 in
  parseChatFile (host := Demo.telegramHost) "chat.html" Demo.export 0 = Resolved r
  /\ firstMessageDate r = Some "2024-01-01T09:00:00.000Z"
  /\ lastMessageDate r = Some "2024-01-01T09:20:00.000Z"
  /\ totalDays r = 1%nat
  /\ activeDaysPct r = 7200
  /\ ~ (0 <= activeDaysPct r <= 100)
  /\ forall days t, activeDays days t t = 0.
Proof.
  cbv zeta.
  split; [reflexivity|]. split; [reflexivity|]. split; [reflexivity|].
  split; [reflexivity|]. split; [reflexivity|]. split.
  - intros [_ H]. revert H. vm_compute. intros H. apply H. reflexivity.
  - intros days t. unfold activeDays. now rewrite Z.sub_diag.
Qed.

(** C9 fails on the demo export: two parses of the same text, one second
    apart, differ. *)
Lemma clock_only_in_parsedAt_counterexample :
  parseChatFile (host := Demo.telegramHost) "chat.html" Demo.export 0
  <> parseChatFile (host := Demo.telegramHost) "chat.html" Demo.export 1000.
Proof.
  intros H.
  apply (f_equal (fun s => match s with
                           | Resolved r => parsedAt (metadata r)
                           | Rejected m => m
                           end)) in H.
  vm_compute in H. discriminate H.
Qed.

(** C2 on the demo export, whose four messages are the ones of the scenario:
    Ann at 09:00, 09:05 and 09:10 and Ben at 09:20 on 2024-01-01.  Every value
    is the expected one except the streak of Ann: three consecutive messages
    leave [longestStreakMessages] at 2, since the counter starts at the
    second message of a run. *)
Theorem ann_ben_scenario :
  let r := DemoRun.result 0 in
  let st := analysisLoop (host := Demo.telegramHost)
                         (sortChronologically DemoRun.found) in
  parseChatFile (host := Demo.telegramHost) "chat.html" Demo.export 0 = Resolved r
  /\ map (fun m => (sender m, Cal.toISOString (timestamp m))) DemoRun.found
     = [ ("Ann", "2024-01-01T09:00:00.000Z"); ("Ann", "2024-01-01T09:05:00.000Z");
         ("Ann", "2024-01-01T09:10:00.000Z"); ("Ben", "2024-01-01T09:20:00.000Z") ]
  /\ totalMessages r = 4%nat
  /\ Obj.get "9" (hourlyStats r) = Some 4%nat
  /\ timelineStats r = [("2024-01-01", 4%nat)]
  /\ map (fun s => (name s, longestStreakMessages s, initiatedConversations s))
         (senders r)
     = [("Ann", 2%nat, 1%nat); ("Ben", 0%nat, 0%nat)]
  /\ option_map Temp.replyTimes (Obj.get "Ben" (Pass.senderMap st)) = Some [10%Q]
  /\ longestDayStreak r = 1%nat
  /\ longestGapDays r = 0.
Proof. vm_compute. repeat split. Qed.

(** C8 on an export of three messages, Ann once and then Ben twice: Ben is
    first in the result and keeps the second colour of the palette, the one
    of his position in [Object.values(senderMap)] before the sort, while the
    first colour of the palette goes to Ann. *)
Theorem colour_by_first_seen :
  exists r,
    parseChatFile (host := Demo.scripted Demo.annBenBen) "chat.html" Demo.export 0
    = Resolved r
    /\ map (fun s => (name s, count s, color s)) (senders r)
       = [("Ben", 2%nat, "#EC4899"); ("Ann", 1%nat, "#4F46E5")]
    /\ nth 0 COLORS "" = "#4F46E5".
Proof. eexists. vm_compute. repeat split. Qed.

(** C7 on two texts.  "January 5, 2024" begins with a month name, a day and a
    year, and so does the time stamp "January 5, 2024, 8:41 PM" of a Meta
    export, which [META_DATE_REGEX] recognises as a date; the validator
    accepts both as names of senders.  Its date pattern wants a space right
    after the third letter, so it refuses "Jan 5, 2024" and not a month that
    is written out. *)
Theorem month_name_passes_validator :
  isValidSender "January 5, 2024" = true
  /\ Claimed.isPlausibleSenderName "January 5, 2024" = false
  /\ isValidSender "January 5, 2024, 8:41 PM" = true
  /\ Re.testWhole Pattern.META_DATE_REGEX "January 5, 2024, 8:41 PM" = true
  /\ isValidSender "Jan 5, 2024" = false.
Proof. vm_compute. repeat split. Qed.

Lemma day_streak_witness :
  let host := Demo.scripted Demo.threeDays in
  let days := [19721; 19722; 19723; 19723] in
  parseChatFile "chat.html" Demo.export 0 = Resolved DemoRun.threeDaysResult
  /\ map (fun m => localDay (timestamp m)) (fst (extractMessages 0%nat)) = days
  /\ (forall m, In m (fst (extractMessages 0%nat)) ->
      1000 <= getFullYear (timestamp m) <= 9999)
  /\ DaysInARow days
  /\ sortedDayKeys (timelineStats DemoRun.threeDaysResult)
     = ["2023-12-30"; "2023-12-31"; "2024-01-01"]
  /\ ConsecutiveDays ["2023-12-30"; "2023-12-31"; "2024-01-01"]
  /\ (1 <= longestDayStreak DemoRun.threeDaysResult)%nat
  /\ longestDayStreak DemoRun.threeDaysResult = 3%nat
  /\ totalDays DemoRun.threeDaysResult = List.length (nodup Z.eq_dec days).
Proof.
  intros host days.
  assert (Hy : forall m, In m (fst (extractMessages 0%nat)) ->
                         1000 <= getFullYear (timestamp m) <= 9999).
  { intros m Hm. vm_compute in Hm.
    repeat (destruct Hm as [<-|Hm]; [vm_compute; split; discriminate|]).
    destruct Hm. }
  assert (Hr : DaysInARow days).
  { intros d Hd. vm_compute in Hd.
    destruct Hd as [<-|Hd].
    - right. intros d' Hd'. vm_compute in Hd'.
      repeat (destruct Hd' as [<-|Hd']; [lia|]). destruct Hd'.
    - left. repeat (destruct Hd as [<-|Hd]; [vm_compute; tauto|]). destruct Hd. }
  assert (Hk : sortedDayKeys (timelineStats DemoRun.threeDaysResult)
               = ["2023-12-30"; "2023-12-31"; "2024-01-01"]) by reflexivity.
  assert (Hc : ConsecutiveDays ["2023-12-30"; "2023-12-31"; "2024-01-01"]).
  { simpl. repeat split; eexists; eexists; repeat split; reflexivity. }
  destruct (day_streak (host := host) "chat.html" Demo.export 0
              parse_threeDays) as (H1 & _ & _ & H4 & H5).
  destruct (H5 Hy Hr) as [H6 H7].
  split; [reflexivity|]. split; [reflexivity|]. split; [exact Hy|].
  split; [exact Hr|]. split; [exact Hk|]. split; [exact Hc|].
  split; [apply H1; vm_compute; lia|].
  split; [rewrite H4; [reflexivity | rewrite Hk; exact Hc] | exact H7].
Defined.

(** * Further properties of the parser *)

Section Parser.
Context {host : Host}.

(** X1.  The messages are traversed in the order of their instants, the
    earliest first; the traversed sequence has exactly the extracted
    messages, and messages with the same instant keep the order in which
    they were extracted. *)
Theorem chronological_order (found : list RawMessage) :
  let msgs := sortChronologically found in
  StronglySorted (fun a b => timestamp a <= timestamp b) msgs
  /\ Permutation msgs found
  /\ forall t, filter (fun m => timestamp m =? t) msgs
               = filter (fun m => timestamp m =? t) found.
Proof.
  split; [apply sortChronologically_sorted|].
  split; [apply stableSort_perm|].
  intros t. apply stableSort_filter.
  intros x y Hx Hy. apply Z.eqb_eq in Hx, Hy. apply Z.leb_le. lia.
Qed.

(** X2.  The senders of a result are ranked by message count, the largest
    first; no name occurs twice; and the names are exactly the sender names
    of the extracted messages that are not names of members that every
    object inherits: a sender with such a name is in no result. *)
Theorem senders_ranked fileName text now r :
  parseChatFile fileName text now = Resolved r ->
  StronglySorted (fun a b => (count b <= count a)%nat) (senders r)
  /\ NoDup (map name (senders r))
  /\ (forall k, In k (map name (senders r))
                <-> In k (map sender (fst (extractMessages (parseFromString text))))
                    /\ Js.isInherited k = false).
Proof.
  intros H. apply parse_resolved in H as (_ & found & format & E & _ & ->).
  rewrite E. cbn [fst]. unfold analyze. cbn [senders].
  set (m := Pass.senderMap (analysisLoop (sortChronologically found))).
  assert (Hk : keyed m) by apply analysisLoop_keyed.
  pose proof (@assembled_names m Hk) as P.
  split; [apply byCountDesc_sorted|]. split.
  - apply (Permutation_NoDup (Permutation_sym P)), Hk.
  - intros k. rewrite <- sorted_senders, <- analysisLoop_keys. fold m.
    split; apply Permutation_in; [exact P | now symmetry].
Qed.

(** X3.  Each counter of a sender of the result is the number of the
    extracted messages of that sender of the respective kind: all of them,
    the reels, the attachments, and the ones whose local hour is in [0,4),
    [4,12), [12,20) and [20,24).  A sender of the result has at least one
    message. *)
Theorem sender_counters fileName text now r s :
  parseChatFile fileName text now = Resolved r -> In s (senders r) ->
  let mine := sentBy (name s) (fst (extractMessages (parseFromString text))) in
  count s = List.length mine
  /\ reelCount s = List.length (filter isReel mine)
  /\ attachmentCount s = List.length (filter isAttachment mine)
  /\ lateNightMessages s = List.length (filter (hourIn 0 4) mine)
  /\ morningMessages s = List.length (filter (hourIn 4 12) mine)
  /\ afternoonMessages s = List.length (filter (hourIn 12 20) mine)
  /\ eveningMessages s = List.length (filter (hourIn 20 24) mine)
  /\ (1 <= count s)%nat.
Proof.
  intros H Hs mine.
  destruct (@resolved_sender _ fileName text now r s H Hs) as (Hin & idx & Hi).
  assert (Hc : count s = List.length mine).
  { rewrite Hi at 1. cbn [senderStat count]. rewrite accFor_count. simpl.
    rewrite <- (filter_true (sentBy _ (sortChronologically _))).
    rewrite sorted_sentBy_length. now rewrite filter_true. }
  split; [exact Hc|].
  repeat split.
  - rewrite Hi at 1. cbn [senderStat reelCount]. rewrite accFor_reels.
    simpl. apply sorted_sentBy_length.
  - rewrite Hi at 1. cbn [senderStat attachmentCount]. rewrite accFor_attachments.
    simpl. apply sorted_sentBy_length.
  - rewrite Hi at 1. cbn [senderStat lateNightMessages]. rewrite accFor_lateNight.
    simpl. apply sorted_sentBy_length.
  - rewrite Hi at 1. cbn [senderStat morningMessages]. rewrite accFor_morning.
    simpl. apply sorted_sentBy_length.
  - rewrite Hi at 1. cbn [senderStat afternoonMessages]. rewrite accFor_afternoon.
    simpl. apply sorted_sentBy_length.
  - rewrite Hi at 1. cbn [senderStat eveningMessages]. rewrite accFor_evening.
    simpl. apply sorted_sentBy_length.
  - rewrite Hc. apply in_map_iff in Hin as (m & Hm & Hin).
    assert (Hmine : In m mine)
      by (apply filter_In; split; [exact Hin | now apply String.eqb_eq]).
    destruct mine; [destruct Hmine | simpl; lia].
Qed.

(** X4.  [longestStreakMessages] of a sender is one less than the length of
    the sender's longest run of consecutive messages in the traversed
    sequence: a run of [n] messages is recorded as [n - 1].  It is therefore
    always smaller than the sender's message count. *)
Theorem streak_is_run_less_one fileName text now r s :
  parseChatFile fileName text now = Resolved r -> In s (senders r) ->
  let msgs := sortChronologically (fst (extractMessages (parseFromString text))) in
  S (longestStreakMessages s) = longestRun (name s) msgs
  /\ (longestStreakMessages s < count s)%nat.
Proof.
  intros H Hs msgs.
  destruct (@resolved_sender _ fileName text now r s H Hs) as (Hin & idx & Hi).
  fold msgs in Hi.
  assert (Hrun : longestStreakMessages s = pred (longestRun (name s) msgs)).
  { rewrite Hi at 1. cbn [senderStat longestStreakMessages].
    apply accFor_run. repeat split; auto. }
  assert (Hcount : count s = List.length (sentBy (name s) msgs)).
  { rewrite Hi at 1. cbn [senderStat count]. now rewrite accFor_count. }
  destruct (run_bounds (name s) msgs (cur := 0) (best := 0) (le_n 0))
    as (_ & Hub & _ & Hpos).
  fold (longestRun (name s) msgs) in Hub, Hpos.
  assert (Hne : sentBy (name s) msgs <> []).
  { apply sorted_senders in Hin. fold msgs in Hin.
    apply in_map_iff in Hin as (m & Hm & Hin).
    assert (Hmine : In m (sentBy (name s) msgs))
      by (apply filter_In; split; [exact Hin | now apply String.eqb_eq]).
    intros E. now rewrite E in Hmine. }
  specialize (Hpos Hne). simpl in Hub. lia.
Qed.

(** X5.  [initiatedConversations] of a sender counts the sender's messages
    that open a conversation: the very first message of the traversed
    sequence, and every message that follows a message of another sender by
    more than six hours.  A message that follows the sender's own message
    opens nothing, however long the silence. *)
Theorem conversations_opened fileName text now r s :
  parseChatFile fileName text now = Resolved r -> In s (senders r) ->
  let msgs := sortChronologically (fst (extractMessages (parseFromString text))) in
  initiatedConversations s = openings (name s) None msgs.
Proof.
  intros H Hs msgs.
  destruct (@resolved_sender _ fileName text now r s H Hs) as (_ & idx & Hi). fold msgs in Hi.
  rewrite Hi at 1. cbn [senderStat initiatedConversations].
  now rewrite accFor_openings.
Qed.

End Parser.

Section ParserReplies.
Context {host : Host}.

(** X6.  The reply figures of a sender come from the sender's reply gaps:
    the minutes, in double precision, between each message of the sender
    that follows a message of somebody else and that message.  The gaps are
    never negative.  Without a gap the three figures are 0.  Otherwise the
    fastest reply is the rounded product, a double, of the smallest gap and
    60, the slowest reply the rounded largest gap, and the average the
    rounded quotient, a double, of the sum of the gaps, added up in
    ascending order with a rounding at each step, by their number.  The
    figures are never negative. *)
Theorem reply_statistics fileName text now r s :
  parseChatFile fileName text now = Resolved r -> In s (senders r) ->
  let msgs := sortChronologically (fst (extractMessages (parseFromString text))) in
  let gaps := replyGaps (name s) None msgs in
  Forall (fun g => 0 <= g)%Q gaps
  /\ (gaps = [] -> avgReplyTimeMinutes s = 0 /\ fastestReplySeconds s = 0
                   /\ slowestReplyMinutes s = 0)
  /\ (gaps <> [] ->
      exists lo hi, In lo gaps /\ In hi gaps
        /\ (forall g, In g gaps -> (lo <= g <= hi)%Q)
        /\ fastestReplySeconds s = Js.round (Js.double (lo * 60))
        /\ slowestReplyMinutes s = Js.round hi
        /\ avgReplyTimeMinutes s
           = Js.round (Js.double (sumDoubles (stableSort Qle_bool gaps)
                                  / inject_Z (Z.of_nat (List.length gaps)))))
  /\ 0 <= fastestReplySeconds s
  /\ 0 <= avgReplyTimeMinutes s
  /\ 0 <= slowestReplyMinutes s.
Proof.
  intros H Hs msgs gaps.
  destruct (@resolved_sender _ fileName text now r s H Hs) as (_ & idx & Hi).
  fold msgs in Hi.
  assert (Hg : Temp.replyTimes (accFor (name s) None msgs (Temp.fresh (name s)))
               = gaps) by (now rewrite accFor_replies).
  assert (Hpos : Forall (fun g => 0 <= g)%Q gaps)
    by (apply (replyGaps_nonneg (name s) msgs None), sortChronologically_sorted).
  split; [exact Hpos|].
  rewrite Hi. rewrite <- Hg in Hpos |- *.
  exact (senderStat_replies _ idx Hpos).
Qed.

End ParserReplies.

Section ParserWords.
Context {host : Host}.

(** X7.  In the word record of a sender a word that is not the name of an
    inherited member holds the number of its occurrences among the counted
    words of the sender's messages, and is absent when it does not occur.
    A counted word that names an inherited function holds a text instead:
    the text of that function followed by one digit 1 for each occurrence;
    [__proto__] is never stored.  The emoji record holds the occurrences
    among the emoji matches of the sender's messages. *)
Theorem word_counts fileName text now r s :
  parseChatFile fileName text now = Resolved r -> In s (senders r) ->
  let mine := sentBy (name s) (fst (extractMessages (parseFromString text))) in
  let said := flat_map (fun m => countedWords (content m)) mine in
  (forall w, Obj.get w (wordCounts s) = countedValue w (occurrences w said))
  /\ (forall w, Js.isInherited w = false ->
      Obj.get w (wordCounts s) = option_map Js.Num (counted (occurrences w said)))
  /\ Obj.get "__proto__" (wordCounts s) = None
  /\ (forall n, occurrences "constructor" said = S n ->
      Obj.get "constructor" (wordCounts s)
      = Some (Js.Str (functionText "constructor" ++ Js.repeatChar "1" (S n))))
  /\ (forall e, Obj.get e (emojis s)
                = counted (occurrences e
                             (flat_map (fun m => emojiMatches (content m)) mine))).
Proof.
  intros H Hs mine said.
  destruct (@resolved_words _ fileName text now r s H Hs) as [Hw He].
  pose proof (sorted_sentBy_perm (name s)
                (fst (extractMessages (parseFromString text)))) as P.
  fold mine in P.
  assert (Hall : forall w, Obj.get w (wordCounts s)
                           = countedValue w (occurrences w said)).
  { intros w. rewrite Hw, counted_fold_addTo.
    f_equal. apply occurrences_perm. now apply Permutation_flat_map. }
  split; [exact Hall|]. split; [|split; [|split]].
  - intros w Hown. rewrite Hall. unfold countedValue. rewrite Hown.
    destruct (occurrences w said); [reflexivity|].
    destruct (String.eqb_spec w "__proto__") as [->|_]; [discriminate Hown|].
    reflexivity.
  - rewrite Hall. unfold countedValue. now destruct (occurrences _ said).
  - intros n Hn. rewrite Hall, Hn. reflexivity.
  - intros e. rewrite He.
    rewrite (counted_fold_incr (fun w => w)), map_id.
    f_equal. apply occurrences_perm. now apply Permutation_flat_map.
Qed.

(** X8.  Every key of the word record of a sender has at least two
    characters, is not a stop word, consists of small letters, digits and
    underscores only, and is not [__proto__].  It holds a count of at least
    one, except the key [constructor], which holds the text of the inherited
    function followed by digits 1. *)
Theorem word_keys fileName text now r s w v :
  parseChatFile fileName text now = Resolved r -> In s (senders r) ->
  In (w, v) (wordCounts s) ->
  (2 <= String.length w)%nat
  /\ ~ In w STOP_WORDS
  /\ forallChars isKeyChar w = true
  /\ w <> "__proto__"
  /\ ((exists n, v = Js.Num n /\ (1 <= n)%nat /\ w <> "constructor")
      \/ (exists n, v = Js.Str (functionText "constructor" ++ Js.repeatChar "1" (S n))
                    /\ w = "constructor")).
Proof.
  intros H Hs Hw.
  destruct (@resolved_words _ fileName text now r s H Hs) as [E _].
  set (l := flat_map _ _) in E.
  assert (Hg : Obj.get w (wordCounts s) = Some v).
  { apply In_get; [|exact Hw]. rewrite E.
    apply keys_fold_addTo. constructor. }
  rewrite E, counted_fold_addTo in Hg.
  assert (Hk : In w l).
  { apply occurrences_In. intros Hz. rewrite Hz in Hg. discriminate Hg. }
  subst l. apply in_flat_map in Hk as (m & _ & Hm).
  destruct (countedWords_spec _ _ Hm) as (A & B & C).
  split; [exact A|]. split; [exact B|]. split; [exact C|].
  unfold countedValue in Hg.
  destruct (occurrences w _) as [|n]; [discriminate Hg|].
  destruct (String.eqb_spec w "__proto__") as [->|Hp]; [discriminate Hg|].
  split; [exact Hp|].
  destruct (Js.isInherited w) eqn:I; injection Hg as <-.
  - right. destruct (inherited_word w I C) as [->| ->]; [|contradiction].
    exists n. split; reflexivity.
  - left. exists (S n). split; [reflexivity|]. split; [lia|].
    intros ->. discriminate I.
Qed.

End ParserWords.

Section ParserDays.
Context {host : Host}.

(** X9.  The timeline of a result holds, for every day key, the number of
    extracted messages with that key, and nothing for a key of no message.
    The hourly histogram holds under the decimal form of an hour the number
    of extracted messages of that local hour, and every key of it is the
    decimal form of an hour from 0 to 23.  No key occurs twice in either. *)
Theorem histograms_count fileName text now r :
  parseChatFile fileName text now = Resolved r ->
  let found := fst (extractMessages (parseFromString text)) in
  (forall k, Obj.get k (timelineStats r)
             = counted (List.length
                          (filter (fun m => String.eqb k (dayKey (timestamp m))) found)))
  /\ (forall h, 0 <= h < 24 ->
      Obj.get (Js.ofZ h) (hourlyStats r)
      = counted (List.length
                   (filter (fun m => h =? getHours (timestamp m)) found)))
  /\ (forall k, In k (map fst (hourlyStats r)) ->
      exists h, 0 <= h < 24 /\ k = Js.ofZ h)
  /\ NoDup (map fst (hourlyStats r))
  /\ NoDup (map fst (timelineStats r)).
Proof.
  intros H. apply parse_resolved in H as (_ & found & format & E & _ & ->).
  rewrite E. cbn [fst]. unfold analyze. cbn [timelineStats hourlyStats].
  unfold analysisLoop. rewrite loop_hourly, loop_timeline. cbn [Pass.initial
    Pass.hourlyStats Pass.timelineStats].
  split; [intros k; apply counted_sorted|].
  split.
  { intros h Hh. rewrite counted_sorted. f_equal.
    apply filter_ext_length. intros m _.
    apply ofZ_hours; [exact Hh | apply getHours_range]. }
  destruct (@keys_fold_incr _ (fun m => Js.ofZ (getHours (timestamp m)))
              (sortChronologically found) [] (NoDup_nil _)) as [Hd Hi].
  destruct (@keys_fold_incr _ (fun m => dayKey (timestamp m))
              (sortChronologically found) [] (NoDup_nil _)) as [Hd' _].
  split; [|split; assumption].
  intros k Hk. apply Hi in Hk as [Hk|[]].
  apply in_map_iff in Hk as (m & <- & _).
  exists (getHours (timestamp m)). split; [apply getHours_range | reflexivity].
Qed.

(** X10.  The busiest day of a result is a day key of the largest number of
    extracted messages, with that number, which is at least one; the busiest
    month is a month key of the largest number of extracted messages. *)
Theorem busiest_day_and_month fileName text now r :
  parseChatFile fileName text now = Resolved r ->
  let found := fst (extractMessages (parseFromString text)) in
  let onDay k :=
    List.length (filter (fun m => String.eqb k (dayKey (timestamp m))) found) in
  let inMonth k :=
    List.length (filter (fun m => String.eqb k (monthKey (timestamp m))) found) in
  snd (busiestDay r) = onDay (fst (busiestDay r))
  /\ (1 <= snd (busiestDay r))%nat
  /\ (forall k, onDay k <= snd (busiestDay r))%nat
  /\ (1 <= inMonth (busiestMonth r))%nat
  /\ (forall k, inMonth k <= inMonth (busiestMonth r))%nat.
Proof.
  intros H. apply parse_resolved in H as (_ & found & format & E & Hne & ->).
  rewrite E. cbn [fst]. cbv zeta.
  unfold analyze. cbn [busiestDay busiestMonth].
  unfold analysisLoop. rewrite loop_daily, loop_months.
  cbn [Pass.initial Pass.dailyActivity Pass.monthCounts].
  assert (Hs : sortChronologically found <> [])
    by (intros Hs; apply Hne; now apply stableSort_nil_inv in Hs).
  assert (Hfill : forall (f : RawMessage -> string) o,
    o = fold_left (fun o m => Obj.incr (f m) o) (sortChronologically found) [] ->
    snd (busiest o)
    = List.length (filter (fun m => String.eqb (fst (busiest o)) (f m)) found)
    /\ (1 <= snd (busiest o))%nat
    /\ forall k, (List.length (filter (fun m => String.eqb k (f m)) found)
                  <= snd (busiest o))%nat).
  { intros f o Eo.
    assert (Hget : forall k, Obj.get k o
                   = counted (List.length
                                (filter (fun m => String.eqb k (f m)) found)))
      by (intros k; rewrite Eo; apply counted_sorted).
    assert (Ho : o <> []).
    { intros Ho. destruct found as [|m ms]; [congruence|].
      specialize (Hget (f m)). rewrite Ho in Hget.
      cbn [Obj.get filter] in Hget. rewrite String.eqb_refl in Hget.
      discriminate Hget. }
    destruct (@keys_fold_incr _ f (sortChronologically found) [] (NoDup_nil _))
      as [Hd _].
    pose proof (@positive_fold_incr _ f (sortChronologically found) []
                  (Forall_nil _)) as Hp.
    rewrite <- Eo in Hd, Hp.
    destruct (@busiest_spec o Ho Hd Hp) as [Hb Hmax].
    rewrite Hget in Hb. apply counted_Some in Hb as [Hb1 Hb2].
    split; [now symmetry|]. split; [lia|].
    intros k. specialize (Hmax k). rewrite Hget in Hmax.
    destruct (List.length (filter (fun m => String.eqb k (f m)) found)) as [|j];
      [lia|].
    now apply Hmax. }
  destruct (Hfill (fun m => dayKey (timestamp m)) _ eq_refl) as (A & B & C).
  destruct (Hfill (fun m => monthKey (timestamp m)) _ eq_refl) as (A' & B' & C').
  split; [exact A|]. split; [exact B|]. split; [exact C|].
  rewrite <- A'. split; [exact B' | exact C'].
Qed.

(** X11.  The longest day streak of a result never exceeds the number of
    active days, which never exceeds the number of messages; the longest gap
    is never negative. *)
Theorem day_figures_bounded fileName text now r :
  parseChatFile fileName text now = Resolved r ->
  (longestDayStreak r <= totalDays r)%nat
  /\ (totalDays r <= totalMessages r)%nat
  /\ 0 <= longestGapDays r.
Proof.
  intros H. apply parse_resolved in H as (_ & found & format & _ & _ & ->).
  unfold analyze. cbn [longestDayStreak totalDays totalMessages longestGapDays].
  split; [apply maxDayStreak_le|]. split; [|apply longestGap_nonneg].
  rewrite sortedDayKeys_length. apply daily_length.
Qed.

(** X12.  The first and the last message date of a result are the ISO forms
    of the earliest and of the latest instant among the extracted
    messages. *)
Theorem first_and_last_date fileName text now r :
  parseChatFile fileName text now = Resolved r ->
  let found := fst (extractMessages (parseFromString text)) in
  exists f l,
    In f found /\ In l found
    /\ firstMessageDate r = Some (Cal.toISOString (timestamp f))
    /\ lastMessageDate r = Some (Cal.toISOString (timestamp l))
    /\ forall m, In m found -> timestamp f <= timestamp m <= timestamp l.
Proof.
  intros H. apply parse_resolved in H as (_ & found & format & E & Hne & ->).
  rewrite E. cbn [fst]. unfold analyze. cbn [firstMessageDate lastMessageDate].
  pose proof (sortChronologically_sorted found) as Hs.
  assert (P : Permutation (sortChronologically found) found) by apply stableSort_perm.
  assert (Hn : sortChronologically found <> [])
    by (intros Hn; apply Hne; now apply stableSort_nil_inv in Hn).
  destruct (hd_error (sortChronologically found)) as [f|] eqn:Ef;
    [|destruct (sortChronologically found); [congruence | discriminate]].
  destruct (hd_error (rev (sortChronologically found))) as [l|] eqn:El.
  2:{ destruct (sortChronologically found) as [|x xs]; [congruence|].
      simpl in El. destruct (rev xs); discriminate. }
  destruct (sorted_last Hs El) as [Hl Hmax].
  exists f, l. cbn [option_map].
  assert (Hf : In f (sortChronologically found))
    by (destruct (sortChronologically found); [discriminate|];
        injection Ef as ->; now left).
  split; [now apply (Permutation_in _ P)|].
  split; [now apply (Permutation_in _ P)|].
  split; [reflexivity|]. split; [reflexivity|].
  intros m Hm. apply (Permutation_in _ (Permutation_sym P)) in Hm.
  split.
  - exact (@sorted_head_first found f m Ef Hm).
  - destruct (Hmax m Hm) as [->|Hle]; [lia | exact Hle].
Qed.

End ParserDays.

Section ParserExtraction.
Context {host : Host}.

(** X13.  The format label of a result names the strategy whose messages
    the result counts: the class-anchored strategy when it finds a message;
    otherwise the heuristic scan when it finds one; otherwise the Telegram
    strategy.  The label of a result is never "Unknown". *)
Theorem format_names_strategy fileName text now r :
  parseChatFile fileName text now = Resolved r ->
  let doc := parseFromString text in
  (strategyMeta doc <> []
   /\ detectedFormat (metadata r) = "Meta/Instagram Export (Class)"
   /\ totalMessages r = List.length (strategyMeta doc))
  \/ (strategyMeta doc = [] /\ strategyHeuristic doc <> []
      /\ detectedFormat (metadata r) = "Meta/Instagram Export (Heuristic)"
      /\ totalMessages r = List.length (strategyHeuristic doc))
  \/ (strategyMeta doc = [] /\ strategyHeuristic doc = []
      /\ strategyTelegram doc <> []
      /\ detectedFormat (metadata r) = "Telegram Export"
      /\ totalMessages r = List.length (strategyTelegram doc)).
Proof.
  intros H doc. apply parse_resolved in H as (_ & found & format & E & Hne & ->).
  fold doc in E. unfold analyze. cbn [metadata detectedFormat totalMessages].
  unfold sortChronologically. rewrite stableSort_length.
  pose proof (extractMessages_cases doc) as C. rewrite E in C. cbn [fst snd] in C.
  destruct C as [C|[[C1 C2]|[(C1 & C2 & C3)|(C1 & C2 & C3 & C4)]]].
  - contradiction.
  - left. rewrite <- C1. auto.
  - right. left. rewrite <- C2. auto.
  - right. right. rewrite <- C3. auto.
Qed.

(** X14.  Every sender name of a result passes the sender-name validator,
    is not empty and carries no white space at either end. *)
Theorem senders_are_validated fileName text now r s :
  parseChatFile fileName text now = Resolved r -> In s (senders r) ->
  isValidSender (name s) = true
  /\ Js.trim (name s) = name s
  /\ name s <> "".
Proof.
  intros H Hs.
  destruct (@resolved_sender _ fileName text now r s H Hs) as (Hin & _).
  apply in_map_iff in Hin as (m & <- & Hm).
  exact (extracted_sender _ _ Hm).
Qed.

End ParserExtraction.


(** * Further properties: the earlier revisions *)

(** X15.  The last revision of the validator accepts whatever the second one
    accepts, and the second whatever the first accepts.  The second revision
    accepts exactly the texts that the last one accepts, whose trimmed form
    has at most 50 characters and is not "you" in any letter case; the first
    accepts exactly the texts that the second accepts and that do not begin
    with a weekday or with a date in the ISO form. *)
Theorem validator_revisions (text : string) :
  let t := Js.trim text in
  (Revision2.isValidSender text = true
   <-> isValidSender text = true
       /\ (String.length t <= 50)%nat
       /\ Js.toLowerCase t <> "you")
  /\ (Revision1.isValidSender text = true
      <-> Revision2.isValidSender text = true
          /\ ~ Re.StartsWith Revision1.weekday t
          /\ ~ Re.StartsWith Revision1.isoDate t).
Proof.
  intros t. split.
  - unfold Revision2.isValidSender, isValidSender. cbv zeta. fold t.
    rewrite has_labelsWithYou.
    destruct (String.eqb text ""); [intuition discriminate|].
    destruct (Nat.eqb_spec (String.length t) 0) as [E0|E0]; cbn [orb];
      [intuition discriminate|].
    destruct (Nat.ltb_spec 50 (String.length t)) as [L50|L50];
      destruct (Nat.ltb_spec 80 (String.length t)) as [L80|L80];
      try lia; try (intuition (discriminate || lia)).
    destruct (Re.testStart Pattern.clock t); [intuition discriminate|].
    destruct (Re.testWhole Pattern.meridiem t); [intuition discriminate|].
    destruct (Re.testStart Pattern.shortDate t); [intuition discriminate|].
    destruct (Re.testStart Pattern.slashDate t); [intuition discriminate|].
    destruct (has commonLabels (Js.toLowerCase t)); cbn [orb];
      [intuition discriminate|].
    destruct (String.eqb_spec (Js.toLowerCase t) "you") as [Ey|Ey].
    + intuition discriminate.
    + destruct (Js.includes "sent an attachment" (Js.toLowerCase t));
        intuition (discriminate || lia).
  - unfold Revision1.isValidSender, Revision2.isValidSender. cbv zeta. fold t.
    rewrite <- (negb_true_not (ReFacts.testStart_spec t Revision1.weekday)).
    rewrite <- (negb_true_not (ReFacts.testStart_spec t Revision1.isoDate)).
    destruct (String.eqb text ""); [intuition discriminate|].
    destruct ((String.length t =? 0)%nat || (50 <? String.length t)%nat);
      [intuition discriminate|].
    destruct (Re.testStart Pattern.clock t); [intuition discriminate|].
    destruct (Re.testWhole Pattern.meridiem t); [intuition discriminate|].
    destruct (Re.testStart Pattern.shortDate t); [intuition discriminate|].
    destruct (Re.testStart Pattern.slashDate t); [intuition discriminate|].
    destruct (Re.testStart Revision1.weekday t); cbn [negb];
      [intuition discriminate|].
    destruct (Re.testStart Revision1.isoDate t); cbn [negb];
      [intuition discriminate|].
    destruct (has labelsWithYou (Js.toLowerCase t)); [intuition discriminate|].
    destruct (Js.includes "sent an attachment" (Js.toLowerCase t));
      intuition discriminate.
Qed.

(** * Further properties: the application *)

Section Uploads.
Context {host : Host}.

(** X16.  After an upload every file shows, under its name and in the order
    of the files, "complete" when its parse resolved and "error" when it was
    rejected or the file could not be read; no file is left pending or
    processing.  The results of the resolved parses are appended to the
    results held before, in the order of the files, and each of them has at
    least one message: the branch for a result without messages is never
    taken.  The status is idle for no files, the error with its message when
    there are files and no parse resolved, and complete otherwise. *)
Theorem upload_outcome (clock : nat -> Z) (files : list File.t) (st : App.State) :
  let st' := App.handleFilesSelected clock files st in
  let settled := Upload.outcomes clock files in
  let added := collect Upload.resolved settled in
  App.filesProgress st'
  = map (fun p => Upload.settled (fst p) (snd p)) (combine files settled)
  /\ App.results st' = (App.results st ++ added)%list
  /\ Forall (fun r => (1 <= totalMessages r)%nat) added
  /\ (files = [] -> App.status st' = App.idle /\ App.error_of st' = None)
  /\ (files <> [] -> added = [] ->
      App.status st' = App.error
      /\ App.error_of st'
         = Some "Could not detect any messages in the uploaded files. Ensure they are valid HTML chat exports.")
  /\ (added <> [] -> App.status st' = App.complete /\ App.error_of st' = None).
Proof.
  intros st' settled added.
  pose proof (@processFrom_spec _ clock files 0 [] [] eq_refl) as H.
  cbv zeta in H. cbn [app] in H.
  fold (mapi (fun file j => App.parseFile file (clock j)) files) in H.
  fold (Upload.outcomes clock files) in H. fold settled in H. fold added in H.
  assert (Hst : st' = App.handleFilesSelected clock files st) by reflexivity.
  unfold App.handleFilesSelected in Hst. cbv zeta in Hst. rewrite H in Hst.
  assert (Hpos : Forall (fun r => (1 <= totalMessages r)%nat) added).
  { apply Forall_forall. intros r Hr. subst added.
    apply collect_In in Hr as (s & Hs & Er).
    unfold settled, Upload.outcomes, mapi in Hs.
    apply In_mapi_from in Hs as (file & j & _ & ->).
    destruct (App.parseFile file (clock j)) as [msg|r'] eqn:E; [discriminate|].
    injection Er as ->. apply parseFile_has_messages in E.
    apply Nat.ltb_lt in E. lia. }
  assert (Hnone : files = [] -> added = []) by (intros ->; reflexivity).
  destruct added as [|r rs] eqn:Ea.
  - destruct files as [|f fs]; cbn [List.length Nat.ltb Nat.leb] in Hst;
      rewrite Hst; cbn; rewrite ?app_nil_r; repeat split; congruence.
  - rewrite Hst. cbn [App.filesProgress App.results App.status App.error_of].
    split; [reflexivity|]. split; [reflexivity|]. split; [exact Hpos|].
    split; [intros Hf; discriminate (Hnone Hf)|].
    split; [intros _ Hf; discriminate Hf|].
    intros _. split; reflexivity.
Qed.

End Uploads.

(** * Further properties: the silence between active days *)

Section ParserGaps.
Context {host : Host}.

(** X17.  When the messages fall in years of four digits, the longest gap
    of a result is the largest distance, in days, between two successive
    active local days: no two successive active days are further apart, some
    two are exactly that far apart when the messages fall on more than one
    day, and the gap is 0 when they all fall on one day.  Messages on every
    day of a period therefore give a gap of 1, not 0. *)
Theorem longest_gap_between_active_days fileName text now r :
  parseChatFile fileName text now = Resolved r ->
  let found := fst (extractMessages (parseFromString text)) in
  let days := map (fun m => localDay (timestamp m)) found in
  (forall m, In m found -> 1000 <= getFullYear (timestamp m) <= 9999) ->
  (forall d d', Successive days d d' -> d' - d <= longestGapDays r)
  /\ ((forall d d', In d days -> In d' days -> d = d') -> longestGapDays r = 0)
  /\ ((exists d d', In d days /\ In d' days /\ d <> d') ->
      exists d d', Successive days d d' /\ longestGapDays r = d' - d).
Proof.
  intros H found days Hyears.
  apply parse_resolved in H as (_ & found' & format & E & _ & ->).
  assert (Ef : found = found') by (subst found; now rewrite E).
  clearbody found. subst found'.
  destruct (sorted_days_of_found found Hyears) as (sd & Hk & Hs & Hy & Hmem).
  fold days in Hmem.
  unfold analyze. cbn [longestGapDays]. rewrite Hk, (longestGap_days Hy).
  assert (Hsucc : forall d d', Successive sd d d' <-> Successive days d d').
  { intros d d'. unfold Successive. rewrite !Hmem.
    split; intros (A & B & C & D); repeat split; auto;
      intros x Hx; apply D; now apply Hmem. }
  destruct sd as [|first rest].
  - split; [|split].
    + intros d d' (Hd & _). apply Hmem in Hd. destruct Hd.
    + reflexivity.
    + intros (d & _ & Hd & _). apply Hmem in Hd. destruct Hd.
  - destruct (@maxStep_spec rest first 0 Hs) as (A & B & C). cbv zeta in A, B, C.
    split; [|split].
    + intros d d' Hdd. apply B. now apply Hsucc.
    + intros Hone. destruct rest as [|e rest']; [reflexivity|].
      assert (first = e)
        by (apply Hone; apply Hmem; [now left | right; now left]).
      inversion Hs as [|? ? _ Hall]; subst.
      apply Forall_cons_iff in Hall as [Hlt _]. lia.
    + intros (d & d' & Hd & Hd' & Hne).
      destruct C as [C|(a & b & Hab & C)].
      * exfalso. destruct rest as [|e rest'].
        -- apply Hmem in Hd, Hd'. destruct Hd as [<-|[]], Hd' as [<-|[]].
           now apply Hne.
        -- inversion Hs as [|? ? Hs' Hall]; subst.
           apply Forall_cons_iff in Hall as [Hlt Hall].
           assert (Her : Forall (Z.lt e) rest') by now inversion Hs'.
           rewrite Forall_forall in Her.
           assert (Hfe : Successive (first :: e :: rest') first e).
           { split; [now left|]. split; [right; now left|]. split; [exact Hlt|].
             intros x [<-|[<-|Hx]]; [lia | lia |]. specialize (Her _ Hx). lia. }
           specialize (B _ _ Hfe). lia.
      * exists a, b. split; [now apply Hsucc | exact C].
Qed.

End ParserGaps.

(** * Further properties: the dashboards *)

Section DashboardSenders.
Context {host : Host}.

(** X18.  The dashboard holds one merged sender for every sender name of
    the results, the senders ranked by merged count, the largest first.  The
    merged count and the merged number of opened conversations of a name are
    the sums over the senders of that name in all results, and the merged
    streak is the largest of theirs; the merged counts add up to the counts
    of all senders of all results. *)
Theorem dashboard_senders_merged (results : list ChatAnalysisResult) :
  let all := flat_map senders results in
  let merged := Dashboard.senders results in
  StronglySorted (fun a b => (Merged.count b <= Merged.count a)%nat) merged
  /\ NoDup (map Merged.name merged)
  /\ (forall k, In k (map Merged.name merged) <-> In k (map name all))
  /\ (forall m, In m merged ->
      Merged.count m = list_sum (map count (named (Merged.name m) all))
      /\ Merged.initiatedConversations m
         = list_sum (map initiatedConversations (named (Merged.name m) all))
      /\ Merged.longestStreakMessages m
         = list_max (map longestStreakMessages (named (Merged.name m) all)))
  /\ list_sum (map Merged.count merged) = list_sum (map count all).
Proof.
  intros all merged.
  assert (Hmap : Dashboard.senderMap results
                 = fold_left Dashboard.mergeSender all [])
    by (unfold Dashboard.senderMap; apply fold_flat).
  assert (P : Permutation merged (map snd (Dashboard.senderMap results))).
  { unfold merged, Dashboard.senders.
    eapply Permutation_trans; [apply stableSort_perm | apply values_perm]. }
  pose proof (merge_named all (Forall_nil _)) as Hn. rewrite <- Hmap in Hn.
  destruct (@addKeys_facts _ name all [] (NoDup_nil _)) as [Hd Hi].
  pose proof (merge_keys all []) as Hkeys. cbn [map] in Hkeys.
  rewrite <- Hkeys, <- Hmap in Hd, Hi.
  assert (Pn : Permutation (map Merged.name merged)
                           (map fst (Dashboard.senderMap results))).
  { rewrite (Permutation_map Merged.name P), map_map.
    apply Permutation_refl'. apply map_ext_in. intros e He.
    rewrite Forall_forall in Hn. now apply Hn. }
  split.
  { unfold merged, Dashboard.senders.
    eapply StronglySorted_weaken; [|apply stableSort_sorted].
    - intros a b H. now apply Nat.leb_le.
    - intros a b. rewrite !Nat.leb_le. lia.
    - intros a b c. rewrite !Nat.leb_le. lia. }
  split; [exact (Permutation_NoDup (Permutation_sym Pn) Hd)|].
  split.
  { intros k. split; intros Hk.
    - apply (Permutation_in _ Pn), Hi in Hk as [Hk|[]]. exact Hk.
    - apply (Permutation_in _ (Permutation_sym Pn)), Hi. now left. }
  split.
  { intros m Hm. apply dashboard_sender_entry in Hm. rewrite Hmap in Hm.
    pose proof (merge_sum Merged.count count (fun _ => eq_refl)
                  (fun _ _ => eq_refl) all [] (Merged.name m)) as Hc.
    pose proof (merge_sum Merged.initiatedConversations initiatedConversations
                  (fun _ => eq_refl) (fun _ _ => eq_refl) all [] (Merged.name m))
      as Hc'.
    pose proof (merge_max Merged.longestStreakMessages longestStreakMessages
                  (fun _ => eq_refl) (fun _ _ => eq_refl) all [] (Merged.name m))
      as Hx.
    cbv beta zeta in Hc, Hc', Hx. rewrite Hm in Hc, Hc', Hx.
    cbn [Obj.get] in Hc, Hc', Hx. repeat split; lia. }
  rewrite (Permutation_list_sum (Permutation_map Merged.count P)), map_map, Hmap.
  rewrite (merge_total Merged.count count (fun _ => eq_refl) (fun _ _ => eq_refl)).
  reflexivity.
Qed.

End DashboardSenders.

Section DashboardTotals.
Context {host : Host}.

(** X19.  For results of the parser the dashboard accounts for every
    message: its total is the sum of the totals of the results, and the 24
    bars of the hourly chart (hours 0 to 23 in order) and the merged timeline
    each add up to it.  A bar holds the sum of what the results hold for its
    hour.  The merged sender counts add up to no more than the total, and to
    the total when the sender counts of every result add up to the total of
    the result: a message whose sender is named as a member that every
    object inherits is in the total and in the charts and is counted for no
    sender. *)
Theorem dashboard_accounts_for_every_message (results : list ChatAnalysisResult) :
  Forall Parsed results ->
  Dashboard.totalMessages results = list_sum (map totalMessages results)
  /\ (list_sum (map Merged.count (Dashboard.senders results))
      <= Dashboard.totalMessages results)%nat
  /\ (Forall (fun r => list_sum (map count (senders r)) = totalMessages r) results ->
      list_sum (map Merged.count (Dashboard.senders results))
      = Dashboard.totalMessages results)
  /\ map hour (Dashboard.hourlyData results) = seq 0 24
  /\ list_sum (map bucketCount (Dashboard.hourlyData results))
     = Dashboard.totalMessages results
  /\ Obj.total (Dashboard.timelineMap results) = Dashboard.totalMessages results
  /\ map bucketCount (Dashboard.hourlyData results)
     = map (fun i => list_sum (map (fun r => getOr0 (Js.ofZ (Z.of_nat i))
                                                    (hourlyStats r)) results))
           (seq 0 24).
Proof.
  intros Hp.
  assert (Htot : Dashboard.totalMessages results
                 = list_sum (map totalMessages results)).
  { unfold Dashboard.totalMessages. apply total_fold. }
  assert (Hsenders : (list_sum (map count (flat_map senders results))
                      <= list_sum (map totalMessages results))%nat)
    by now apply parsed_senders_total.
  assert (Hh : Forall (fun r => NoDup (map fst (hourlyStats r))) results).
  { eapply Forall_impl; [|exact Hp]. intros r Hr. apply (parsed_result Hr). }
  assert (Ht : Forall (fun r => NoDup (map fst (timelineStats r))) results).
  { eapply Forall_impl; [|exact Hp]. intros r Hr. apply (parsed_result Hr). }
  destruct (@merged_counts _ hourlyStats results [] (NoDup_nil _) Hh)
    as (A1 & A2 & A3 & A4).
  destruct (@merged_counts _ timelineStats results [] (NoDup_nil _) Ht)
    as (B1 & B2 & _ & _).
  cbv zeta in A1, A2, A3, A4, B1, B2.
  fold (Dashboard.hourlyMap results) in A1, A2, A3, A4.
  fold (Dashboard.timelineMap results) in B1, B2.
  assert (Hsum : forall (f : ChatAnalysisResult -> nat),
            Forall (fun r => f r = totalMessages r) results ->
            list_sum (map f results) = list_sum (map totalMessages results)).
  { intros f Hf. f_equal. apply map_ext_in. rewrite Forall_forall in Hf. exact Hf. }
  destruct (hourlyDataOf_hours (Dashboard.hourlyMap results)) as [E1 E2].
  split; [exact Htot|]. split.
  { now rewrite dashboard_senders_total, Htot. }
  split.
  { intros Hall. rewrite dashboard_senders_total, Htot.
    clear - Hall. induction Hall as [|r l Hr _ IH]; [reflexivity|].
    cbn [flat_map map]. rewrite map_app, list_sum_app, list_sum_head, IH, Hr.
    reflexivity. }
  split; [exact E1|]. split.
  { unfold Dashboard.hourlyData. rewrite E2, hours_sum, A2, Htot.
    - apply Hsum. eapply Forall_impl; [|exact Hp].
      intros r Hr. apply (parsed_result Hr).
    - exact A1.
    - intros k Hk. destruct (A4 k Hk) as [[]|(r & Hr & Hkr)].
      rewrite Forall_forall in Hp. apply (parsed_result (Hp r Hr)). exact Hkr. }
  split.
  { rewrite B2, Htot. apply Hsum. eapply Forall_impl; [|exact Hp].
    intros r Hr. apply (parsed_result Hr). }
  unfold Dashboard.hourlyData. rewrite E2. apply map_ext. intros i.
  now rewrite A3.
Qed.

End DashboardTotals.

(** X20.  Of a record of counters with distinct keys the dashboards show
    the five keys of the largest counts, or all keys when there are fewer,
    the largest first and no key twice; a key that is left out counts no
    more than any key shown.  The older dashboard shows the same keys with
    their counts as the top words of a sender. *)
Theorem top_five (counts : Obj.t nat) :
  NoDup (map fst counts) ->
  let top := Dashboard.getTopEmojis counts in
  List.length top = Nat.min 5 (List.length counts)
  /\ NoDup top
  /\ (forall e, In e top -> Obj.get e counts <> None)
  /\ StronglySorted (fun a b => (getOr0 b counts <= getOr0 a counts)%nat) top
  /\ (forall e k, In e top -> ~ In k top ->
      (getOr0 k counts <= getOr0 e counts)%nat)
  /\ map Aggregated.word (OlderDashboard.top5Words (numbers counts)) = top
  /\ Forall (fun w => option_map Js.Num (Obj.get (Aggregated.word w) counts)
                      = Some (Aggregated.wordCount w))
            (OlderDashboard.top5Words (numbers counts)).
Proof.
  intros Hn top.
  destruct (@top5_spec counts Hn) as (A & B & C & D & E). cbv zeta in A, B, C, D, E.
  set (l := firstn 5 (stableSort (fun a b : string * nat => (snd b <=? snd a)%nat)
                                 (Obj.entries counts))) in *.
  assert (Ht : top = map fst l) by reflexivity.
  assert (Hval : forall e, In e l -> getOr0 (fst e) counts = snd e)
    by (intros e He; unfold getOr0; now rewrite (C e He)).
  split; [now rewrite Ht, length_map|]. split; [now rewrite Ht|].
  split; [|split; [|split; [|split]]].
  - intros e He. rewrite Ht in He. apply in_map_iff in He as (x & <- & Hx).
    rewrite (C x Hx). discriminate.
  - rewrite Ht. clear A B E Ht. induction l as [|x r IH]; [constructor|].
    inversion D as [|? ? D' Hall]; subst. cbn [map]. constructor.
    + apply IH; auto. intros e He. apply C. now right.
      intros e He. apply Hval. now right.
    + rewrite Forall_forall in Hall. apply Forall_forall. intros k Hk.
      apply in_map_iff in Hk as (y & <- & Hy).
      rewrite (Hval x (or_introl eq_refl)), (Hval y (or_intror Hy)).
      now apply Hall.
  - intros e k He Hk. rewrite Ht in He. apply in_map_iff in He as (x & <- & Hx).
    rewrite (Hval x Hx). apply E; [exact Hx | now rewrite <- Ht].
  - rewrite top5Words_numbers. fold l. rewrite map_map. now rewrite Ht.
  - rewrite top5Words_numbers. fold l. apply Forall_forall.
    intros w Hw. apply in_map_iff in Hw as (x & <- & Hx).
    cbn [Aggregated.word Aggregated.wordCount]. now rewrite (C x Hx).
Qed.

(** X21.  The day part of a sender is the first of morning, afternoon,
    evening and late night whose counter is the largest of the four: a
    sender is a Night Owl only when the late-night counter is strictly the
    largest, and a sender whose four counters are equal, a sender without
    messages included, is a Morning Bird. *)
Theorem day_part_label (sender : Merged.t) :
  let m := Merged.morningMessages sender in
  let a := Merged.afternoonMessages sender in
  let e := Merged.eveningMessages sender in
  let l := Merged.lateNightMessages sender in
  (Dashboard.getDayPart sender = "Morning Bird" <-> (a <= m /\ e <= m /\ l <= m)%nat)
  /\ (Dashboard.getDayPart sender = "Daytime Chatter"
      <-> (m < a /\ e <= a /\ l <= a)%nat)
  /\ (Dashboard.getDayPart sender = "Evening Relaxer"
      <-> (m < e /\ a < e /\ l <= e)%nat)
  /\ (Dashboard.getDayPart sender = "Night Owl" <-> (m < l /\ a < l /\ e < l)%nat).
Proof.
  intros m a e l. unfold Dashboard.getDayPart. cbv zeta.
  fold m a e l.
  destruct (Nat.eqb_spec (Nat.max (Nat.max m a) (Nat.max e l)) m) as [H1|H1];
    [|destruct (Nat.eqb_spec (Nat.max (Nat.max m a) (Nat.max e l)) a) as [H2|H2];
      [|destruct (Nat.eqb_spec (Nat.max (Nat.max m a) (Nat.max e l)) e) as [H3|H3]]];
    repeat split; intros; try discriminate; try lia.
Qed.

Section OlderDashboardRanks.
Context {host : Host}.

(** X22.  The older dashboard ranks the merged senders by count, the
    largest first, and colours them by rank: the sender at rank [i] has the
    colour [i mod 8] of the palette, so the sender with the most messages
    has the first colour.  No name occurs twice, every sender shows at most
    five top words, the counts add up to the counts of all senders of all
    results and, for results of the parser, to no more than the total of the
    dashboard: to the total when the sender counts of every result add up to
    the total of the result. *)
Theorem older_dashboard_ranks (results : list ChatAnalysisResult) :
  let ranked := OlderDashboard.senders results in
  StronglySorted (fun a b => (Aggregated.senderCount b <= Aggregated.senderCount a)%nat)
                 ranked
  /\ (forall i s, nth_error ranked i = Some s ->
      Aggregated.color s = nth (i mod 8) COLORS "")
  /\ NoDup (map Aggregated.name ranked)
  /\ (forall s, In s ranked -> (List.length (Aggregated.topWords s) <= 5)%nat)
  /\ list_sum (map Aggregated.senderCount ranked)
     = list_sum (map count (flat_map senders results))
  /\ (Forall Parsed results ->
      (list_sum (map Aggregated.senderCount ranked)
       <= OlderDashboard.total results)%nat)
  /\ (Forall (fun r => list_sum (map count (senders r)) = totalMessages r) results ->
      list_sum (map Aggregated.senderCount ranked) = OlderDashboard.total results).
Proof.
  intros ranked.
  set (sorted := stableSort
                   (fun a b : string * Aggregated.SenderData =>
                      (Aggregated.count (snd b) <=? Aggregated.count (snd a))%nat)
                   (Obj.entries (OlderDashboard.senderDataMap results))).
  assert (P : Permutation sorted (OlderDashboard.senderDataMap results)).
  { eapply Permutation_trans; [apply stableSort_perm | apply entries_perm]. }
  assert (Hname : map Aggregated.name ranked = map fst sorted)
    by (apply (mapi_from_map _ Aggregated.name fst); reflexivity).
  assert (Hcount : map Aggregated.senderCount ranked
                   = map (fun e => Aggregated.count (snd e)) sorted)
    by (apply (mapi_from_map _ Aggregated.senderCount
                 (fun e => Aggregated.count (snd e))); reflexivity).
  assert (Hsum : list_sum (map Aggregated.senderCount ranked)
                 = list_sum (map count (flat_map senders results))).
  { rewrite Hcount.
    rewrite (Permutation_list_sum
               (Permutation_map (fun e => Aggregated.count (snd e)) P)).
    unfold OlderDashboard.senderDataMap. rewrite fold_flat.
    now rewrite older_merge_total. }
  split.
  { assert (Hs : StronglySorted
                   (fun a b : string * Aggregated.SenderData =>
                      (Aggregated.count (snd b) <= Aggregated.count (snd a))%nat)
                   sorted).
    { eapply StronglySorted_weaken; [|apply stableSort_sorted].
      - intros a b H. now apply Nat.leb_le.
      - intros a b. rewrite !Nat.leb_le. lia.
      - intros a b c. rewrite !Nat.leb_le. lia. }
    unfold ranked, OlderDashboard.senders, mapi. fold sorted.
    refine (@mapi_from_sorted _ _ _ _ _ _ sorted 0%nat Hs).
    intros x y i j H. exact H. }
  split.
  { intros i s Hs. unfold ranked, OlderDashboard.senders, mapi in Hs.
    rewrite nth_error_mapi_from in Hs.
    destruct (nth_error _ i); [|discriminate]. injection Hs as <-. reflexivity. }
  split.
  { rewrite Hname.
    apply (Permutation_NoDup (Permutation_map fst (Permutation_sym P))).
    unfold OlderDashboard.senderDataMap. rewrite fold_flat, older_merge_keys.
    apply (@addKeys_facts _ name (flat_map senders results) (map fst [])
             (NoDup_nil _)). }
  split.
  { intros s Hs. unfold ranked, OlderDashboard.senders, mapi in Hs.
    apply In_mapi_from in Hs as (e & j & _ & ->). cbn [Aggregated.topWords].
    unfold OlderDashboard.top5Words. rewrite length_map. apply firstn_le_length. }
  split; [exact Hsum|]. split.
  - intros Hp. rewrite Hsum. unfold OlderDashboard.total.
    rewrite total_fold. now apply parsed_senders_total.
  - intros Hall. rewrite Hsum. unfold OlderDashboard.total. rewrite total_fold.
    clear - Hall. induction Hall as [|r l Hr _ IH]; [reflexivity|].
    cbn [flat_map map]. rewrite map_app, list_sum_app, list_sum_head, IH, Hr.
    reflexivity.
Qed.

End OlderDashboardRanks.


(** * Further properties: colours and day keys *)

Section ParserColours.
Context {host : Host}.

(** X23.  When no sender name is the decimal form of an array index, the
    colour of a sender of the result is the colour of the palette at the
    position, modulo 8, that the name has among the distinct names of the
    senders with an accumulator, in the order of their first message in the
    traversed sequence: the colour follows the first appearance, not the
    rank.  A sender named as a member that every object inherits has no
    accumulator and takes no position. *)
Theorem colour_follows_first_appearance fileName text now r s :
  parseChatFile fileName text now = Resolved r -> In s (senders r) ->
  let found := fst (extractMessages (parseFromString text)) in
  let order := firstSeen (map sender (accounted (sortChronologically found))) in
  (forall m, In m found -> Obj.arrayIndex (sender m) = None) ->
  NoDup order
  /\ exists i, nth_error order i = Some (name s)
               /\ color s = nth (i mod 8) COLORS "".
Proof.
  intros H Hs found order Hplain.
  apply parse_resolved in H as (_ & found' & format & E & _ & ->).
  assert (Ef : found = found') by (subst found; now rewrite E).
  clearbody found. subst found'. clear E.
  unfold analyze in Hs. cbn [senders] in Hs.
  set (m := Pass.senderMap (analysisLoop (sortChronologically found))) in *.
  assert (Hkeys : map fst m = order) by apply analysisLoop_key_list.
  assert (Hk : keyed m) by apply analysisLoop_keyed.
  split; [rewrite <- Hkeys; apply Hk|].
  assert (Hentries : Obj.entries m = m).
  { apply entries_plain. apply Forall_forall. intros e He.
    assert (Hin : In (fst e) (map sender (sortChronologically found)))
      by (apply analysisLoop_keys; fold m; now apply in_map).
    apply (proj1 (sorted_senders found (fst e))) in Hin.
    apply in_map_iff in Hin as (x & Ex & Hx).
    cbv beta. rewrite <- Ex. now apply Hplain. }
  apply (Permutation_in _ (assembleSenders_perm m)) in Hs.
  unfold mapi, Obj.values in Hs. rewrite Hentries in Hs.
  apply In_mapi_from_nth in Hs as (i & tmp & Hi & ->). cbn [Nat.add].
  exists i. cbn [senderStat name color]. split; [|reflexivity].
  rewrite <- Hkeys.
  rewrite nth_error_map in Hi.
  destruct (nth_error m i) as [[k v]|] eqn:En; [|discriminate].
  cbn [option_map snd] in Hi. injection Hi as ->.
  rewrite nth_error_map, En. cbn [option_map fst]. f_equal.
  apply nth_error_In in En. destruct Hk as [_ Hn].
  rewrite Forall_forall in Hn. symmetry. exact (Hn _ En).
Qed.

(** X24.  When the messages fall in years of four digits, every key of the
    timeline is the day key of an extracted message, has the form
    YYYY-MM-DD with the local year, month and day of that message, and reads
    back as a date: as midnight UTC of that calendar day. *)
Theorem day_keys_read_back fileName text now r k :
  parseChatFile fileName text now = Resolved r ->
  let found := fst (extractMessages (parseFromString text)) in
  (forall m, In m found -> 1000 <= getFullYear (timestamp m) <= 9999) ->
  In k (map fst (timelineStats r)) ->
  exists m, In m found
    /\ k = dayKey (timestamp m)
    /\ Dates.keyShape k (getFullYear (timestamp m)) (getMonth1 (timestamp m))
                      (getDate (timestamp m))
    /\ newDate k = Some (localDay (timestamp m) * Cal.msPerDay).
Proof.
  intros H found Hyears Hk.
  apply parse_resolved in H as (_ & found' & format & E & _ & ->).
  assert (Ef : found = found') by (subst found; now rewrite E).
  clearbody found. subst found'. clear E.
  unfold analyze in Hk. cbn [timelineStats] in Hk.
  unfold analysisLoop in Hk. rewrite loop_timeline in Hk.
  cbn [Pass.initial Pass.timelineStats] in Hk.
  destruct (@keys_fold_incr _ (fun m => dayKey (timestamp m))
              (sortChronologically found) [] (NoDup_nil _)) as [_ Hi].
  apply Hi in Hk as [Hk|[]].
  apply in_map_iff in Hk as (m & <- & Hm).
  apply (Permutation_in _ (stableSort_perm _ found)) in Hm.
  exists m. split; [exact Hm|]. split; [reflexivity|].
  assert (Hy : Dates.fourDigitYear (localDay (timestamp m))) by exact (Hyears m Hm).
  rewrite dayKey_isoKey. split.
  - exact (KeyFacts.isoKey_shape Hy).
  - exact (newDate_isoKey Hy).
Qed.

End ParserColours.


(** * Further properties: the figures of the dashboard over all results *)

(** X25.  For at least one result, the longest day streak and the longest
    gap of the dashboard are those of one of the results and at least those
    of every result.  Its busiest day has a count at least that of every
    result: it is the busiest day of the first result whose count is above
    the counts of all the results before it, and the empty day with count 0
    when no result has a count above 0. *)
Theorem dashboard_global_figures (results : list ChatAnalysisResult) :
  results <> [] ->
  ((exists r, In r results
              /\ Dashboard.longestDayStreak results = longestDayStreak r)
   /\ forall r, In r results ->
                (longestDayStreak r <= Dashboard.longestDayStreak results)%nat)
  /\ ((exists r, In r results
                 /\ Dashboard.longestGapDays results = longestGapDays r)
      /\ forall r, In r results ->
                   longestGapDays r <= Dashboard.longestGapDays results)
  /\ (forall r, In r results ->
                (snd (busiestDay r) <= snd (Dashboard.busiestDay results))%nat)
  /\ ((Dashboard.busiestDay results = ("", 0%nat)
       /\ forall r, In r results -> snd (busiestDay r) = 0%nat)
      \/ exists before r after,
           results = (before ++ r :: after)%list
           /\ Dashboard.busiestDay results = busiestDay r
           /\ (0 < snd (busiestDay r))%nat
           /\ forall r', In r' before ->
                         (snd (busiestDay r') < snd (busiestDay r))%nat).
Proof.
  intros Hne. destruct results as [|r0 rest]; [congruence|]. clear Hne.
  split; [|split; [|split]].
  - unfold Dashboard.longestDayStreak.
    destruct (max_fold_nat (map longestDayStreak (r0 :: rest)) 0) as (A & _ & C).
    cbv zeta in A, C. split.
    + destruct A as [A|A].
      * exists r0. split; [now left|]. rewrite A.
        assert (longestDayStreak r0
                <= fold_left Nat.max (map longestDayStreak (r0 :: rest)) 0)%nat
          by (apply C; now left).
        lia.
      * apply in_map_iff in A as (r & Er & Hr). exists r. now split.
    + intros r Hr. apply C. now apply in_map.
  - unfold Dashboard.longestGapDays. cbn [map].
    destruct (max_fold_Z (map longestGapDays rest) (longestGapDays r0))
      as (A & B & C).
    cbv zeta in A, B, C. split.
    + destruct A as [A|A].
      * exists r0. split; [now left | exact A].
      * apply in_map_iff in A as (r & Er & Hr). exists r.
        split; [now right | now symmetry].
    + intros r [<-|Hr]; [exact B|]. apply C. now apply in_map.
  - intros r Hr. unfold Dashboard.busiestDay.
    destruct (first_above_fold busiestDay (r0 :: rest) ("", 0%nat))
      as [[E Hall]|(before & x & after & El & Eb & Hx & Hb & Ha)];
      cbv zeta in *.
    + rewrite E. now apply Hall.
    + rewrite Eb. rewrite El in Hr. apply in_app_iff in Hr as [Hr|[<-|Hr]].
      * specialize (Hb _ Hr). lia.
      * lia.
      * now apply Ha.
  - unfold Dashboard.busiestDay.
    destruct (first_above_fold busiestDay (r0 :: rest) ("", 0%nat))
      as [[E Hall]|(before & x & after & El & Eb & Hx & Hb & Ha)];
      cbv zeta in *.
    + left. split; [exact E|]. intros r Hr. specialize (Hall _ Hr).
      cbn [snd] in Hall. lia.
    + right. exists before, x, after. cbn [snd] in Hx. now repeat split.
Qed.

(** X26.  The busiest month of the dashboard is taken from the merged
    timeline, whose keys of at least seven characters count for the month
    that their first seven characters spell.  No month holds more than the
    busiest month; when some month holds a positive count the busiest month
    is the month of a key of the timeline; when none does it is the empty
    string. *)
Theorem dashboard_busiest_month (results : list ChatAnalysisResult) :
  let days := Dashboard.timelineMap results in
  let ofMonth (k : string) (e : string * nat) :=
    (7 <=? String.length (fst e))%nat && String.eqb k (substring 0 7 (fst e)) in
  let inMonth (k : string) := list_sum (map snd (filter (ofMonth k) days)) in
  (forall k, (inMonth k <= inMonth (Dashboard.busiestMonth results))%nat)
  /\ ((exists k, (0 < inMonth k)%nat) ->
      exists e, In e days /\ (7 <= String.length (fst e))%nat
                /\ Dashboard.busiestMonth results = substring 0 7 (fst e))
  /\ ((forall k, inMonth k = 0%nat) -> Dashboard.busiestMonth results = "").
Proof.
  intros days ofMonth inMonth.
  set (mc := Dashboard.monthCounts results).
  set (long := fun e : string * nat => (7 <=? String.length (fst e))%nat).
  set (month := fun e : string * nat => (substring 0 7 (fst e), snd e)).
  assert (Emc : mc = fold_left
                       (fun o e => Obj.set (fst e) (getOr0 (fst e) o + snd e)%nat o)
                       (map month (filter long (Obj.entries days))) [])
    by apply monthCounts_fold.
  assert (Hget : forall k, getOr0 k mc = inMonth k).
  { intros k. rewrite Emc, addAll_get.
    change (getOr0 k []) with 0%nat. cbn [Nat.add].
    rewrite (list_sum_filter_map long month (fun e => String.eqb k (fst e))).
    unfold inMonth.
    exact (@filter_perm_sum (ofMonth k) _ _ (entries_perm days)). }
  assert (Hkeys : NoDup (map fst mc)
                  /\ forall k, In k (map fst mc)
                               <-> In k (map fst (map month (filter long (Obj.entries days))))
                                   \/ In k []).
  { rewrite Emc, addAll_keys.
    exact (@addKeys_facts _ fst (map month (filter long (Obj.entries days))) []
             (NoDup_nil _)). }
  destruct Hkeys as [Hnd Hkeys].
  assert (Hentry : forall e, In e (Obj.entries mc) -> inMonth (fst e) = snd e).
  { intros [k n] He. apply (Permutation_in _ (entries_perm mc)) in He.
    cbn [fst snd]. rewrite <- Hget. unfold getOr0. now rewrite (@In_get _ k n mc Hnd He). }
  assert (Hpos : forall k, (0 < inMonth k)%nat -> In (k, inMonth k) (Obj.entries mc)).
  { intros k Hk. rewrite <- Hget in *. unfold getOr0 in *.
    destruct (Obj.get k mc) as [n|] eqn:E; [|lia].
    apply (Permutation_in _ (Permutation_sym (entries_perm mc))).
    now apply get_In_pair. }
  unfold Dashboard.busiestMonth. fold mc. unfold busiest.
  destruct (first_above_fold (fun e : string * nat => e) (Obj.entries mc)
                             ("", 0%nat))
    as [[E Hall]|(before & x & after & El & Eb & Hx & Hb & Ha)];
    cbv beta zeta in *.
  - assert (Hzero : forall k, inMonth k = 0%nat).
    { intros k. destruct (Nat.eq_dec (inMonth k) 0) as [Hz|Hz]; [exact Hz|].
      assert (Hk : (0 < inMonth k)%nat) by lia.
      specialize (Hall _ (Hpos k Hk)). cbn [snd] in Hall. lia. }
    rewrite E. cbn [fst]. split; [intros k; rewrite !Hzero; lia|].
    split; [|reflexivity].
    intros (k & Hk). rewrite Hzero in Hk. lia.
  - assert (Hx' : In x (Obj.entries mc)) by (rewrite El; apply in_elt).
    assert (Ex : inMonth (fst x) = snd x) by now apply Hentry.
    rewrite Eb. split; [|split].
    + intros k. rewrite Ex.
      destruct (Nat.eq_dec (inMonth k) 0) as [Hz|Hz]; [lia|].
      assert (Hk : In (k, inMonth k) (Obj.entries mc)) by (apply Hpos; lia).
      rewrite El in Hk. apply in_app_iff in Hk as [Hk|[Hk|Hk]].
      * specialize (Hb _ Hk). cbn [snd] in Hb. lia.
      * rewrite Hk. cbn [snd]. lia.
      * specialize (Ha _ Hk). cbn [snd] in Ha. lia.
    + intros _.
      assert (Hin : In (fst x) (map fst mc)).
      { apply in_map. now apply (Permutation_in _ (entries_perm mc)). }
      apply Hkeys in Hin as [Hin|[]].
      rewrite map_map in Hin. apply in_map_iff in Hin as (e & Ee & He).
      apply filter_In in He as [He Hl].
      exists e. split; [now apply (Permutation_in _ (entries_perm days))|].
      split; [now apply Nat.leb_le in Hl | now symmetry].
    + intros Hzero. cbn [snd] in Hx. rewrite <- Ex, Hzero in Hx. lia.
Qed.

(** * Further properties: the length of the messages *)

Section ParserLengths.
Context {host : Host}.

(** X27.  The average message length of a sender of the result is the
    rounded quotient of the number of characters of the sender's extracted
    messages by their number; it lies between the lengths of the shortest
    and of the longest of these messages. *)
Theorem average_message_length fileName text now r s :
  parseChatFile fileName text now = Resolved r -> In s (senders r) ->
  let mine := sentBy (name s) (fst (extractMessages (parseFromString text))) in
  let chars := list_sum (map (fun m => String.length (content m)) mine) in
  avgMessageLength s = Js.round (Z.of_nat chars # Pos.of_nat (List.length mine))
  /\ forall lo hi : nat,
       (forall m, In m mine -> (lo <= String.length (content m) <= hi)%nat) ->
       Z.of_nat lo <= avgMessageLength s <= Z.of_nat hi.
Proof.
  intros H Hs mine chars.
  destruct (@resolved_sender _ fileName text now r s H Hs) as (Hin & idx & Hi).
  pose proof (sorted_sentBy_perm (name s)
                (fst (extractMessages (parseFromString text)))) as P.
  fold mine in P.
  assert (Hone : (1 <= List.length mine)%nat).
  { apply in_map_iff in Hin as (m & Hm & Hin).
    assert (Hmine : In m mine)
      by (apply filter_In; split; [exact Hin | now apply String.eqb_eq]).
    destruct mine; [destruct Hmine | simpl; lia]. }
  assert (Ha : avgMessageLength s
               = Js.round (Z.of_nat chars # Pos.of_nat (List.length mine))).
  { rewrite Hi at 1. cbn [senderStat avgMessageLength].
    rewrite accFor_count, accFor_totalLen. cbn [Temp.fresh Temp.count Temp.totalLen Nat.add].
    rewrite (Permutation_length P).
    rewrite (Permutation_list_sum
               (Permutation_map (fun m => String.length (content m)) P)).
    fold chars.
    destruct (Nat.ltb_spec 0 (List.length mine)) as [_|Hz]; [reflexivity | lia]. }
  split; [exact Ha|].
  intros lo hi Hb. rewrite Ha.
  destruct (@ratio_bounds lo hi chars (List.length mine) Hone
              (@sum_bounds _ (fun m => String.length (content m)) lo hi mine Hb))
    as [A B].
  apply round_monotone in A, B. rewrite round_inject in A, B.
  split; [exact A | exact B].
Qed.

End ParserLengths.

(** * Further properties: the labels of the dashboard *)

(** X28.  The label of a duration in minutes: below one minute it is
    [< 1 min]; from 1 up to, but not including, 60 it is the rounded number
    of minutes, between 1 and 60, followed by [mins]; from 60 up to, but not
    including, 90 it is [1 hr]; from 90 on it is the rounded number of
    hours, at least 2, followed by [hrs]. *)
Theorem duration_label (mins : Q) :
  ((mins < 1)%Q -> Dashboard.formatDuration mins = "< 1 min")
  /\ ((1 <= mins)%Q -> (mins < 60)%Q ->
      Dashboard.formatDuration mins = Js.ofZ (Js.round mins) ++ " mins"
      /\ 1 <= Js.round mins <= 60)
  /\ ((60 <= mins)%Q -> (mins < 90)%Q -> Dashboard.formatDuration mins = "1 hr")
  /\ ((90 <= mins)%Q ->
      Dashboard.formatDuration mins = Js.ofZ (Js.round (mins / 60)) ++ " hrs"
      /\ 2 <= Js.round (mins / 60)).
Proof.
  assert (Hfalse : forall a b : Q, (b < a)%Q -> Qle_bool a b = false).
  { intros a b H. destruct (Qle_bool a b) eqn:E; [|reflexivity].
    apply Qle_bool_iff in E. exfalso. exact (Qlt_not_le _ _ H E). }
  assert (Htrue : forall a b : Q, (a <= b)%Q -> Qle_bool a b = true)
    by (intros a b H; now apply Qle_bool_iff).
  assert (Hsixty : (0 < 60)%Q) by reflexivity.
  unfold Dashboard.formatDuration. split; [|split; [|split]].
  - intros H. now rewrite (Hfalse _ _ H).
  - intros H1 H60. rewrite (Htrue _ _ H1), (Hfalse _ _ H60). cbn [negb].
    split; [reflexivity|]. split.
    + exact (round_monotone H1).
    + exact (round_monotone (Qlt_le_weak _ _ H60)).
  - intros H60 H90.
    assert (H1 : (1 <= mins)%Q) by (eapply Qle_trans; [|exact H60]; discriminate).
    rewrite (Htrue _ _ H1), (Htrue _ _ H60). cbn [negb]. cbv zeta.
    assert (Hlo : (1 <= mins / 60)%Q)
      by (apply Qle_shift_div_l; [exact Hsixty | exact H60]).
    assert (Hhi : (mins / 60 < 3 # 2)%Q).
    { apply Qlt_shift_div_r; [exact Hsixty|].
      now setoid_replace ((3 # 2) * 60)%Q with 90%Q by reflexivity. }
    assert (E : Js.round (mins / 60) = 1).
    { apply Z.le_antisymm.
      - assert (Hlt : (Js.round (mins / 60) < 2)%Z).
        { rewrite Zlt_Qlt. unfold Js.round.
          eapply Qle_lt_trans; [apply Qfloor_le|].
          setoid_replace (inject_Z 2) with ((3 # 2) + (1 # 2))%Q by reflexivity.
          apply Qplus_lt_le_compat; [exact Hhi | apply Qle_refl]. }
        lia.
      - exact (round_monotone Hlo). }
    rewrite E. reflexivity.
  - intros H90.
    assert (H60 : (60 <= mins)%Q) by (eapply Qle_trans; [|exact H90]; discriminate).
    assert (H1 : (1 <= mins)%Q) by (eapply Qle_trans; [|exact H60]; discriminate).
    rewrite (Htrue _ _ H1), (Htrue _ _ H60). cbn [negb]. cbv zeta.
    assert (Hlo : (3 # 2 <= mins / 60)%Q).
    { apply Qle_shift_div_l; [exact Hsixty|].
      now setoid_replace ((3 # 2) * 60)%Q with 90%Q by reflexivity. }
    assert (E : 2 <= Js.round (mins / 60)) by exact (round_monotone Hlo).
    split; [|exact E].
    destruct (Z.ltb_spec 1 (Js.round (mins / 60))) as [_|Hle]; [reflexivity | lia].
Qed.


(** * Further properties: the first revision of the parser *)

Section FirstRevisionParser.
Context {host : Host}.

(** X29.  The first revision of the parser never rejects a text that is not
    empty for want of messages (the last revision does): it rejects it only
    with the exception of one of its loops, and resolves otherwise.  No
    exception is thrown when no element names its sender as a member that
    every object inherits.  In the result of a parse that resolves the
    counts of the senders add up to no more than the total, and to the total
    when no sender is named as such a member; a total of 0 leaves no sender,
    and the format is [Unknown] exactly then.  No name occurs twice; every
    sender has a name that the validator of this revision accepts and that
    is not such a member, at least one message, and no more reels and no
    more attachments than messages.  The two histograms hold the same number
    of messages, which is at most the total: a message without a readable
    date is counted but is in neither histogram. *)
Theorem first_revision_result fileName text now :
  text <> "" ->
  let doc := parseFromString text in
  let r := Revision1.resultOf fileName now doc in
  Revision1.parseChatFile fileName text now
  = match Revision1.scanThrown doc with
    | Some message => Revision1.Rejected message
    | None => Revision1.Resolved r
    end
  /\ (FirstRevision.plainNames doc ->
      Revision1.scanThrown doc = None
      /\ list_sum (map Revision1.Stat.count (Revision1.Result.senders r))
         = Revision1.Result.totalMessages r
      /\ (Revision1.Result.senders r = [] -> Revision1.Result.totalMessages r = 0%nat))
  /\ (Revision1.scanThrown doc = None ->
      (list_sum (map Revision1.Stat.count (Revision1.Result.senders r))
       <= Revision1.Result.totalMessages r)%nat
      /\ (Revision1.Result.totalMessages r = 0%nat
          -> Revision1.Result.senders r = [])
      /\ (detectedFormat (Revision1.Result.metadata r) = "Unknown"
          <-> Revision1.Result.totalMessages r = 0%nat)
      /\ NoDup (map Revision1.Stat.name (Revision1.Result.senders r))
      /\ (forall s, In s (Revision1.Result.senders r) ->
            Revision1.isValidSender (Revision1.Stat.name s) = true
            /\ Js.isInherited (Revision1.Stat.name s) = false
            /\ (1 <= Revision1.Stat.count s)%nat
            /\ (Revision1.Stat.reelCount s <= Revision1.Stat.count s)%nat
            /\ (Revision1.Stat.attachmentCount s <= Revision1.Stat.count s)%nat)
      /\ Obj.total (Revision1.Result.hourlyStats r)
         = Obj.total (Revision1.Result.timelineStats r)
      /\ (Obj.total (Revision1.Result.hourlyStats r)
          <= Revision1.Result.totalMessages r)%nat).
Proof.
  intros Hne doc r.
  apply String.eqb_neq in Hne.
  split.
  { unfold Revision1.parseChatFile. rewrite Hne. reflexivity. }
  subst r. unfold Revision1.resultOf. cbv zeta.
  cbn [Revision1.Result.senders Revision1.Result.totalMessages
       Revision1.Result.metadata Revision1.Result.hourlyStats
       Revision1.Result.timelineStats detectedFormat].
  destruct (scan_sound doc) as ((Hnd & Hgood & Htot & Hh & Hle) & Hl & Hcomplete).
  set (st := Revision1.scan doc) in *.
  set (d := Revision1.Scan.senderData st) in *.
  set (sorted := stableSort
                   (fun a b : string * Revision1.Entry.t =>
                      (Revision1.Entry.count (snd b)
                       <=? Revision1.Entry.count (snd a))%nat)
                   (Obj.entries d)).
  assert (P : Permutation sorted d).
  { eapply Permutation_trans; [apply stableSort_perm | apply entries_perm]. }
  assert (Hname : map Revision1.Stat.name (Revision1.rankSenders d) = map fst sorted)
    by (apply (mapi_from_map _ Revision1.Stat.name fst); reflexivity).
  assert (Hcount : map Revision1.Stat.count (Revision1.rankSenders d)
                   = map (fun e => Revision1.Entry.count (snd e)) sorted)
    by (apply (mapi_from_map _ Revision1.Stat.count
                 (fun e => Revision1.Entry.count (snd e))); reflexivity).
  assert (Hsum : list_sum (map Revision1.Stat.count (Revision1.rankSenders d))
                 = FirstRevision.entriesTotal d).
  { rewrite Hcount. unfold FirstRevision.entriesTotal.
    apply Permutation_list_sum, Permutation_map, P. }
  assert (Hall : forall s, In s (Revision1.rankSenders d) ->
            Revision1.isValidSender (Revision1.Stat.name s) = true
            /\ Js.isInherited (Revision1.Stat.name s) = false
            /\ (1 <= Revision1.Stat.count s)%nat
            /\ (Revision1.Stat.reelCount s <= Revision1.Stat.count s)%nat
            /\ (Revision1.Stat.attachmentCount s <= Revision1.Stat.count s)%nat).
  { intros s Hs. unfold Revision1.rankSenders, mapi in Hs.
    apply In_mapi_from in Hs as (e & j & He & ->).
    cbn [Revision1.Stat.name Revision1.Stat.count Revision1.Stat.reelCount
         Revision1.Stat.attachmentCount].
    apply (Permutation_in _ P) in He. rewrite Forall_forall in Hgood.
    destruct (Hgood _ He) as (_ & A & B & C & D & I). tauto. }
  split.
  { intros Hplain. split; [now apply scanThrown_plain|].
    specialize (Hcomplete Hplain). unfold FirstRevision.complete in Hcomplete.
    fold d in Hcomplete. rewrite Hsum, Hcomplete. split; [reflexivity|].
    intros E. rewrite E in Hsum. simpl in Hsum. lia. }
  intros _. split; [rewrite Hsum; exact Htot|].
  split.
  { intros Hz. destruct (Revision1.rankSenders d) as [|s rest] eqn:E;
      [reflexivity|].
    destruct (Hall s (or_introl eq_refl)) as (_ & _ & Hone & _).
    cbn [map] in Hsum. rewrite list_sum_head in Hsum. lia. }
  split; [now apply labelled_unknown|].
  split.
  { rewrite Hname.
    exact (Permutation_NoDup (Permutation_map fst (Permutation_sym P)) Hnd). }
  split; [exact Hall|]. split; [exact Hh | exact Hle].
Qed.

(** X30.  The first revision of the parser gives the colours after the
    sort: its senders are ranked by count, the largest first, and the sender
    at rank [i] has the colour [i mod 8] of the palette, so the sender with
    the most messages has the first colour. *)
Theorem first_revision_colours_by_rank fileName text now r :
  Revision1.parseChatFile fileName text now = Revision1.Resolved r ->
  StronglySorted (fun a b => (Revision1.Stat.count b <= Revision1.Stat.count a)%nat)
                 (Revision1.Result.senders r)
  /\ forall i s, nth_error (Revision1.Result.senders r) i = Some s ->
                 Revision1.Stat.color s = nth (i mod 8) COLORS "".
Proof.
  unfold Revision1.parseChatFile.
  destruct (String.eqb text ""); [discriminate|]. cbv zeta.
  destruct (Revision1.scanThrown _); [discriminate|].
  intros [= <-]. unfold Revision1.resultOf. cbv zeta.
  cbn [Revision1.Result.senders].
  set (d := Revision1.Scan.senderData (Revision1.scan (parseFromString text))).
  set (sorted := stableSort
                   (fun a b : string * Revision1.Entry.t =>
                      (Revision1.Entry.count (snd b)
                       <=? Revision1.Entry.count (snd a))%nat)
                   (Obj.entries d)).
  split.
  - assert (Hs : StronglySorted
                   (fun a b : string * Revision1.Entry.t =>
                      (Revision1.Entry.count (snd b)
                       <= Revision1.Entry.count (snd a))%nat)
                   sorted).
    { eapply StronglySorted_weaken; [|apply stableSort_sorted].
      - intros a b H. now apply Nat.leb_le.
      - intros a b. rewrite !Nat.leb_le. lia.
      - intros a b c. rewrite !Nat.leb_le. lia. }
    unfold Revision1.rankSenders, mapi. fold sorted.
    refine (@mapi_from_sorted _ _ _ _ _ _ sorted 0%nat Hs).
    intros x y i j H. exact H.
  - intros i s Hs. unfold Revision1.rankSenders, mapi in Hs.
    rewrite nth_error_mapi_from in Hs.
    destruct (nth_error _ i); [|discriminate]. injection Hs as <-. reflexivity.
Qed.

End FirstRevisionParser.

(** ** The further properties on the small hosts *)


Lemma senders_ranked_witness :
  parseChatFile (host := Demo.telegramHost) "chat.html" Demo.export 0
  = Resolved (DemoRun.result 0)
  /\ StronglySorted (fun a b => (count b <= count a)%nat) (senders (DemoRun.result 0))
  /\ NoDup (map name (senders (DemoRun.result 0)))
  /\ map name (senders (DemoRun.result 0)) = ["Ann"; "Ben"].
Proof.
  split; [reflexivity|].
  destruct (@senders_ranked Demo.telegramHost "chat.html" Demo.export 0
              (DemoRun.result 0) (parse_demo 0)) as (H1 & H2 & _).
  split; [exact H1|]. split; [exact H2 | reflexivity].
Defined.

Lemma sender_counters_witness :
  let host := Demo.telegramHost in
  let s := Sample.ann in
  let mine := sentBy (name s) (fst (extractMessages (parseFromString Demo.export))) in
  parseChatFile "chat.html" Demo.export 0 = Resolved (DemoRun.result 0)
  /\ In s (senders (DemoRun.result 0))
  /\ (name s = "Ann" /\ List.length mine = 3%nat)
  /\ (count s = List.length mine
      /\ reelCount s = List.length (filter isReel mine)
      /\ attachmentCount s = List.length (filter isAttachment mine)
      /\ lateNightMessages s = List.length (filter (hourIn 0 4) mine)
      /\ morningMessages s = List.length (filter (hourIn 4 12) mine)
      /\ afternoonMessages s = List.length (filter (hourIn 12 20) mine)
      /\ eveningMessages s = List.length (filter (hourIn 20 24) mine)
      /\ (1 <= count s)%nat).
Proof.
  intros host s mine.
  assert (Hin : In s (senders (DemoRun.result 0)))
    by (vm_compute; left; reflexivity).
  split; [exact (parse_demo 0)|]. split; [exact Hin|].
  split; [vm_compute; split; reflexivity|].
  exact (@sender_counters host "chat.html" Demo.export 0 (DemoRun.result 0) s
           (parse_demo 0) Hin).
Defined.

Lemma streak_is_run_less_one_witness :
  let host := Demo.telegramHost in
  let s := Sample.ann in
  let msgs := sortChronologically (fst (extractMessages (parseFromString Demo.export))) in
  parseChatFile "chat.html" Demo.export 0 = Resolved (DemoRun.result 0)
  /\ In s (senders (DemoRun.result 0))
  /\ (name s = "Ann" /\ longestRun "Ann" msgs = 3%nat)
  /\ (S (longestStreakMessages s) = longestRun (name s) msgs
      /\ (longestStreakMessages s < count s)%nat).
Proof.
  intros host s msgs.
  assert (Hin : In s (senders (DemoRun.result 0)))
    by (vm_compute; left; reflexivity).
  split; [exact (parse_demo 0)|]. split; [exact Hin|].
  split; [vm_compute; split; reflexivity|].
  exact (@streak_is_run_less_one host "chat.html" Demo.export 0 (DemoRun.result 0) s
           (parse_demo 0) Hin).
Defined.

Lemma conversations_opened_witness :
  let host := Demo.scripted Demo.threeDays in
  let s := Sample.ben in
  let msgs := sortChronologically (fst (extractMessages (parseFromString Demo.export))) in
  parseChatFile "chat.html" Demo.export 0 = Resolved DemoRun.threeDaysResult
  /\ In s (senders DemoRun.threeDaysResult)
  /\ (name s = "Ben" /\ openings "Ben" None msgs = 2%nat)
  /\ initiatedConversations s = openings (name s) None msgs.
Proof.
  intros host s msgs.
  assert (Hin : In s (senders DemoRun.threeDaysResult))
    by (vm_compute; right; left; reflexivity).
  split; [exact parse_threeDays|]. split; [exact Hin|].
  split; [vm_compute; split; reflexivity|].
  exact (@conversations_opened host "chat.html" Demo.export 0
           DemoRun.threeDaysResult s parse_threeDays Hin).
Defined.

Lemma reply_statistics_witness :
  let host := Demo.scripted Demo.threeDays in
  let s := Sample.ben in
  let msgs := sortChronologically (fst (extractMessages (parseFromString Demo.export))) in
  let gaps := replyGaps (name s) None msgs in
  parseChatFile "chat.html" Demo.export 0 = Resolved DemoRun.threeDaysResult
  /\ In s (senders DemoRun.threeDaysResult)
  /\ (name s = "Ben" /\ gaps = [1470%Q; 400%Q]
      /\ fastestReplySeconds s = 24000 /\ slowestReplyMinutes s = 1470
      /\ avgReplyTimeMinutes s = 935)
  /\ (name Sample.quickBen = "Ben"
      /\ fastestReplySeconds Sample.quickBen = 61
      /\ Js.round ((61500 # 60000) * 60) = 62)
  /\ (Forall (fun g => 0 <= g)%Q gaps
      /\ (gaps = [] -> avgReplyTimeMinutes s = 0 /\ fastestReplySeconds s = 0
                       /\ slowestReplyMinutes s = 0)
      /\ (gaps <> [] ->
          exists lo hi, In lo gaps /\ In hi gaps
            /\ (forall g, In g gaps -> (lo <= g <= hi)%Q)
            /\ fastestReplySeconds s = Js.round (Js.double (lo * 60))
            /\ slowestReplyMinutes s = Js.round hi
            /\ avgReplyTimeMinutes s
               = Js.round (Js.double (sumDoubles (stableSort Qle_bool gaps)
                                      / inject_Z (Z.of_nat (List.length gaps)))))
      /\ 0 <= fastestReplySeconds s
      /\ 0 <= avgReplyTimeMinutes s
      /\ 0 <= slowestReplyMinutes s).
Proof.
  intros host s msgs gaps.
  assert (Hin : In s (senders DemoRun.threeDaysResult))
    by (vm_compute; right; left; reflexivity).
  split; [exact parse_threeDays|]. split; [exact Hin|].
  split; [vm_compute; repeat split; reflexivity|].
  split; [vm_compute; repeat split; reflexivity|].
  exact (@reply_statistics host "chat.html" Demo.export 0
           DemoRun.threeDaysResult s parse_threeDays Hin).
Defined.

Lemma word_counts_witness :
  let host := Demo.telegramHost in
  let s := Sample.ann in
  let mine := sentBy (name s) (fst (extractMessages (parseFromString Demo.export))) in
  let said := flat_map (fun m => countedWords (content m)) mine in
  parseChatFile "chat.html" Demo.export 0 = Resolved (DemoRun.result 0)
  /\ In s (senders (DemoRun.result 0))
  /\ (said = ["morning"; "coffee"; "later"; "call"]
      /\ Obj.get "coffee" (wordCounts s) = Some (Js.Num 1)
      /\ Obj.get "good" (wordCounts s) = None)
  /\ wordCounts Sample.wordyAnn
     = [("constructor", Js.Str "function Object() { [native code] }11");
        ("too", Js.Num 1)]
  /\ ((forall w, Obj.get w (wordCounts s) = countedValue w (occurrences w said))
      /\ (forall w, Js.isInherited w = false ->
          Obj.get w (wordCounts s)
          = option_map Js.Num (counted (occurrences w said)))
      /\ Obj.get "__proto__" (wordCounts s) = None
      /\ (forall n, occurrences "constructor" said = S n ->
          Obj.get "constructor" (wordCounts s)
          = Some (Js.Str (functionText "constructor" ++ Js.repeatChar "1" (S n))))
      /\ (forall e, Obj.get e (emojis s)
                    = counted (occurrences e
                                 (flat_map (fun m => emojiMatches (content m)) mine)))).
Proof.
  intros host s mine said.
  assert (Hin : In s (senders (DemoRun.result 0)))
    by (vm_compute; left; reflexivity).
  split; [exact (parse_demo 0)|]. split; [exact Hin|].
  split; [vm_compute; repeat split; reflexivity|].
  split; [vm_compute; reflexivity|].
  exact (@word_counts host "chat.html" Demo.export 0 (DemoRun.result 0) s
           (parse_demo 0) Hin).
Defined.

Lemma word_keys_witness :
  let host := Demo.telegramHost in
  let s := Sample.ann in
  parseChatFile "chat.html" Demo.export 0 = Resolved (DemoRun.result 0)
  /\ In s (senders (DemoRun.result 0))
  /\ In ("coffee", Js.Num 1) (wordCounts s)
  /\ ((2 <= String.length "coffee")%nat
      /\ ~ In "coffee" STOP_WORDS
      /\ forallChars isKeyChar "coffee" = true
      /\ "coffee" <> "__proto__"
      /\ ((exists n, Js.Num 1 = Js.Num n /\ (1 <= n)%nat /\ "coffee" <> "constructor")
          \/ (exists n, Js.Num 1
                        = Js.Str (functionText "constructor"
                                  ++ Js.repeatChar "1" (S n))
                        /\ "coffee" = "constructor"))).
Proof.
  intros host s.
  assert (Hin : In s (senders (DemoRun.result 0)))
    by (vm_compute; left; reflexivity).
  assert (Hw : In ("coffee", Js.Num 1) (wordCounts s))
    by (vm_compute; right; left; reflexivity).
  split; [exact (parse_demo 0)|]. split; [exact Hin|]. split; [exact Hw|].
  exact (@word_keys host "chat.html" Demo.export 0 (DemoRun.result 0) s
           "coffee" (Js.Num 1) (parse_demo 0) Hin Hw).
Defined.

Lemma histograms_count_witness :
  let host := Demo.telegramHost in
  let found := fst (extractMessages (parseFromString Demo.export)) in
  let r := DemoRun.result 0 in
  parseChatFile "chat.html" Demo.export 0 = Resolved r
  /\ (Obj.get "2024-01-01" (timelineStats r) = Some 4%nat
      /\ Obj.get "9" (hourlyStats r) = Some 4%nat
      /\ Obj.get "10" (hourlyStats r) = None)
  /\ ((forall k, Obj.get k (timelineStats r)
                 = counted (List.length
                              (filter (fun m => String.eqb k (dayKey (timestamp m)))
                                      found)))
      /\ (forall h, 0 <= h < 24 ->
          Obj.get (Js.ofZ h) (hourlyStats r)
          = counted (List.length
                       (filter (fun m => h =? getHours (timestamp m)) found)))
      /\ (forall k, In k (map fst (hourlyStats r)) ->
          exists h, 0 <= h < 24 /\ k = Js.ofZ h)
      /\ NoDup (map fst (hourlyStats r))
      /\ NoDup (map fst (timelineStats r))).
Proof.
  intros host found r.
  split; [exact (parse_demo 0)|].
  split; [vm_compute; repeat split; reflexivity|].
  exact (@histograms_count host "chat.html" Demo.export 0 r (parse_demo 0)).
Defined.

Lemma busiest_day_and_month_witness :
  let host := Demo.scripted Demo.threeDays in
  let found := fst (extractMessages (parseFromString Demo.export)) in
  let r := DemoRun.threeDaysResult in
  let onDay k :=
    List.length (filter (fun m => String.eqb k (dayKey (timestamp m))) found) in
  let inMonth k :=
    List.length (filter (fun m => String.eqb k (monthKey (timestamp m))) found) in
  parseChatFile "chat.html" Demo.export 0 = Resolved r
  /\ (busiestDay r = ("2024-01-01", 2%nat) /\ busiestMonth r = "2023-12")
  /\ (snd (busiestDay r) = onDay (fst (busiestDay r))
      /\ (1 <= snd (busiestDay r))%nat
      /\ (forall k, onDay k <= snd (busiestDay r))%nat
      /\ (1 <= inMonth (busiestMonth r))%nat
      /\ (forall k, inMonth k <= inMonth (busiestMonth r))%nat).
Proof.
  intros host found r onDay inMonth.
  split; [exact parse_threeDays|].
  split; [vm_compute; split; reflexivity|].
  exact (@busiest_day_and_month host "chat.html" Demo.export 0 r parse_threeDays).
Defined.

Lemma day_figures_bounded_witness :
  let host := Demo.scripted Demo.threeDays in
  let r := DemoRun.threeDaysResult in
  parseChatFile "chat.html" Demo.export 0 = Resolved r
  /\ (longestDayStreak r = 3%nat /\ totalDays r = 3%nat
      /\ totalMessages r = 4%nat /\ longestGapDays r = 1)
  /\ ((longestDayStreak r <= totalDays r)%nat
      /\ (totalDays r <= totalMessages r)%nat
      /\ 0 <= longestGapDays r).
Proof.
  intros host r.
  split; [exact parse_threeDays|].
  split; [vm_compute; repeat split; reflexivity|].
  exact (@day_figures_bounded host "chat.html" Demo.export 0 r parse_threeDays).
Defined.

Lemma first_and_last_date_witness :
  let host := Demo.telegramHost in
  let found := fst (extractMessages (parseFromString Demo.export)) in
  let r := DemoRun.result 0 in
  parseChatFile "chat.html" Demo.export 0 = Resolved r
  /\ (firstMessageDate r = Some "2024-01-01T09:00:00.000Z"
      /\ lastMessageDate r = Some "2024-01-01T09:20:00.000Z")
  /\ exists f l,
       In f found /\ In l found
       /\ firstMessageDate r = Some (Cal.toISOString (timestamp f))
       /\ lastMessageDate r = Some (Cal.toISOString (timestamp l))
       /\ forall m, In m found -> timestamp f <= timestamp m <= timestamp l.
Proof.
  intros host found r.
  split; [exact (parse_demo 0)|].
  split; [vm_compute; split; reflexivity|].
  exact (@first_and_last_date host "chat.html" Demo.export 0 r (parse_demo 0)).
Defined.

Lemma format_names_strategy_witness :
  let host := Demo.telegramHost in
  let doc := parseFromString Demo.export in
  let r := DemoRun.result 0 in
  parseChatFile "chat.html" Demo.export 0 = Resolved r
  /\ detectedFormat (metadata r) = "Telegram Export"
  /\ ((strategyMeta doc <> []
       /\ detectedFormat (metadata r) = "Meta/Instagram Export (Class)"
       /\ totalMessages r = List.length (strategyMeta doc))
      \/ (strategyMeta doc = [] /\ strategyHeuristic doc <> []
          /\ detectedFormat (metadata r) = "Meta/Instagram Export (Heuristic)"
          /\ totalMessages r = List.length (strategyHeuristic doc))
      \/ (strategyMeta doc = [] /\ strategyHeuristic doc = []
          /\ strategyTelegram doc <> []
          /\ detectedFormat (metadata r) = "Telegram Export"
          /\ totalMessages r = List.length (strategyTelegram doc))).
Proof.
  intros host doc r.
  split; [exact (parse_demo 0)|].
  split; [reflexivity|].
  exact (@format_names_strategy host "chat.html" Demo.export 0 r (parse_demo 0)).
Defined.

Lemma senders_are_validated_witness :
  let host := Demo.telegramHost in
  let s := Sample.ann in
  parseChatFile "chat.html" Demo.export 0 = Resolved (DemoRun.result 0)
  /\ In s (senders (DemoRun.result 0))
  /\ name s = "Ann"
  /\ (isValidSender (name s) = true
      /\ Js.trim (name s) = name s
      /\ name s <> "").
Proof.
  intros host s.
  assert (Hin : In s (senders (DemoRun.result 0)))
    by (vm_compute; left; reflexivity).
  split; [exact (parse_demo 0)|]. split; [exact Hin|].
  split; [vm_compute; reflexivity|].
  exact (@senders_are_validated host "chat.html" Demo.export 0 (DemoRun.result 0) s
           (parse_demo 0) Hin).
Defined.

Lemma validator_revisions_witness :
  (isValidSender "You" = true /\ Revision2.isValidSender "You" = false)
  /\ (Revision2.isValidSender "Mon, Ann" = true
      /\ Revision1.isValidSender "Mon, Ann" = false)
  /\ (let t := Js.trim " Ann " in
      (Revision2.isValidSender " Ann " = true
       <-> isValidSender " Ann " = true
           /\ (String.length t <= 50)%nat
           /\ Js.toLowerCase t <> "you")
      /\ (Revision1.isValidSender " Ann " = true
          <-> Revision2.isValidSender " Ann " = true
              /\ ~ Re.StartsWith Revision1.weekday t
              /\ ~ Re.StartsWith Revision1.isoDate t)).
Proof.
  split; [vm_compute; split; reflexivity|].
  split; [vm_compute; split; reflexivity|].
  exact (validator_revisions " Ann ").
Defined.

Lemma upload_outcome_witness :
  let host := Demo.telegramHost in
  let clock := fun _ : nat => 0 in
  let st' := App.handleFilesSelected clock SampleFiles.files SampleFiles.fresh in
  SampleFiles.files <> []
  /\ collect Upload.resolved (Upload.outcomes clock SampleFiles.files)
     = [DemoRun.result 0]
  /\ map Progress.status_of (App.filesProgress st')
     = [Progress.error; Progress.complete; Progress.error]
  /\ App.results st' = [DemoRun.result 0]
  /\ App.status st' = App.complete /\ App.error_of st' = None.
Proof.
  intros host clock st'.
  destruct (@upload_outcome host clock SampleFiles.files SampleFiles.fresh)
    as (Hp & Hr & _ & _ & _ & Hc).
  assert (Ha : collect Upload.resolved (Upload.outcomes clock SampleFiles.files)
               = [DemoRun.result 0]) by reflexivity.
  split; [discriminate|]. split; [exact Ha|].
  split; [fold st' in Hp; rewrite Hp; reflexivity|].
  split; [fold st' in Hr; rewrite Hr, Ha; reflexivity|].
  apply Hc. rewrite Ha. discriminate.
Defined.

Lemma longest_gap_between_active_days_witness :
  let host := Demo.scripted Demo.threeDays in
  let found := fst (extractMessages (parseFromString Demo.export)) in
  let days := map (fun m => localDay (timestamp m)) found in
  let r := DemoRun.threeDaysResult in
  parseChatFile "chat.html" Demo.export 0 = Resolved r
  /\ (forall m, In m found -> 1000 <= getFullYear (timestamp m) <= 9999)
  /\ (days = [19721; 19722; 19723; 19723] /\ longestGapDays r = 1)
  /\ ((forall d d', Successive days d d' -> d' - d <= longestGapDays r)
      /\ ((forall d d', In d days -> In d' days -> d = d') -> longestGapDays r = 0)
      /\ ((exists d d', In d days /\ In d' days /\ d <> d') ->
          exists d d', Successive days d d' /\ longestGapDays r = d' - d)).
Proof.
  intros host found days r.
  assert (Hy : forall m, In m found -> 1000 <= getFullYear (timestamp m) <= 9999).
  { intros m Hm. vm_compute in Hm.
    repeat (destruct Hm as [<-|Hm]; [vm_compute; split; discriminate|]).
    destruct Hm. }
  split; [exact parse_threeDays|]. split; [exact Hy|].
  split; [vm_compute; split; reflexivity|].
  exact (@longest_gap_between_active_days host "chat.html" Demo.export 0 r
           parse_threeDays Hy).
Defined.

Lemma dashboard_accounts_for_every_message_witness :
  let host := Demo.telegramHost in
  let results := SampleResults.twice in
  Forall Parsed results
  /\ (Dashboard.totalMessages results = 8%nat
      /\ map (fun m => (Merged.name m, Merged.count m)) (Dashboard.senders results)
         = [("Ann", 6%nat); ("Ben", 2%nat)])
  /\ (Dashboard.totalMessages results = list_sum (map totalMessages results)
      /\ (list_sum (map Merged.count (Dashboard.senders results))
          <= Dashboard.totalMessages results)%nat
      /\ (Forall (fun r => list_sum (map count (senders r)) = totalMessages r)
                 results ->
          list_sum (map Merged.count (Dashboard.senders results))
          = Dashboard.totalMessages results)
      /\ map hour (Dashboard.hourlyData results) = seq 0 24
      /\ list_sum (map bucketCount (Dashboard.hourlyData results))
         = Dashboard.totalMessages results
      /\ Obj.total (Dashboard.timelineMap results) = Dashboard.totalMessages results
      /\ map bucketCount (Dashboard.hourlyData results)
         = map (fun i => list_sum (map (fun r => getOr0 (Js.ofZ (Z.of_nat i))
                                                        (hourlyStats r)) results))
               (seq 0 24)).
Proof.
  intros host results.
  assert (Hp : Forall Parsed results).
  { repeat constructor.
    - exists "chat.html", Demo.export, 0. exact (parse_demo 0).
    - exists "chat.html", Demo.export, 1000. exact (parse_demo 1000). }
  split; [exact Hp|].
  split; [vm_compute; split; reflexivity|].
  exact (@dashboard_accounts_for_every_message host results Hp).
Defined.

Lemma top_five_witness :
  let counts := SampleResults.six in
  let top := Dashboard.getTopEmojis counts in
  NoDup (map fst counts)
  /\ top = ["w"; "y"; "v"; "x"; "u"]
  /\ (List.length top = Nat.min 5 (List.length counts)
      /\ NoDup top
      /\ (forall e, In e top -> Obj.get e counts <> None)
      /\ StronglySorted (fun a b => (getOr0 b counts <= getOr0 a counts)%nat) top
      /\ (forall e k, In e top -> ~ In k top ->
          (getOr0 k counts <= getOr0 e counts)%nat)
      /\ map Aggregated.word (OlderDashboard.top5Words (numbers counts)) = top
      /\ Forall (fun w => option_map Js.Num (Obj.get (Aggregated.word w) counts)
                          = Some (Aggregated.wordCount w))
                (OlderDashboard.top5Words (numbers counts))).
Proof.
  intros counts top.
  assert (Hn : NoDup (map fst counts)).
  { repeat constructor; simpl; intuition discriminate. }
  split; [exact Hn|]. split; [reflexivity|].
  exact (@top_five counts Hn).
Defined.

Lemma older_dashboard_ranks_witness :
  let host := Demo.telegramHost in
  let results := SampleResults.twice in
  let ranked := OlderDashboard.senders results in
  Forall Parsed results
  /\ map (fun s => (Aggregated.name s, Aggregated.senderCount s, Aggregated.color s))
         ranked
     = [("Ann", 6%nat, "#4F46E5"); ("Ben", 2%nat, "#EC4899")]
  /\ OlderDashboard.total results = 8%nat
  /\ (list_sum (map Aggregated.senderCount ranked) <= OlderDashboard.total results)%nat.
Proof.
  intros host results ranked.
  assert (Hp : Forall Parsed results).
  { repeat constructor.
    - exists "chat.html", Demo.export, 0. exact (parse_demo 0).
    - exists "chat.html", Demo.export, 1000. exact (parse_demo 1000). }
  split; [exact Hp|].
  split; [vm_compute; reflexivity|]. split; [vm_compute; reflexivity|].
  destruct (@older_dashboard_ranks host results) as (_ & _ & _ & _ & _ & H & _).
  exact (H Hp).
Defined.

Lemma colour_follows_first_appearance_witness :
  let host := Demo.scripted Demo.annBenBen in
  let found := fst (extractMessages (parseFromString Demo.export)) in
  let order := firstSeen (map sender (accounted (sortChronologically found))) in
  parseChatFile "chat.html" Demo.export 0 = Resolved SampleOrder.result
  /\ In SampleOrder.ben (senders SampleOrder.result)
  /\ (forall m, In m found -> Obj.arrayIndex (sender m) = None)
  /\ (map name (senders SampleOrder.result) = ["Ben"; "Ann"]
      /\ name SampleOrder.ben = "Ben" /\ color SampleOrder.ben = "#EC4899"
      /\ order = ["Ann"; "Ben"])
  /\ (exists r,
        parseChatFile (host := Demo.scripted Demo.valueOfAnn)
                      "chat.html" Demo.export 0 = Resolved r
        /\ map sender (fst (extractMessages (host := Demo.scripted Demo.valueOfAnn)
                                            0%nat))
           = ["valueOf"; "Ann"]
        /\ map (fun s => (name s, color s)) (senders r) = [("Ann", "#4F46E5")])
  /\ (NoDup order
      /\ exists i, nth_error order i = Some (name SampleOrder.ben)
                   /\ color SampleOrder.ben = nth (i mod 8) COLORS "").
Proof.
  intros host found order.
  assert (Hp : parseChatFile "chat.html" Demo.export 0 = Resolved SampleOrder.result)
    by reflexivity.
  assert (Hin : In SampleOrder.ben (senders SampleOrder.result))
    by (vm_compute; left; reflexivity).
  assert (Hplain : forall m, In m found -> Obj.arrayIndex (sender m) = None).
  { intros m Hm. vm_compute in Hm.
    repeat (destruct Hm as [<-|Hm]; [reflexivity|]). destruct Hm. }
  split; [exact Hp|]. split; [exact Hin|]. split; [exact Hplain|].
  split; [vm_compute; repeat split; reflexivity|].
  split; [eexists; vm_compute; repeat split|].
  exact (@colour_follows_first_appearance host "chat.html" Demo.export 0
           SampleOrder.result SampleOrder.ben Hp Hin Hplain).
Defined.

Lemma day_keys_read_back_witness :
  let host := Demo.scripted Demo.threeDays in
  let found := fst (extractMessages (parseFromString Demo.export)) in
  let r := DemoRun.threeDaysResult in
  parseChatFile "chat.html" Demo.export 0 = Resolved r
  /\ (forall m, In m found -> 1000 <= getFullYear (timestamp m) <= 9999)
  /\ In "2023-12-31" (map fst (timelineStats r))
  /\ newDate "2023-12-31" = Some 1703980800000
  /\ exists m, In m found
       /\ "2023-12-31" = dayKey (timestamp m)
       /\ Dates.keyShape "2023-12-31" (getFullYear (timestamp m))
                         (getMonth1 (timestamp m)) (getDate (timestamp m))
       /\ newDate "2023-12-31" = Some (localDay (timestamp m) * Cal.msPerDay).
Proof.
  intros host found r.
  assert (Hy : forall m, In m found -> 1000 <= getFullYear (timestamp m) <= 9999).
  { intros m Hm. vm_compute in Hm.
    repeat (destruct Hm as [<-|Hm]; [vm_compute; split; discriminate|]).
    destruct Hm. }
  assert (Hk : In "2023-12-31" (map fst (timelineStats r)))
    by (vm_compute; right; left; reflexivity).
  split; [exact parse_threeDays|]. split; [exact Hy|]. split; [exact Hk|].
  split; [reflexivity|].
  exact (@day_keys_read_back host "chat.html" Demo.export 0 r "2023-12-31"
           parse_threeDays Hy Hk).
Defined.

Lemma dashboard_global_figures_witness :
  let results := [DemoRun.result 0; DemoRun.threeDaysResult] in
  results <> []
  /\ (map longestDayStreak results = [1%nat; 3%nat]
      /\ Dashboard.longestDayStreak results = 3%nat
      /\ map longestGapDays results = [0; 1]
      /\ Dashboard.longestGapDays results = 1
      /\ map busiestDay results = [("2024-01-01", 4%nat); ("2024-01-01", 2%nat)]
      /\ Dashboard.busiestDay results = ("2024-01-01", 4%nat))
  /\ (forall r, In r results ->
                (longestDayStreak r <= Dashboard.longestDayStreak results)%nat)
  /\ (forall r, In r results ->
                longestGapDays r <= Dashboard.longestGapDays results)
  /\ (forall r, In r results ->
                (snd (busiestDay r) <= snd (Dashboard.busiestDay results))%nat).
Proof.
  intros results.
  assert (Hne : results <> []) by discriminate.
  destruct (@dashboard_global_figures results Hne)
    as ((_ & H1) & (_ & H2) & H3 & _).
  split; [exact Hne|].
  split; [vm_compute; repeat split; reflexivity|].
  split; [exact H1|]. split; [exact H2 | exact H3].
Defined.

Lemma average_message_length_witness :
  let host := Demo.telegramHost in
  let mine := sentBy "Ann" (fst (extractMessages (parseFromString Demo.export))) in
  parseChatFile "chat.html" Demo.export 0 = Resolved (DemoRun.result 0)
  /\ In Sample.ann (senders (DemoRun.result 0))
  /\ (name Sample.ann = "Ann"
      /\ map (fun m => String.length (content m)) mine = [12; 13; 7]%nat
      /\ avgMessageLength Sample.ann = 11)
  /\ (forall m, In m (sentBy (name Sample.ann)
                             (fst (extractMessages (parseFromString Demo.export)))) ->
                (7 <= String.length (content m) <= 13)%nat)
  /\ 7 <= avgMessageLength Sample.ann <= 13.
Proof.
  intros host mine.
  assert (Hin : In Sample.ann (senders (DemoRun.result 0)))
    by (vm_compute; left; reflexivity).
  assert (Hb : forall m, In m (sentBy (name Sample.ann)
                                 (fst (extractMessages (parseFromString Demo.export)))) ->
                         (7 <= String.length (content m) <= 13)%nat).
  { intros m Hm. vm_compute in Hm.
    repeat (destruct Hm as [<-|Hm]; [vm_compute; lia|]). destruct Hm. }
  split; [exact (parse_demo 0)|]. split; [exact Hin|].
  split; [vm_compute; repeat split; reflexivity|].
  split; [exact Hb|].
  exact (proj2 (@average_message_length host "chat.html" Demo.export 0
                  (DemoRun.result 0) Sample.ann (parse_demo 0) Hin)
               7%nat 13%nat Hb).
Defined.

Lemma duration_label_witness :
  ((1 <= 119 # 2)%Q /\ (119 # 2 < 60)%Q)
  /\ (Dashboard.formatDuration (1 # 2) = "< 1 min"
      /\ Dashboard.formatDuration 1 = "1 mins"
      /\ Dashboard.formatDuration (119 # 2) = "60 mins"
      /\ Dashboard.formatDuration 89 = "1 hr"
      /\ Dashboard.formatDuration 90 = "2 hrs")
  /\ (Dashboard.formatDuration (119 # 2) = Js.ofZ (Js.round (119 # 2)) ++ " mins"
      /\ 1 <= Js.round (119 # 2) <= 60).
Proof.
  assert (H1 : (1 <= 119 # 2)%Q) by discriminate.
  assert (H60 : (119 # 2 < 60)%Q) by reflexivity.
  split; [split; [exact H1 | exact H60]|].
  split; [vm_compute; repeat split; reflexivity|].
  exact (proj1 (proj2 (duration_label (119 # 2))) H1 H60).
Defined.


Lemma first_revision_result_witness :
  let host := Demo.scripted Demo.annBenBen in
  let r := FirstRevision.annBenBen in
  Demo.export <> ""
  /\ FirstRevision.plainNames (parseFromString Demo.export)
  /\ (Revision1.parseChatFile (host := Demo.blankHost) "chat.html" Demo.export 0
      = Revision1.Resolved FirstRevision.blank
      /\ Revision1.Result.totalMessages FirstRevision.blank = 0%nat
      /\ Revision1.Result.senders FirstRevision.blank = []
      /\ detectedFormat (Revision1.Result.metadata FirstRevision.blank) = "Unknown"
      /\ parseChatFile (host := Demo.blankHost) "chat.html" Demo.export 0
         = Rejected "No messages found or format unrecognized."
      /\ Revision1.parseChatFile (host := Demo.scripted Demo.constructorSpeaks)
                                 "chat.html" Demo.export 0
         = Revision1.Rejected
             "Cannot read properties of undefined (reading 'morning')")
  /\ Revision1.parseChatFile "chat.html" Demo.export 0 = Revision1.Resolved r
  /\ list_sum (map Revision1.Stat.count (Revision1.Result.senders r))
     = Revision1.Result.totalMessages r
  /\ (detectedFormat (Revision1.Result.metadata r) = "Unknown"
      <-> Revision1.Result.totalMessages r = 0%nat).
Proof.
  intros host r.
  assert (Hne : Demo.export <> "") by discriminate.
  assert (Hplain : FirstRevision.plainNames (parseFromString Demo.export)).
  { split; vm_compute; repeat constructor. }
  split; [exact Hne|]. split; [exact Hplain|].
  split; [vm_compute; repeat split; reflexivity|].
  destruct (@first_revision_result host "chat.html" Demo.export 0 Hne)
    as (H1 & H2 & H3).
  destruct (H2 Hplain) as (Hq & Hs & _).
  destruct (H3 Hq) as (_ & _ & Hu & _).
  split; [rewrite H1, Hq; reflexivity|].
  split; [exact Hs | exact Hu].
Defined.

Lemma first_revision_colours_by_rank_witness :
  let host := Demo.scripted Demo.annBenBen in
  let r := FirstRevision.annBenBen in
  Revision1.parseChatFile "chat.html" Demo.export 0 = Revision1.Resolved r
  /\ map (fun s => (Revision1.Stat.name s, Revision1.Stat.count s,
                    Revision1.Stat.color s))
         (Revision1.Result.senders r)
     = [("Ben", 2%nat, "#4F46E5"); ("Ann", 1%nat, "#EC4899")]
  /\ map (fun s => (name s, count s, color s)) (senders SampleOrder.result)
     = [("Ben", 2%nat, "#EC4899"); ("Ann", 1%nat, "#4F46E5")]
  /\ StronglySorted
       (fun a b => (Revision1.Stat.count b <= Revision1.Stat.count a)%nat)
       (Revision1.Result.senders r)
  /\ forall i s, nth_error (Revision1.Result.senders r) i = Some s ->
                 Revision1.Stat.color s = nth (i mod 8) COLORS "".
Proof.
  intros host r.
  assert (Hp : Revision1.parseChatFile "chat.html" Demo.export 0
               = Revision1.Resolved r) by reflexivity.
  split; [exact Hp|].
  split; [vm_compute; reflexivity|].
  split; [vm_compute; reflexivity|].
  exact (@first_revision_colours_by_rank host "chat.html" Demo.export 0 r Hp).
Defined.
